(* ===== verification/_CoqProject ===== *)
-Q . S2P
Prelude.v
Number.v
HuffTables.v
BitBuf.v
HuffCode.v
HuffDecode.v
HuffEncode.v
HpackTests.v
HpackHeader.v
HpackTable.v
HpackDecode.v
StreamBuf.v
Frame.v
Settings.v
OldSettings.v
Sender.v
Connection.v
Headers.v
Http2.v
Http2Spec.v
Http2Correct.v
Routes.v
Date.v
StatusStrings.v
Http1.v
Messages.v
Http1Transport.v
Http1Spec.v
Http1Typed.v
Http1Server.v
ServerConnection.v
ServerCorrect.v
Proxy.v
Touches.v
ServerLoop.v
Descriptors.v
ServerSetup.v
WholeServer.v
Conversation.v
Http1Refusals.v
Http1Conversation.v
Http2Conversation.v
Polling.v
Crowd.v
HelloWorld.v
Http1Handlers.v
Relay.v
PrintServer.v
