(* ===== verification/Prelude.v ===== *)
(** A verification of shitty, a C++ HTTP server: HPACK with its Huffman code,
    HTTP/2, HTTP/1, and the server that connects them.

    * The program

    [Server] (Server.cpp) runs an epoll loop over a listener, a signal pipe and
    its clients.  Each client is a [Connection] (Connection.cpp), with an input
    and an output [StreamBuf], whose transport is first a [SwitchTransport], then
    an HTTP/1 or an HTTP/2 server transport.  A transport takes what
    [Connection::onPollIn] has read, makes requests of it, and gives them to
    [Routes], whose handlers answer through the transport and [Connection::send].
    HTTP/2 headers go through HPACK (dependencies/hpack), a C and C++ library.
    The proxy's handler (ProxyHandler.cpp) passes requests on over HTTP/1 client
    connections that it takes from a pool.

    * The files

    Each file models the sources it names and proves what they are to do; a
    definition has the name of the function it translates and its branches in the
    order of the source.  Names that occur twice have a prefix ([sb_] StreamBuf,
    [server_] and [client_] for the two HTTP/1 transports, [old_]).

    - [Prelude]: machine integers, the monad [outcome] of returns, exceptions and
      undefined behaviour, arrays whose bounds are checked, [sat] (partial
      correctness with what may be thrown), hints and shared lemmas.
    - [Number]: number.c.  [BitBuf]: huffy/bitbuf.c.  [HuffTables], [HuffCode]: the
      code of huffcodes.txt and what it means.  [HuffDecode]: huffy/decode.c with
      its five tables.  [HuffEncode]: huffy/encode.c.  [HpackTests]: the test
      programs of the library, test.c, bitbuf-test.c, encode-test.c, decode-test.c
      and random-test.c, run on the definitions of these files.
    - [HpackHeader], [HpackTable], [HpackDecode]: header.cpp, in three parts: static
      table and string literals; dynamic table; decoder.
    - [StreamBuf]: StreamBuf and Payload.  [Sender]: the interface between
      transports and connections (class [Sender], its contract [SenderOk], and an
      endpoint in memory).  [Connection]: Connection.cpp, an instance of it as
      long as its socket is [calm] (see below).
    - [Frame], [Settings]: http2/Frame, DataFrame, HeadersFrame, Settings,
      FlowControl.  [Http2]: http2/ServerTransport.cpp and ServerStream.
      [Http2Spec], [Http2Correct]: what it does frame by frame, and its properties.
    - [Headers]: Headers, Message, Request, Response, StringUtils, Stream.
      [Date]: Date.cpp.  [Routes]: Routes, StaticResponder, Responder.
      [Messages]: the constructors of messages, requests and responses.
    - [StatusStrings]: StatusStrings.h and .cpp, and the three tables its benchmark
      compares it with.  [Http1]: http1/HTTP1.cpp.  [Http1Transport]:
      http1/Transport.cpp, over any subclass (class [Owner]).  [Http1Spec]: what it
      does line by line and message by message.  [Http1Typed]: what types the
      messages it hands on have.  [Http1Server]: http1/ServerTransport.cpp and
      upgrades.
    - [ServerConnection]: SwitchTransport.cpp and the transport a connection has.
      [ServerCorrect]: what a client sees from its first octet.
    - [Touches]: a transport reaches its connection only through [send], the output
      buffer and [close].  [ServerLoop]: Server::Impl, with the connections it owns;
      it is proved against the class [Tame], of which [Touches] makes the real
      transports an instance.  [Descriptors]: safefd.h, with an object made of any
      number, and SignalSource.cpp, with a pipe of a given size.
      [ServerSetup]: ServerConfig.h and the start of the server.  [WholeServer]: the
      loop with the real transports.
    - [Polling]: [Connection::onPollIn] with the real transports reads all that the
      edge-triggered socket holds (class [Reader] of [Connection]).
    - [Conversation]: a client of the loop from accept4 to the octets of its
      replies, over any protocol whose input can be cut anywhere (class
      [Protocol]).  [Http1Conversation] and [Http2Conversation] are its instances;
      [Http1Refusals] says which HTTP/1 messages are refused (a header without a
      colon, a continuation of nothing, a request line that cannot be split, a
      length that cannot be read) and how the conversation ends with them.
    - [Crowd]: many clients of the loop, of either protocol, accepted in groups and
      interleaved; a plan of what arrives when ([crowd_run]), and the loop follows it.
    - [HelloWorld]: HelloWorld.cpp, the whole program: [ServerSetup], the loop of
      [WholeServer] with a conversation in it, the signal, the destructors.
    - [Http1Handlers]: http1/ServerTransport.cpp with a handler that acts on the
      state of a whole program, of which there are two.  [Proxy]: ProxyHandler.cpp,
      http1/ClientTransport.cpp, ClientTransportSource.cpp.  [Relay]: ProxyServer.cpp,
      all of its clients and backends, and the switchboard that it implements.
      [PrintServer]: PrintRequestServer.cpp.
    - [OldSettings]: settings.cpp, which is not built.

    * The theorems

    - End to end, under the conditions that the next paragraph states: an HTTP/1
      client gets the replies the routes give, an HTTP/2 client is served as the
      frame-by-frame specification says, however their octets are cut into reads
      ([ServerCorrect]); the event loop keeps clients, descriptors and epoll in
      step and stops on the signal ([WholeServer]); the two together: a client that
      the running loop accepts gets what its protocol owes it, over any number of
      turns, or its malformed message ends the loop ([Http1Conversation],
      [Http2Conversation]); any number of clients of both protocols at once, in any
      order of events, of which each gets its own ([Crowd]); and a whole program,
      from main to its exit ([HelloWorld]).
    - The conditions.  Sockets are [calm] there: no send fails, and one that takes
      less than it is offered is followed by one that would block.  A client gets
      an octet when its socket has taken it or it is in the connection's
      [outgoing_], of which nothing more is sent until the next call of send
      (never_polls_for_output); where the socket takes all that it is offered,
      nothing is left there (class [Roomy]).  HTTP/1 requests have no body, no
      Upgrade, Expect or Connection header, and can be parsed ([request_ok]); HTTP/2
      frames are those of [frame_ok], which leaves out the PING without ACK and the
      frame headers that signed [char] garbles.  The safety of the loop
      ([WholeServer]), that input is read to its end ([Polling]) and the HPACK,
      HTTP/1 and HTTP/2 input theorems have none of these conditions.
    - Types: what the HTTP/1 transport hands over has lines without line feeds,
      names in lower case, and a body as long as announced ([Http1Typed]).
    - Refinement and equivalence: the table-driven Huffman decoder is the search of
      the code; parseHeaders is RFC 7541's meaning of the representations;
      StreamBuf is a queue; Headers is a map; HTTP/1 input without bodies is a
      sequence of messages; the proxy server, for requests and answers without
      bodies and Connection headers ([asks_ok], [answer_ok]), however they are cut
      and interleaved, is a switchboard of messages ([Relay]), over connections
      that meet [SenderOk]; the four tables of status codes agree.
    - Round trips: integers, Huffman strings, string literals, frame headers,
      request and status lines, dates; and what the test programs of the HPACK
      library check, which of them fail included ([HpackTests]).
    - Safety and errors: HPACK and HTTP/2 input on arbitrary octets end and stay in
      their buffers; and, where the code does not do what it means to, a theorem
      states what it does (the PING that eats the next frame, the output that is
      never flushed, the body that has to come in one read, the upgrade that
      dereferences null, the proxy's dangling stream, the answers that overtake
      each other).

    * Fuel

    A loop that is not structural has a fuel, and [OutOfFuel] is a fault of its
    own, which the theorems exclude: decode_number and encode_number take 64-bit
    groups of seven bits; the Huffman and HPACK loops, [input_loop] and
    [frames_loop] have the octets left, of which each round takes one or more;
    [onPollIn] has the octets and answers that are still to be read, [accept_loop]
    the answers of accept4, [remove_loop] the queue.

    * What is given

    The kernel: what send, read, accept4, epoll_ctl, bind, connect and close answer is
    part of the state or an argument.  The safety theorems of [Connection], [Polling]
    and [WholeServer] hold for every order of partial writes, full buffers and
    errors.  The theorems on what a client gets take sockets to be [calm], which
    send(2) does not promise: where room appears, or an error comes, between the two
    calls of one Connection::send, the code sends octets past the end of its data,
    as send_immediate_overruns states, so that no such theorem holds of it.  A new
    descriptor ([pick_fd]) is not open and not negative; epoll reports what is
    registered.  The library:
    std::unordered_multimap keeps its elements in any order (class [Multimap]);
    the sign of [char] and what fresh memory holds are arguments.  Not under src/:
    the base64 decoder fb64 (a submodule) and the generated table of the Huffman
    encoder (class [EncodeTable]).  A request handler is the list of responses it
    sends before it returns; the proxy's, which answers later, is in [Proxy].

    * Not modelled

    MessageHandler and its subclasses (not built; they do not compile); the texts
    that strerror gives; the benchmarks' timing and make-etable.sh.  Functions that
    are declared and never defined or called (Connection::recv and upgradeTransport,
    renderRequest, messageFromFirstLine) have no model.  The proxy's streams are
    those of HTTP/1; one source of transports is modelled.

    The loop has one class of connections, those of the server.  The proxy's
    backend connections, which share its epoll set, are in [Relay] without a loop:
    there reads come in any order, which is more than the loop allows.  [Relay]
    answers over HTTP/1 only, and chunked bodies are only refused, as the code
    does.  PrintRequestServer's main is not composed with the loop as HelloWorld's
    is: what its handler prints is in [PrintServer].  A kernel whose calls fail is
    in [ServerSetup] and [Connection]; [HelloWorld] takes them to succeed at the
    start. *)
From Stdlib Require Export ZArith Lia.
From stdpp Require Export base tactics numbers list list_numbers strings.

Declare Scope c_scope.
Delimit Scope c_scope with c.
#[global] Open Scope Z_scope.

(** ** Machine integers

    An unsigned w-bit object holds a [Z] in [0, 2^w); a conversion to it keeps
    the low w bits.  A signed w-bit object holds a [Z] in [-2^(w-1), 2^(w-1)). *)

Definition wrap (w z : Z) : Z := z mod 2 ^ w.
Definition swrap (w z : Z) : Z := (z + 2 ^ (w - 1)) mod 2 ^ w - 2 ^ (w - 1).

Abbreviation u8 := (wrap 8).
Abbreviation u16 := (wrap 16).
Abbreviation u24 := (wrap 24).
Abbreviation u31 := (wrap 31).
Abbreviation u32 := (wrap 32).
Abbreviation u64 := (wrap 64).
Abbreviation i8 := (swrap 8).
Abbreviation i32 := (swrap 32).
Abbreviation i64 := (swrap 64).

Definition INT32_MAX : Z := 2 ^ 31 - 1.
Definition INT32_MIN : Z := - 2 ^ 31.
Definition UINT32_MAX : Z := 2 ^ 32 - 1.
Definition SSIZE_MAX : Z := 2 ^ 63 - 1.
Definition SIZE_MAX : Z := 2 ^ 64 - 1.

(** An octet: the values of [uint8_t], [std::byte] and (read as unsigned) [char]. *)
Definition octet (b : Z) : Prop := 0 <= b < 256.
Abbreviation octets := (Forall octet).

#[export] Instance octet_dec b : Decision (octet b).
Proof. unfold octet. apply _. Defined.

Lemma wrap_small w z : 0 <= z < 2 ^ w -> wrap w z = z.
Proof. apply Z.mod_small. Qed.

Lemma wrap_bound w z : 0 <= w -> 0 <= wrap w z < 2 ^ w.
Proof. intros. apply Z.mod_pos_bound. lia. Qed.

Lemma swrap_small w z : 0 < w -> - 2 ^ (w - 1) <= z < 2 ^ (w - 1) -> swrap w z = z.
Proof.
  intros Hw Hz. unfold swrap. rewrite Z.mod_small; [lia|].
  replace (2 ^ w) with (2 ^ (w - 1) + 2 ^ (w - 1)); [lia|].
  replace w with (Z.succ (w - 1)) at 3 by lia.
  rewrite Z.pow_succ_r by lia. lia.
Qed.

Lemma wrap_octet z : octet (u8 z).
Proof. apply (wrap_bound 8). lia. Qed.

Lemma wrap_wrap_add w a b : wrap w (a + wrap w b) = wrap w (a + b).
Proof. unfold wrap. apply Zplus_mod_idemp_r. Qed.

Lemma wrap_add_wrap w a b : wrap w (wrap w a + b) = wrap w (a + b).
Proof. unfold wrap. apply Zplus_mod_idemp_l. Qed.

(** ** Outcomes

    What a call does: it returns, throws a C++ exception, or does something
    the language gives no meaning to (a buffer overrun, a failed assertion,
    signed overflow, running off the end of a value-returning function).
    [OutOfFuel] belongs to the model alone: the recursion bound of a loop. *)

Inductive exn :=
  | runtime_error (what : string)
  | logic_error (what : string)
  | out_of_range (what : string)
  | length_error (what : string)
  | range_error (what : string)
  | invalid_argument (what : string)
  | protocol_error (what : string)
  | bad_function_call.

Inductive fault :=
  | OutOfBounds
  | SignedOverflow
  | BadShift
  | AssertionFailed
  | MissingReturn
  | NullPointer
  | UseAfterFree
  | OutOfFuel.

Inductive outcome (A : Type) :=
  | Ret (a : A)
  | Throw (e : exn)
  | Undef (f : fault).
Arguments Ret {A} a.
Arguments Throw {A} e.
Arguments Undef {A} f.

#[export] Instance exn_eq_dec : EqDecision exn.
Proof. solve_decision. Defined.
#[export] Instance fault_eq_dec : EqDecision fault.
Proof. solve_decision. Defined.

#[export] Instance outcome_eq_dec {A} `{EqDecision A} : EqDecision (outcome A).
Proof. solve_decision. Defined.

#[export] Instance outcome_ret : MRet outcome := @Ret.
#[export] Instance outcome_bind : MBind outcome := fun A B f m =>
  match m with
  | Ret a => f a
  | Throw e => Throw e
  | Undef u => Undef u
  end.

(** [assert(b)], with assertions enabled as in the default build. *)
Definition c_assert (b : bool) : outcome unit :=
  if b then Ret tt else Undef AssertionFailed.

Lemma bind_ret {A B} (m : outcome A) (f : A -> outcome B) b :
  m ≫= f = Ret b -> exists a, m = Ret a /\ f a = Ret b.
Proof. destruct m; simpl; try discriminate. eauto. Qed.

(** [m] returns a value in [P], throws an exception in [E] or fails with a fault
    in [F]. *)
Definition sat {A} (P : A -> Prop) (E : exn -> Prop) (F : fault -> Prop) (m : outcome A) : Prop :=
  match m with
  | Ret a => P a
  | Throw e => E e
  | Undef f => F f
  end.

Lemma sat_bind {A B} (Q : A -> Prop) (P : B -> Prop) E F (m : outcome A) (f : A -> outcome B) :
  sat Q E F m -> (forall a, Q a -> sat P E F (f a)) -> sat P E F (m ≫= f).
Proof. destruct m; simpl; auto. Qed.

Lemma sat_mono {A} (P P' : A -> Prop) (E E' : exn -> Prop) (F F' : fault -> Prop) (m : outcome A) :
  sat P E F m -> (forall a, P a -> P' a) -> (forall e, E e -> E' e) -> (forall f, F f -> F' f) ->
  sat P' E' F' m.
Proof. destruct m; simpl; auto. Qed.

(** Splits a returning sequence of calls into its returning calls. *)
Ltac inv_ret :=
  repeat match goal with
  | H : (_ ≫= _) = Ret _ |- _ =>
      let a := fresh "a" in let Ha := fresh "Ha" in
      apply bind_ret in H as (a & Ha & H)
  | H : Ret _ = Ret _ |- _ => injection H as H
  | H : Throw _ = Ret _ |- _ => discriminate H
  | H : Undef _ = Ret _ |- _ => discriminate H
  end.

(** ** Arrays: [l] is the whole array a pointer designates. *)

Definition zlen {A} (l : list A) : Z := Z.of_nat (length l).

Definition arr_get {A} (l : list A) (i : Z) : outcome A :=
  if i <? 0 then Undef OutOfBounds
  else match l !! Z.to_nat i with
       | Some x => Ret x
       | None => Undef OutOfBounds
       end.

Definition arr_set {A} (l : list A) (i : Z) (x : A) : outcome (list A) :=
  if (0 <=? i) && (i <? zlen l) then Ret (<[Z.to_nat i := x]> l)
  else Undef OutOfBounds.

Notation "l .[ i ]" := (arr_get l i) (at level 1, left associativity, format "l .[ i ]") : c_scope.
Notation "l .[ i := x ]" := (arr_set l i x) (at level 1, left associativity, format "l .[ i  :=  x ]") : c_scope.
#[global] Open Scope c_scope.

(** [memcpy]/[memmove] of [src] to [l + off]. *)
Definition arr_blit {A} (l : list A) (off : Z) (src : list A) : outcome (list A) :=
  if (0 <=? off) && (off + zlen src <=? zlen l)
  then Ret (take (Z.to_nat off) l ++ src ++ drop (Z.to_nat off + length src) l)
  else Undef OutOfBounds.

(** The [n] elements at [l + off]. *)
Definition arr_slice {A} (l : list A) (off n : Z) : outcome (list A) :=
  if (0 <=? off) && (0 <=? n) && (off + n <=? zlen l)
  then Ret (take (Z.to_nat n) (drop (Z.to_nat off) l))
  else Undef OutOfBounds.

(** [std::string::resize]: cut, or filled with zeros. *)
Definition str_resize (s : list Z) (n : Z) : list Z :=
  take (Z.to_nat n) s ++ replicate (Z.to_nat n - length s) 0.

(** The octets of a string literal. *)
Definition str (s : string) : list Z :=
  map (fun a => Z.of_N (Ascii.N_of_ascii a)) (String.list_ascii_of_string s).

Lemma zlen_nonneg {A} (l : list A) : 0 <= zlen l.
Proof. unfold zlen. lia. Qed.
Lemma to_nat_zlen {A} (l : list A) : Z.to_nat (zlen l) = length l.
Proof. unfold zlen. lia. Qed.
Lemma zlen_nil {A} : zlen (@nil A) = 0.
Proof. reflexivity. Qed.
Lemma zlen_cons {A} (x : A) l : zlen (x :: l) = 1 + zlen l.
Proof. unfold zlen. simpl. lia. Qed.
Lemma zlen_app {A} (l k : list A) : zlen (l ++ k) = zlen l + zlen k.
Proof. unfold zlen. rewrite length_app. lia. Qed.

Lemma zlen_replicate n (x : Z) : 0 <= n -> zlen (replicate (Z.to_nat n) x) = n.
Proof. intros. unfold zlen. rewrite length_replicate. lia. Qed.

Lemma str_resize_take s n : 0 <= n <= zlen s -> str_resize s n = take (Z.to_nat n) s.
Proof.
  unfold zlen. intros. unfold str_resize. replace (Z.to_nat n - length s)%nat with 0%nat by lia.
  apply app_nil_r.
Qed.

Lemma zlen_str_resize s n : 0 <= n -> zlen (str_resize s n) = n.
Proof.
  intros. unfold str_resize, zlen. rewrite length_app, length_take, length_replicate. lia.
Qed.

Lemma arr_get_Some {A} (l : list A) i x :
  0 <= i -> l !! Z.to_nat i = Some x -> arr_get l i = Ret x.
Proof. intros Hi Hl. unfold arr_get. rewrite Hl. destruct (Z.ltb_spec i 0); [lia|done]. Qed.

Lemma arr_get_Ret {A} (l : list A) i x :
  arr_get l i = Ret x -> 0 <= i < zlen l /\ l !! Z.to_nat i = Some x.
Proof.
  unfold arr_get, zlen. destruct (Z.ltb_spec i 0); [done|].
  destruct (l !! Z.to_nat i) eqn:E; [|done]. intros [= ->].
  apply lookup_lt_Some in E as ?. split; [lia|done].
Qed.

Lemma arr_get_in {A} (l : list A) i :
  0 <= i < zlen l -> exists x, arr_get l i = Ret x /\ l !! Z.to_nat i = Some x.
Proof.
  unfold zlen. intros Hi.
  destruct (lookup_lt_is_Some_2 l (Z.to_nat i)) as [x Hx]; [lia|].
  exists x. split; [apply arr_get_Some; [lia|done]|done].
Qed.

Lemma arr_get_out {A} (l : list A) i :
  zlen l <= i -> arr_get l i = Undef OutOfBounds.
Proof.
  unfold zlen. intros Hi. unfold arr_get. destruct (Z.ltb_spec i 0); [done|].
  rewrite lookup_ge_None_2 by lia. done.
Qed.

Lemma arr_set_in {A} (l : list A) i x :
  0 <= i < zlen l -> arr_set l i x = Ret (<[Z.to_nat i := x]> l).
Proof.
  intros Hi. unfold arr_set.
  destruct (Z.leb_spec 0 i); [|lia]. destruct (Z.ltb_spec i (zlen l)); [done|lia].
Qed.

Lemma arr_get_app {A} (pre : list A) x tl i :
  zlen pre = i -> (pre ++ x :: tl).[i] = Ret x.
Proof.
  unfold zlen. intros <-. apply arr_get_Some; [lia|].
  by rewrite Nat2Z.id, list_lookup_middle.
Qed.

Lemma arr_set_app {A} (pre : list A) x tl i y :
  zlen pre = i -> (pre ++ x :: tl).[i := y] = Ret (pre ++ y :: tl).
Proof.
  intros <-. rewrite arr_set_in.
  - unfold zlen. rewrite Nat2Z.id, insert_app_r_alt, Nat.sub_diag by lia. done.
  - rewrite zlen_app, zlen_cons. pose proof (zlen_nonneg pre). pose proof (zlen_nonneg tl). lia.
Qed.

Lemma arr_get_0 {A} (x : A) tl : (x :: tl).[0] = Ret x.
Proof. done. Qed.

Lemma arr_set_0 {A} (x y : A) tl : (x :: tl).[0 := y] = Ret (y :: tl).
Proof. by apply (arr_set_app []). Qed.

Lemma arr_slice_in {A} (l : list A) off n :
  0 <= off -> 0 <= n -> off + n <= zlen l ->
  arr_slice l off n = Ret (take (Z.to_nat n) (drop (Z.to_nat off) l)).
Proof.
  intros. unfold arr_slice.
  destruct (Z.leb_spec 0 off), (Z.leb_spec 0 n), (Z.leb_spec (off + n) (zlen l)); lia || done.
Qed.

Lemma arr_slice_all {A} (l : list A) : arr_slice l 0 (zlen l) = Ret l.
Proof.
  pose proof (zlen_nonneg l). rewrite arr_slice_in by lia.
  unfold zlen. rewrite Nat2Z.id. simpl. by rewrite drop_0, take_ge.
Qed.

Lemma arr_blit_in {A} (l : list A) off src :
  0 <= off -> off + zlen src <= zlen l ->
  arr_blit l off src = Ret (take (Z.to_nat off) l ++ src ++ drop (Z.to_nat off + length src) l).
Proof.
  intros. unfold arr_blit.
  destruct (Z.leb_spec 0 off), (Z.leb_spec (off + zlen src) (zlen l)); lia || done.
Qed.

Lemma arr_blit_out {A} (l : list A) off src :
  zlen l < off + zlen src -> arr_blit l off src = Undef OutOfBounds.
Proof.
  intros. unfold arr_blit. destruct (Z.leb_spec (off + zlen src) (zlen l)); [lia|].
  by rewrite andb_false_r.
Qed.

Lemma arr_slice_out {A} (l : list A) off n :
  zlen l < off + n -> arr_slice l off n = Undef OutOfBounds.
Proof.
  intros. unfold arr_slice. destruct (Z.leb_spec (off + n) (zlen l)); [lia|].
  by rewrite andb_false_r.
Qed.

Lemma arr_blit_0 {A} (l src : list A) :
  (length src <= length l)%nat -> arr_blit l 0 src = Ret (src ++ drop (length src) l).
Proof. intros. by rewrite arr_blit_in by (unfold zlen; lia). Qed.

Lemma Forall_arr_get {A} (P : A -> Prop) l i x :
  Forall P l -> arr_get l i = Ret x -> P x.
Proof. intros Hl [_ Hx]%arr_get_Ret. by eapply Forall_lookup_1. Qed.

Lemma Forall_tail {A} (P : A -> Prop) l : Forall P l -> Forall P (tail l).
Proof. by destruct 1. Qed.

Lemma arr_slice_app {A} (a b : list A) : arr_slice (a ++ b) 0 (zlen a) = Ret a.
Proof.
  pose proof (zlen_nonneg a). pose proof (zlen_nonneg b).
  rewrite arr_slice_in by (rewrite ?zlen_app; lia).
  change (Z.to_nat 0) with 0%nat. by rewrite drop_0, to_nat_zlen, take_app_length.
Qed.

(** Reads of a literal list at literal indices. *)
Ltac arr_gets :=
  repeat match goal with
  | |- context [@arr_get ?A ?l ?i] =>
      let n := eval vm_compute in (Z.to_nat i) in
      let o := eval cbn in (l !! n) in
      match o with Some ?x => change (@arr_get A l i) with (@Ret A x) end
  end; cbn [mbind outcome_bind].

Create HintDb octets.
#[export] Hint Resolve wrap_octet Forall_app_2 Forall_take Forall_drop Forall_tail
  Forall_insert zlen_nonneg : octets.
#[export] Hint Constructors Forall : octets.
Create Rewrite HintDb len.
#[export] Hint Rewrite @zlen_nil @zlen_cons @zlen_app : len.

(** ** Bits *)

Create Rewrite HintDb zbits.
#[export] Hint Rewrite Z.lor_spec Z.land_spec Z.lxor_spec Z.testbit_0_l Z.bits_0
  orb_false_r orb_false_l andb_false_r andb_false_l andb_true_r andb_true_l
  orb_true_r orb_true_l : zbits.

Lemma testbit_wrap w z i :
  0 <= w -> 0 <= i -> Z.testbit (wrap w z) i = (i <? w) && Z.testbit z i.
Proof.
  intros Hw Hi. unfold wrap. destruct (Z.ltb_spec i w).
  - by rewrite Z.mod_pow2_bits_low by lia.
  - by rewrite Z.mod_pow2_bits_high by lia.
Qed.

Lemma testbit_high w z i : 0 <= z < 2 ^ w -> w <= i -> Z.testbit z i = false.
Proof.
  intros Hz Hi. destruct (decide (0 <= w)) as [Hw|Hw].
  - rewrite <- (wrap_small w z Hz), testbit_wrap by lia.
    destruct (Z.ltb_spec i w); [lia|done].
  - rewrite Z.pow_neg_r in Hz by lia. lia.
Qed.

Lemma bits_bound w z : 0 <= w -> 0 <= z -> (forall i, w <= i -> Z.testbit z i = false) -> z < 2 ^ w.
Proof.
  intros Hw Hz Hb. enough (z = wrap w z) as -> by (apply wrap_bound; lia).
  apply Z.bits_inj'. intros i Hi. rewrite testbit_wrap by lia.
  destruct (Z.ltb_spec i w); [done|]. simpl. auto.
Qed.

(** Replacing the low [k] bits of [b] by [n]. *)
Lemma lor_low b n k :
  0 <= k -> 0 <= n < 2 ^ k -> Z.lor (Z.ldiff b (Z.ones k)) n = b - b mod 2 ^ k + n.
Proof.
  intros Hk Hn. rewrite <- Z.add_nocarry_lor.
  - rewrite Z.ldiff_ones_r, Z.shiftl_mul_pow2, Z.shiftr_div_pow2 by lia.
    pose proof (Z.div_mod b (2 ^ k)). lia.
  - apply Z.bits_inj'. intros i Hi. rewrite Z.land_spec, Z.ldiff_spec, Z.bits_0.
    destruct (Z.ltb_spec i k).
    + rewrite Z.ones_spec_low by lia. simpl. by rewrite andb_false_r.
    + rewrite (testbit_high k n) by lia. apply andb_false_r.
Qed.

Lemma lor_ones b k : 0 <= k -> Z.lor b (Z.ones k) = b - b mod 2 ^ k + (2 ^ k - 1).
Proof.
  intros Hk. rewrite <- (lor_low b (2 ^ k - 1) k) by lia.
  replace (2 ^ k - 1) with (Z.ones k) by (rewrite Z.ones_equiv; lia).
  apply Z.bits_inj'. intros i Hi. rewrite !Z.lor_spec, Z.ldiff_spec.
  by destruct (Z.testbit b i), (Z.testbit (Z.ones k) i).
Qed.

(** A property of octets that evaluates to a boolean holds when it does for the
    256 of them. *)
Definition all_octets (P : Z -> bool) : bool := forallb P (seqZ 0 256).

Lemma all_octets_spec P : all_octets P = true -> forall b, octet b -> P b = true.
Proof.
  unfold all_octets, octet. rewrite forallb_forall. intros HP b Hb.
  apply HP, list_elem_of_In, elem_of_seqZ. lia.
Qed.

Lemma forallb_ext_in {A} (f g : A -> bool) l :
  (forall x, x ∈ l -> f x = g x) -> forallb f l = forallb g l.
Proof.
  induction l as [|x l IH]; simpl; intros Hfg; [done|].
  rewrite Hfg by left. f_equal. apply IH. intros. apply Hfg. by right.
Qed.

(** [by_octets b]: decide a boolean goal about the octet [b] by enumeration. *)
Ltac by_octets b :=
  match goal with
  | |- ?lhs = true =>
      let P := eval pattern b in lhs in
      match P with
      | ?P _ =>
          change (P b = true); apply (all_octets_spec P);
          [vm_compute; reflexivity | assumption]
      end
  end.

Lemma land_127 b : Z.land b 127 = b mod 128.
Proof. apply (Z.land_ones b 7). lia. Qed.

Lemma land_128 b : octet b -> (Z.land b 128 =? 0) = (b <? 128).
Proof. intros Hb. apply eqb_true_iff. by_octets b. Qed.
