(* ===== verification/Number.v ===== *)
(** HPACK integers (RFC 7541 section 5.1): [number.c].

    A pointer argument is an [option]: [None] is the null pointer, [Some l] a
    pointer to the array [l].  The length the caller passes is a separate
    argument, so reading past the array is [Undef OutOfBounds]. *)
From S2P Require Import Prelude.

Definition NO_ERROR : Z := 0.
Definition PROTOCOL_ERROR : Z := 1.
Definition INTERNAL_ERROR : Z := 2.

Definition MAX_OCTETS : Z := 10.

Definition mask_from_bits (bits : Z) : Z := u8 (Z.shiftr 255 (8 - bits)).

(** The [for] loop of [decode_number]: the function's result and the final
    contents of [*number].  [i] runs over [1 .. MAX_OCTETS], so 11 rounds of
    fuel are enough. *)
Fixpoint decode_number_loop (fuel : nat) (buf : list Z) (len i number mult : Z)
    : outcome (Z * Z) :=
  match fuel with
  | O => Undef OutOfFuel
  | S fuel =>
      if (i <? len) && (i <=? MAX_OCTETS) then
        b ← buf.[i];
        let field := Z.land b 127 in
        let number := u64 (number + u64 (field * mult)) in
        if Z.land b 128 =? 0 then Ret (i + 1, number)
        else if u64 (Z.shiftl mult 7) <? mult then Ret (- INTERNAL_ERROR, number)
        else decode_number_loop fuel buf len (i + 1) number (u64 (Z.shiftl mult 7))
      else Ret (- PROTOCOL_ERROR, number)
  end.

Definition decode_number (buf : option (list Z)) (len bits : Z) (number : option Z)
    : outcome (Z * option Z) :=
  if (len =? 0) || (8 <? bits) then Ret (- PROTOCOL_ERROR, number)
  else
    match number, buf with
    | Some _, Some buf =>
        let mask := mask_from_bits bits in
        b ← buf.[0];
        let field := Z.land b mask in
        if negb (field =? mask) then Ret (1, Some field)
        else
          '(r, n) ← decode_number_loop 11 buf len 1 field 1;
          Ret (r, Some n)
    | _, _ => Ret (- INTERNAL_ERROR, number)
    end.

(** The [while (number >= 0x80)] loop of [encode_number] and the code after
    it.  A 64-bit number has at most 10 groups of 7 bits. *)
Fixpoint encode_number_loop (fuel : nat) (number octet : Z) (buf : list Z) (buflen : Z)
    : outcome (Z * list Z) :=
  match fuel with
  | O => Undef OutOfFuel
  | S fuel =>
      let octet := octet + 1 in
      if 128 <=? number then
        if buflen <=? octet then Ret (-1, buf)
        else
          buf ← buf.[octet := Z.lor 128 (number mod 128)];
          encode_number_loop fuel (number / 128) octet buf buflen
      else if buflen <=? octet then Ret (-1, buf)
      else
        buf ← buf.[octet := u8 number];
        Ret (octet + 1, buf)
  end.

Definition encode_number (number prefix_bits : Z) (buf : option (list Z)) (buflen : Z)
    : outcome (Z * option (list Z)) :=
  match buf with
  | None => Ret (-1, None)
  | Some b =>
      if (buflen =? 0) || (8 <? prefix_bits) || (prefix_bits <? 1) then Ret (-1, Some b)
      else
        let mask := mask_from_bits prefix_bits in
        b0 ← b.[0];
        if number <? mask then
          b ← b.[0 := u8 (Z.lor (Z.land b0 (Z.lnot mask)) number)];
          Ret (1, Some b)
        else
          b ← b.[0 := Z.lor b0 mask];
          '(r, b) ← encode_number_loop 10 (number - mask) 0 b buflen;
          Ret (r, Some b)
  end.

(** ** Reference: little-endian groups of seven bits *)

(** The value of the groups at the head of [bs], and how many there are. *)
Fixpoint varint_value (bs : list Z) : option (Z * Z) :=
  match bs with
  | [] => None
  | b :: bs =>
      if b <? 128 then Some (b, 1)
      else
        match varint_value bs with
        | Some (v, k) => Some (b - 128 + 128 * v, k + 1)
        | None => None
        end
  end.

(** The groups of [n], for [n < 128 ^ fuel]. *)
Fixpoint varint (fuel : nat) (n : Z) : list Z :=
  match fuel with
  | O => []
  | S fuel => if n <? 128 then [n] else (128 + n mod 128) :: varint fuel (n / 128)
  end.

Lemma mask_from_bits_eq bits : 0 <= bits <= 8 -> mask_from_bits bits = 2 ^ bits - 1.
Proof.
  intros Hb. unfold mask_from_bits.
  assert (bits = 0 \/ bits = 1 \/ bits = 2 \/ bits = 3 \/ bits = 4 \/ bits = 5
          \/ bits = 6 \/ bits = 7 \/ bits = 8) as Hc by lia.
  by destruct_or! Hc; subst.
Qed.

Lemma mask_from_bits_ones bits : 0 <= bits <= 8 -> mask_from_bits bits = Z.ones bits.
Proof. intros. rewrite mask_from_bits_eq, Z.ones_equiv by lia. lia. Qed.

Lemma land_mask b bits : 0 <= bits <= 8 -> Z.land b (mask_from_bits bits) = b mod 2 ^ bits.
Proof. intros. rewrite mask_from_bits_ones by lia. apply Z.land_ones. lia. Qed.

Lemma varint_value_pos bs v k :
  octets bs -> varint_value bs = Some (v, k) -> 0 <= v /\ 1 <= k <= zlen bs.
Proof.
  intros Hbs. revert v k. induction Hbs as [|b bs Hb Hbs IH]; intros v k; simpl; [done|].
  rewrite zlen_cons. unfold octet in Hb. pose proof (zlen_nonneg bs).
  destruct (Z.ltb_spec b 128).
  - intros [= <- <-]. lia.
  - destruct (varint_value bs) as [[v' k']|]; [|done]. intros [= <- <-].
    specialize (IH _ _ eq_refl). lia.
Qed.

(** The loop at octet [i], with at most [k] octets to go. *)
Lemma decode_number_loop_correct (k : nat) buf i acc :
  octets buf -> i = 11 - Z.of_nat k -> (1 <= k <= 10)%nat -> i <= zlen buf ->
  exists r n,
    decode_number_loop (S k) buf (zlen buf) i acc (2 ^ (7 * (i - 1))) = Ret (r, n) /\
    match varint_value (take k (drop (Z.to_nat i) buf)) with
    | Some (v, j) => r = i + j /\ n = u64 (acc + 2 ^ (7 * (i - 1)) * v)
    | None => r = if Z.of_nat k <=? zlen buf - i then -2 else -1
    end.
Proof.
  intros Hbuf. revert i acc. induction k as [|k IH]; intros i acc Hi Hk Hlen; [lia|].
  remember (S k) as k1 eqn:Ek1. cbn [decode_number_loop].
  destruct (Z.leb_spec i MAX_OCTETS) as [_|]; [|unfold MAX_OCTETS in *; lia].
  destruct (Z.ltb_spec i (zlen buf)) as [Hin|Hout]; simpl.
  2:{ rewrite drop_ge by (unfold zlen in *; lia). destruct k1; [lia|]. simpl.
      do 2 eexists. split; [done|]. destruct (Z.leb_spec (Z.of_nat (S k1)) (zlen buf - i)); [lia|done]. }
  destruct (arr_get_in buf i) as (b & -> & Hb); [lia|]. simpl.
  assert (octet b) as Ho by (by eapply Forall_lookup_1).
  rewrite (drop_S _ _ _ Hb). subst k1. cbn [take varint_value].
  rewrite land_128, land_127 by done. unfold octet in Ho.
  set (m := 2 ^ (7 * (i - 1))).
  assert (forall x, u64 (acc + u64 (x * m)) = u64 (acc + m * x)) as Hacc.
  { intros x. rewrite wrap_wrap_add. f_equal. lia. }
  destruct (Z.ltb_spec b 128).
  { do 2 eexists. split; [done|]. split; [lia|]. rewrite Hacc. rewrite Z.mod_small by lia. done. }
  assert (b mod 128 = b - 128) as Hbm.
  { symmetry. apply (Z.mod_unique _ _ 1); lia. }
  destruct (decide (k = 0)%nat) as [->|Hk0].
  - (* the tenth group: [mult << 7] overflows *)
    assert (i = 10) as -> by lia. unfold m. simpl. do 2 eexists. split; [done|].
    change (Z.of_nat 1) with 1. destruct (Z.leb_spec 1 (zlen buf - 10)); [done|lia].
  - assert (u64 (Z.shiftl m 7) = 2 ^ (7 * i)) as Hm.
    { rewrite Z.shiftl_mul_pow2 by lia. unfold m. rewrite <- Z.pow_add_r by lia.
      replace (7 * (i - 1) + 7) with (7 * i) by lia. apply wrap_small.
      split; [lia|]. apply Z.pow_lt_mono_r; lia. }
    rewrite Hm. destruct (Z.ltb_spec (2 ^ (7 * i)) m) as [Hlt|_].
    { exfalso. unfold m in Hlt. apply Z.pow_lt_mono_r_iff in Hlt; lia. }
    replace (7 * i) with (7 * (i + 1 - 1)) by lia.
    destruct (IH (i + 1) (u64 (acc + u64 (b mod 128 * m)))) as (r & n & -> & Hrn); [lia..|].
    exists r, n. split; [done|]. replace (Z.to_nat (i + 1)) with (S (Z.to_nat i)) in Hrn by lia.
    destruct (varint_value _) as [[v j]|].
    + destruct Hrn as [-> ->]. split; [lia|]. rewrite wrap_add_wrap, Hbm.
      replace (acc + u64 ((b - 128) * m) + 2 ^ (7 * (i + 1 - 1)) * v)
        with (acc + 2 ^ (7 * (i + 1 - 1)) * v + u64 ((b - 128) * m)) by lia.
      rewrite wrap_wrap_add. f_equal.
      replace (7 * (i + 1 - 1)) with (7 * (i - 1) + 7) by lia.
      rewrite Z.pow_add_r by lia. fold m. lia.
    + rewrite Hrn. destruct (Z.leb_spec (Z.of_nat k) (zlen buf - (i + 1))),
        (Z.leb_spec (Z.of_nat (S k)) (zlen buf - i)); lia || done.
Qed.

Lemma decode_number_cases b0 tl bits n0 :
  octets (b0 :: tl) -> 0 <= bits <= 8 ->
  let field := b0 mod 2 ^ bits in
  let max := 2 ^ bits - 1 in
  (field < max ->
   decode_number (Some (b0 :: tl)) (zlen (b0 :: tl)) bits (Some n0) = Ret (1, Some field)) /\
  (field = max ->
   match varint_value (take 10 tl) with
   | Some (v, k) =>
       decode_number (Some (b0 :: tl)) (zlen (b0 :: tl)) bits (Some n0)
       = Ret (1 + k, Some (u64 (max + v)))
   | None =>
       exists n,
         decode_number (Some (b0 :: tl)) (zlen (b0 :: tl)) bits (Some n0)
         = Ret (if 10 <=? zlen tl then - INTERNAL_ERROR else - PROTOCOL_ERROR, Some n)
   end).
Proof.
  intros Hbuf Hbits field max. pose proof (zlen_nonneg tl) as Htl.
  assert (decode_number (Some (b0 :: tl)) (zlen (b0 :: tl)) bits (Some n0) =
    if negb (field =? max) then Ret (1, Some field)
    else '(r, n) ← decode_number_loop 11 (b0 :: tl) (zlen (b0 :: tl)) 1 field 1; Ret (r, Some n))
    as ->.
  { unfold decode_number. rewrite zlen_cons.
    destruct (Z.eqb_spec (1 + zlen tl) 0); [lia|]. destruct (Z.ltb_spec 8 bits); [lia|].
    cbn [orb]. rewrite arr_get_0. cbn [mbind outcome_bind]. rewrite land_mask, mask_from_bits_eq by lia. done. }
  split; intros Hf.
  { destruct (Z.eqb_spec field max); [lia|done]. }
  destruct (Z.eqb_spec field max); [cbn [negb]|lia].
  destruct (decode_number_loop_correct 10 (b0 :: tl) 1 field Hbuf) as (r & n & Heq & Hrn);
    [lia..|rewrite zlen_cons; lia|].
  change (7 * (1 - 1)) with 0 in *. change (2 ^ 0) with 1 in *. rewrite Heq. simpl.
  change (drop (Z.to_nat 1) (b0 :: tl)) with tl in Hrn. rewrite Hf in Hrn.
  destruct (varint_value (take 10 tl)) as [[v k]|].
  - destruct Hrn as [-> ->]. by rewrite Z.mul_1_l.
  - exists n. rewrite Hrn, zlen_cons. replace (1 + zlen tl - 1) with (zlen tl) by lia. done.
Qed.

(** C22: [decode_number] on any non-empty buffer and prefix width up to 8.  A
    prefix field below its maximum is the number.  Otherwise the number is the
    maximum plus the groups that follow, reduced modulo 2^64 (the wrap-around is
    silent), and the result counts the octets read.  Without a terminated group
    among the next ten octets the result is -INTERNAL_ERROR when ten were there,
    -PROTOCOL_ERROR when the buffer ended first.  It never reads past [len]. *)
Theorem decode_number_correct b0 tl bits n0 :
  octets (b0 :: tl) -> 0 <= bits <= 8 ->
  let field := b0 mod 2 ^ bits in
  let max := 2 ^ bits - 1 in
  (field < max ->
   decode_number (Some (b0 :: tl)) (zlen (b0 :: tl)) bits (Some n0) = Ret (1, Some field)) /\
  (field = max ->
   match varint_value (take 10 tl) with
   | Some (v, k) =>
       decode_number (Some (b0 :: tl)) (zlen (b0 :: tl)) bits (Some n0)
       = Ret (1 + k, Some (u64 (max + v)))
   | None =>
       exists n,
         decode_number (Some (b0 :: tl)) (zlen (b0 :: tl)) bits (Some n0)
         = Ret (if 10 <=? zlen tl then - INTERNAL_ERROR else - PROTOCOL_ERROR, Some n)
   end).
Proof. apply decode_number_cases. Qed.

(** [encode_number] writes the groups of [varint] after the first octet. *)
Lemma varint_bound fuel n : 0 <= n -> octets (varint fuel n).
Proof.
  revert n. induction fuel as [|fuel IH]; intros n Hn; simpl; [constructor|].
  destruct (Z.ltb_spec n 128).
  - repeat constructor; lia.
  - constructor; [unfold octet; pose proof (Z.mod_pos_bound n 128); lia|].
    apply IH. apply Z.div_pos; lia.
Qed.

Lemma varint_div fuel n :
  0 <= n < 128 ^ Z.of_nat (S fuel) -> 128 <= n ->
  0 <= n / 128 < 128 ^ Z.of_nat fuel /\ (0 < fuel)%nat.
Proof.
  rewrite Nat2Z.inj_succ, Z.pow_succ_r by lia. intros Hn Hge. split.
  - split; [apply Z.div_pos|apply Z.div_lt_upper_bound]; lia.
  - destruct fuel; simpl in *; lia.
Qed.

Lemma varint_value_varint fuel n rest :
  0 <= n < 128 ^ Z.of_nat fuel -> (0 < fuel)%nat ->
  varint_value (varint fuel n ++ rest) = Some (n, zlen (varint fuel n)).
Proof.
  revert n. induction fuel as [|fuel IH]; intros n Hn Hf; [lia|]. cbn [varint].
  pose proof (Z.mod_pos_bound n 128). pose proof (Z.div_mod n 128).
  destruct (Z.ltb_spec n 128) as [Hlt|Hge]; cbn [app varint_value].
  - destruct (Z.ltb_spec n 128); [done|lia].
  - destruct (Z.ltb_spec (128 + n mod 128) 128); [lia|].
    destruct (varint_div fuel n) as [? ?]; [done..|].
    rewrite IH, zlen_cons by done. f_equal. f_equal; lia.
Qed.

Lemma varint_length fuel n : (length (varint fuel n) <= fuel)%nat.
Proof.
  revert n. induction fuel as [|fuel IH]; intros n; simpl; [lia|].
  destruct (n <? 128); simpl; [lia|]. specialize (IH (n / 128)). lia.
Qed.

Lemma lor_128 m : 0 <= m < 128 -> Z.lor 128 m = 128 + m.
Proof.
  intros Hm. rewrite <- Z.add_nocarry_lor; [done|].
  apply Z.bits_inj'. intros i Hi. rewrite Z.land_spec, Z.bits_0.
  destruct (decide (i = 7)) as [->|].
  - rewrite (testbit_high 7 m) by lia. apply andb_false_r.
  - replace 128 with (2 ^ 7) by done. by rewrite Z.pow2_bits_false by done.
Qed.

(** The loop with [k] octets of the buffer left: it writes the groups behind
    the first [o + 1] octets, or stops where the buffer ends. *)
Lemma encode_number_loop_correct fuel n o pre post :
  0 <= n < 128 ^ Z.of_nat fuel -> (0 < fuel)%nat -> zlen pre = o + 1 ->
  exists r buf',
    encode_number_loop fuel n o (pre ++ post) (zlen (pre ++ post)) = Ret (r, buf') /\
    length buf' = length (pre ++ post) /\
    if zlen (varint fuel n) <=? zlen post
    then r = o + 1 + zlen (varint fuel n) /\
         buf' = pre ++ varint fuel n ++ drop (length (varint fuel n)) post
    else r = -1.
Proof.
  revert n o pre post. induction fuel as [|fuel IH]; intros n o pre post Hn Hf Hpre; [lia|].
  cbn [encode_number_loop varint]. pose proof (zlen_nonneg post).
  pose proof (Z.mod_pos_bound n 128).
  assert ((zlen (pre ++ post) <=? o + 1) = (zlen post <=? 0)) as ->.
  { rewrite zlen_app. apply eq_bool_prop_intro. rewrite !Is_true_true, !Z.leb_le. lia. }
  destruct (Z.leb_spec 128 n) as [Hge|Hlt], (Z.ltb_spec n 128); try lia.
  - destruct (varint_div fuel n) as [Hn' Hf']; [done..|].
    destruct post as [|x post]; rewrite ?zlen_cons in *.
    { do 2 eexists. split; [done|]. split; [done|]. pose proof (zlen_nonneg (varint fuel (n / 128))).
      rewrite zlen_nil. destruct (Z.leb_spec (1 + zlen (varint fuel (n / 128))) 0); [lia|done]. }
    pose proof (zlen_nonneg post). destruct (Z.leb_spec (1 + zlen post) 0); [lia|].
    rewrite arr_set_app by done. cbn [mbind outcome_bind].
    rewrite lor_128 by lia. rewrite (cons_middle _ pre post), (assoc_L (++)).
    replace (zlen (pre ++ x :: post)) with (zlen ((pre ++ [128 + n mod 128]) ++ post))
      by (autorewrite with len; lia).
    destruct (IH (n / 128) (o + 1) (pre ++ [128 + n mod 128]) post) as (r & buf' & -> & Hlen & Hres);
      [done..|autorewrite with len; lia|].
    exists r, buf'. split; [done|]. split; [rewrite Hlen, !length_app; simpl; lia|].
    destruct (Z.leb_spec (zlen (varint fuel (n / 128))) (zlen post)),
      (Z.leb_spec (1 + zlen (varint fuel (n / 128))) (1 + zlen post)); try lia.
    destruct Hres as [-> ->]. split; [lia|]. by rewrite <- (assoc_L (++)).
  - change (zlen [n]) with 1. destruct post as [|x post]; rewrite ?zlen_cons in *.
    { do 2 eexists. split; [done|]. by split. }
    pose proof (zlen_nonneg post). destruct (Z.leb_spec (1 + zlen post) 0); [lia|].
    rewrite arr_set_app by done. do 2 eexists. split; [done|].
    split; [rewrite !length_app; done|].
    destruct (Z.leb_spec 1 (1 + zlen post)); [|lia]. split; [lia|].
    by rewrite wrap_small by lia.
Qed.

(** The octets of [n] behind a [bits]-wide prefix, the other bits of the first
    octet being those of [hi]. *)
Definition number_octets (n bits hi : Z) : list Z :=
  let max := 2 ^ bits - 1 in
  if n <? max then [hi + n] else (hi + max) :: varint 10 (n - max).

(** [hi] fits above the prefix. *)
Definition prefix_high (hi bits : Z) : Prop :=
  hi mod 2 ^ bits = 0 /\ 0 <= hi <= 256 - 2 ^ bits.

Lemma prefix_high_octet b bits :
  octet b -> 0 <= bits <= 8 -> prefix_high (b - b mod 2 ^ bits) bits.
Proof.
  intros Hb Hbits. unfold octet in Hb. assert (0 < 2 ^ bits) by lia.
  pose proof (Z.mod_pos_bound b (2 ^ bits)). pose proof (Z.div_mod b (2 ^ bits)).
  assert (2 ^ bits * 2 ^ (8 - bits) = 256).
  { rewrite <- Z.pow_add_r by lia. by replace (bits + (8 - bits)) with 8 by lia. }
  assert (b / 2 ^ bits < 2 ^ (8 - bits)) by (apply Z.div_lt_upper_bound; lia).
  assert (0 <= b / 2 ^ bits) by (apply Z.div_pos; lia).
  unfold prefix_high. split; [|nia].
  replace (b - b mod 2 ^ bits) with (b / 2 ^ bits * 2 ^ bits) by lia.
  apply Z.mod_mul. lia.
Qed.

Lemma encode_number_cases n bits b0 tl :
  0 <= n < 2 ^ 64 -> 1 <= bits <= 8 -> octets (b0 :: tl) ->
  let max := 2 ^ bits - 1 in
  let vs := varint 10 (n - max) in
  if n <? max then
    encode_number n bits (Some (b0 :: tl)) (zlen (b0 :: tl))
    = Ret (1, Some ((b0 - b0 mod 2 ^ bits + n) :: tl))
  else if zlen vs <=? zlen tl then
    encode_number n bits (Some (b0 :: tl)) (zlen (b0 :: tl))
    = Ret (1 + zlen vs, Some ((b0 - b0 mod 2 ^ bits + max) :: vs ++ drop (length vs) tl))
  else
    exists buf', encode_number n bits (Some (b0 :: tl)) (zlen (b0 :: tl)) = Ret (-1, Some buf').
Proof.
  intros Hn Hbits Hbuf max vs. apply Forall_cons in Hbuf as [Hb0 Htl].
  assert (0 < 2 ^ bits) by lia. pose proof (zlen_nonneg tl).
  destruct (prefix_high_octet b0 bits) as [_ Hhi]; [done|lia|].
  unfold encode_number. destruct (Z.eqb_spec (zlen (b0 :: tl)) 0); [rewrite zlen_cons in *; lia|].
  destruct (Z.ltb_spec 8 bits), (Z.ltb_spec bits 1); try lia. cbn [orb].
  rewrite arr_get_0, mask_from_bits_eq by lia. fold max.
  cbn [mbind outcome_bind].
  replace (Z.lnot max) with (Z.lnot (Z.ones bits)) by (rewrite Z.ones_equiv; f_equal; lia).
  replace (Z.lor b0 max) with (b0 - b0 mod 2 ^ bits + max)
    by (rewrite <- lor_ones, Z.ones_equiv by lia; f_equal; lia).
  rewrite <- Z.ldiff_land.
  destruct (Z.ltb_spec n max).
  - rewrite lor_low, wrap_small by lia.
    by rewrite arr_set_0.
  - rewrite arr_set_0. cbn [app mbind outcome_bind].
    destruct (encode_number_loop_correct 10 (n - max) 0 [b0 - b0 mod 2 ^ bits + max] tl)
      as (r & buf' & Heq & _ & Hr); [simpl; lia|lia|done|].
    cbn [app] in Heq.
    replace (zlen (b0 :: tl)) with (zlen ((b0 - b0 mod 2 ^ bits + max) :: tl))
      by by rewrite !zlen_cons.
    rewrite Heq. cbn [mbind outcome_bind]. fold vs in Hr.
    destruct (zlen vs <=? zlen tl).
    + destruct Hr as [-> ->]. repeat f_equal; lia.
    + subst r. eauto.
Qed.

(** [encode_number] on every buffer, 64-bit number and prefix width 1 to 8.
    A number below the prefix maximum goes into the low bits of the first
    octet, whose other bits are kept; a larger one sets those bits and writes
    the seven-bit groups of the difference behind it.  When the groups do not
    fit the buffer the call returns -1; it never writes past [buflen]. *)
Theorem encode_number_correct n bits b0 tl :
  0 <= n < 2 ^ 64 -> 1 <= bits <= 8 -> octets (b0 :: tl) ->
  let max := 2 ^ bits - 1 in
  let vs := varint 10 (n - max) in
  if n <? max then
    encode_number n bits (Some (b0 :: tl)) (zlen (b0 :: tl))
    = Ret (1, Some ((b0 - b0 mod 2 ^ bits + n) :: tl))
  else if zlen vs <=? zlen tl then
    encode_number n bits (Some (b0 :: tl)) (zlen (b0 :: tl))
    = Ret (1 + zlen vs, Some ((b0 - b0 mod 2 ^ bits + max) :: vs ++ drop (length vs) tl))
  else
    exists buf', encode_number n bits (Some (b0 :: tl)) (zlen (b0 :: tl)) = Ret (-1, Some buf').
Proof. apply encode_number_cases. Qed.

Lemma number_octets_bound n bits hi :
  0 <= n < 2 ^ 64 -> 0 <= bits <= 8 -> prefix_high hi bits -> octets (number_octets n bits hi).
Proof.
  intros Hn Hbits [_ Hhi]. unfold number_octets.
  assert (0 < 2 ^ bits) by lia.
  destruct (Z.ltb_spec n (2 ^ bits - 1)); repeat constructor; unfold octet; try lia.
  apply varint_bound. lia.
Qed.

Lemma number_octets_length n bits hi : 1 <= zlen (number_octets n bits hi) <= 11.
Proof.
  unfold number_octets. destruct (n <? 2 ^ bits - 1); rewrite zlen_cons.
  - by rewrite zlen_nil.
  - pose proof (varint_length 10 (n - (2 ^ bits - 1))). unfold zlen. lia.
Qed.

Lemma decode_number_octets n bits hi rest n0 :
  0 <= n < 2 ^ 64 -> 1 <= bits <= 8 -> prefix_high hi bits -> octets rest ->
  decode_number (Some (number_octets n bits hi ++ rest))
    (zlen (number_octets n bits hi ++ rest)) bits (Some n0)
  = Ret (zlen (number_octets n bits hi), Some n).
Proof.
  intros Hn Hbits Hhi Hrest.
  pose proof (number_octets_bound n bits hi Hn ltac:(lia) Hhi) as Hoct.
  destruct Hhi as [Hhi0 Hhi]. assert (0 < 2 ^ bits) by lia.
  assert (forall m, 0 <= m < 2 ^ bits -> (hi + m) mod 2 ^ bits = m) as Hmod.
  { intros m Hm. rewrite Z.add_mod, Hhi0, Z.add_0_l, Z.mod_mod by lia. by apply Z.mod_small. }
  unfold number_octets in *. destruct (Z.ltb_spec n (2 ^ bits - 1)); cbn [app].
  - destruct (decode_number_cases (hi + n) rest bits n0) as [Hd _];
      [inversion Hoct; subst; by constructor|lia|].
    rewrite Hmod in Hd by lia. by apply Hd.
  - set (vs := varint 10 (n - (2 ^ bits - 1))) in *.
    destruct (decode_number_cases (hi + (2 ^ bits - 1)) (vs ++ rest) bits n0) as [_ Hd];
      [inversion Hoct; subst; constructor; [done|by apply Forall_app_2]|lia|].
    specialize (Hd ltac:(apply Hmod; lia)).
    pose proof (varint_length 10 (n - (2 ^ bits - 1))) as Hl. fold vs in Hl.
    rewrite take_app_ge in Hd by done.
    unfold vs in Hd at 1. rewrite varint_value_varint in Hd by (change (128 ^ Z.of_nat 10) with (2 ^ 70); lia).
    rewrite Hd. fold vs. rewrite zlen_cons. repeat f_equal.
    rewrite wrap_small by lia. lia.
Qed.

Lemma encode_number_octets n bits b0 tl :
  0 <= n < 2 ^ 64 -> 1 <= bits <= 8 -> octets (b0 :: tl) ->
  let os := number_octets n bits (b0 - b0 mod 2 ^ bits) in
  if zlen os <=? zlen (b0 :: tl) then
    encode_number n bits (Some (b0 :: tl)) (zlen (b0 :: tl))
    = Ret (zlen os, Some (os ++ drop (length os) (b0 :: tl)))
  else
    exists buf', encode_number n bits (Some (b0 :: tl)) (zlen (b0 :: tl)) = Ret (-1, Some buf').
Proof.
  intros Hn Hbits Hbuf. pose proof (encode_number_cases n bits b0 tl Hn Hbits Hbuf) as He.
  cbv zeta in *. unfold number_octets. pose proof (zlen_nonneg tl).
  destruct (n <? 2 ^ bits - 1).
  - rewrite !zlen_cons, zlen_nil in *. destruct (Z.leb_spec (1 + 0) (1 + zlen tl)); [|lia].
    by rewrite He.
  - set (vs := varint 10 _) in *. rewrite !zlen_cons in *.
    destruct (Z.leb_spec (1 + zlen vs) (1 + zlen tl)), (Z.leb_spec (zlen vs) (zlen tl)); try lia;
      [by rewrite He|done].
Qed.

(** C18: what [encode_number] writes, [decode_number] reads back: with eleven
    octets of room every 64-bit number is encoded, and decoding the octets
    written, whatever follows them, gives the number and their count. *)
Theorem number_roundtrip n bits b0 tl :
  0 <= n < 2 ^ 64 -> 1 <= bits <= 8 -> octets (b0 :: tl) -> 11 <= zlen (b0 :: tl) ->
  exists r buf',
    encode_number n bits (Some (b0 :: tl)) (zlen (b0 :: tl)) = Ret (r, Some buf') /\
    1 <= r <= 11 /\
    forall rest n0, octets rest ->
      let coded := take (Z.to_nat r) buf' ++ rest in
      decode_number (Some coded) (zlen coded) bits (Some n0) = Ret (r, Some n).
Proof.
  intros Hn Hbits Hbuf Hroom.
  pose proof (encode_number_octets n bits b0 tl Hn Hbits Hbuf) as He. cbv zeta in He.
  set (hi := b0 - b0 mod 2 ^ bits) in *.
  pose proof (number_octets_length n bits hi) as Hl.
  destruct (Z.leb_spec (zlen (number_octets n bits hi)) (zlen (b0 :: tl))); [|lia].
  do 2 eexists. split; [done|]. split; [done|]. intros rest n0 Hrest.
  unfold zlen at 1. rewrite Nat2Z.id, take_app_length. cbv zeta.
  apply decode_number_octets; [done..| |done].
  unfold hi. inversion Hbuf; subst. apply prefix_high_octet; [done|lia].
Qed.

(** The cases of [test.c]. *)
Example encode_10 : encode_number 10 5 (Some [0]) 1 = Ret (1, Some [10]).
Proof. reflexivity. Qed.
Example encode_1337 :
  encode_number 1337 5 (Some [10; 0; 0; 0]) 4 = Ret (3, Some [31; 154; 10; 0]).
Proof. reflexivity. Qed.
Example encode_short : encode_number 64 5 (Some [0]) 1 = Ret (-1, Some [31]).
Proof. reflexivity. Qed.
Example decode_1337 : decode_number (Some [31; 154; 10]) 3 5 (Some 0) = Ret (3, Some 1337).
Proof. reflexivity. Qed.

Lemma decode_number_correct_witness :
  varint_value (take 10 [154; 10]) = Some (1306, 2) /\
  decode_number (Some [31; 154; 10]) (zlen [31; 154; 10]) 5 (Some 0) = Ret (1 + 2, Some (u64 (31 + 1306))).
Proof.
  split; [reflexivity|].
  apply (decode_number_correct 31 [154; 10] 5 0); [repeat constructor; unfold octet; lia|lia|reflexivity].
Defined.

Lemma encode_number_correct_witness :
  let vs := varint 10 (1337 - 31) in
  encode_number 1337 5 (Some [224; 0; 0; 7]) (zlen [224; 0; 0; 7])
  = Ret (1 + zlen vs, Some (224 + 31 :: vs ++ drop (length vs) [0; 0; 7])).
Proof.
  apply (encode_number_correct 1337 5 224 [0; 0; 7]);
    [lia|lia|repeat constructor; unfold octet; lia].
Defined.

Lemma number_roundtrip_witness :
  exists r buf',
    encode_number (2 ^ 64 - 1) 5 (Some (64 :: replicate 10 0)) (zlen (64 :: replicate 10 0))
    = Ret (r, Some buf') /\
    1 <= r <= 11 /\
    forall rest n0, octets rest ->
      let coded := take (Z.to_nat r) buf' ++ rest in
      decode_number (Some coded) (zlen coded) 5 (Some n0) = Ret (r, Some (2 ^ 64 - 1)).
Proof.
  apply (number_roundtrip (2 ^ 64 - 1) 5 64 (replicate 10 0));
    [lia|lia|repeat constructor; unfold octet; lia|unfold zlen; simpl; lia].
Defined.
