(* ===== verification/HuffTables.v ===== *)
(** The data of the Huffman code.

    [huffcodes] is [huffcodes.txt], the code of RFC 7541 Appendix B: row [c] is
    the code of octet [c], aligned to its least significant bit, and its length.
    The build turns that file into the C array [etable], which is not in the
    repository: the encoder takes it as a parameter.

    The other tables are those of [huffy/decode.c], each in parts by index
    range.  [entries n c b] is [n] consecutive entries [{ c, b }]. *)
From S2P Require Import Prelude.

(** [struct encv] of [encode-table.h]. *)
Record encv := mk_encv { encv_value : Z; encv_bits : Z }.

(** [struct fast_find_symbol] of [decode.c]. *)
Record fast_find_symbol := mk_sym { sym_octet : Z; sym_bits : Z }.

Definition SENTINEL : Z := 255.
Definition INVALID23 : Z := 0.

Definition entries (n : nat) (octet bits : Z) : list fast_find_symbol :=
  replicate n (mk_sym octet bits).

Definition huffcodes : list encv :=
  [
  mk_encv 0x1ff8 13; mk_encv 0x7fffd8 23; mk_encv 0xfffffe2 28; mk_encv 0xfffffe3 28;
  mk_encv 0xfffffe4 28; mk_encv 0xfffffe5 28; mk_encv 0xfffffe6 28; mk_encv 0xfffffe7 28;
  mk_encv 0xfffffe8 28; mk_encv 0xffffea 24; mk_encv 0x3ffffffc 30; mk_encv 0xfffffe9 28;
  mk_encv 0xfffffea 28; mk_encv 0x3ffffffd 30; mk_encv 0xfffffeb 28; mk_encv 0xfffffec 28;
  mk_encv 0xfffffed 28; mk_encv 0xfffffee 28; mk_encv 0xfffffef 28; mk_encv 0xffffff0 28;
  mk_encv 0xffffff1 28; mk_encv 0xffffff2 28; mk_encv 0x3ffffffe 30; mk_encv 0xffffff3 28;
  mk_encv 0xffffff4 28; mk_encv 0xffffff5 28; mk_encv 0xffffff6 28; mk_encv 0xffffff7 28;
  mk_encv 0xffffff8 28; mk_encv 0xffffff9 28; mk_encv 0xffffffa 28; mk_encv 0xffffffb 28;
  mk_encv 0x14 6; mk_encv 0x3f8 10; mk_encv 0x3f9 10; mk_encv 0xffa 12;
  mk_encv 0x1ff9 13; mk_encv 0x15 6; mk_encv 0xf8 8; mk_encv 0x7fa 11;
  mk_encv 0x3fa 10; mk_encv 0x3fb 10; mk_encv 0xf9 8; mk_encv 0x7fb 11;
  mk_encv 0xfa 8; mk_encv 0x16 6; mk_encv 0x17 6; mk_encv 0x18 6;
  mk_encv 0x0 5; mk_encv 0x1 5; mk_encv 0x2 5; mk_encv 0x19 6;
  mk_encv 0x1a 6; mk_encv 0x1b 6; mk_encv 0x1c 6; mk_encv 0x1d 6;
  mk_encv 0x1e 6; mk_encv 0x1f 6; mk_encv 0x5c 7; mk_encv 0xfb 8;
  mk_encv 0x7ffc 15; mk_encv 0x20 6; mk_encv 0xffb 12; mk_encv 0x3fc 10;
  mk_encv 0x1ffa 13; mk_encv 0x21 6; mk_encv 0x5d 7; mk_encv 0x5e 7;
  mk_encv 0x5f 7; mk_encv 0x60 7; mk_encv 0x61 7; mk_encv 0x62 7;
  mk_encv 0x63 7; mk_encv 0x64 7; mk_encv 0x65 7; mk_encv 0x66 7;
  mk_encv 0x67 7; mk_encv 0x68 7; mk_encv 0x69 7; mk_encv 0x6a 7;
  mk_encv 0x6b 7; mk_encv 0x6c 7; mk_encv 0x6d 7; mk_encv 0x6e 7;
  mk_encv 0x6f 7; mk_encv 0x70 7; mk_encv 0x71 7; mk_encv 0x72 7;
  mk_encv 0xfc 8; mk_encv 0x73 7; mk_encv 0xfd 8; mk_encv 0x1ffb 13;
  mk_encv 0x7fff0 19; mk_encv 0x1ffc 13; mk_encv 0x3ffc 14; mk_encv 0x22 6;
  mk_encv 0x7ffd 15; mk_encv 0x3 5; mk_encv 0x23 6; mk_encv 0x4 5;
  mk_encv 0x24 6; mk_encv 0x5 5; mk_encv 0x25 6; mk_encv 0x26 6;
  mk_encv 0x27 6; mk_encv 0x6 5; mk_encv 0x74 7; mk_encv 0x75 7;
  mk_encv 0x28 6; mk_encv 0x29 6; mk_encv 0x2a 6; mk_encv 0x7 5;
  mk_encv 0x2b 6; mk_encv 0x76 7; mk_encv 0x2c 6; mk_encv 0x8 5;
  mk_encv 0x9 5; mk_encv 0x2d 6; mk_encv 0x77 7; mk_encv 0x78 7;
  mk_encv 0x79 7; mk_encv 0x7a 7; mk_encv 0x7b 7; mk_encv 0x7ffe 15;
  mk_encv 0x7fc 11; mk_encv 0x3ffd 14; mk_encv 0x1ffd 13; mk_encv 0xffffffc 28;
  mk_encv 0xfffe6 20; mk_encv 0x3fffd2 22; mk_encv 0xfffe7 20; mk_encv 0xfffe8 20;
  mk_encv 0x3fffd3 22; mk_encv 0x3fffd4 22; mk_encv 0x3fffd5 22; mk_encv 0x7fffd9 23;
  mk_encv 0x3fffd6 22; mk_encv 0x7fffda 23; mk_encv 0x7fffdb 23; mk_encv 0x7fffdc 23;
  mk_encv 0x7fffdd 23; mk_encv 0x7fffde 23; mk_encv 0xffffeb 24; mk_encv 0x7fffdf 23;
  mk_encv 0xffffec 24; mk_encv 0xffffed 24; mk_encv 0x3fffd7 22; mk_encv 0x7fffe0 23;
  mk_encv 0xffffee 24; mk_encv 0x7fffe1 23; mk_encv 0x7fffe2 23; mk_encv 0x7fffe3 23;
  mk_encv 0x7fffe4 23; mk_encv 0x1fffdc 21; mk_encv 0x3fffd8 22; mk_encv 0x7fffe5 23;
  mk_encv 0x3fffd9 22; mk_encv 0x7fffe6 23; mk_encv 0x7fffe7 23; mk_encv 0xffffef 24;
  mk_encv 0x3fffda 22; mk_encv 0x1fffdd 21; mk_encv 0xfffe9 20; mk_encv 0x3fffdb 22;
  mk_encv 0x3fffdc 22; mk_encv 0x7fffe8 23; mk_encv 0x7fffe9 23; mk_encv 0x1fffde 21;
  mk_encv 0x7fffea 23; mk_encv 0x3fffdd 22; mk_encv 0x3fffde 22; mk_encv 0xfffff0 24;
  mk_encv 0x1fffdf 21; mk_encv 0x3fffdf 22; mk_encv 0x7fffeb 23; mk_encv 0x7fffec 23;
  mk_encv 0x1fffe0 21; mk_encv 0x1fffe1 21; mk_encv 0x3fffe0 22; mk_encv 0x1fffe2 21;
  mk_encv 0x7fffed 23; mk_encv 0x3fffe1 22; mk_encv 0x7fffee 23; mk_encv 0x7fffef 23;
  mk_encv 0xfffea 20; mk_encv 0x3fffe2 22; mk_encv 0x3fffe3 22; mk_encv 0x3fffe4 22;
  mk_encv 0x7ffff0 23; mk_encv 0x3fffe5 22; mk_encv 0x3fffe6 22; mk_encv 0x7ffff1 23;
  mk_encv 0x3ffffe0 26; mk_encv 0x3ffffe1 26; mk_encv 0xfffeb 20; mk_encv 0x7fff1 19;
  mk_encv 0x3fffe7 22; mk_encv 0x7ffff2 23; mk_encv 0x3fffe8 22; mk_encv 0x1ffffec 25;
  mk_encv 0x3ffffe2 26; mk_encv 0x3ffffe3 26; mk_encv 0x3ffffe4 26; mk_encv 0x7ffffde 27;
  mk_encv 0x7ffffdf 27; mk_encv 0x3ffffe5 26; mk_encv 0xfffff1 24; mk_encv 0x1ffffed 25;
  mk_encv 0x7fff2 19; mk_encv 0x1fffe3 21; mk_encv 0x3ffffe6 26; mk_encv 0x7ffffe0 27;
  mk_encv 0x7ffffe1 27; mk_encv 0x3ffffe7 26; mk_encv 0x7ffffe2 27; mk_encv 0xfffff2 24;
  mk_encv 0x1fffe4 21; mk_encv 0x1fffe5 21; mk_encv 0x3ffffe8 26; mk_encv 0x3ffffe9 26;
  mk_encv 0xffffffd 28; mk_encv 0x7ffffe3 27; mk_encv 0x7ffffe4 27; mk_encv 0x7ffffe5 27;
  mk_encv 0xfffec 20; mk_encv 0xfffff3 24; mk_encv 0xfffed 20; mk_encv 0x1fffe6 21;
  mk_encv 0x3fffe9 22; mk_encv 0x1fffe7 21; mk_encv 0x1fffe8 21; mk_encv 0x7ffff3 23;
  mk_encv 0x3fffea 22; mk_encv 0x3fffeb 22; mk_encv 0x1ffffee 25; mk_encv 0x1ffffef 25;
  mk_encv 0xfffff4 24; mk_encv 0xfffff5 24; mk_encv 0x3ffffea 26; mk_encv 0x7ffff4 23;
  mk_encv 0x3ffffeb 26; mk_encv 0x7ffffe6 27; mk_encv 0x3ffffec 26; mk_encv 0x3ffffed 26;
  mk_encv 0x7ffffe7 27; mk_encv 0x7ffffe8 27; mk_encv 0x7ffffe9 27; mk_encv 0x7ffffea 27;
  mk_encv 0x7ffffeb 27; mk_encv 0xffffffe 28; mk_encv 0x7ffffec 27; mk_encv 0x7ffffed 27;
  mk_encv 0x7ffffee 27; mk_encv 0x7ffffef 27; mk_encv 0x7fffff0 27; mk_encv 0x3ffffee 26
  ].

Definition shortbits0_00_4f : list fast_find_symbol :=
  entries 8 48 5 ++ entries 8 49 5 ++ entries 8 50 5 ++ entries 8 97 5 ++
  entries 8 99 5 ++ entries 8 101 5 ++ entries 8 105 5 ++ entries 8 111 5 ++
  entries 8 115 5 ++ entries 8 116 5.

Definition shortbits0_50_b7 : list fast_find_symbol :=
  entries 4 32 6 ++ entries 4 37 6 ++ entries 4 45 6 ++ entries 4 46 6 ++
  entries 4 47 6 ++ entries 4 51 6 ++ entries 4 52 6 ++ entries 4 53 6 ++
  entries 4 54 6 ++ entries 4 55 6 ++ entries 4 56 6 ++ entries 4 57 6 ++
  entries 4 61 6 ++ entries 4 65 6 ++ entries 4 95 6 ++ entries 4 98 6 ++
  entries 4 100 6 ++ entries 4 102 6 ++ entries 4 103 6 ++ entries 4 104 6 ++
  entries 4 108 6 ++ entries 4 109 6 ++ entries 4 110 6 ++ entries 4 112 6 ++
  entries 4 114 6 ++ entries 4 117 6.

Definition shortbits0_b8_ff : list fast_find_symbol :=
  entries 2 58 7 ++ entries 2 66 7 ++ entries 2 67 7 ++ entries 2 68 7 ++
  entries 2 69 7 ++ entries 2 70 7 ++ entries 2 71 7 ++ entries 2 72 7 ++
  entries 2 73 7 ++ entries 2 74 7 ++ entries 2 75 7 ++ entries 2 76 7 ++
  entries 2 77 7 ++ entries 2 78 7 ++ entries 2 79 7 ++ entries 2 80 7 ++
  entries 2 81 7 ++ entries 2 82 7 ++ entries 2 83 7 ++ entries 2 84 7 ++
  entries 2 85 7 ++ entries 2 86 7 ++ entries 2 87 7 ++ entries 2 89 7 ++
  entries 2 106 7 ++ entries 2 107 7 ++ entries 2 113 7 ++ entries 2 118 7 ++
  entries 2 119 7 ++ entries 2 120 7 ++ entries 2 121 7 ++ entries 2 122 7 ++
  entries 1 38 8 ++ entries 1 42 8 ++ entries 1 44 8 ++ entries 1 59 8 ++
  entries 1 88 8 ++ entries 1 90 8 ++ entries 2 SENTINEL SENTINEL.

Definition shortbits1_ff_00_7f : list fast_find_symbol :=
  entries 64 63 10 ++ entries 32 39 11 ++ entries 32 43 11.

Definition shortbits1_ff_80_ff : list fast_find_symbol :=
  entries 32 124 11 ++ entries 16 35 12 ++ entries 16 62 12 ++ entries 8 0 13 ++
  entries 8 36 13 ++ entries 8 64 13 ++ entries 8 91 13 ++ entries 8 93 13 ++
  entries 8 126 13 ++ entries 4 94 14 ++ entries 4 125 14 ++ entries 2 60 15 ++
  entries 2 96 15 ++ entries 2 123 15 ++ entries 2 SENTINEL SENTINEL.

Definition shortbits2_fffe_00_7f : list fast_find_symbol :=
  entries 32 92 19 ++ entries 32 195 19 ++ entries 32 208 19 ++ entries 16 128 20 ++
  entries 16 130 20.

Definition shortbits2_fffe_80_ff : list fast_find_symbol :=
  entries 16 131 20 ++ entries 16 162 20 ++ entries 16 184 20 ++ entries 16 194 20 ++
  entries 16 224 20 ++ entries 16 226 20 ++ entries 8 153 21 ++ entries 8 161 21 ++
  entries 8 167 21 ++ entries 8 172 21.

Definition shortbits2_ffff_00_5f : list fast_find_symbol :=
  entries 8 176 21 ++ entries 8 177 21 ++ entries 8 179 21 ++ entries 8 209 21 ++
  entries 8 216 21 ++ entries 8 217 21 ++ entries 8 227 21 ++ entries 8 229 21 ++
  entries 8 230 21 ++ entries 4 129 22 ++ entries 4 132 22 ++ entries 4 133 22 ++
  entries 4 134 22 ++ entries 4 136 22 ++ entries 4 146 22.

Definition shortbits2_ffff_60_cf : list fast_find_symbol :=
  entries 4 154 22 ++ entries 4 156 22 ++ entries 4 160 22 ++ entries 4 163 22 ++
  entries 4 164 22 ++ entries 4 169 22 ++ entries 4 170 22 ++ entries 4 173 22 ++
  entries 4 178 22 ++ entries 4 181 22 ++ entries 4 185 22 ++ entries 4 186 22 ++
  entries 4 187 22 ++ entries 4 189 22 ++ entries 4 190 22 ++ entries 4 196 22 ++
  entries 4 198 22 ++ entries 4 228 22 ++ entries 4 232 22 ++ entries 4 233 22 ++
  entries 2 1 23 ++ entries 2 135 23 ++ entries 2 137 23 ++ entries 2 138 23 ++
  entries 2 139 23 ++ entries 2 140 23 ++ entries 2 141 23 ++ entries 2 143 23 ++
  entries 2 147 23 ++ entries 2 149 23 ++ entries 2 150 23 ++ entries 2 151 23 ++
  entries 2 152 23 ++ entries 2 155 23 ++ entries 2 157 23 ++ entries 2 158 23.

Definition shortbits2_ffff_d0_ff : list fast_find_symbol :=
  entries 2 165 23 ++ entries 2 166 23 ++ entries 2 168 23 ++ entries 2 174 23 ++
  entries 2 175 23 ++ entries 2 180 23 ++ entries 2 182 23 ++ entries 2 183 23 ++
  entries 2 188 23 ++ entries 2 191 23 ++ entries 2 197 23 ++ entries 2 231 23 ++
  entries 2 239 23 ++ entries 1 9 24 ++ entries 1 142 24 ++ entries 1 144 24 ++
  entries 1 145 24 ++ entries 1 148 24 ++ entries 1 159 24 ++ entries 1 171 24 ++
  entries 1 206 24 ++ entries 1 215 24 ++ entries 1 225 24 ++ entries 1 236 24 ++
  entries 1 237 24 ++ entries 10 SENTINEL SENTINEL.

Definition shortbits23_00_5f : list fast_find_symbol :=
  entries 96 INVALID23 INVALID23.

Definition shortbits23_60_9f : list fast_find_symbol :=
  entries 8 199 25 ++ entries 8 207 25 ++ entries 8 234 25 ++ entries 8 235 25 ++
  entries 4 192 26 ++ entries 4 193 26 ++ entries 4 200 26 ++ entries 4 201 26 ++
  entries 4 202 26 ++ entries 4 205 26 ++ entries 4 210 26 ++ entries 4 213 26.

Definition shortbits23_a0_df : list fast_find_symbol :=
  entries 4 218 26 ++ entries 4 219 26 ++ entries 4 238 26 ++ entries 4 240 26 ++
  entries 4 242 26 ++ entries 4 243 26 ++ entries 4 255 26 ++ entries 2 203 27 ++
  entries 2 204 27 ++ entries 2 211 27 ++ entries 2 212 27 ++ entries 2 214 27 ++
  entries 2 221 27 ++ entries 2 222 27 ++ entries 2 223 27 ++ entries 2 241 27 ++
  entries 2 244 27 ++ entries 2 245 27 ++ entries 2 246 27 ++ entries 2 247 27 ++
  entries 2 248 27 ++ entries 2 250 27 ++ entries 2 251 27 ++ entries 2 252 27 ++
  entries 2 253 27.

Definition shortbits3 : list fast_find_symbol :=
  entries 8 254 27 ++ entries 4 2 28 ++ entries 4 3 28 ++ entries 4 4 28 ++
  entries 4 5 28 ++ entries 4 6 28 ++ entries 4 7 28 ++ entries 4 8 28 ++
  entries 4 11 28 ++ entries 4 12 28 ++ entries 4 14 28 ++ entries 4 15 28 ++
  entries 4 16 28 ++ entries 4 17 28 ++ entries 4 18 28 ++ entries 4 19 28 ++
  entries 4 20 28 ++ entries 4 21 28 ++ entries 4 23 28 ++ entries 4 24 28 ++
  entries 4 25 28 ++ entries 4 26 28 ++ entries 4 27 28 ++ entries 4 28 28 ++
  entries 4 29 28 ++ entries 4 30 28 ++ entries 4 31 28 ++ entries 4 127 28 ++
  entries 4 220 28 ++ entries 4 249 28 ++ entries 1 10 30 ++ entries 1 13 30 ++
  entries 1 22 30 ++ entries 1 SENTINEL SENTINEL.

Definition shortbits0 : list fast_find_symbol :=
  shortbits0_00_4f ++ shortbits0_50_b7 ++ shortbits0_b8_ff.

Definition shortbits1_ff : list fast_find_symbol :=
  shortbits1_ff_00_7f ++ shortbits1_ff_80_ff.

Definition shortbits2_fffe : list fast_find_symbol :=
  shortbits2_fffe_00_7f ++ shortbits2_fffe_80_ff.

Definition shortbits2_ffff : list fast_find_symbol :=
  shortbits2_ffff_00_5f ++ shortbits2_ffff_60_cf ++ shortbits2_ffff_d0_ff.

Definition shortbits23 : list fast_find_symbol :=
  shortbits23_00_5f ++ shortbits23_60_9f ++ shortbits23_a0_df.
