(* ===== verification/BitBuf.v ===== *)
(** The bit reader of the Huffman decoder: [huffy/bitbuf.c].

    The pointers [pos] and [end] of a [bb_reader] are modelled by the octets
    between them.  The reader shows eight bits at a time ([octet]); [next] holds
    the [next_bits] bits that follow, left-aligned.  The main lemma, [bb_next_reads],
    says that it is a cursor into the bits of the buffer, followed by ones. *)
From S2P Require Import Prelude.

(** [struct bitbuf] *)
Record bitbuf := mk_bitbuf {
  bb_octet : Z;
  bb_next_octet : Z;
  bb_next_bits : Z;
  bb_eos_after_bits : Z
}.

(** [struct bb_reader] *)
Record bb_reader := mk_reader { bb : bitbuf; bb_pos : list Z }.

(** The shift counts are 8 - discard_bits, 8 - discard_bits + next_bits and
    discard_bits - next_bits: in range for discard_bits up to 8. *)
Definition bb_load_next (b : bitbuf) (discard_bits : Z) (buf : list Z)
    : outcome (bitbuf * list Z) :=
  if 8 <? discard_bits then Undef BadShift
  else
    let octet := u8 (Z.shiftl (bb_octet b) discard_bits) in
    let next := bb_next_octet b in
    let next_bits := bb_next_bits b in
    let '(octet, next, next_bits, eos, buf) :=
      if next_bits <=? discard_bits then
        let '(loaded, eos, buf) :=
          match buf with
          | [] =>
              (255,
               if bb_eos_after_bits b =? -1 then i8 (8 + next_bits) else bb_eos_after_bits b,
               [])
          | x :: buf => (x, bb_eos_after_bits b, buf)
          end in
        let octet := u8 (Z.lor octet (Z.shiftr next (8 - discard_bits))) in
        let octet := u8 (Z.lor octet (Z.shiftr loaded (8 - discard_bits + next_bits))) in
        (octet,
         u8 (Z.shiftl loaded (discard_bits - next_bits)),
         u8 (8 - (discard_bits - next_bits)),
         eos, buf)
      else
        (u8 (Z.lor octet (Z.shiftr next (8 - discard_bits))),
         u8 (Z.shiftl next discard_bits),
         u8 (next_bits - discard_bits),
         bb_eos_after_bits b, buf) in
    let eos :=
      if eos =? -1 then eos
      else if eos <? discard_bits then 0 else i8 (eos - discard_bits) in
    Ret (mk_bitbuf octet next next_bits eos, buf).

Definition bb_eos (r : bb_reader) : outcome bool :=
  let eos := bb_eos_after_bits (bb r) in
  if eos =? -1 then Ret false
  else if eos =? 0 then Ret true
  else
    let mask1 := u8 (Z.shiftl 255 (8 - eos mod 8)) in
    if (8 <? eos) && negb (Z.land (bb_next_octet (bb r)) mask1 =? mask1) then Ret false
    else if 8 <? eos then Undef BadShift (* 0xff << (8 - eos_after_bits) *)
    else
      let mask := u8 (Z.shiftl 255 (8 - eos)) in
      Ret (Z.land (bb_octet (bb r)) mask =? mask).

Definition bb_next (r : bb_reader) (seek_bits : Z) : outcome bb_reader :=
  '(b, pos) ← bb_load_next (bb r) seek_bits (bb_pos r);
  Ret (mk_reader b pos).

Definition bb_peek (r : bb_reader) : Z := bb_octet (bb r).

Definition bb_reader_init (buf : list Z) : outcome bb_reader :=
  r ← bb_next (mk_reader (mk_bitbuf 0 0 8 (-1)) buf) 8;
  bb_next r 8.

(** ** The bits of a buffer *)

(** Bit [i] of the octets of [buf], most significant first; every bit past
    the end is one. *)
Definition stream_bit (buf : list Z) (i : Z) : bool :=
  if i <? 0 then false
  else match buf !! Z.to_nat (i / 8) with
       | Some x => Z.testbit x (7 - i mod 8)
       | None => true
       end.

(** At most eight bits are left at [p], all ones: the padding of a Huffman
    string, or a part of it. *)
Definition at_end (buf : list Z) (p : Z) : bool :=
  (8 * zlen buf - p <=? 8) && forallb (fun j => stream_bit buf (p + j)) (seqZ 0 (8 * zlen buf - p)).

(** A reader moved on by each of [ds] in turn. *)
Fixpoint bb_seek (r : bb_reader) (ds : list Z) : outcome bb_reader :=
  match ds with
  | [] => Ret r
  | d :: ds => r ← bb_next r d; bb_seek r ds
  end.

(** The reader stands at bit [p] of [buf]. *)
Record reads (r : bb_reader) (buf : list Z) (p : Z) : Prop := mk_reads {
  rd_p : -16 <= p;
  rd_octet : octet (bb_octet (bb r));
  rd_next : octet (bb_next_octet (bb r));
  rd_next_bits : 1 <= bb_next_bits (bb r) <= 8;
  rd_pos : exists k, 0 <= k /\ p + 8 + bb_next_bits (bb r) = 8 * k
                  /\ bb_pos r = drop (Z.to_nat k) buf;
  rd_octet_bits j : 0 <= j < 8 -> Z.testbit (bb_octet (bb r)) (7 - j) = stream_bit buf (p + j);
  rd_next_octet_bits j : 0 <= j < 8 ->
    Z.testbit (bb_next_octet (bb r)) (7 - j)
    = (j <? bb_next_bits (bb r)) && stream_bit buf (p + 8 + j);
  rd_eos : bb_eos_after_bits (bb r)
    = if p + 8 + bb_next_bits (bb r) <=? 8 * zlen buf then -1
      else Z.max 0 (8 * zlen buf - p)
}.

Lemma stream_bit_octet buf k x j :
  0 <= k -> buf !! Z.to_nat k = Some x -> 0 <= j < 8 ->
  stream_bit buf (8 * k + j) = Z.testbit x (7 - j).
Proof.
  intros Hk Hx Hj. unfold stream_bit. destruct (Z.ltb_spec (8 * k + j) 0); [lia|].
  replace ((8 * k + j) / 8) with k by (apply (Z.div_unique _ _ _ j); lia).
  replace ((8 * k + j) mod 8) with j by (apply (Z.mod_unique _ _ k); lia).
  by rewrite Hx.
Qed.

Lemma stream_bit_end buf i : 8 * zlen buf <= i -> stream_bit buf i = true.
Proof.
  unfold zlen. intros Hi. unfold stream_bit. destruct (Z.ltb_spec i 0); [lia|].
  rewrite lookup_ge_None_2; [done|].
  assert (Z.of_nat (length buf) <= i / 8) by (apply Z.div_le_lower_bound; lia). lia.
Qed.

(** Decides the bit of a shifted octet. *)
Lemma testbit_shl x n i :
  0 <= i -> 0 <= n -> Z.testbit (Z.shiftl x n) i = (n <=? i) && Z.testbit x (i - n).
Proof.
  intros Hi Hn. rewrite Z.shiftl_spec by lia. destruct (Z.leb_spec n i); [done|].
  by rewrite Z.testbit_neg_r by lia.
Qed.

Lemma testbit_shr_octet x n i :
  octet x -> 0 <= i -> 0 <= n ->
  Z.testbit (Z.shiftr x n) i = (i + n <? 8) && Z.testbit x (i + n).
Proof.
  intros Hx Hi Hn. rewrite Z.shiftr_spec by lia. destruct (Z.ltb_spec (i + n) 8); [done|].
  by apply (testbit_high 8).
Qed.

(** The octet that a refill shifts in: input, or eight ones at the end. *)
Lemma loaded_bits buf k j :
  0 <= k -> 0 <= j < 8 ->
  Z.testbit (match drop (Z.to_nat k) buf with [] => 255 | x :: _ => x end) (7 - j)
  = stream_bit buf (8 * k + j).
Proof.
  intros Hk Hj. destruct (drop (Z.to_nat k) buf) as [|x tl] eqn:E.
  - rewrite stream_bit_end.
    + change 255 with (Z.ones 8). by apply Z.ones_spec_low; lia.
    + unfold zlen. apply (f_equal length) in E. rewrite length_drop in E. simpl in E. lia.
  - symmetry. apply stream_bit_octet; [done| |done].
    by rewrite <- (Nat.add_0_r (Z.to_nat k)), <- lookup_drop, E.
Qed.

Lemma loaded_octet buf k :
  octets buf -> octet (match drop k buf with [] => 255 | x :: _ => x end).
Proof.
  intros Hbuf. destruct (drop k buf) as [|x tl] eqn:E; [done|].
  assert (octets (drop k buf)) as Hd by by apply Forall_drop.
  rewrite E in Hd. by inversion Hd.
Qed.

(** One refill at octet [k]: what is loaded, the end marker, what is left. *)
Lemma refill buf k (e0 e1 : Z) :
  0 <= k ->
  match drop (Z.to_nat k) buf with [] => (255, e1, []) | x :: tl => (x, e0, tl) end
  = (match drop (Z.to_nat k) buf with [] => 255 | x :: _ => x end,
     if zlen buf <=? k then e1 else e0, drop (Z.to_nat (k + 1)) buf).
Proof.
  intros Hk. replace (Z.to_nat (k + 1)) with (Z.to_nat k + 1)%nat by lia.
  rewrite <- drop_drop. unfold zlen.
  destruct (drop (Z.to_nat k) buf) as [|x tl] eqn:E;
    apply (f_equal length) in E; rewrite length_drop in E; simpl in E;
    destruct (Z.leb_spec (Z.of_nat (length buf)) k); try lia; done.
Qed.

Ltac bool_cases :=
  repeat match goal with
  | |- context [?a <? ?b] => destruct (Z.ltb_spec a b); try lia
  | |- context [?a <=? ?b] => destruct (Z.leb_spec a b); try lia
  | |- context [?a =? ?b] => destruct (Z.eqb_spec a b); try lia
  end; cbn [andb orb negb].

(** Reduces an equation between bits of octet expressions to one between bits
    of the stream, by the octets' bits [H1], [H2] and [H3]. *)
Ltac octet_bits H1 H2 H3 :=
  repeat first
    [ rewrite testbit_wrap by lia
    | rewrite testbit_shl by lia
    | rewrite testbit_shr_octet by first [assumption | lia]
    | rewrite Z.lor_spec ];
  bool_cases;
  repeat first [rewrite H1 by lia | rewrite H2 by lia | rewrite H3 by lia];
  bool_cases;
  rewrite ?orb_false_r; try reflexivity; try (f_equal; lia).

(** Moving on by [d] bits: a bit of the new octet comes from the old octet, from
    [next], or from the octet just loaded. *)
Lemma bb_next_reads r buf p d :
  octets buf -> reads r buf p -> 0 <= d <= 8 ->
  exists r', bb_next r d = Ret r' /\ reads r' buf (p + d).
Proof.
  intros Hbuf [Hp Ho Hn Hnb (k & Hk & Hal & Hpos) Hob Hnob Heos] Hd.
  unfold bb_next, bb_load_next. rewrite Hpos.
  destruct r as [[o n nb eos] pos]. cbn [bb bb_pos bb_octet bb_next_octet bb_next_bits bb_eos_after_bits] in *.
  assert (forall i, 0 <= i < 8 -> Z.testbit o i = stream_bit buf (p + (7 - i))) as H1.
  { intros i Hi. rewrite <- Hob by lia. f_equal. lia. }
  assert (forall i, 0 <= i < 8 -> Z.testbit n i = (7 - i <? nb) && stream_bit buf (p + 8 + (7 - i))) as H2.
  { intros i Hi. rewrite <- Hnob by lia. f_equal. lia. }
  destruct (Z.ltb_spec 8 d); [lia|]. destruct (Z.leb_spec nb d) as [Hle|Hgt].
  - rewrite refill by done. pose proof (loaded_octet buf (Z.to_nat k) Hbuf) as Hlo.
    pose proof (fun j => loaded_bits buf k j Hk) as Hlb.
    set (x := match drop (Z.to_nat k) buf with [] => 255 | x :: _ => x end) in *.
    assert (forall i, 0 <= i < 8 -> Z.testbit x i = stream_bit buf (8 * k + (7 - i))) as H3.
    { intros i Hi. rewrite <- Hlb by lia. f_equal. lia. }
    eexists. split; [reflexivity|].
    constructor; cbn [bb bb_pos bb_octet bb_next_octet bb_next_bits bb_eos_after_bits];
      try (apply wrap_octet); rewrite ?(wrap_small 8 (8 - _)) by lia; [lia|lia|..].
    + exists (k + 1). split; [lia|]. split; [lia|done].
    + intros j Hj. octet_bits H1 H2 H3.
    + intros j Hj. octet_bits H1 H2 H3.
    + rewrite !Hal in Heos. rewrite (swrap_small 8 (8 + nb)) by (simpl; lia). subst eos.
      destruct (Z.leb_spec (8 * k) (8 * zlen buf)); change (-1 =? -1) with true; cbv iota;
      bool_cases; try done; rewrite ?swrap_small by (simpl; lia); lia.
  - eexists. split; [reflexivity|].
    constructor; cbn [bb bb_pos bb_octet bb_next_octet bb_next_bits bb_eos_after_bits];
      try (apply wrap_octet); rewrite ?(wrap_small 8 (nb - _)) by lia; [lia|lia|..].
    + exists k. split; [lia|]. split; [lia|done].
    + intros j Hj. octet_bits H1 H2 H2.
    + intros j Hj. octet_bits H1 H2 H2.
    + rewrite !Hal in Heos. subst eos.
      destruct (Z.leb_spec (8 * k) (8 * zlen buf)); change (-1 =? -1) with true; cbv iota;
      bool_cases; try done; rewrite ?swrap_small by (simpl; lia); lia.
Qed.

Lemma bb_reader_init_reads buf :
  octets buf -> exists r, bb_reader_init buf = Ret r /\ reads r buf 0.
Proof.
  intros Hbuf. unfold bb_reader_init.
  assert (reads (mk_reader (mk_bitbuf 0 0 8 (-1)) buf) buf (-16)) as H0.
  { constructor; cbn [bb bb_pos bb_octet bb_next_octet bb_next_bits bb_eos_after_bits]; try done.
    - exists 0. done.
    - intros j Hj. unfold stream_bit. destruct (Z.ltb_spec (-16 + j) 0); [|lia]. apply Z.testbit_0_l.
    - intros j Hj. unfold stream_bit. destruct (Z.ltb_spec (-16 + 8 + j) 0); [|lia].
      rewrite andb_false_r. apply Z.testbit_0_l.
    - pose proof (zlen_nonneg buf). change (-16 + 8 + 8) with 0. destruct (Z.leb_spec 0 (8 * zlen buf)); [done|lia]. }
  destruct (bb_next_reads _ _ _ 8 Hbuf H0) as (r1 & -> & H1); [lia|].
  destruct (bb_next_reads _ _ _ 8 Hbuf H1) as (r2 & H2 & H3); [lia|].
  exists r2. done.
Qed.

Lemma mask_all_ones o e :
  octet o -> 1 <= e <= 8 ->
  let mask := u8 (Z.shiftl 255 (8 - e)) in
  (Z.land o mask =? mask) = forallb (fun j => Z.testbit o (7 - j)) (seqZ 0 e).
Proof.
  intros Ho He. apply eqb_true_iff.
  assert (e = 1 \/ e = 2 \/ e = 3 \/ e = 4 \/ e = 5 \/ e = 6 \/ e = 7 \/ e = 8) as Hc by lia.
  destruct_or! Hc; subst e; by_octets o.
Qed.

Lemma bb_eos_reads r buf p : 0 <= p -> reads r buf p -> bb_eos r = Ret (at_end buf p).
Proof.
  intros Hp [_ Ho _ Hnb (k & Hk & Hal & _) Hob _ Heos].
  unfold bb_eos, at_end. rewrite Heos.
  destruct (Z.leb_spec (p + 8 + bb_next_bits (bb r)) (8 * zlen buf)).
  { destruct (Z.leb_spec (8 * zlen buf - p) 8); [lia|done]. }
  destruct (Z.leb_spec (8 * zlen buf - p) 8); [|lia].
  destruct (Z.eqb_spec (Z.max 0 (8 * zlen buf - p)) (-1)); [lia|].
  destruct (Z.eqb_spec (Z.max 0 (8 * zlen buf - p)) 0).
  { replace (seqZ 0 (8 * zlen buf - p)) with (@nil Z) by (symmetry; apply seqZ_nil; lia). done. }
  replace (Z.max 0 (8 * zlen buf - p)) with (8 * zlen buf - p) by lia.
  destruct (Z.ltb_spec 8 (8 * zlen buf - p)); [lia|]. cbn [andb].
  rewrite mask_all_ones by (done || lia). f_equal. apply forallb_ext_in.
  intros j Hj%elem_of_seqZ. apply Hob. lia.
Qed.

Lemma bb_seek_reads r buf p ds :
  octets buf -> reads r buf p -> Forall (fun d => 0 <= d <= 8) ds ->
  exists r', bb_seek r ds = Ret r' /\ reads r' buf (p + foldr Z.add 0 ds).
Proof.
  intros Hbuf Hr Hds. revert r p Hr. induction Hds as [|d ds Hd Hds IH]; intros r p Hr; simpl.
  - exists r. by rewrite Z.add_0_r.
  - destruct (bb_next_reads r buf p d Hbuf Hr Hd) as (r1 & -> & H1).
    destruct (IH r1 _ H1) as (r2 & H2 & H3). exists r2. by rewrite Z.add_assoc.
Qed.

Lemma foldr_add_nonneg ds : Forall (fun d => 0 <= d <= 8) ds -> 0 <= foldr Z.add 0 ds.
Proof. induction 1; simpl; lia. Qed.

(** the bit reader is a cursor into the bits of its buffer followed by ones
    without end: after any sequence of seeks of up to eight bits [bb_peek] shows
    the eight bits at the sum of the seeks, and [bb_eos] holds exactly when at
    most eight bits of the buffer are left and all of them are ones. *)
Theorem bit_reader_correct buf ds :
  octets buf -> Forall (fun d => 0 <= d <= 8) ds ->
  exists r,
    (r0 ← bb_reader_init buf; bb_seek r0 ds) = Ret r /\
    let p := foldr Z.add 0 ds in
    octet (bb_peek r) /\
    (forall j, 0 <= j < 8 -> Z.testbit (bb_peek r) (7 - j) = stream_bit buf (p + j)) /\
    bb_eos r = Ret (at_end buf p).
Proof.
  intros Hbuf Hds. destruct (bb_reader_init_reads buf Hbuf) as (r0 & -> & Hr0).
  destruct (bb_seek_reads r0 buf 0 ds Hbuf Hr0 Hds) as (r & Hr & Hrd).
  exists r. split; [done|]. cbv zeta. pose proof (foldr_add_nonneg ds Hds).
  split; [apply Hrd|]. split; [apply Hrd|]. by apply bb_eos_reads.
Qed.

(** "w", "w", "w", "." of RFC 7541 C.4.1, as in [bitbuf-test.c]. *)
Definition www : list Z :=
  [0xf1; 0xe3; 0xc2; 0xe5; 0xf2; 0x3a; 0x6b; 0xa0; 0xab; 0x90; 0xf4; 0xff].

Lemma bit_reader_correct_witness :
  exists r,
    (r0 ← bb_reader_init www; bb_seek r0 [7; 7; 7]) = Ret r /\
    let p := foldr Z.add 0 [7; 7; 7] in
    octet (bb_peek r) /\
    (forall j, 0 <= j < 8 -> Z.testbit (bb_peek r) (7 - j) = stream_bit www (p + j)) /\
    bb_eos r = Ret (at_end www p).
Proof.
  apply (bit_reader_correct www [7; 7; 7]); [apply (bool_decide_unpack _); exact I|].
  repeat constructor; lia.
Defined.
