(* ===== verification/HuffCode.v ===== *)
(** The Huffman code as the specification of encoder and decoder: which symbol
    stands at a bit of a buffer, and a decoder that reads one symbol after the
    other by searching [huffcodes]. *)
From S2P Require Import Prelude HuffTables BitBuf.

(** The code of octet [c]. *)
Definition huffcode (c : Z) : encv := default (mk_encv 0 0) (huffcodes !! Z.to_nat c).

(** Bit [j] of a code, first bit first. *)
Definition code_bit (e : encv) (j : Z) : bool :=
  Z.testbit (encv_value e) (encv_bits e - 1 - j).

(** The code of [c] stands at bit [p] of [buf]. *)
Definition code_at (buf : list Z) (p c : Z) : bool :=
  forallb (fun j => eqb (stream_bit buf (p + j)) (code_bit (huffcode c) j))
    (seqZ 0 (encv_bits (huffcode c))).

(** The symbol at bit [p]; there is none where 30 ones (EOS) stand. *)
Definition symbol_at (buf : list Z) (p : Z) : option Z :=
  List.find (code_at buf p) (seqZ 0 256).

(** The decoder the C code implements: symbols are read from bit [p] on until
    the padding, EOS or the end of the room for them.  The result is the count
    returned, or -1 for want of room, and the symbols. *)
Fixpoint huffman_spec (room : nat) (buf : list Z) (p : Z) (out : list Z) : Z * list Z :=
  if at_end buf p then (zlen out, out)
  else
    match room with
    | O => (-1, out)
    | S room =>
        match symbol_at buf p with
        | None => (zlen out, out)
        | Some c => huffman_spec room buf (p + encv_bits (huffcode c)) (out ++ [c])
        end
    end.

(** ** The code is a prefix code whose words all hold a zero *)

Definition code_ok (e : encv) : bool :=
  (5 <=? encv_bits e) && (encv_bits e <=? 30) && (0 <=? encv_value e)
  && (encv_value e <? 2 ^ encv_bits e - 1).

(** The two words differ within the length of the shorter one. *)
Definition codes_differ (e e' : encv) : bool :=
  let n := Z.min (encv_bits e) (encv_bits e') in
  negb (Z.shiftr (encv_value e) (encv_bits e - n) =? Z.shiftr (encv_value e') (encv_bits e' - n)).

Fixpoint prefix_free (l : list encv) : bool :=
  match l with
  | [] => true
  | e :: l => forallb (codes_differ e) l && prefix_free l
  end.

Lemma huffcodes_length : length huffcodes = 256%nat.
Proof. reflexivity. Qed.

Lemma huffcode_ok c :
  octet c ->
  5 <= encv_bits (huffcode c) <= 30 /\
  0 <= encv_value (huffcode c) < 2 ^ encv_bits (huffcode c) - 1.
Proof.
  intros Hc. assert (code_ok (huffcode c) = true) as H by by_octets c.
  unfold code_ok in H. rewrite !andb_true_iff, !Z.leb_le, Z.ltb_lt in H. lia.
Qed.

Lemma huffcodes_prefix_free : prefix_free huffcodes = true.
Proof. vm_compute. reflexivity. Qed.

Lemma prefix_free_lookup l i j e e' :
  prefix_free l = true -> (i < j)%nat -> l !! i = Some e -> l !! j = Some e' ->
  codes_differ e e' = true.
Proof.
  revert i j. induction l as [|x l IH]; intros i j Hl Hij; [done|].
  simpl in Hl. apply andb_true_iff in Hl as [Hx Hl].
  destruct j as [|j]; [lia|]. destruct i as [|i]; simpl.
  - intros [= ->] Hj. rewrite forallb_forall in Hx. apply Hx.
    apply list_elem_of_In. by eapply list_elem_of_lookup_2.
  - intros Hi Hj. apply (IH i j); [done|lia|done..].
Qed.

Lemma huffcode_lookup c : octet c -> huffcodes !! Z.to_nat c = Some (huffcode c).
Proof.
  intros Hc. unfold octet in Hc.
  destruct (lookup_lt_is_Some_2 huffcodes (Z.to_nat c)) as [e He].
  { rewrite huffcodes_length. lia. }
  unfold huffcode. by rewrite He.
Qed.

Lemma codes_differ_sym e e' : codes_differ e e' = codes_differ e' e.
Proof. unfold codes_differ. by rewrite Z.min_comm, Z.eqb_sym. Qed.

Lemma huffcodes_differ c c' :
  octet c -> octet c' -> c <> c' -> codes_differ (huffcode c) (huffcode c') = true.
Proof.
  intros Hc Hc' Hne. pose proof (huffcode_lookup c Hc). pose proof (huffcode_lookup c' Hc').
  unfold octet in *. destruct (Z.ltb_spec c c').
  - apply (prefix_free_lookup huffcodes (Z.to_nat c) (Z.to_nat c'));
      [apply huffcodes_prefix_free|lia|done..].
  - rewrite codes_differ_sym.
    apply (prefix_free_lookup huffcodes (Z.to_nat c') (Z.to_nat c));
      [apply huffcodes_prefix_free|lia|done..].
Qed.

Lemma code_at_spec buf p c :
  code_at buf p c = true <->
  forall j, 0 <= j < encv_bits (huffcode c) -> stream_bit buf (p + j) = code_bit (huffcode c) j.
Proof.
  unfold code_at. rewrite forallb_forall. split; intros H j Hj.
  - apply eqb_true_iff, H, list_elem_of_In, elem_of_seqZ. lia.
  - apply list_elem_of_In, elem_of_seqZ in Hj. apply eqb_true_iff, H. lia.
Qed.

(** Words that agree within the shorter length do not differ. *)
Lemma agree_not_differ e e' :
  code_ok e = true -> code_ok e' = true ->
  (forall j, 0 <= j < Z.min (encv_bits e) (encv_bits e') -> code_bit e j = code_bit e' j) ->
  codes_differ e e' = false.
Proof.
  unfold code_ok. rewrite !andb_true_iff, !Z.leb_le, !Z.ltb_lt. intros Ho Ho' H.
  unfold codes_differ. set (n := Z.min _ _) in *. apply negb_false_iff, Z.eqb_eq.
  apply Z.bits_inj'. intros i Hi. rewrite !Z.shiftr_spec by lia.
  destruct (Z.ltb_spec i n).
  - specialize (H (n - 1 - i)). unfold code_bit in H.
    replace (encv_bits e - 1 - (n - 1 - i)) with (i + (encv_bits e - n)) in H by lia.
    replace (encv_bits e' - 1 - (n - 1 - i)) with (i + (encv_bits e' - n)) in H by lia.
    apply H. lia.
  - rewrite (testbit_high (encv_bits e)), (testbit_high (encv_bits e')) by lia. done.
Qed.

Lemma code_at_unique buf p c c' :
  octet c -> octet c' -> code_at buf p c = true -> code_at buf p c' = true -> c = c'.
Proof.
  intros Hc Hc' H H'. destruct (decide (c = c')) as [|Hne]; [done|exfalso].
  rewrite code_at_spec in H, H'. pose proof (huffcodes_differ c c' Hc Hc' Hne) as Hd.
  rewrite agree_not_differ in Hd; [done|..].
  - by_octets c.
  - by_octets c'.
  - intros j Hj. rewrite <- H, <- H' by lia. done.
Qed.

Lemma symbol_at_Some buf p c : octet c -> code_at buf p c = true -> symbol_at buf p = Some c.
Proof.
  intros Hc H. unfold symbol_at. destruct (List.find _ _) as [c'|] eqn:E.
  - apply List.find_some in E as [Hin H']. apply list_elem_of_In, elem_of_seqZ in Hin.
    f_equal. apply (code_at_unique buf p); [unfold octet; lia|done..].
  - apply List.find_none with (x := c) in E; [congruence|].
    apply list_elem_of_In, elem_of_seqZ. unfold octet in Hc. lia.
Qed.

(** No word stands where only ones do. *)
Lemma code_has_zero c :
  octet c -> exists j, 0 <= j < encv_bits (huffcode c) /\ code_bit (huffcode c) j = false.
Proof.
  intros Hc.
  assert (existsb (fun j => negb (code_bit (huffcode c) j)) (seqZ 0 (encv_bits (huffcode c))) = true)
    as H by by_octets c.
  apply existsb_exists in H as (j & Hj & Hb). apply list_elem_of_In, elem_of_seqZ in Hj.
  exists j. apply negb_true_iff in Hb. split; [lia|done].
Qed.

Lemma symbol_at_ones buf p :
  (forall j, 0 <= j < 30 -> stream_bit buf (p + j) = true) -> symbol_at buf p = None.
Proof.
  intros H. unfold symbol_at. destruct (List.find _ _) as [c|] eqn:E; [exfalso|done].
  apply List.find_some in E as [Hin Hc]. apply list_elem_of_In, elem_of_seqZ in Hin.
  destruct (code_has_zero c) as (j & Hj & Hz); [unfold octet; lia|].
  rewrite code_at_spec in Hc. pose proof (huffcode_ok c) as Ho.
  rewrite <- Hc, H in Hz; [done|..]; [|lia]. destruct Ho; [unfold octet; lia|lia].
Qed.

(** ** Windows: the first [k] octets' worth of bits at [p], as a number *)

Definition window (buf : list Z) (p k w : Z) : Prop :=
  0 <= k /\ 0 <= w < 2 ^ (8 * k) /\
  forall j, 0 <= j < 8 * k -> Z.testbit w (8 * k - 1 - j) = stream_bit buf (p + j).

Lemma window_nil buf p : window buf p 0 0.
Proof. split; [lia|]. split; [lia|]. intros. lia. Qed.

Lemma testbit_snoc w o i :
  octet o -> 0 <= i ->
  Z.testbit (w * 256 + o) i = if i <? 8 then Z.testbit o i else Z.testbit w (i - 8).
Proof.
  intros Ho Hi. replace (w * 256 + o) with (w * 256 - (w * 256) mod 2 ^ 8 + o).
  2:{ change (2 ^ 8) with 256. rewrite Z.mod_mul by lia. lia. }
  rewrite <- lor_low, Z.lor_spec, Z.ldiff_spec by (done || lia).
  replace (w * 256) with (Z.shiftl w 8) by (rewrite Z.shiftl_mul_pow2; lia).
  rewrite testbit_shl by lia. destruct (Z.ltb_spec i 8), (Z.leb_spec 8 i); try lia.
  - done.
  - rewrite Z.ones_spec_high, (testbit_high 8 o) by (done || lia).
    simpl. by rewrite andb_true_r, orb_false_r.
Qed.

Lemma window_snoc buf p k w r :
  window buf p k w -> reads r buf (p + 8 * k) -> window buf p (k + 1) (w * 256 + bb_peek r).
Proof.
  intros (Hk & Hw & Hb) Hr. pose proof (rd_octet _ _ _ Hr) as Ho. pose proof Ho as Ho'.
  unfold octet in Ho'. unfold bb_peek. split; [lia|]. split.
  { replace (8 * (k + 1)) with (8 * k + 8) by lia. rewrite Z.pow_add_r by lia. lia. }
  intros j Hj. rewrite testbit_snoc by (done || lia).
  destruct (Z.ltb_spec (8 * (k + 1) - 1 - j) 8).
  - replace (8 * (k + 1) - 1 - j) with (7 - (j - 8 * k)) by lia.
    rewrite (rd_octet_bits _ _ _ Hr) by lia. f_equal. lia.
  - rewrite <- Hb by lia. f_equal. lia.
Qed.

(** [w], a window of [k] octets, begins with the word of the entry's symbol. *)
Definition leaf_ok (k w : Z) (sym : fast_find_symbol) : bool :=
  let e := huffcode (sym_octet sym) in
  (0 <=? sym_octet sym) && (sym_octet sym <? 256) && (sym_bits sym =? encv_bits e)
  && (encv_bits e <=? 8 * k) && (Z.shiftr w (8 * k - encv_bits e) =? encv_value e).

Lemma window_symbol buf p k w sym :
  window buf p k w -> leaf_ok k w sym = true ->
  octet (sym_octet sym) /\ sym_bits sym = encv_bits (huffcode (sym_octet sym)) /\
  symbol_at buf p = Some (sym_octet sym).
Proof.
  intros (Hk & Hw & Hb). unfold leaf_ok.
  rewrite !andb_true_iff, !Z.leb_le, !Z.eqb_eq, Z.ltb_lt. intros ((((H0 & H1) & Hn) & Hle) & Hv).
  assert (octet (sym_octet sym)) as Ho by done.
  split; [done|]. split; [done|]. apply symbol_at_Some, code_at_spec; [done|].
  intros j Hj. unfold code_bit. rewrite <- Hv, Z.shiftr_spec by lia.
  rewrite <- Hb by lia. f_equal. lia.
Qed.
