(* ===== verification/HuffDecode.v ===== *)
(** The table-driven Huffman decoder: [huffy/decode.c].

    [huffman_decode_refines] shows that it computes [huffman_spec] on every input:
    its five tables and the shifts between them implement exactly the code of
    [huffcodes.txt], and no table is read out of range. *)
From S2P Require Import Prelude HuffTables BitBuf Number HuffCode.

Definition is_sentinel (sym : fast_find_symbol) : bool := sym_octet sym =? SENTINEL.

(** [octets]: exclamation mark, double quote, parentheses. *)
Definition octets_fe : list Z := [33; 34; 40; 41].

(** One round of [huffman_decode]'s loop after the [bb_eos] test: the octet
    stored and the reader behind its code, or [None] where it returns at EOS. *)
Definition decode_symbol (r : bb_reader) : outcome (option (Z * bb_reader)) :=
  let octet := bb_peek r in
  sym ← shortbits0.[octet];
  if negb (is_sentinel sym) then
    r ← bb_next r (sym_bits sym);
    Ret (Some (sym_octet sym, r))
  else
    r ← bb_next r 8;
    if octet =? 0xfe then
      let octet := bb_peek r in
      o ← octets_fe.[Z.shiftr octet 6];
      r ← bb_next r 2;
      Ret (Some (o, r))
    else
      let octet := bb_peek r in
      sym ← shortbits1_ff.[octet];
      if negb (is_sentinel sym) then
        r ← bb_next r (sym_bits sym mod 8);
        Ret (Some (sym_octet sym, r))
      else
        r ← bb_next r 8;
        if octet =? 0xfe then
          let octet := bb_peek r in
          sym ← shortbits2_fffe.[octet];
          r ← bb_next r (sym_bits sym mod 8);
          Ret (Some (sym_octet sym, r))
        else
          let octet := bb_peek r in
          sym ← shortbits2_ffff.[octet];
          if negb (is_sentinel sym) then
            r ← bb_next r (u8 (sym_bits sym - 16));
            Ret (Some (sym_octet sym, r))
          else
            r ← bb_next r 8;
            if negb (octet =? 0xfe) && negb (octet =? 0xff) then
              sym ← shortbits23.[Z.lor (u8 (Z.shiftl octet 4)) (Z.shiftr (bb_peek r) 4)];
              r ← bb_next r (sym_bits sym mod 8);
              Ret (Some (sym_octet sym, r))
            else
              let octet := u8 (Z.lor (Z.land (Z.shiftl octet 6) 64) (Z.shiftr (bb_peek r) 2)) in
              sym ← shortbits3.[octet];
              if negb (is_sentinel sym) then
                r ← bb_next r (sym_bits sym mod 8);
                Ret (Some (sym_octet sym, r))
              else Ret None.

(** The loop [while (dest != end)] with [room] octets from [dest] to [end] and
    [out] stored so far: the result and the octets stored. *)
Fixpoint huffman_decode_loop (room : nat) (r : bb_reader) (out : list Z)
    : outcome (Z * list Z) :=
  match room with
  | O =>
      e ← bb_eos r;
      Ret (if e : bool then zlen out else -1, out)
  | S room =>
      e ← bb_eos r;
      if e : bool then Ret (zlen out, out)
      else
        s ← decode_symbol r;
        match s with
        | None => Ret (zlen out, out)
        | Some (c, r) => huffman_decode_loop room r (out ++ [c])
        end
  end.

Definition huffman_decode (buf : option (list Z)) (buflen first_octet_bits : Z)
    (dest : option (list Z)) (destlen : Z) : outcome (Z * option (list Z)) :=
  match buf, dest with
  | Some buf, Some d =>
      if (first_octet_bits <? 1) || (8 <? first_octet_bits) then Ret (-3, dest)
      else
        input ← arr_slice buf 0 buflen;
        r ← bb_reader_init input;
        r ← (if negb (first_octet_bits =? 8) then bb_next r (8 - first_octet_bits) else Ret r);
        '(n, out) ← huffman_decode_loop (Z.to_nat destlen) r [];
        d ← arr_blit d 0 out;
        Ret (n, Some d)
  | _, _ => Ret (-3, dest)
  end.

(** [*destp] and [*destlenp] as the caller passes them, and whether [malloc]
    returns memory. *)
Definition string_decode_common (malloc_ok : bool) (buf : list Z) (buflen : Z)
    (destp : option (list Z)) (destlen : Z) : outcome (Z * (option (list Z) * Z)) :=
  if buflen <? 1 then Ret (-1, (destp, destlen))
  else
    b0 ← buf.[0];
    let huff := negb (Z.land b0 128 =? 0) in
    '(len, number) ← decode_number (Some buf) buflen 7 (Some 0);
    let number := default 0 number in
    if len <? 1 then Ret (-1, (destp, destlen))
    else if u64 (buflen - len) <? number then Ret (-1, (destp, destlen))
    else
      let decode (dest : list Z) (destlen : Z) :=
        if huff then
          '(n, dest) ← huffman_decode (Some (drop (Z.to_nat len) buf)) (buflen - len) 8
                         (Some dest) destlen;
          Ret (n, (dest, destlen))
        else
          src ← arr_slice buf len number;
          dest ← arr_blit dest 0 src;
          Ret (len + number, (Some dest, destlen)) in
      match destp with
      | None =>
          let destlen := if huff then u64 (u64 (number * 8) / 5 + 1) else number in
          if malloc_ok then decode (replicate (Z.to_nat destlen) 0) destlen
          else Ret (-1, (None, 0))
      | Some dest =>
          if destlen <? number then Ret (-1, (destp, destlen))
          else decode dest destlen
      end.

Definition string_decode (buf : list Z) (buflen : Z) (dest : list Z) (destlen : Z)
    : outcome (Z * (option (list Z) * Z)) :=
  string_decode_common true buf buflen (Some dest) destlen.

(** The old buffer is freed; its contents do not matter. *)
Definition string_decode_alloc (malloc_ok : bool) (buf : list Z) (buflen : Z)
    (destp : option (list Z)) (destlen : Z) : outcome (Z * (option (list Z) * Z)) :=
  string_decode_common malloc_ok buf buflen None 0.

(** "www.example.com" *)
Definition text_www : list Z := [119; 119; 119; 46; 101; 120; 97; 109; 112; 108; 101; 46; 99; 111; 109].

(** ** The tables hold the code *)

Definition table_entry (tbl : list fast_find_symbol) (i : Z) : fast_find_symbol :=
  default (mk_sym 0 0) (tbl !! Z.to_nat i).

Lemma table_get tbl i : 0 <= i < zlen tbl -> tbl.[i] = Ret (table_entry tbl i).
Proof.
  intros Hi. destruct (arr_get_in tbl i Hi) as (x & -> & Hx).
  unfold table_entry. by rewrite Hx.
Qed.

(** The entries reached behind a prefix: each is a symbol whose word begins the
    window, with a length that fits the seek that follows, or the sentinel. *)
Definition level_ok (tbl : list fast_find_symbol) (prefix k lo hi : Z) (o : Z) : bool :=
  let sym := table_entry tbl o in
  is_sentinel sym
  || leaf_ok k (prefix * 256 + o) sym && (lo <=? sym_bits sym) && (sym_bits sym <=? hi).

Lemma level_ok_spec tbl prefix k lo hi o :
  level_ok tbl prefix k lo hi o = true -> is_sentinel (table_entry tbl o) = false ->
  leaf_ok k (prefix * 256 + o) (table_entry tbl o) = true /\
  lo <= sym_bits (table_entry tbl o) <= hi.
Proof.
  unfold level_ok. intros H Hs. rewrite Hs in H. cbn [orb] in H.
  rewrite !andb_true_iff, !Z.leb_le in H. tauto.
Qed.

Lemma level0 o : octet o -> level_ok shortbits0 0 1 1 8 o = true.
Proof. intros. by_octets o. Qed.

Lemma level0_sentinel o :
  octet o -> is_sentinel (table_entry shortbits0 o) = true -> o = 0xfe \/ o = 0xff.
Proof.
  intros Ho Hs.
  assert (implb (is_sentinel (table_entry shortbits0 o)) ((o =? 0xfe) || (o =? 0xff)) = true)
    as H by by_octets o.
  rewrite Hs in H. simpl in H. rewrite orb_true_iff, !Z.eqb_eq in H. done.
Qed.

Lemma level_fe o :
  octet o ->
  leaf_ok 2 (0xfe * 256 + o) (mk_sym (default 0 (octets_fe !! Z.to_nat (Z.shiftr o 6))) 10) = true
  /\ (0 <=? Z.shiftr o 6) && (Z.shiftr o 6 <? 4) = true.
Proof. intros. split; by_octets o. Qed.

Lemma level1_ff o : octet o -> level_ok shortbits1_ff 0xff 2 9 15 o = true.
Proof. intros. by_octets o. Qed.

Lemma level1_ff_sentinel o :
  octet o -> is_sentinel (table_entry shortbits1_ff o) = true -> o = 0xfe \/ o = 0xff.
Proof.
  intros Ho Hs.
  assert (implb (is_sentinel (table_entry shortbits1_ff o)) ((o =? 0xfe) || (o =? 0xff)) = true)
    as H by by_octets o.
  rewrite Hs in H. simpl in H. rewrite orb_true_iff, !Z.eqb_eq in H. done.
Qed.

Lemma level2_fffe o :
  octet o -> level_ok shortbits2_fffe 0xfffe 3 17 23 o && negb (is_sentinel (table_entry shortbits2_fffe o)) = true.
Proof. intros. by_octets o. Qed.

Lemma level2_ffff o : octet o -> level_ok shortbits2_ffff 0xffff 3 17 24 o = true.
Proof. intros. by_octets o. Qed.

(** Behind a sentinel of [shortbits2_ffff] other than fe and ff: the entry of
    [shortbits23] that the two octets select. *)
Definition index23 (o2 o3 : Z) : Z := Z.lor (u8 (Z.shiftl o2 4)) (Z.shiftr o3 4).

Definition level23_ok (o2 o3 : Z) : bool :=
  let sym := table_entry shortbits23 (index23 o2 o3) in
  (0 <=? index23 o2 o3) && (index23 o2 o3 <? 224)
  && leaf_ok 4 ((0xffff * 256 + o2) * 256 + o3) sym && (25 <=? sym_bits sym) && (sym_bits sym <=? 31).

Lemma level23 o2 o3 :
  octet o2 -> octet o3 -> is_sentinel (table_entry shortbits2_ffff o2) = true ->
  o2 <> 0xfe -> o2 <> 0xff -> level23_ok o2 o3 = true.
Proof.
  intros H2 H3 Hs Hfe Hff.
  assert ((if is_sentinel (table_entry shortbits2_ffff o2) && negb (o2 =? 0xfe) && negb (o2 =? 0xff)
           then all_octets (level23_ok o2) else true) = true) as H by by_octets o2.
  rewrite Hs in H. destruct (Z.eqb_spec o2 0xfe), (Z.eqb_spec o2 0xff); try done.
  cbn [negb andb] in H. by apply (all_octets_spec _ H).
Qed.

Definition index3 (o2 o3 : Z) : Z := u8 (Z.lor (Z.land (Z.shiftl o2 6) 64) (Z.shiftr o3 2)).

Definition level3_ok (o2 o3 : Z) : bool :=
  let sym := table_entry shortbits3 (index3 o2 o3) in
  (0 <=? index3 o2 o3) && (index3 o2 o3 <? 128)
  && if is_sentinel sym then (o2 =? 0xff) && (Z.shiftr o3 2 =? 63)
     else leaf_ok 4 ((0xffff * 256 + o2) * 256 + o3) sym && (25 <=? sym_bits sym) && (sym_bits sym <=? 31).

Lemma level3 o2 o3 :
  octet o2 -> octet o3 -> o2 = 0xfe \/ o2 = 0xff -> level3_ok o2 o3 = true.
Proof. intros H2 H3 [-> | ->]; by_octets o3. Qed.

(** ** One symbol *)

(** What a round establishes: the symbol at [p] and the reader behind it. *)
Definition symbol_read (buf : list Z) (p : Z) (s : option (Z * bb_reader)) : Prop :=
  match s with
  | Some (c, r) =>
      octet c /\ symbol_at buf p = Some c /\ reads r buf (p + encv_bits (huffcode c))
  | None => symbol_at buf p = None
  end.

(** A leaf of the decision tree: the entry's symbol, and the seek by the bits of
    its word that are still unread. *)
Lemma leaf_read buf p k w sym r d q :
  octets buf -> window buf p k w -> leaf_ok k w sym = true ->
  reads r buf q -> 0 <= d <= 8 -> q + d = p + sym_bits sym ->
  exists s, (r ← bb_next r d; Ret (Some (sym_octet sym, r))) = Ret s /\ symbol_read buf p s.
Proof.
  intros Hbuf Hw Hleaf Hr Hd Hq.
  destruct (window_symbol buf p k w sym Hw Hleaf) as (Ho & Hn & Hs).
  destruct (bb_next_reads r buf q d Hbuf Hr Hd) as (r' & -> & Hr').
  eexists. split; [reflexivity|]. split; [done|]. split; [done|]. by rewrite <- Hn, <- Hq.
Qed.

Lemma peek_octet r buf p : reads r buf p -> octet (bb_peek r).
Proof. apply rd_octet. Qed.

Lemma seek_octet r buf p :
  octets buf -> reads r buf p -> exists r', bb_next r 8 = Ret r' /\ reads r' buf (p + 8).
Proof. intros. apply bb_next_reads; [done..|lia]. Qed.

Lemma mod8_range n k : 8 * k + 1 <= n <= 8 * k + 7 -> n mod 8 = n - 8 * k.
Proof. intros. symmetry. apply (Z.mod_unique n 8 k); lia. Qed.

(** The sentinel of [shortbits3]: thirty ones. *)
Lemma window_eos buf p o3 :
  octet o3 -> window buf p 4 ((0xffff * 256 + 0xff) * 256 + o3) -> Z.shiftr o3 2 = 63 ->
  symbol_at buf p = None.
Proof.
  intros Ho (_ & _ & Hb) H3. apply symbol_at_ones. intros j Hj.
  rewrite <- Hb by lia. replace (8 * 4 - 1 - j) with (29 - j + 2) by lia.
  rewrite <- Z.shiftr_spec by lia.
  replace (Z.shiftr ((0xffff * 256 + 0xff) * 256 + o3) 2) with (Z.ones 30).
  - apply Z.ones_spec_low. lia.
  - rewrite Z.shiftr_div_pow2 in * by lia. change (2 ^ 2) with 4 in *.
    change (Z.ones 30) with (2 ^ 30 - 1). pose proof (Z.div_mod o3 4).
    apply (Z.div_unique _ _ _ (o3 mod 4)); [|lia]. pose proof (Z.mod_pos_bound o3 4). lia.
Qed.

(** The third octet behind ff ff: [shortbits2_ffff], then [shortbits23] or
    [shortbits3]. *)
Lemma decode_ffff buf p r :
  octets buf -> window buf p 2 0xffff -> reads r buf (p + 16) ->
  exists s,
    (sym ← shortbits2_ffff.[bb_peek r];
     if negb (is_sentinel sym) then
       r ← bb_next r (u8 (sym_bits sym - 16)); Ret (Some (sym_octet sym, r))
     else
       r1 ← bb_next r 8;
       if negb (bb_peek r =? 0xfe) && negb (bb_peek r =? 0xff) then
         sym ← shortbits23.[index23 (bb_peek r) (bb_peek r1)];
         r ← bb_next r1 (sym_bits sym mod 8); Ret (Some (sym_octet sym, r))
       else
         sym ← shortbits3.[index3 (bb_peek r) (bb_peek r1)];
         if negb (is_sentinel sym) then
           r ← bb_next r1 (sym_bits sym mod 8); Ret (Some (sym_octet sym, r))
         else Ret None) = Ret s /\ symbol_read buf p s.
Proof.
  intros Hbuf Hw2 Hr. pose proof (peek_octet _ _ _ Hr) as Ho2.
  assert (window buf p 3 (0xffff * 256 + bb_peek r)) as Hw3 by (by apply (window_snoc _ _ 2)).
  rewrite table_get by done. cbn [mbind outcome_bind].
  destruct (is_sentinel (table_entry shortbits2_ffff (bb_peek r))) eqn:Es; cbn [negb].
  2:{ destruct (level_ok_spec _ _ _ _ _ _ (level2_ffff _ Ho2) Es) as [Hl Hb].
      eapply leaf_read; [done|exact Hw3|done|exact Hr|rewrite wrap_small; lia|rewrite wrap_small; lia]. }
  destruct (seek_octet r buf _ Hbuf Hr) as (r1 & -> & Hr1). cbn [mbind outcome_bind].
  pose proof (peek_octet _ _ _ Hr1) as Ho3.
  assert (window buf p 4 ((0xffff * 256 + bb_peek r) * 256 + bb_peek r1)) as Hw4.
  { apply (window_snoc _ _ 3); [done|]. by replace (p + 8 * 3) with (p + 16 + 8) by lia. }
  destruct (Z.eqb_spec (bb_peek r) 0xfe) as [Efe|Hfe];
    [|destruct (Z.eqb_spec (bb_peek r) 0xff) as [Eff|Hff]]; cbn [negb andb].
  3:{ pose proof (level23 _ _ Ho2 Ho3 Es Hfe Hff) as H. unfold level23_ok in H; cbv zeta in H.
      rewrite !andb_true_iff, !Z.leb_le, Z.ltb_lt in H.
      destruct H as ((((H0 & H1) & Hl) & Hlo) & Hhi).
      rewrite table_get by done. cbn [mbind outcome_bind].
      eapply leaf_read; [done|exact Hw4|done|exact Hr1|..]; rewrite (mod8_range _ 3) by lia; lia. }
  all: pose proof (level3 (bb_peek r) (bb_peek r1) Ho2 Ho3 ltac:(tauto)) as H; unfold level3_ok in H; cbv zeta in H;
    rewrite !andb_true_iff, Z.leb_le, Z.ltb_lt in H; destruct H as ((H0 & H1) & H);
    rewrite table_get by done; cbn [mbind outcome_bind];
    destruct (is_sentinel (table_entry shortbits3 _)) eqn:E3; cbn [negb].
  1,3: exists None; split; [reflexivity|];
    rewrite andb_true_iff, !Z.eqb_eq in H; destruct H as [H2 H3];
    first [congruence | rewrite Eff in *; by apply (window_eos buf p (bb_peek r1))].
  all: rewrite !andb_true_iff, !Z.leb_le in H; destruct H as ((Hl & Hlo) & Hhi);
    eapply leaf_read; [done|exact Hw4|done|exact Hr1|..]; rewrite (mod8_range _ 3) by lia; lia.
Qed.

Lemma decode_symbol_correct buf p r :
  octets buf -> reads r buf p ->
  exists s, decode_symbol r = Ret s /\ symbol_read buf p s.
Proof.
  intros Hbuf Hr. pose proof (peek_octet _ _ _ Hr) as Ho. unfold decode_symbol.
  assert (window buf p 1 (0 * 256 + bb_peek r)) as Hw1.
  { apply (window_snoc _ _ 0); [apply window_nil|]. by rewrite Z.mul_0_r, Z.add_0_r. }
  rewrite table_get by done. cbn [mbind outcome_bind].
  destruct (is_sentinel (table_entry shortbits0 (bb_peek r))) eqn:Es; cbn [negb].
  2:{ destruct (level_ok_spec _ _ _ _ _ _ (level0 _ Ho) Es) as [Hl Hb].
      eapply leaf_read; [done|exact Hw1|done|exact Hr|lia|lia]. }
  destruct (seek_octet r buf _ Hbuf Hr) as (r1 & -> & Hr1). cbn [mbind outcome_bind].
  pose proof (peek_octet _ _ _ Hr1) as Ho1.
  assert (window buf p 2 (bb_peek r * 256 + bb_peek r1)) as Hw2 by (by apply (window_snoc _ _ 1)).
  destruct (Z.eqb_spec (bb_peek r) 0xfe) as [Efe|Hfe].
  { rewrite Efe in Hw2. destruct (level_fe _ Ho1) as [Hl Hi].
    rewrite andb_true_iff, Z.leb_le, Z.ltb_lt in Hi.
    destruct (arr_get_in octets_fe (Z.shiftr (bb_peek r1) 6)) as (x & -> & Hx); [done|].
    rewrite Hx in Hl. cbn [mbind outcome_bind].
    eapply (leaf_read buf p 2 _ (mk_sym x 10)); [done|exact Hw2|done|exact Hr1|lia|cbn; lia]. }
  destruct (level0_sentinel _ Ho Es) as [|Eff]; [done|]. rewrite Eff in Hw2.
  rewrite table_get by done. cbn [mbind outcome_bind].
  destruct (is_sentinel (table_entry shortbits1_ff (bb_peek r1))) eqn:E1; cbn [negb].
  2:{ destruct (level_ok_spec _ _ _ _ _ _ (level1_ff _ Ho1) E1) as [Hl Hb].
      eapply leaf_read; [done|exact Hw2|done|exact Hr1|..]; rewrite (mod8_range _ 1) by lia; lia. }
  destruct (seek_octet r1 buf _ Hbuf Hr1) as (r2 & -> & Hr2). cbn [mbind outcome_bind].
  pose proof (peek_octet _ _ _ Hr2) as Ho2.
  replace (p + 8 + 8) with (p + 16) in Hr2 by lia.
  destruct (Z.eqb_spec (bb_peek r1) 0xfe) as [E1fe|H1fe].
  - rewrite E1fe in Hw2.
    assert (window buf p 3 (0xfffe * 256 + bb_peek r2)) as Hw3 by (by apply (window_snoc _ _ 2)).
    pose proof (level2_fffe _ Ho2) as Hl. rewrite andb_true_iff, negb_true_iff in Hl.
    destruct Hl as [Hl Es2]. destruct (level_ok_spec _ _ _ _ _ _ Hl Es2) as [Hl' Hb].
    rewrite table_get by done. cbn [mbind outcome_bind].
    eapply leaf_read; [done|exact Hw3|done|exact Hr2|..]; rewrite (mod8_range _ 2) by lia; lia.
  - destruct (level1_ff_sentinel _ Ho1 E1) as [|E1ff]; [done|]. rewrite E1ff in Hw2.
    by apply decode_ffff.
Qed.

(** ** The decoder *)

Lemma huffman_decode_loop_correct room buf p r out :
  octets buf -> 0 <= p -> reads r buf p ->
  huffman_decode_loop room r out = Ret (huffman_spec room buf p out).
Proof.
  intros Hbuf. revert p r out. induction room as [|room IH]; intros p r out Hp Hr; simpl;
    rewrite (bb_eos_reads _ _ _ Hp Hr); cbn [mbind outcome_bind]; destruct (at_end buf p); try done.
  destruct (decode_symbol_correct buf p r Hbuf Hr) as (s & -> & Hs). cbn [mbind outcome_bind].
  destruct s as [[c r']|]; [|by rewrite Hs]. destruct Hs as (Ho & -> & Hr').
  apply IH; [|done]. pose proof (huffcode_ok c Ho). lia.
Qed.

Lemma huffman_spec_room room buf p out :
  let '(n, out') := huffman_spec room buf p out in
  (length out' <= length out + room)%nat /\ (n = zlen out' \/ n = -1).
Proof.
  revert p out. induction room as [|room IH]; intros p out; simpl;
    destruct (at_end buf p); [split; [lia|tauto]..|].
  destruct (symbol_at buf p) as [c|]; [|split; [lia|tauto]].
  specialize (IH (p + encv_bits (huffcode c)) (out ++ [c])).
  destruct (huffman_spec _ _ _ _) as [n out']. rewrite length_app in IH. simpl in IH.
  split; [lia|tauto].
Qed.

Lemma huffman_decode_spec buf bits dest :
  octets buf -> 1 <= bits <= 8 ->
  huffman_decode (Some buf) (zlen buf) bits (Some dest) (zlen dest)
  = let '(n, out) := huffman_spec (length dest) buf (8 - bits) [] in
    Ret (n, Some (out ++ drop (length out) dest)).
Proof.
  intros Hbuf Hbits. unfold huffman_decode.
  destruct (Z.ltb_spec bits 1), (Z.ltb_spec 8 bits); try lia. cbn [orb].
  rewrite arr_slice_all. cbn [mbind outcome_bind].
  destruct (bb_reader_init_reads buf Hbuf) as (r0 & -> & Hr0). cbn [mbind outcome_bind].
  assert (exists r, (if negb (bits =? 8) then bb_next r0 (8 - bits) else Ret r0) = Ret r
                    /\ reads r buf (8 - bits)) as (r & -> & Hr).
  { destruct (Z.eqb_spec bits 8) as [->|]; [by exists r0|].
    destruct (bb_next_reads r0 buf 0 (8 - bits) Hbuf Hr0) as (r & Hr & Hr'); [lia|]. by exists r. }
  cbn [mbind outcome_bind].
  rewrite (huffman_decode_loop_correct _ buf (8 - bits)) by (done || lia).
  cbn [mbind outcome_bind]. unfold zlen. rewrite Nat2Z.id.
  pose proof (huffman_spec_room (length dest) buf (8 - bits) []) as Hroom.
  destruct (huffman_spec _ _ _ _) as [n out]. simpl in Hroom.
  rewrite arr_blit_0 by lia. done.
Qed.

(** C9: on every input [huffman_decode] computes [huffman_spec], the decoder
    that looks each symbol up in the code of huffcodes.txt: same result, same
    octets stored at [dest], nothing stored past [destlen], no table read out of
    range, and it terminates within [destlen] rounds. *)
Theorem huffman_decode_refines buf bits dest :
  octets buf -> 1 <= bits <= 8 ->
  huffman_decode (Some buf) (zlen buf) bits (Some dest) (zlen dest)
  = let '(n, out) := huffman_spec (length dest) buf (8 - bits) [] in
    Ret (n, Some (out ++ drop (length out) dest)).
Proof. apply huffman_decode_spec. Qed.

Lemma huffman_decode_refines_witness :
  huffman_decode (Some www) (zlen www) 8 (Some (replicate 20 0)) (zlen (replicate 20 0))
  = Ret (15, Some (text_www ++ replicate 5 0)).
Proof.
  etransitivity.
  - apply (huffman_decode_refines www 8 (replicate 20 0));
      [apply (bool_decide_unpack _); exact I|lia].
  - vm_compute. reflexivity.
Defined.

(** ** String literals *)

(** What [string_decode] stores and returns for a literal of [n] octets whose
    prefix is [len] octets and is followed by [rest]. *)
Definition string_decoded (huff : bool) (len n : Z) (rest dest : list Z) : Z * list Z :=
  if huff then
    let '(r, out) := huffman_spec (length dest) rest 0 [] in (r, out ++ drop (length out) dest)
  else (len + n, take (Z.to_nat n) rest ++ drop (Z.to_nat n) dest).

Lemma prefix_huff n (huff : bool) :
  0 <= n ->
  exists b tl, number_octets n 7 (if huff then 128 else 0) = b :: tl /\
    negb (Z.land b 128 =? 0) = huff.
Proof.
  intros Hn. unfold number_octets. change (2 ^ 7 - 1) with 127.
  assert (forall m, 0 <= m < 128 -> negb (Z.land ((if huff then 128 else 0) + m) 128 =? 0) = huff) as H.
  { intros m Hm. rewrite land_128 by (unfold octet; destruct huff; lia).
    destruct huff, (Z.ltb_spec (128 + m) 128), (Z.ltb_spec (0 + m) 128); lia || done. }
  destruct (Z.ltb_spec n 127); do 2 eexists; (split; [reflexivity|apply H; lia]).
Qed.

Lemma prefix_high_huff (huff : bool) : prefix_high (if huff then 128 else 0) 7.
Proof. by destruct huff. Qed.

Lemma string_decode_common_spec malloc_ok n (huff : bool) rest dest :
  0 <= n < 2 ^ 64 -> octets rest -> zlen rest < 2 ^ 63 ->
  let os := number_octets n 7 (if huff then 128 else 0) in
  string_decode_common malloc_ok (os ++ rest) (zlen (os ++ rest)) (Some dest) (zlen dest)
  = Ret (if (zlen rest <? n) || (zlen dest <? n) then (-1, (Some dest, zlen dest))
         else let '(r, d) := string_decoded huff (zlen os) n rest dest in (r, (Some d, zlen dest))).
Proof.
  intros Hn Hrest Hmax os.
  destruct (prefix_huff n huff) as (b & tl & Hos & Hb); [lia|]. fold os in Hos.
  pose proof (number_octets_length n 7 (if huff then 128 else 0)) as Hl. fold os in Hl.
  pose proof (zlen_nonneg rest). unfold string_decode_common. rewrite zlen_app.
  destruct (Z.ltb_spec (zlen os + zlen rest) 1); [lia|].
  replace (os ++ rest).[0] with (Ret b : outcome Z) by by rewrite Hos.
  cbn [mbind outcome_bind]. rewrite Hb, <- zlen_app.
  pose proof (decode_number_octets n 7 _ rest 0 Hn ltac:(lia) (prefix_high_huff huff) Hrest) as Hd.
  fold os in Hd. rewrite Hd.
  cbn [mbind outcome_bind default]. unfold id.
  destruct (Z.ltb_spec (zlen os) 1); [lia|]. rewrite zlen_app.
  replace (zlen os + zlen rest - zlen os) with (zlen rest) by lia. rewrite wrap_small by lia.
  destruct (Z.ltb_spec (zlen rest) n), (Z.ltb_spec (zlen dest) n); cbn [orb]; try done.
  unfold string_decoded. rewrite to_nat_zlen. destruct huff.
  - rewrite drop_app_length, huffman_decode_spec by (done || lia).
    change (8 - 8) with 0. by destruct (huffman_spec _ _ _ _).
  - rewrite arr_slice_in by (rewrite ?zlen_app; lia). cbn [mbind outcome_bind].
    rewrite to_nat_zlen, drop_app_length. unfold zlen in *.
    rewrite arr_blit_0 by (rewrite length_take; lia). cbn [mbind outcome_bind].
    rewrite length_take, Nat.min_l by lia. done.
Qed.

(** [string_decode] on a literal of [n] octets with its length prefix, the
    octets [rest] of the buffer behind the prefix, and [dest] to store into.
    The call fails when fewer than [n] octets are there or [dest] is smaller than
    [n].  A raw literal is copied, and the result counts prefix and content.
    For a Huffman literal the result is the length of the decoded string, and
    the decoder is given all of [rest] instead of the first [n] octets of it, so
    it goes on into whatever follows the literal. *)
Theorem string_decode_correct n (huff : bool) rest dest :
  0 <= n < 2 ^ 64 -> octets rest -> zlen rest < 2 ^ 63 ->
  let os := number_octets n 7 (if huff then 128 else 0) in
  string_decode (os ++ rest) (zlen (os ++ rest)) dest (zlen dest)
  = Ret (if (zlen rest <? n) || (zlen dest <? n) then (-1, (Some dest, zlen dest))
         else let '(r, d) := string_decoded huff (zlen os) n rest dest in (r, (Some d, zlen dest))).
Proof. apply string_decode_common_spec. Qed.

(** Two literals "www.example.com" in a row: the first does not end. *)
Lemma string_decode_correct_witness :
  let os := number_octets 12 7 (if true then 128 else 0) in
  exists d,
    string_decode (os ++ www) (zlen (os ++ www)) (replicate 20 0) (zlen (replicate 20 0))
    = Ret (15, (Some (text_www ++ d), 20)).
Proof.
  exists (replicate 5 0). etransitivity.
  - apply (string_decode_correct 12 true www (replicate 20 0));
      [lia|apply (bool_decide_unpack _); exact I|vm_compute; reflexivity].
  - vm_compute. reflexivity.
Defined.

(** Two literals "www.example.com" in a row: the first does not end. *)
Example string_decode_past_literal :
  fst (string_decoded true 1 12 (www ++ 0x8c :: www) (replicate 40 0)) <> 15.
Proof. vm_compute. discriminate. Qed.
