(* ===== verification/HuffEncode.v ===== *)
(** The Huffman encoder: [huffy/encode.c].

    [etable] is the array that [make-etable.sh] generates from [huffcodes.txt];
    it is a parameter, and [EncodeTable] states what the encoder relies on: row
    [c] is the code of octet [c].  [encode] writes the codes of the input one
    after the other, most significant bit first, padded with ones to an octet;
    [huffman_encode] puts the H bit and the length in front of them. *)
From S2P Require Import Prelude HuffTables BitBuf Number HuffCode HuffDecode.

(** [x >> n] and [x << n] on [uint32_t], [1 << n] on [int]. *)
Definition shr32 (x n : Z) : outcome Z :=
  if (0 <=? n) && (n <? 32) then Ret (Z.shiftr x n) else Undef BadShift.
Definition shl32 (x n : Z) : outcome Z :=
  if (0 <=? n) && (n <? 32) then Ret (u32 (Z.shiftl x n)) else Undef BadShift.
Definition shl_one (n : Z) : outcome Z :=
  if (0 <=? n) && (n <? 31) then Ret (Z.shiftl 1 n) else Undef BadShift.

(** The local variables of [encode] that live across symbols. *)
Record encoder := mk_encoder {
  enc_buf : list Z;
  outi : Z;
  existing_bits : Z;
  partial : Z
}.

(** [if (outi >= buflen) return -1; buf[outi] = x; ++outi;]: [None] is the
    return, with the buffer as it is then. *)
Definition put_octet (buflen : Z) (buf : list Z) (outi : Z) (x : outcome Z)
    : outcome (list Z * option Z) :=
  if buflen <=? outi then Ret (buf, None)
  else
    x ← x;
    buf ← buf.[outi := x];
    Ret (buf, Some (outi + 1)).

(** [while (bits > 8)]; every round takes eight bits off. *)
Fixpoint full_octets (fuel : nat) (buflen huffcode bits : Z) (buf : list Z) (outi : Z)
    : outcome (list Z * option (Z * Z)) :=
  if 8 <? bits then
    match fuel with
    | O => Undef OutOfFuel
    | S fuel =>
        '(buf, o) ← put_octet buflen buf outi (x ← shr32 huffcode (bits - 8); Ret (u8 x));
        match o with
        | None => Ret (buf, None)
        | Some outi => full_octets fuel buflen huffcode (bits - 8) buf outi
        end
    end
  else Ret (buf, Some (outi, bits)).

(** The rest of the loop's body once no bits are left over from before: full
    octets, then the remainder becomes the partial octet. *)
Definition encode_rest (buflen huffcode bits : Z) (st : encoder)
    : outcome (list Z * option encoder) :=
  '(buf, o) ← full_octets 32 buflen huffcode bits (enc_buf st) (outi st);
  match o with
  | None => Ret (buf, None)
  | Some (outi, bits) =>
      if negb (bits =? 0) then
        p ← shl32 huffcode (8 - bits);
        Ret (buf, Some (mk_encoder buf outi bits (u8 p)))
      else Ret (buf, Some (mk_encoder buf outi (existing_bits st) (partial st)))
  end.

(** The body of the [for] loop; [None] where [encode] returns -1. *)
Definition encode_symbol (buflen : Z) (e : encv) (st : encoder)
    : outcome (list Z * option encoder) :=
  let huffcode := encv_value e in
  let bits := encv_bits e in
  let existing := existing_bits st in
  if negb (existing =? 0) then
    if 8 <=? bits + existing then
      s ← shr32 huffcode (bits - (8 - existing));
      let p := Z.lor (partial st) (u8 s) in
      let bits := u8 (bits - (8 - existing)) in
      m ← shl_one bits;
      let huffcode := Z.land huffcode (m - 1) in
      '(buf, o) ← put_octet buflen (enc_buf st) (outi st) (Ret p);
      match o with
      | None => Ret (buf, None)
      | Some outi => encode_rest buflen huffcode bits (mk_encoder buf outi 0 0)
      end
    else
      let new_partial_bits := u8 (8 - existing) in
      let new_partial_bits := if bits <? new_partial_bits then bits else new_partial_bits in
      s ← shl32 huffcode (8 - (existing + bits));
      let p := Z.lor (partial st) (u8 s) in
      let existing := u8 (existing + new_partial_bits) in
      let bits := u8 (bits - new_partial_bits) in
      encode_rest buflen huffcode bits (mk_encoder (enc_buf st) (outi st) existing p)
  else encode_rest buflen huffcode bits st.

Section encode.
Context (etable : list encv).

(** The [for] loop with [n] octets of the input to go. *)
Fixpoint encode_loop (n : nat) (input : list Z) (i buflen : Z) (st : encoder)
    : outcome (list Z * option encoder) :=
  match n with
  | O => Ret (enc_buf st, Some st)
  | S n =>
      c ← input.[i];
      e ← etable.[c];
      '(buf, o) ← encode_symbol buflen e st;
      match o with
      | None => Ret (buf, None)
      | Some st => encode_loop n input (i + 1) buflen st
      end
  end.

(** The result and the contents of [buf]. *)
Definition encode (input : list Z) (input_len : Z) (buf : list Z) (buflen : Z)
    : outcome (Z * list Z) :=
  '(buf, o) ← encode_loop (Z.to_nat input_len) input 0 buflen (mk_encoder buf 0 0 0);
  match o with
  | None => Ret (-1, buf)
  | Some st =>
      '(buf, o) ←
        (if negb (existing_bits st =? 0) then
           m ← shl_one (8 - existing_bits st);
           put_octet buflen buf (outi st) (Ret (Z.lor (partial st) (m - 1)))
         else Ret (buf, Some (outi st)));
      match o with
      | None => Ret (-1, buf)
      | Some outi => if SSIZE_MAX <? outi then Ret (-1, buf) else Ret (outi, buf)
      end
  end.

(** [number0] is what the local array [encoded_number] holds uninitialised. *)
Definition huffman_encode (number0 : list Z) (input : list Z) (input_len : Z)
    (buf : list Z) (buflen : Z) : outcome (Z * list Z) :=
  if buflen <? 1 then Ret (-1, buf)
  else
    '(len, body) ← encode input input_len (drop 1 buf) (buflen - 1);
    let buf := take 1 buf ++ body in
    if len <? 0 then Ret (len, buf)
    else
      '(nlen, number) ← encode_number len 7 (Some number0) 10;
      let number := default number0 number in
      if nlen <? 0 then Ret (nlen, buf)
      else if SSIZE_MAX - len <? nlen then Ret (-1, buf)
      else
        buf ← (if 1 <? nlen then
                 s ← arr_slice buf 1 len;
                 arr_blit buf nlen s
               else Ret buf);
        n ← arr_slice number 0 nlen;
        buf ← arr_blit buf 0 n;
        b0 ← buf.[0];
        buf ← buf.[0 := Z.lor b0 128];
        Ret (nlen + len, buf).
End encode.

(** What the build promises of the generated table. *)
Class EncodeTable (etable : list encv) : Prop := {
  etable_length : length etable = 256%nat;
  etable_row c : octet c -> etable !! Z.to_nat c = Some (huffcode c)
}.

(** ** Reference: a string's bits and the octets that hold them *)

Definition code_bits (e : encv) : list bool := map (code_bit e) (seqZ 0 (encv_bits e)).

Definition huff_bits (s : list Z) : list bool := s ≫= fun c => code_bits (huffcode c).

(** Bit [i] of [bs], [d] behind its end. *)
Definition bit_at (d : bool) (bs : list bool) (i : Z) : bool := default d (bs !! Z.to_nat i).

Definition pack_octet (bs : list bool) (k : Z) : Z :=
  foldr (fun j acc => 2 * acc + Z.b2z (bit_at true bs (8 * k + 7 - j))) 0 (seqZ 0 8).

(** [bs] eight to an octet, padded with ones. *)
Definition pack (bs : list bool) : list Z :=
  map (pack_octet bs) (seqZ 0 ((zlen bs + 7) / 8)).

(** The Huffman string of [s], without its length prefix. *)
Definition huff_octets (s : list Z) : list Z := pack (huff_bits s).

Example huff_octets_www :
  huff_octets text_www = www.
Proof. vm_compute. reflexivity. Qed.

(** The test vector of [encode-test.c]. *)
Example encode_www :
  huffman_encode huffcodes (replicate 10 0)
    text_www 15 (replicate 20 0) 20
  = Ret (13, 0x8c :: www ++ replicate 7 0).
Proof. vm_compute. reflexivity. Qed.

(** ** Lemmas on bits and octets *)

Lemma stream_bit_app_l a b j : 0 <= j < 8 * zlen a -> stream_bit (a ++ b) j = stream_bit a j.
Proof.
  unfold zlen. intros Hj. unfold stream_bit. destruct (Z.ltb_spec j 0); [lia|].
  rewrite lookup_app_l; [done|]. pose proof (Z.div_lt_upper_bound j 8 (zlen a)). unfold zlen in *.
  pose proof (Z.div_pos j 8). lia.
Qed.

Lemma stream_bit_app_r a b j : 0 <= j -> stream_bit (a ++ b) (8 * zlen a + j) = stream_bit b j.
Proof.
  intros Hj. pose proof (zlen_nonneg a). unfold stream_bit.
  destruct (Z.ltb_spec (8 * zlen a + j) 0), (Z.ltb_spec j 0); try lia.
  replace (8 * zlen a + j) with (j + zlen a * 8) by lia. rewrite Z.div_add, Z.mod_add by lia.
  pose proof (Z.div_pos j 8). unfold zlen in *. rewrite lookup_app_r by lia.
  by replace (Z.to_nat (j / 8 + Z.of_nat (length a)) - length a)%nat with (Z.to_nat (j / 8)) by lia.
Qed.

Lemma stream_bit_one x j : 0 <= j < 8 -> stream_bit [x] j = Z.testbit x (7 - j).
Proof. intros. by apply (stream_bit_octet [x] 0). Qed.

Lemma octet_eq x y :
  octet x -> octet y -> (forall j, 0 <= j < 8 -> Z.testbit x (7 - j) = Z.testbit y (7 - j)) -> x = y.
Proof.
  intros Hx Hy H. apply Z.bits_inj'. intros i Hi. destruct (Z.ltb_spec i 8).
  - replace i with (7 - (7 - i)) by lia. apply H. lia.
  - by rewrite !(testbit_high 8).
Qed.

(** Octets are determined by their bits. *)
Lemma octets_eq a b :
  octets a -> octets b -> zlen a = zlen b ->
  (forall j, 0 <= j < 8 * zlen a -> stream_bit a j = stream_bit b j) -> a = b.
Proof.
  intros Ha. revert b. induction Ha as [|x a Hx Ha IH]; intros b Hb Hlen H.
  { destruct b; [done|]. rewrite zlen_cons, zlen_nil in Hlen. pose proof (zlen_nonneg b). lia. }
  destruct Hb as [|y b Hy Hb]; rewrite ?zlen_cons, ?zlen_nil in *; [pose proof (zlen_nonneg a); lia|].
  pose proof (zlen_nonneg a).
  f_equal.
  - apply octet_eq; [done..|]. intros j Hj. specialize (H j). change (x :: a) with ([x] ++ a) in H.
    change (y :: b) with ([y] ++ b) in H. rewrite !stream_bit_app_l, !stream_bit_one in H
      by (change (zlen [x]) with 1; change (zlen [y]) with 1; lia). apply H. lia.
  - apply IH; [done|lia|]. intros j Hj. specialize (H (8 + j)).
    change (x :: a) with ([x] ++ a) in H. change (y :: b) with ([y] ++ b) in H.
    rewrite (stream_bit_app_r [x]), (stream_bit_app_r [y]) in H by lia. apply H. lia.
Qed.

Lemma bit_at_app_l d a b i : 0 <= i < zlen a -> bit_at d (a ++ b) i = bit_at d a i.
Proof. unfold zlen, bit_at. intros. by rewrite lookup_app_l by lia. Qed.

Lemma bit_at_app_r d a b i : zlen a <= i -> bit_at d (a ++ b) i = bit_at d b (i - zlen a).
Proof.
  unfold zlen, bit_at. intros. rewrite lookup_app_r by lia. do 2 f_equal. lia.
Qed.

Lemma bit_at_default d d' bs i : 0 <= i < zlen bs -> bit_at d bs i = bit_at d' bs i.
Proof.
  unfold zlen, bit_at. intros. destruct (lookup_lt_is_Some_2 bs (Z.to_nat i)) as [x ->]; [lia|done].
Qed.

Lemma bit_at_end d bs i : zlen bs <= i -> bit_at d bs i = d.
Proof. unfold zlen, bit_at. intros. by rewrite lookup_ge_None_2 by lia. Qed.

Lemma zlen_code_bits e : 0 <= encv_bits e -> zlen (code_bits e) = encv_bits e.
Proof. intros. unfold zlen, code_bits. rewrite length_map, length_seqZ. lia. Qed.

Lemma bit_at_code d e i : 0 <= i < encv_bits e -> bit_at d (code_bits e) i = code_bit e i.
Proof.
  intros. unfold bit_at, code_bits. rewrite list_lookup_fmap, lookup_seqZ_lt by lia.
  simpl. f_equal. lia.
Qed.

Lemma bits_of_foldr (f : Z -> bool) n a :
  let x := foldr (fun j acc => 2 * acc + Z.b2z (f j)) 0 (seqZ a (Z.of_nat n)) in
  0 <= x < 2 ^ Z.of_nat n /\ forall i, 0 <= i < Z.of_nat n -> Z.testbit x i = f (a + i).
Proof.
  revert a. induction n as [|n IH]; intros a; [split; [done|intros; lia]|].
  cbv zeta in *. rewrite seqZ_cons by lia. cbn [foldr].
  replace (Z.pred (Z.of_nat (S n))) with (Z.of_nat n) by lia.
  destruct (IH (Z.succ a)) as [Hx Hb]. set (x := foldr _ _ _) in *. split.
  - rewrite Nat2Z.inj_succ, Z.pow_succ_r by lia. destruct (f a); simpl; lia.
  - intros i Hi. destruct (decide (i = 0)) as [->|].
    + by rewrite Z.testbit_0_r, Z.add_0_r.
    + replace i with (Z.succ (i - 1)) at 1 by lia.
      rewrite Z.testbit_succ_r, Hb by lia. f_equal. lia.
Qed.

Lemma pack_octet_spec bs k :
  octet (pack_octet bs k) /\
  forall j, 0 <= j < 8 -> Z.testbit (pack_octet bs k) (7 - j) = bit_at true bs (8 * k + j).
Proof.
  destruct (bits_of_foldr (fun j => bit_at true bs (8 * k + 7 - j)) 8 0) as [Ho Hb].
  split; [exact Ho|]. intros j Hj. unfold pack_octet. etrans; [apply Hb; lia|]. f_equal. lia.
Qed.

Lemma zlen_pack bs : zlen (pack bs) = (zlen bs + 7) / 8.
Proof.
  pose proof (zlen_nonneg bs). unfold pack, zlen at 1. rewrite length_map, length_seqZ.
  pose proof (Z.div_pos (zlen bs + 7) 8). lia.
Qed.

Lemma pack_octets bs : octets (pack bs).
Proof. apply Forall_map, Forall_forall. intros k _. apply pack_octet_spec. Qed.

Lemma stream_bit_pack bs i : 0 <= i -> stream_bit (pack bs) i = bit_at true bs i.
Proof.
  intros Hi. pose proof (zlen_pack bs) as Hl.
  pose proof (Z.div_mod (zlen bs + 7) 8). pose proof (Z.mod_pos_bound (zlen bs + 7) 8).
  destruct (Z.ltb_spec i (8 * zlen (pack bs))).
  - pose proof (Z.div_mod i 8). pose proof (Z.mod_pos_bound i 8). pose proof (Z.div_pos i 8).
    replace i with (8 * (i / 8) + i mod 8) by lia.
    rewrite (stream_bit_octet _ _ (pack_octet bs (i / 8))); [apply pack_octet_spec; lia|lia| |lia].
    unfold pack. rewrite list_lookup_fmap, lookup_seqZ_lt by lia. simpl. f_equal. f_equal. lia.
  - rewrite stream_bit_end, bit_at_end by lia. done.
Qed.

(** ** The encoder's invariant *)

(** [out], [e] bits of [p] and nothing else hold the bits [bs]. *)
Record holds (bs : list bool) (out : list Z) (e p : Z) : Prop := mk_holds {
  hd_out : octets out;
  hd_p : octet p;
  hd_e : 0 <= e <= 8;
  hd_len : zlen bs = 8 * zlen out + e;
  hd_bits i : 0 <= i < 8 * zlen out -> stream_bit out i = bit_at false bs i;
  hd_partial j : 0 <= j < 8 -> Z.testbit p (7 - j) = bit_at false bs (8 * zlen out + j)
}.

(** [out] holds the bits [bs] but for the last [n], which are those of [code]. *)
Record pending (bs : list bool) (out : list Z) (code n : Z) : Prop := mk_pending {
  pd_out : octets out;
  pd_n : 0 <= n;
  pd_len : zlen bs = 8 * zlen out + n;
  pd_bits i : 0 <= i < 8 * zlen out -> stream_bit out i = bit_at false bs i;
  pd_code j : 0 <= j < n -> Z.testbit code (n - 1 - j) = bit_at false bs (8 * zlen out + j)
}.

(** What a step of the encoder does to [buflen] octets of which [out] are
    written: it stops for want of room, or goes on with more of them. *)
Definition steps {A} (buflen : Z) (bs : list bool) (r : outcome (list Z * option A))
    (good : list Z -> list Z -> A -> Prop) : Prop :=
  exists buf o, r = Ret (buf, o) /\ zlen buf = buflen /\
    match o with
    | None => 8 * buflen < zlen bs
    | Some a => exists out rest, buf = out ++ rest /\ good out rest a
    end.

Lemma put_octet_app out rest x :
  put_octet (zlen (out ++ rest)) (out ++ rest) (zlen out) (Ret x)
  = match rest with
    | [] => Ret (out ++ rest, None)
    | _ :: rest => Ret ((out ++ [x]) ++ rest, Some (zlen (out ++ [x])))
    end.
Proof.
  unfold put_octet. rewrite zlen_app. pose proof (zlen_nonneg out).
  destruct rest as [|y rest].
  - rewrite zlen_nil. destruct (Z.leb_spec (zlen out + 0) (zlen out)); [done|lia].
  - rewrite zlen_cons. pose proof (zlen_nonneg rest).
    destruct (Z.leb_spec (zlen out + (1 + zlen rest)) (zlen out)); [lia|].
    cbn [mbind outcome_bind]. rewrite arr_set_app by done. cbn [mbind outcome_bind].
    rewrite <- (assoc_L (++)), zlen_app. done.
Qed.

(** A whole octet of pending bits moves to the output. *)
Lemma snoc_bits bs out x :
  octets out -> octet x ->
  (forall i, 0 <= i < 8 * zlen out -> stream_bit out i = bit_at false bs i) ->
  (forall j, 0 <= j < 8 -> Z.testbit x (7 - j) = bit_at false bs (8 * zlen out + j)) ->
  octets (out ++ [x]) /\
  forall i, 0 <= i < 8 * zlen (out ++ [x]) -> stream_bit (out ++ [x]) i = bit_at false bs i.
Proof.
  intros Hout Hx Ho Hb. split; [apply Forall_app_2; [done|by constructor]|].
  rewrite zlen_app. change (zlen [x]) with 1. intros i Hi.
  destruct (Z.ltb_spec i (8 * zlen out)).
  - rewrite stream_bit_app_l by lia. apply Ho. lia.
  - replace i with (8 * zlen out + (i - 8 * zlen out)) at 1 by lia.
    rewrite stream_bit_app_r, stream_bit_one, Hb by lia. f_equal. lia.
Qed.

Lemma full_octets_steps fuel bs out rest code n :
  pending bs out code n -> n <= 30 -> n <= 8 * Z.of_nat fuel + 8 ->
  steps (zlen (out ++ rest)) bs
    (full_octets fuel (zlen (out ++ rest)) code n (out ++ rest) (zlen out))
    (fun out rest '(outi, n') => outi = zlen out /\ pending bs out code n' /\ n' <= 8 /\ (0 < n -> 0 < n')).
Proof.
  revert out rest n. induction fuel as [|fuel IH]; intros out rest n Hp Hn Hf; cbn [full_octets];
    destruct (Z.ltb_spec 8 n); try lia.
  1,3: do 2 eexists; split; [reflexivity|]; split; [done|]; exists out, rest; done.
  destruct Hp as [Ho Hn0 Hl Hb Hc]. unfold shr32.
  destruct (Z.leb_spec 0 (n - 8)), (Z.ltb_spec (n - 8) 32); try lia. cbn [andb mbind outcome_bind].
  rewrite put_octet_app. destruct rest as [|y rest]; cbn [mbind outcome_bind].
  { do 2 eexists. split; [reflexivity|]. split; [done|]. rewrite zlen_app, zlen_nil. lia. }
  set (x := u8 (Z.shiftr code (n - 8))).
  destruct (snoc_bits bs out x) as [Ho' Hb']; [done|apply wrap_octet|done| |].
  { intros j Hj. unfold x. rewrite testbit_wrap, Z.shiftr_spec by lia.
    destruct (Z.ltb_spec (7 - j) 8); [|lia]. simpl. rewrite <- Hc by lia. f_equal. lia. }
  replace (zlen (out ++ y :: rest)) with (zlen ((out ++ [x]) ++ rest)) by (autorewrite with len; lia).
  assert (zlen (out ++ [x]) = zlen out + 1) as Hox by (autorewrite with len; lia).
  destruct (IH (out ++ [x]) rest (n - 8)) as (buf & o & Heq & Hz & Hres); [|lia|lia|].
  { constructor; [done|lia|lia|done|]. intros j Hj. rewrite Hox.
    replace (8 * (zlen out + 1) + j) with (8 * zlen out + (j + 8)) by lia.
    rewrite <- Hc by lia. f_equal. lia. }
  exists buf, o. split; [done|]. split; [done|]. destruct o as [[o n']|]; [|done].
  destruct Hres as (out' & rest' & ? & ? & ? & ? & ?). exists out', rest'.
  split; [done|]. split; [done|]. split; [done|]. split; [done|]. intros _. lia.
Qed.

(** The state between two symbols. *)
Definition encodes (bs : list bool) (out rest : list Z) (st : encoder) : Prop :=
  enc_buf st = out ++ rest /\ outi st = zlen out /\ holds bs out (existing_bits st) (partial st).

Lemma encode_rest_0 buflen code st :
  encode_rest buflen code 0 st = Ret (enc_buf st, Some st).
Proof. by destruct st. Qed.

Lemma encode_rest_steps bs out rest code n st :
  pending bs out code n -> 0 < n <= 30 -> enc_buf st = out ++ rest -> outi st = zlen out ->
  steps (zlen (out ++ rest)) bs (encode_rest (zlen (out ++ rest)) code n st) (encodes bs).
Proof.
  intros Hp Hn Hbuf Hout. unfold encode_rest. rewrite Hbuf, Hout.
  destruct (full_octets_steps 32 bs out rest code n Hp) as (buf & o & -> & Hz & Ho); [lia|lia|].
  cbn [mbind outcome_bind]. destruct o as [[o n']|]; [|by exists buf, None].
  destruct Ho as (out' & rest' & -> & -> & Hp' & Hn8 & Hn0). destruct Hp' as [Ho _ Hl Hb Hc].
  destruct (Z.eqb_spec n' 0); [lia|]. cbn [negb]. unfold shl32.
  destruct (Z.leb_spec 0 (8 - n')), (Z.ltb_spec (8 - n') 32); try lia. cbn [andb mbind outcome_bind].
  do 2 eexists. split; [reflexivity|]. split; [done|]. exists out', rest'. split; [done|].
  split; [done|]. split; [done|]. constructor; cbn [existing_bits partial];
    [done|apply wrap_octet|lia|lia|done|].
  intros j Hj. rewrite !testbit_wrap, testbit_shl by lia.
  destruct (Z.ltb_spec (7 - j) 8), (Z.ltb_spec (7 - j) 32); try lia. cbn [andb].
  destruct (Z.leb_spec (8 - n') (7 - j)).
  - rewrite <- Hc by lia. simpl. f_equal. lia.
  - rewrite bit_at_end by lia. done.
Qed.

(** A word that an encoder can write. *)
Definition word_ok (e : encv) : Prop :=
  1 <= encv_bits e <= 30 /\ 0 <= encv_value e < 2 ^ encv_bits e.

Lemma bit_at_word bs e j :
  0 <= j < encv_bits e ->
  bit_at false (bs ++ code_bits e) (zlen bs + j) = code_bit e j.
Proof.
  intros Hj. rewrite bit_at_app_r, bit_at_code by lia. f_equal. lia.
Qed.

(** The bits of [partial | (uint8_t)(huffcode >> ...)], the shift given by the
    place [bits + existing - 8] of its last bit. *)
Lemma holds_top_up bs out p ex e s :
  holds bs out ex p -> 0 < ex -> word_ok e ->
  octet s ->
  (forall j, 0 <= j < 8 ->
     Z.testbit s (7 - j) = (ex <=? j) && (j <? ex + encv_bits e) && code_bit e (j - ex)) ->
  octet (Z.lor p s) /\
  forall j, 0 <= j < 8 ->
    Z.testbit (Z.lor p s) (7 - j) = bit_at false (bs ++ code_bits e) (8 * zlen out + j).
Proof.
  intros [Ho Hp He Hl _ Hpart] Hex Hw Hs Hbits. destruct Hw as [Hn Hv]. pose proof (zlen_nonneg out).
  split.
  - unfold octet in *. split; [apply Z.lor_nonneg; lia|]. apply (bits_bound 8); [lia|apply Z.lor_nonneg; lia|].
    intros i Hi. rewrite Z.lor_spec, !(testbit_high 8) by done. done.
  - intros j Hj. rewrite Z.lor_spec, Hpart, Hbits by lia.
    destruct (Z.leb_spec ex j); cbn [andb].
    + rewrite bit_at_end by lia. cbn [orb]. destruct (Z.ltb_spec j (ex + encv_bits e)); cbn [andb].
      * replace (8 * zlen out + j) with (zlen bs + (j - ex)) by lia. by rewrite bit_at_word by lia.
      * rewrite bit_at_end; [done|]. rewrite zlen_app, zlen_code_bits; lia.
    + rewrite orb_false_r, bit_at_app_l by lia. done.
Qed.

(** The bits of the code that fill the octet with [ex] bits before them, when it
    has enough of them, and when it has not. *)
Lemma filling_bits e ex j :
  word_ok e -> 0 < ex -> ex <= 8 -> 8 <= encv_bits e + ex -> 0 <= j < 8 ->
  Z.testbit (u8 (Z.shiftr (encv_value e) (encv_bits e - (8 - ex)))) (7 - j)
  = (ex <=? j) && (j <? ex + encv_bits e) && code_bit e (j - ex).
Proof.
  intros [Hn Hv] Hex He8 Hle Hj. rewrite testbit_wrap, Z.shiftr_spec by lia.
  destruct (Z.ltb_spec (7 - j) 8), (Z.ltb_spec j (ex + encv_bits e)); try lia. cbn [andb].
  destruct (Z.leb_spec ex j); cbn [andb]; [unfold code_bit; f_equal; lia|].
  apply (testbit_high (encv_bits e)); lia.
Qed.

Lemma partial_bits e ex j :
  word_ok e -> 0 < ex -> encv_bits e + ex < 8 -> 0 <= j < 8 ->
  Z.testbit (u8 (u32 (Z.shiftl (encv_value e) (8 - (ex + encv_bits e))))) (7 - j)
  = (ex <=? j) && (j <? ex + encv_bits e) && code_bit e (j - ex).
Proof.
  intros [Hn Hv] Hex Hlt Hj. rewrite !testbit_wrap, testbit_shl by lia.
  destruct (Z.ltb_spec (7 - j) 8), (Z.ltb_spec (7 - j) 32); try lia. cbn [andb].
  destruct (Z.leb_spec (8 - (ex + encv_bits e)) (7 - j)), (Z.ltb_spec j (ex + encv_bits e)); try lia; cbn [andb];
    rewrite ?andb_false_r, ?andb_true_r; try done.
  destruct (Z.leb_spec ex j); cbn [andb]; [unfold code_bit; f_equal; lia|].
  apply (testbit_high (encv_bits e)); lia.
Qed.

Lemma encode_symbol_steps bs out rest e st :
  encodes bs out rest st -> word_ok e ->
  steps (zlen (out ++ rest)) (bs ++ code_bits e) (encode_symbol (zlen (out ++ rest)) e st)
    (encodes (bs ++ code_bits e)).
Proof.
  intros (Hbuf & Hout & Hh) Hw. pose proof Hw as [Hn Hv].
  assert (zlen (bs ++ code_bits e) = zlen bs + encv_bits e) as Hlen
    by (rewrite zlen_app, zlen_code_bits; lia).
  pose proof Hh as [Ho Hp He Hl Hb Hpart]. unfold encode_symbol. rewrite Hbuf, Hout.
  assert (forall i, 0 <= i < 8 * zlen out -> stream_bit out i = bit_at false (bs ++ code_bits e) i) as Hb'.
  { intros i Hi. rewrite bit_at_app_l by lia. by apply Hb. }
  destruct (Z.eqb_spec (existing_bits st) 0) as [E0|E0]; cbn [negb].
  { apply encode_rest_steps; [|lia|done|done]. constructor; [done|lia|lia|done|].
    intros j Hj. replace (8 * zlen out + j) with (zlen bs + j) by lia. by rewrite bit_at_word. }
  set (ex := existing_bits st) in *.
  destruct (Z.leb_spec 8 (encv_bits e + ex)).
  - unfold shr32. destruct (Z.leb_spec 0 (encv_bits e - (8 - ex))), (Z.ltb_spec (encv_bits e - (8 - ex)) 32);
      try lia. cbn [andb mbind outcome_bind].
    set (s := u8 (Z.shiftr _ _)). set (n := encv_bits e - (8 - ex)). rewrite (wrap_small 8 n) by lia.
    unfold shl_one. destruct (Z.leb_spec 0 n), (Z.ltb_spec n 31); try lia. cbn [andb mbind outcome_bind].
    destruct (holds_top_up bs out (partial st) ex e s Hh) as [Ho' Hb2]; [lia|done|apply wrap_octet| |].
    { intros j Hj. apply filling_bits; lia || done. }
    rewrite put_octet_app. destruct rest as [|y rest]; cbn [mbind outcome_bind].
    { do 2 eexists. split; [reflexivity|]. split; [done|]. rewrite zlen_app, zlen_nil. lia. }
    set (x := Z.lor _ _) in *.
    destruct (snoc_bits (bs ++ code_bits e) out x Ho Ho' Hb' Hb2) as [Ho2 Hb3].
    assert (zlen (out ++ [x]) = zlen out + 1) as Hox by (autorewrite with len; lia).
    replace (zlen (out ++ y :: rest)) with (zlen ((out ++ [x]) ++ rest)) by (autorewrite with len; lia).
    assert (pending (bs ++ code_bits e) (out ++ [x]) (Z.land (encv_value e) (Z.shiftl 1 n - 1)) n) as Hpd.
    { constructor; [done|lia|lia|done|]. intros j Hj.
      rewrite Z.shiftl_mul_pow2, Z.mul_1_l by lia.
      replace (2 ^ n - 1) with (Z.ones n) by (rewrite Z.ones_equiv; lia).
      rewrite Z.land_ones, Z.mod_pow2_bits_low by lia.
      replace (8 * zlen (out ++ [x]) + j) with (zlen bs + (8 - ex + j)) by lia.
      rewrite bit_at_word by lia. unfold code_bit. f_equal. lia. }
    destruct (Z.eqb_spec n 0) as [Hn0|].
    + rewrite Hn0 in *. rewrite encode_rest_0. do 2 eexists. split; [reflexivity|]. split; [done|].
      exists (out ++ [x]), rest. split; [done|]. split; [done|]. split; [done|].
      constructor; cbn [existing_bits partial]; [done|done|lia|lia|done|].
      intros j Hj. rewrite Z.testbit_0_l, bit_at_end by lia. done.
    + apply encode_rest_steps; [done|lia|done|done].
  - rewrite (wrap_small 8 (8 - ex)) by lia.
    destruct (Z.ltb_spec (encv_bits e) (8 - ex)); [|lia].
    unfold shl32. destruct (Z.leb_spec 0 (8 - (ex + encv_bits e))), (Z.ltb_spec (8 - (ex + encv_bits e)) 32);
      try lia. cbn [andb mbind outcome_bind].
    rewrite (wrap_small 8 (ex + encv_bits e)) by lia. rewrite Z.sub_diag, encode_rest_0. cbn [enc_buf].
    do 2 eexists. split; [reflexivity|]. split; [done|]. exists out, rest. split; [done|].
    split; [done|]. split; [done|]. cbn [existing_bits partial].
    destruct (holds_top_up bs out (partial st) ex e
      (u8 (u32 (Z.shiftl (encv_value e) (8 - (ex + encv_bits e)))))  Hh) as [Ho' Hb2]; [lia|done|apply wrap_octet| |].
    { intros j Hj. apply partial_bits; lia || done. }
    constructor; [done|done|lia|lia|done|done].
Qed.

Section correct.
Context (etable : list encv) `{!EncodeTable etable}.

Lemma etable_get c : octet c -> etable.[c] = Ret (huffcode c).
Proof. intros Hc. apply arr_get_Some; [apply Hc|]. by apply etable_row. Qed.

Lemma huffcode_word c : octet c -> word_ok (huffcode c).
Proof. intros Hc. pose proof (huffcode_ok c Hc). unfold word_ok. lia. Qed.

Lemma encode_loop_steps todo done_ bs out rest st :
  octets todo -> encodes bs out rest st ->
  steps (zlen (out ++ rest)) (bs ++ huff_bits todo)
    (encode_loop etable (length todo) (done_ ++ todo) (zlen done_) (zlen (out ++ rest)) st)
    (fun out rest st => encodes (bs ++ huff_bits todo) out rest st).
Proof.
  intros Htodo. revert done_ bs out rest st. induction Htodo as [|c todo Hc Htodo IH];
    intros dn bs out rest st Hst; cbn [length encode_loop].
  { do 2 eexists. split; [reflexivity|]. pose proof Hst as [-> _]. split; [done|].
    exists out, rest. split; [done|]. unfold huff_bits. simpl. by rewrite app_nil_r. }
  rewrite arr_get_app by done. cbn [mbind outcome_bind].
  rewrite etable_get by done. cbn [mbind outcome_bind].
  destruct (encode_symbol_steps bs out rest (huffcode c) st Hst (huffcode_word c Hc))
    as (buf & o & -> & Hz & Ho). cbn [mbind outcome_bind].
  unfold huff_bits. rewrite bind_cons, (assoc_L (++)). fold (huff_bits todo).
  destruct o as [st'|].
  - destruct Ho as (out' & rest' & -> & Hst').
    replace (dn ++ c :: todo) with ((dn ++ [c]) ++ todo) by by rewrite <- (assoc_L (++)).
    replace (zlen dn + 1) with (zlen (dn ++ [c])) by (autorewrite with len; lia).
    rewrite <- Hz. apply IH. done.
  - exists buf, None. split; [done|]. split; [done|].
    pose proof (zlen_nonneg (huff_bits todo)). rewrite (zlen_app (_ ++ _)). lia.
Qed.

(** The final octet: what is held and the padding are the packed bits. *)
Lemma holds_pack bs out e p :
  holds bs out e p ->
  pack bs = if e =? 0 then out else out ++ [Z.lor p (Z.ones (8 - e))].
Proof.
  intros [Ho Hp He Hl Hb Hpart]. pose proof (zlen_nonneg out).
  set (x := Z.lor p (Z.ones (8 - e))).
  assert (octet x /\ forall j, 0 <= j < 8 -> Z.testbit x (7 - j) = bit_at true bs (8 * zlen out + j)) as [Hx Hxb].
  { split.
    - unfold octet in *. assert (0 <= Z.ones (8 - e)) by (rewrite Z.ones_equiv; lia).
      assert (0 <= x) by (apply Z.lor_nonneg; lia).
      split; [done|]. apply (bits_bound 8); [lia|done|]. intros i Hi. unfold x.
      rewrite Z.lor_spec, (testbit_high 8), Z.ones_spec_high by lia. done.
    - intros j Hj. unfold x. rewrite Z.lor_spec, Hpart by lia. destruct (Z.ltb_spec j e).
      + rewrite Z.ones_spec_high, orb_false_r by lia. apply bit_at_default. lia.
      + rewrite Z.ones_spec_low, orb_true_r, bit_at_end by lia. done. }
  assert (forall i, 0 <= i < 8 * zlen out -> stream_bit out i = bit_at true bs i) as Hbt.
  { intros i Hi. rewrite Hb by done. apply bit_at_default. lia. }
  destruct (Z.eqb_spec e 0) as [->|].
  - apply octets_eq; [apply pack_octets|done|rewrite zlen_pack, Hl|].
    { symmetry. apply (Z.div_unique _ _ _ 7); lia. }
    intros j Hj. rewrite zlen_pack, Hl in Hj.
    replace (8 * zlen out + 0 + 7) with (7 + zlen out * 8) in Hj by lia.
    rewrite Z.div_add in Hj by lia. change (7 / 8) with 0 in Hj.
    rewrite stream_bit_pack, Hbt by lia. done.
  - assert (zlen (pack bs) = zlen out + 1) as Hlp.
    { rewrite zlen_pack, Hl. symmetry. apply (Z.div_unique _ _ _ (e - 1)); lia. }
    apply octets_eq; [apply pack_octets|apply Forall_app_2; [done|by constructor]| |].
    { autorewrite with len. lia. }
    rewrite Hlp. intros j Hj. rewrite stream_bit_pack by lia. destruct (Z.ltb_spec j (8 * zlen out)).
    + rewrite stream_bit_app_l by lia. symmetry. apply Hbt. lia.
    + replace j with (8 * zlen out + (j - 8 * zlen out)) by lia.
      rewrite stream_bit_app_r, stream_bit_one by lia. symmetry. apply Hxb. lia.
Qed.

(** [encode] as a whole: the octets of the string, or -1 if there is no room. *)
Lemma encode_packs s buf :
  octets s -> zlen buf <= SSIZE_MAX ->
  let os := huff_octets s in
  exists buf', zlen buf' = zlen buf /\
    encode etable s (zlen s) buf (zlen buf)
    = Ret (if zlen os <=? zlen buf then zlen os else -1, buf') /\
    (zlen os <= zlen buf -> exists rest, buf' = os ++ rest).
Proof.
  intros Hs Hmax os. unfold encode. rewrite to_nat_zlen.
  destruct (encode_loop_steps s [] [] [] buf (mk_encoder buf 0 0 0) Hs) as (b & o & Heq & Hz & Ho).
  { split; [done|]. split; [done|]. constructor; try done.
    - change (zlen (@nil Z)) with 0. intros. lia.
    - intros j Hj. cbn [partial]. by rewrite Z.testbit_0_l, bit_at_end by (change (zlen (@nil bool)) with 0; change (zlen (@nil Z)) with 0; lia). }
  cbn [app] in *. change (zlen (@nil Z)) with 0 in Heq. rewrite Heq. cbn [mbind outcome_bind].
  pose proof (zlen_pack (huff_bits s)) as Hp. change (pack (huff_bits s)) with os in Hp.
  pose proof (Z.div_mod (zlen (huff_bits s) + 7) 8). pose proof (Z.mod_pos_bound (zlen (huff_bits s) + 7) 8).
  destruct o as [st|].
  2:{ exists b. split; [done|]. destruct (Z.leb_spec (zlen os) (zlen buf)); [lia|].
      split; [done|lia]. }
  destruct Ho as (out & rest & -> & Hbuf & Hout & Hh). pose proof (holds_pack _ _ _ _ Hh) as Hpk.
  change (pack (huff_bits s)) with os in Hpk. pose proof Hh as [_ _ He Hl _ _].
  rewrite Hout, <- Hz. destruct (Z.eqb_spec (existing_bits st) 0); cbn [negb].
  - cbn [mbind outcome_bind]. rewrite <- Hpk in *. exists (os ++ rest). split; [done|].
    rewrite zlen_app in *. pose proof (zlen_nonneg rest).
    destruct (Z.leb_spec (zlen os) (zlen os + zlen rest)), (Z.ltb_spec SSIZE_MAX (zlen os)); try lia.
    split; [done|]. intros _. by exists rest.
  - unfold shl_one. destruct (Z.leb_spec 0 (8 - existing_bits st)), (Z.ltb_spec (8 - existing_bits st) 31);
      try lia. cbn [andb mbind outcome_bind].
    replace (Z.shiftl 1 (8 - existing_bits st) - 1) with (Z.ones (8 - existing_bits st)) by done.
    rewrite put_octet_app. assert (zlen os = zlen out + 1) as Hos by (rewrite Hpk; autorewrite with len; lia).
    destruct rest as [|y rest]; cbn [mbind outcome_bind].
    { exists (out ++ []). split; [done|]. rewrite app_nil_r in *.
      destruct (Z.leb_spec (zlen os) (zlen out)); [lia|]. split; [done|lia]. }
    rewrite <- Hpk. exists (os ++ rest). pose proof (zlen_nonneg rest).
    rewrite (zlen_app out), zlen_cons in *. rewrite zlen_app. split; [lia|].
    destruct (Z.leb_spec (zlen os) (zlen out + (1 + zlen rest))), (Z.ltb_spec SSIZE_MAX (zlen os)); try lia.
    split; [done|]. intros _. by exists rest.
Qed.

Lemma varint_length_bound fuel k n :
  0 <= n < 128 ^ Z.of_nat k -> (0 < k)%nat -> (length (varint fuel n) <= k)%nat.
Proof.
  revert k n. induction fuel as [|fuel IH]; intros k n Hn Hk; simpl; [lia|].
  destruct (Z.ltb_spec n 128); simpl; [lia|]. destruct k as [|k]; [lia|].
  destruct (varint_div k n) as [Hd Hk']; [done|done|]. specialize (IH k (n / 128) Hd Hk'). lia.
Qed.

(** The length's octets in the local array, whatever it held, with the H bit. *)
Lemma encode_length n number0 :
  0 <= n <= SSIZE_MAX -> octets number0 -> zlen number0 = 10 ->
  exists hd tl rest, number_octets n 7 128 = Z.lor hd 128 :: tl /\
    1 + zlen tl <= 10 /\
    encode_number n 7 (Some number0) 10 = Ret (1 + zlen tl, Some (hd :: tl ++ rest)).
Proof.
  unfold SSIZE_MAX. intros Hn Hnum Hlen. destruct number0 as [|b0 num]; [done|].
  assert (octet b0) as Hb0 by by inversion Hnum.
  pose proof (encode_number_octets n 7 b0 num ltac:(lia) ltac:(lia) Hnum) as He. cbv zeta in He.
  assert (b0 - b0 mod 2 ^ 7 = 0 \/ b0 - b0 mod 2 ^ 7 = 128) as Hhi.
  { change (2 ^ 7) with 128. unfold octet in Hb0. pose proof (Z.mod_pos_bound b0 128).
    pose proof (Z.div_mod b0 128). assert (b0 / 128 = 0 \/ b0 / 128 = 1) by lia. lia. }
  assert (forall m, 0 <= m < 128 -> 128 + m = Z.lor (b0 - b0 mod 2 ^ 7 + m) 128) as Hor.
  { intros m Hm. rewrite Z.lor_comm. destruct Hhi as [-> | ->]; [by rewrite lor_128|].
    by rewrite <- (lor_128 m), Z.lor_assoc. }
  set (hi := b0 - b0 mod 2 ^ 7) in *.
  assert (exists hd tl, number_octets n 7 128 = Z.lor hd 128 :: tl /\
            number_octets n 7 hi = hd :: tl /\ 1 + zlen tl <= 10) as (hd & tl & H128 & Hno & Hle).
  { unfold number_octets. change (2 ^ 7 - 1) with 127. destruct (Z.ltb_spec n 127).
    - exists (hi + n), []. rewrite Hor by lia. done.
    - exists (hi + 127), (varint 10 (n - 127)). rewrite Hor by lia. split; [done|]. split; [done|].
      pose proof (varint_length_bound 10 9 (n - 127)). unfold zlen.
      change (128 ^ Z.of_nat 9) with (2 ^ 63) in *. lia. }
  exists hd, tl, (drop (length (hd :: tl)) (b0 :: num)). split; [done|]. split; [done|].
  rewrite Hno, zlen_cons, Hlen in He. destruct (Z.leb_spec (1 + zlen tl) 10); [done|lia].
Qed.

(** The end of [huffman_encode]: the length goes before the string. *)
Lemma store_length hd tl junk b q len :
  (n ← arr_slice (hd :: tl ++ junk) 0 (1 + zlen tl); buf ← arr_blit (b :: q) 0 n; b0 ← buf.[0];
   buf ← buf.[0 := Z.lor b0 128]; Ret (1 + zlen tl + len, buf))
  = if zlen tl <=? zlen q
    then Ret (1 + zlen tl + len, (Z.lor hd 128 :: tl) ++ drop (length tl) q)
    else Undef OutOfBounds.
Proof.
  pose proof (zlen_nonneg junk). pose proof (zlen_nonneg tl).
  rewrite arr_slice_in by (rewrite ?zlen_cons, ?zlen_app; lia).
  change (Z.to_nat 0) with 0%nat. rewrite drop_0. cbn [mbind outcome_bind].
  replace (take (Z.to_nat (1 + zlen tl)) (hd :: tl ++ junk)) with (hd :: tl).
  2:{ replace (Z.to_nat (1 + zlen tl)) with (S (length tl)) by (unfold zlen; lia). simpl. by rewrite take_app_length. }
  unfold arr_blit. rewrite !zlen_cons. destruct (Z.leb_spec (0 + (1 + zlen tl)) (1 + zlen q)),
    (Z.leb_spec (zlen tl) (zlen q)); try lia; [|done].
  change (0 <=? 0) with true. change (Z.to_nat 0) with 0%nat.
  cbn [andb mbind outcome_bind take app length plus drop]. rewrite arr_get_0. cbn [mbind outcome_bind].
  by rewrite arr_set_0.
Qed.

Lemma huffman_encode_spec number0 s buf :
  octets number0 -> zlen number0 = 10 -> octets s -> zlen buf <= SSIZE_MAX ->
  let os := huff_octets s in
  let n := zlen os in
  let prefix := number_octets n 7 128 in
  if (zlen buf <? 1 + n) || (SSIZE_MAX <? zlen prefix + n) then
    exists buf', huffman_encode etable number0 s (zlen s) buf (zlen buf) = Ret (-1, buf')
  else if zlen prefix + n <=? zlen buf then
    exists rest, zlen rest = zlen buf - (zlen prefix + n) /\
      huffman_encode etable number0 s (zlen s) buf (zlen buf)
      = Ret (zlen prefix + n, prefix ++ os ++ rest)
  else
    huffman_encode etable number0 s (zlen s) buf (zlen buf) = Undef OutOfBounds.
Proof.
  intros Hnum Hnl Hs Hmax os n prefix. unfold huffman_encode. pose proof (zlen_nonneg os).
  destruct (Z.ltb_spec (zlen buf) 1) as [H1|H1].
  { destruct (Z.ltb_spec (zlen buf) (1 + n)); [cbn [orb]|lia]. by eexists. }
  destruct buf as [|b buf]; [done|]. rewrite zlen_cons in *. change (drop 1 (b :: buf)) with buf. change (take 1 (b :: buf)) with [b].
  replace (1 + zlen buf - 1) with (zlen buf) by lia.
  destruct (encode_packs s buf Hs) as (buf' & Hz & -> & Hb); [lia|]. fold os in Hb |- *. fold n in Hb |- *.
  cbn [mbind outcome_bind app].
  destruct (Z.leb_spec n (zlen buf)), (Z.ltb_spec (1 + zlen buf) (1 + n)); try lia.
  2:{ by eexists. }
  destruct (Z.ltb_spec n 0); [lia|]. cbn [orb].
  destruct Hb as [rest ->]; [done|].
  destruct (encode_length n number0) as (hd & tl & junk & Hp & Htl & ->); [lia|done|done|].
  fold prefix in Hp. cbn [mbind outcome_bind default]. unfold id. pose proof (zlen_nonneg tl).
  destruct (Z.ltb_spec (1 + zlen tl) 0); [lia|].
  assert (zlen prefix = 1 + zlen tl) as Hpl by (rewrite Hp; apply zlen_cons). rewrite Hpl.
  assert ((SSIZE_MAX - n <? 1 + zlen tl) = (SSIZE_MAX <? 1 + zlen tl + n)) as ->
    by (apply eq_bool_prop_intro; rewrite !Is_true_true, !Z.ltb_lt; lia).
  destruct (Z.ltb_spec SSIZE_MAX (1 + zlen tl + n)); [by eexists|].
  assert (zlen rest = zlen buf - n) as Hrest by (rewrite zlen_app in Hz; fold n in Hz; lia).
  destruct (Z.ltb_spec 1 (1 + zlen tl)) as [Hlt|Hge].
  - rewrite (arr_slice_in (b :: os ++ rest)) by (rewrite ?zlen_cons, ?zlen_app; fold n; lia). cbn [mbind outcome_bind].
    replace (take (Z.to_nat n) (drop (Z.to_nat 1) (b :: os ++ rest))) with os
      by (unfold n; rewrite to_nat_zlen; change (Z.to_nat 1) with 1%nat; cbn [drop]; rewrite ?drop_0; by rewrite take_app_length).
    assert (zlen (b :: os ++ rest) = 1 + zlen buf) as Hbl by (rewrite zlen_cons, zlen_app; fold n; lia).
    destruct (Z.leb_spec (1 + zlen tl + n) (1 + zlen buf)).
    2:{ by rewrite (arr_blit_out (b :: os ++ rest)) by (rewrite Hbl; fold n; lia). }
    rewrite (arr_blit_in (b :: os ++ rest)) by (rewrite ?Hbl; fold n; lia).
    replace (Z.to_nat (1 + zlen tl)) with (S (length tl)) by (unfold zlen; lia). cbn [mbind outcome_bind take app plus drop].
    rewrite store_length, <- Hp.
    set (r := drop (length tl + length os) (os ++ rest)).
    assert (zlen (take (length tl) (os ++ rest)) = zlen tl) as Ht
      by (unfold zlen in *; rewrite length_take, length_app; unfold n in *; lia).
    rewrite zlen_app, Ht. destruct (Z.leb_spec (zlen tl) (zlen tl + zlen (os ++ r))); [|pose proof (zlen_nonneg (os ++ r)); lia].
    exists r. split.
    { unfold r, zlen in *. rewrite length_drop, length_app. unfold n in *. lia. }
    repeat f_equal. unfold zlen in Ht. rewrite drop_app_ge by lia.
    replace (length tl - _)%nat with 0%nat by lia. done.
  - assert (tl = []) as -> by (destruct tl; [done|rewrite zlen_cons in *; pose proof (zlen_nonneg tl); lia]).
    cbn [mbind outcome_bind]. rewrite (store_length hd []), <- Hp. change (zlen (@nil Z)) with 0 in *.
    pose proof (zlen_nonneg (os ++ rest)).
    destruct (Z.leb_spec 0 (zlen (os ++ rest))), (Z.leb_spec (1 + 0 + n) (1 + zlen buf)); try lia.
    exists rest. split; [lia|]. done.
Qed.

(** C17: [huffman_encode] on every input and buffer.  It writes the length, in
    as few octets as a 7-bit prefix takes, with the H bit, and behind it the
    codes of the input's octets, padded with ones; the result counts all of
    them.  It returns -1 when the string does not fit behind one octet of
    length.  When the string fits but a longer length does not, there is no
    check: the string is moved past the end of the buffer. *)
Theorem huffman_encode_correct number0 s buf :
  octets number0 -> zlen number0 = 10 -> octets s -> zlen buf <= SSIZE_MAX ->
  let os := huff_octets s in
  let n := zlen os in
  let prefix := number_octets n 7 128 in
  if (zlen buf <? 1 + n) || (SSIZE_MAX <? zlen prefix + n) then
    exists buf', huffman_encode etable number0 s (zlen s) buf (zlen buf) = Ret (-1, buf')
  else if zlen prefix + n <=? zlen buf then
    exists rest, zlen rest = zlen buf - (zlen prefix + n) /\
      huffman_encode etable number0 s (zlen s) buf (zlen buf)
      = Ret (zlen prefix + n, prefix ++ os ++ rest)
  else
    huffman_encode etable number0 s (zlen s) buf (zlen buf) = Undef OutOfBounds.
Proof. apply huffman_encode_spec. Qed.

End correct.

(** The table generated from [huffcodes.txt]. *)
#[export] Instance huffcodes_table : EncodeTable huffcodes.
Proof. split; [reflexivity|]. intros c Hc. by apply huffcode_lookup. Qed.

(** 127 octets of content in a buffer of 128: the length takes two octets. *)
Lemma huffman_encode_correct_witness :
  let s := replicate 203 116 in
  zlen (huff_octets s) = 127 /\
  huffman_encode huffcodes (replicate 10 0) s (zlen s) (replicate 128 0) (zlen (replicate 128 0))
  = Undef OutOfBounds.
Proof.
  split; [vm_compute; reflexivity|].
  apply (huffman_encode_correct huffcodes (replicate 10 0) (replicate 203 116) (replicate 128 0));
    [apply (bool_decide_unpack _); exact I|vm_compute; reflexivity|apply (bool_decide_unpack _); exact I|].
  vm_compute. discriminate.
Defined.

(** ** Round trip *)

Lemma huff_bits_app a b : huff_bits (a ++ b) = huff_bits a ++ huff_bits b.
Proof. apply bind_app. Qed.

Lemma huff_bits_cons c s : huff_bits (c :: s) = code_bits (huffcode c) ++ huff_bits s.
Proof. done. Qed.

(** The code of the next octet stands where the bits before it end. *)
Lemma huff_octets_code pre c s j :
  octet c -> 0 <= j < encv_bits (huffcode c) ->
  stream_bit (huff_octets (pre ++ c :: s)) (zlen (huff_bits pre) + j) = code_bit (huffcode c) j.
Proof.
  intros Hc Hj. pose proof (zlen_nonneg (huff_bits pre)). unfold huff_octets.
  rewrite stream_bit_pack by lia. rewrite huff_bits_app, huff_bits_cons.
  rewrite bit_at_app_r, bit_at_app_l, bit_at_code by (rewrite ?zlen_code_bits; lia).
  f_equal. lia.
Qed.

Lemma huff_octets_not_at_end pre c s :
  octet c -> at_end (huff_octets (pre ++ c :: s)) (zlen (huff_bits pre)) = false.
Proof.
  intros Hc. unfold at_end. destruct (Z.leb_spec (8 * zlen (huff_octets (pre ++ c :: s)) - zlen (huff_bits pre)) 8);
    [cbn [andb]|done].
  destruct (forallb _ _) eqn:E; [exfalso|done]. rewrite forallb_forall in E.
  destruct (code_has_zero c Hc) as (j & Hj & Hz).
  pose proof (huff_octets_code pre c s j Hc Hj) as Hb. rewrite E in Hb; [congruence|].
  apply list_elem_of_In, elem_of_seqZ. unfold huff_octets. rewrite zlen_pack.
  pose proof (Z.div_mod (zlen (huff_bits (pre ++ c :: s)) + 7) 8).
  pose proof (Z.mod_pos_bound (zlen (huff_bits (pre ++ c :: s)) + 7) 8).
  rewrite huff_bits_app, huff_bits_cons, !zlen_app, zlen_code_bits in * by lia.
  pose proof (zlen_nonneg (huff_bits s)). lia.
Qed.

Lemma huff_octets_at_end s : at_end (huff_octets s) (zlen (huff_bits s)) = true.
Proof.
  unfold at_end, huff_octets. rewrite zlen_pack.
  pose proof (Z.div_mod (zlen (huff_bits s) + 7) 8). pose proof (Z.mod_pos_bound (zlen (huff_bits s) + 7) 8).
  apply andb_true_iff. split; [apply Z.leb_le; lia|]. apply forallb_forall.
  intros j Hj%list_elem_of_In%elem_of_seqZ. pose proof (zlen_nonneg (huff_bits s)).
  rewrite stream_bit_pack, bit_at_end by lia. done.
Qed.

Lemma huffman_spec_encoded pre s room :
  octets s -> (length s <= room)%nat ->
  huffman_spec room (huff_octets (pre ++ s)) (zlen (huff_bits pre)) pre
  = (zlen (pre ++ s), pre ++ s).
Proof.
  intros Hs. revert pre room. induction Hs as [|c s Hc Hs IH]; intros pre room Hroom.
  { rewrite app_nil_r. destruct room; cbn [huffman_spec]; by rewrite huff_octets_at_end. }
  destruct room as [|room]; [simpl in Hroom; lia|]. cbn [huffman_spec].
  rewrite huff_octets_not_at_end by done. rewrite (symbol_at_Some _ _ c).
  - pose proof (huffcode_ok c Hc). pose proof (IH (pre ++ [c]) room) as Hr.
    rewrite huff_bits_app, zlen_app, <- (assoc_L (++)) in Hr. cbn [app] in Hr.
    rewrite huff_bits_cons, zlen_app, zlen_code_bits in Hr by lia.
    change (zlen (huff_bits [])) with 0 in Hr. rewrite Z.add_0_r in Hr.
    apply Hr. simpl in Hroom. lia.
  - done.
  - apply code_at_spec. intros j Hj. by apply huff_octets_code.
Qed.

Lemma huff_octets_octets s : octets (huff_octets s).
Proof. apply pack_octets. Qed.

(** C10: what [huffman_encode] writes, [string_decode] reads back: given the
    octets written and room for the string's octets and for its encoded
    length, it stores the string and returns its length. *)
Theorem huffman_roundtrip etable number0 s buf n buf' dest :
  EncodeTable etable ->
  octets number0 -> zlen number0 = 10 -> octets s -> zlen buf <= SSIZE_MAX ->
  huffman_encode etable number0 s (zlen s) buf (zlen buf) = Ret (n, buf') ->
  0 <= n -> n <= zlen dest -> zlen s <= zlen dest ->
  string_decode (take (Z.to_nat n) buf') n dest (zlen dest)
  = Ret (zlen s, (Some (s ++ drop (length s) dest), zlen dest)).
Proof.
  intros Htab Hnum Hnl Hs Hmax Henc Hn Hd Hsd.
  pose proof (huffman_encode_spec etable number0 s buf Hnum Hnl Hs Hmax) as H.
  cbv zeta in H. set (os := huff_octets s) in *. set (prefix := number_octets (zlen os) 7 128) in *.
  destruct (_ || _) eqn:Ec; [destruct H as [b Hb]; rewrite Henc in Hb; injection Hb; lia|].
  destruct (_ <=? _) eqn:El; [|congruence]. destruct H as (rest & Hrest & Hret).
  rewrite Henc in Hret. injection Hret as -> ->.
  assert (take (Z.to_nat (zlen prefix + zlen os)) (prefix ++ os ++ rest) = prefix ++ os) as ->.
  { rewrite (assoc_L (++)), take_app_length'; [done|]. rewrite length_app. unfold zlen. lia. }
  apply orb_false_iff in Ec as [E1 E2]. apply Z.ltb_ge in E1, E2. unfold SSIZE_MAX in *.
  pose proof (zlen_nonneg os). pose proof (number_octets_length (zlen os) 7 128) as Hpl. fold prefix in Hpl.
  rewrite <- zlen_app.
  pose proof (string_decode_common_spec true (zlen os) true os dest ltac:(lia) (huff_octets_octets s) ltac:(lia)) as Hdec.
  cbv zeta in Hdec. change (number_octets (zlen os) 7 (if true then 128 else 0)) with prefix in Hdec.
  unfold string_decode. rewrite Hdec. destruct (Z.ltb_spec (zlen os) (zlen os)), (Z.ltb_spec (zlen dest) (zlen os)); try lia.
  cbn [orb]. unfold string_decoded.
  pose proof (huffman_spec_encoded [] s (length dest) Hs) as Hspec. cbn [app] in Hspec.
  change (zlen (huff_bits [])) with 0 in Hspec. unfold os. rewrite Hspec by (unfold zlen in *; lia). done.
Qed.

Lemma huffman_roundtrip_witness :
  huffman_encode huffcodes (replicate 10 0) text_www (zlen text_www) (replicate 20 0) (zlen (replicate 20 0))
  = Ret (13, 0x8c :: www ++ replicate 7 0) /\
  string_decode (take (Z.to_nat 13) (0x8c :: www ++ replicate 7 0)) 13 (replicate 15 9) (zlen (replicate 15 9))
  = Ret (zlen text_www, (Some (text_www ++ drop (length text_www) (replicate 15 9)), zlen (replicate 15 9))).
Proof.
  split; [vm_compute; reflexivity|].
  apply (huffman_roundtrip huffcodes (replicate 10 0) text_www (replicate 20 0) 13 (0x8c :: www ++ replicate 7 0));
    [apply _|apply (bool_decide_unpack _); exact I|reflexivity|apply (bool_decide_unpack _); exact I
    |vm_compute; discriminate|vm_compute; reflexivity|lia|vm_compute; discriminate|vm_compute; discriminate].
Defined.
