(* ===== verification/HpackTests.v ===== *)
(** The test programs of dependencies/hpack: [test.c], [huffy/bitbuf-test.c],
    [huffy/encode-test.c], [huffy/decode-test.c] and [huffy/random-test.c].

    A program is what its [main] returns; what it prints is not modelled.  The
    local arrays that it does not initialise are arguments. *)
From S2P Require Import Prelude Number HuffTables BitBuf HuffCode HuffDecode HuffEncode.

(** ** [test.c] *)

Definition encode_tests (buf shortbuf : list Z) : outcome Z :=
  buf ← buf.[0 := 0];
  '(r, b) ← encode_number 10 5 (Some buf) 123;
  let buf := default buf b in
  if negb (r =? 1) then Ret 1
  else
    b0 ← buf.[0];
    if negb (b0 =? 10) then Ret 1
    else
      '(r, b) ← encode_number 1337 5 (Some buf) 123;
      let buf := default buf b in
      if negb (r =? 3) then Ret 1
      else
        b0 ← buf.[0]; b1 ← buf.[1]; b2 ← buf.[2];
        if negb (b0 =? 31) || negb (b1 =? 154) || negb (b2 =? 10) then Ret 1
        else
          '(r, b) ← encode_number 42 8 (Some buf) 1;
          let buf := default buf b in
          b0 ← buf.[0];
          if negb (r =? 1) || negb (b0 =? 42) then Ret 1
          else
            '(r, b) ← encode_number 1337 5 (Some shortbuf) 1;
            let shortbuf := default shortbuf b in
            if 0 <=? r then Ret 1
            else
              '(r, _) ← encode_number 64 5 (Some shortbuf) 1;
              if 0 <=? r then Ret 1 else Ret 0.

Definition decode_inputs : list (list Z * Z * Z * Z) :=
  [([0x0a], 1, 5, 10); ([0xea], 1, 5, 10); ([0x1f; 0x9a; 0x0a], 3, 5, 1337)].

Fixpoint decode_tests_loop (inputs : list (list Z * Z * Z * Z)) (r : Z) : outcome Z :=
  match inputs with
  | [] => Ret r
  | (bytes, len, bits, expect) :: inputs =>
      '(used, number) ← decode_number (Some bytes) len bits (Some (2 ^ 63 - 1));
      let r := if negb (used =? len) then -1 else r in
      let r := if negb (default 0 number =? expect) then -1 else r in
      decode_tests_loop inputs r
  end.

Definition decode_tests : outcome Z := decode_tests_loop decode_inputs 0.

(** The numbers from [i] on, [n] of them. *)
Fixpoint sequence_loop (n : nat) (i : Z) (buf : list Z) : outcome Z :=
  match n with
  | O => Ret 0
  | S n =>
      '(len, b) ← encode_number i 7 (Some buf) 8;
      let buf := default buf b in
      if len <? 1 then Ret 1
      else
        '(r, decoded) ← decode_number (Some buf) 8 7 (Some (u64 (- 1 - i)));
        if negb (r =? len) then Ret 1
        else if negb (default 0 decoded =? i) then Ret 1
        else sequence_loop n (i + 1) buf
  end.

Definition sequence_tests (buf : list Z) : outcome Z := sequence_loop (Z.to_nat 100000) 0 buf.

Definition number_test_main (buf shortbuf sequence_buf : list Z) : outcome Z :=
  r ← encode_tests buf shortbuf;
  if negb (r =? 0) then Ret 1
  else
    r ← decode_tests;
    if negb (r =? 0) then Ret 1
    else
      r ← sequence_tests sequence_buf;
      if negb (r =? 0) then Ret 1 else Ret 0.

(** ** [bitbuf-test.c] *)

Definition symbol_matches (octet symbol symbol_bits : Z) : bool := Z.shiftr octet (8 - symbol_bits) =? symbol.

Definition bitbuf_expect : list (Z * Z) :=
  [(0x78, 7); (0x78, 7); (0x78, 7); (0x17, 6); (0x05, 5); (0x79, 7); (0x03, 5); (0x29, 6); (0x2b, 6);
   (0x28, 6); (0x05, 5); (0x17, 6); (0x04, 5); (0x07, 5); (0x29, 6)].

Fixpoint bitbuf_test_loop (expect : list (Z * Z)) (reader : bb_reader) (ok : bool) : outcome (bb_reader * bool) :=
  match expect with
  | [] => Ret (reader, ok)
  | (symbol, symbol_bits) :: expect =>
      let ok := if symbol_matches (bb_peek reader) symbol symbol_bits then ok else false in
      reader ← bb_next reader symbol_bits;
      bitbuf_test_loop expect reader ok
  end.

Definition bitbuf_test_main : outcome Z :=
  reader ← bb_reader_init www;
  '(reader, ok) ← bitbuf_test_loop bitbuf_expect reader true;
  let ok := if symbol_matches (bb_peek reader) 0xff 8 then ok else false in
  Ret (if ok : bool then 0 else 1).

(** ** [encode-test.c] *)

Section programs.
Context (etable : list encv) (number0 : list Z).

Definition encode_expect : list Z := 0x8c :: www.

(** The comparison of the octets from [i] on, [n] of them. *)
Fixpoint encode_test_loop (n : nat) (i : Z) (buf : list Z) (ok : bool) : outcome bool :=
  match n with
  | O => Ret ok
  | S n =>
      e ← encode_expect.[i];
      b ← buf.[i];
      encode_test_loop n (i + 1) buf (if negb (e =? b) then false else ok)
  end.

Definition encode_test_main (buf : list Z) : outcome Z :=
  '(len, buf) ← huffman_encode etable number0 text_www (zlen text_www) buf 123;
  if len <? 0 then Ret 1
  else
    ok ← encode_test_loop (Z.to_nat len) 0 buf (len =? zlen encode_expect);
    Ret (if ok : bool then 0 else 1).

(** ** [decode-test.c] *)

Definition decode_test_input : list Z :=
  [0xd0; 0x7a; 0xbe; 0x94; 0x10; 0x54; 0xd4; 0x44; 0xa8; 0x20; 0x05; 0x95; 0x04; 0x0b; 0x81; 0x66;
   0xe0; 0x82; 0xa6; 0x2d; 0x1b; 0xff].

Definition decode_test_expect : list Z := str "Mon, 21 Oct 2013 20:13:21 GMT" ++ [0].

Definition decode_test_main (decoded : list Z) : outcome Z :=
  '(len, d) ← huffman_decode (Some decode_test_input) 22 8 (Some decoded) (35 - 1);
  if len <? 0 then Ret 1
  else
    a ← arr_slice (default decoded d) 0 len;
    b ← arr_slice decode_test_expect 0 len;
    Ret (if bool_decide (a = b) then 0 else 1).

(** ** [random-test.c] *)

(** The loop that looks for the end of the length prefix. *)
Fixpoint skip_prefix (fuel : nat) (encoded : list Z) (start encsz : Z) : outcome Z :=
  b ← encoded.[start];
  if negb (Z.land b 128 =? 0) && (start <? encsz) then
    match fuel with
    | O => Undef OutOfFuel
    | S fuel => skip_prefix fuel encoded (start + 1) encsz
    end
  else Ret start.

(** Whether [open] succeeded, what [read] gave and returned. *)
Definition random_test_main (open_ok : bool) (data : list Z) (sz : Z) (encoded decoded : list Z) : outcome Z :=
  if negb open_ok then Ret 0
  else if negb (sz =? 1024) then Ret 0
  else
    '(encsz, encoded) ← huffman_encode etable number0 data 1024 encoded (1024 * 30 / 8 + 1);
    if encsz <? 0 then Ret 1
    else
      start ← skip_prefix (Z.to_nat encsz) encoded 0 encsz;
      if start =? encsz then Ret 1
      else
        let start := start + 1 in
        '(decsz, d) ← huffman_decode (Some (drop (Z.to_nat start) encoded)) (encsz - start) 8 (Some decoded) 1024;
        if negb (decsz =? 1024) then Ret 1
        else
          a ← arr_slice data 0 1024;
          b ← arr_slice (default decoded d) 0 1024;
          if bool_decide (a = b) then Ret 0
          else if existsb (fun p => negb (fst p =? snd p)) (combine a b) then Ret 1
          else Ret 0.

End programs.

(** ** The deterministic tests pass *)

Lemma encode_fits n bits b0 tl os len :
  0 <= n < 2 ^ 64 -> 1 <= bits <= 8 -> octets (b0 :: tl) -> zlen (b0 :: tl) = len ->
  number_octets n bits (b0 - b0 mod 2 ^ bits) = os -> zlen os <= len ->
  encode_number n bits (Some (b0 :: tl)) len = Ret (zlen os, Some (os ++ drop (length os) (b0 :: tl))).
Proof.
  intros Hn Hb Ho <- <- Hl. pose proof (encode_number_octets n bits b0 tl Hn Hb Ho) as E. cbv zeta in E.
  by destruct (Z.leb_spec (zlen (number_octets n bits (b0 - b0 mod 2 ^ bits))) (zlen (b0 :: tl))); [|lia].
Qed.

Lemma encode_tests_pass buf shortbuf :
  octets buf -> zlen buf = 123 -> zlen shortbuf = 1 -> encode_tests buf shortbuf = Ret 0.
Proof.
  intros Hb Hl Hs. destruct buf as [|x [|x1 [|x2 buf]]]; try done. destruct shortbuf as [|y [|z l]]; try done.
  2: { rewrite !zlen_cons in Hs. pose proof (zlen_nonneg l). lia. }
  apply Forall_cons in Hb as [_ Hb]. set (tl := x1 :: x2 :: buf) in *. unfold encode_tests. rewrite arr_set_0. cbn [mbind outcome_bind].
  assert (forall v, octet v -> octets (v :: tl) /\ zlen (v :: tl) = 123) as Htl.
  { intros v Hv. split; [by constructor|]. rewrite !zlen_cons in *. done. }
  destruct (Htl 0) as [H0 L0]; [unfold octet; lia|]. destruct (Htl 10) as [H10 L10]; [unfold octet; lia|].
  rewrite (encode_fits 10 5 0 tl [10] 123) by (done || lia). cbn [mbind outcome_bind default drop length app]. unfold id.
  change (negb (zlen [10] =? 1)) with false. rewrite drop_0, arr_get_0. cbn [mbind outcome_bind]. change (negb (10 =? 10)) with false. cbv iota.
  rewrite (encode_fits 1337 5 10 tl [31; 154; 10] 123) by (done || lia). reflexivity.
Qed.

Lemma decode_tests_pass : decode_tests = Ret 0.
Proof. vm_compute. reflexivity. Qed.

(** A small number takes at most four octets. *)
Lemma number_octets_small n hi : 0 <= n < 100000 -> zlen (number_octets n 7 hi) <= 4.
Proof.
  intros Hn. unfold number_octets. destruct (_ <? _) eqn:E; [done|]. rewrite zlen_cons. apply Z.ltb_ge in E.
  pose proof (varint_length_bound 10 3 (n - (2 ^ 7 - 1))). change (128 ^ Z.of_nat 3) with (2 ^ 21) in *. unfold zlen. lia.
Qed.

Lemma sequence_loop_pass n : forall i buf,
  octets buf -> zlen buf = 8 -> 0 <= i -> i + Z.of_nat n <= 100000 -> sequence_loop n i buf = Ret 0.
Proof.
  induction n as [|n IH]; intros i buf Hb Hl Hi Hn; cbn [sequence_loop]; [done|].
  destruct buf as [|b0 tl]; [done|]. apply Forall_cons in Hb as Hb'. destruct Hb' as [H0 Htl].
  pose proof (number_octets_small i (b0 - b0 mod 2 ^ 7) ltac:(lia)) as Hsm. pose proof (number_octets_length i 7 (b0 - b0 mod 2 ^ 7)) as [H1 _].
  pose proof (prefix_high_octet b0 7 H0 ltac:(lia)) as Hhi.
  pose proof (number_octets_bound i 7 _ ltac:(lia) ltac:(lia) Hhi) as Hos.
  rewrite (encode_fits i 7 b0 tl _ 8 ltac:(lia) ltac:(lia) Hb Hl eq_refl) by lia.
  set (os := number_octets i 7 (b0 - b0 mod 2 ^ 7)) in *. set (rest := drop (length os) (b0 :: tl)).
  cbn [mbind outcome_bind default]. unfold id. destruct (Z.ltb_spec (zlen os) 1); [lia|].
  assert (octets rest) as Hrest by (by apply Forall_drop).
  assert (zlen (os ++ rest) = 8) as Hl8.
  { rewrite zlen_app. unfold rest, zlen in *. rewrite length_drop. lia. }
  pose proof (decode_number_octets i 7 (b0 - b0 mod 2 ^ 7) rest (u64 (- 1 - i)) ltac:(lia) ltac:(lia) Hhi Hrest) as Hd.
  fold os in Hd. rewrite Hl8 in Hd. rewrite Hd. cbn [mbind outcome_bind default]. unfold id. rewrite !Z.eqb_refl. cbn [negb].
  apply IH; [by apply Forall_app|done|lia|lia].
Qed.

Lemma bitbuf_test_passes : bitbuf_test_main = Ret 0.
Proof. vm_compute. reflexivity. Qed.

Section tests.
Context (etable : list encv) `{!EncodeTable etable} (number0 : list Z).
Context (Hnum : octets number0) (Hnl : zlen number0 = 10).

Lemma encode_test_passes buf : zlen buf = 123 -> encode_test_main etable number0 buf = Ret 0.
Proof.
  intros Hl. pose proof (huffman_encode_spec etable number0 text_www buf Hnum Hnl) as H.
  specialize (H ltac:(apply (bool_decide_unpack _); vm_compute; exact I) ltac:(rewrite Hl; done)). cbv zeta in H.
  change (huff_octets text_www) with (huff_octets text_www) in H. rewrite huff_octets_www in H.
  change (zlen www) with 12 in H. change (number_octets 12 7 128) with [140] in H. rewrite Hl in H. cbn [orb] in H.
  destruct H as (rest & _ & H). unfold encode_test_main. rewrite H. reflexivity.
Qed.

Lemma decode_test_passes decoded : zlen decoded = 35 -> decode_test_main decoded = Ret 0.
Proof.
  intros Hl. unfold decode_test_main. set (text := str "Mon, 21 Oct 2013 20:13:21 GMT").
  assert (huffman_decode (Some decode_test_input) 22 8 (Some decoded) (35 - 1)
          = d ← arr_blit decoded 0 text; Ret (29, Some d)) as -> by (vm_compute; reflexivity).
  rewrite arr_blit_0 by (unfold zlen in Hl; change (length text) with 29%nat; lia). cbn [mbind outcome_bind default]. unfold id.
  change 29 with (zlen text) at 2. rewrite arr_slice_app. reflexivity.
Qed.

(** Between five and thirty bits for an octet. *)
Lemma huff_bits_length s : octets s -> 5 * zlen s <= zlen (huff_bits s) <= 30 * zlen s.
Proof.
  induction 1 as [|c s Hc Hs IH]; [done|]. rewrite huff_bits_cons, zlen_app, zlen_cons. pose proof (huffcode_ok c Hc).
  rewrite zlen_code_bits by lia. lia.
Qed.

(** The length of 640 to 3840 octets takes three. *)
Lemma length_prefix n : 640 <= n <= 3840 ->
  exists lo hi, number_octets n 7 128 = [255; Z.lor 128 lo; hi] /\ 0 <= lo < 128 /\ 0 <= hi < 128.
Proof.
  intros Hn. unfold number_octets. change (2 ^ 7 - 1) with 127. destruct (Z.ltb_spec n 127); [lia|]. set (m := n - 127).
  assert (513 <= m <= 3713) as Hm by (unfold m; lia). change (varint 10 m) with (varint (S (S 8)) m). cbn [varint].
  pose proof (Z.mod_pos_bound m 128 ltac:(lia)). pose proof (Z.div_mod m 128).
  destruct (Z.ltb_spec m 128); [lia|]. destruct (Z.ltb_spec (m / 128) 128); [|lia].
  exists (m mod 128), (m / 128). rewrite lor_128 by lia. split; [done|lia].
Qed.

Lemma land_high lo : 0 <= lo < 128 -> Z.land (Z.lor 128 lo) 128 = 128 /\ Z.land lo 128 = 0.
Proof.
  intros Hlo. assert (forallb (fun x => (Z.land (Z.lor 128 x) 128 =? 128) && (Z.land x 128 =? 0)) (seqZ 0 128) = true) as Hall
    by (vm_compute; reflexivity).
  rewrite forallb_forall in Hall. specialize (Hall lo). rewrite andb_true_iff, !Z.eqb_eq in Hall. apply Hall, list_elem_of_In, elem_of_seqZ. lia.
Qed.

Lemma skip_prefix_three lo hi l encsz fuel :
  0 <= lo < 128 -> 0 <= hi < 128 -> 2 < encsz -> (2 <= fuel)%nat ->
  skip_prefix fuel ([255; Z.lor 128 lo; hi] ++ l) 0 encsz = Ret 2.
Proof.
  intros Hlo Hhi Hsz Hf. destruct fuel as [|[|fuel]]; try lia. destruct (land_high lo Hlo) as [Hl _]. destruct (land_high hi Hhi) as [_ Hh].
  cbn [skip_prefix]. change (([255; Z.lor 128 lo; hi] ++ l).[0]) with (Ret 255 : outcome Z). cbn [mbind outcome_bind].
  change (negb (Z.land 255 128 =? 0)) with true. destruct (Z.ltb_spec 0 encsz); [|lia]. cbn [andb].
  change (([255; Z.lor 128 lo; hi] ++ l).[0 + 1]) with (Ret (Z.lor 128 lo) : outcome Z). cbn [mbind outcome_bind]. rewrite Hl.
  destruct (Z.ltb_spec (0 + 1) encsz); [|lia]. change (negb (128 =? 0) && true) with true. cbv iota.
  destruct fuel; cbn [skip_prefix]; change (([255; Z.lor 128 lo; hi] ++ l).[0 + 1 + 1]) with (Ret hi : outcome Z);
    cbn [mbind outcome_bind]; by rewrite Hh.
Qed.

Lemma random_test_result data encoded decoded :
  octets data -> zlen data = 1024 -> zlen encoded = 3841 -> zlen decoded = 1024 ->
  random_test_main etable number0 true data 1024 encoded decoded
  = if zlen (huff_octets data) <=? 3838 then Ret 0 else Undef OutOfBounds.
Proof.
  intros Hd Hdl He Hdec. unfold random_test_main. cbn [negb]. change (1024 =? 1024) with true. cbn [negb].
  change (1024 * 30 / 8 + 1) with 3841.
  pose proof (huff_bits_length data Hd) as Hbits. pose proof (zlen_pack (huff_bits data)) as Hn. fold (huff_octets data) in Hn.
  pose proof (huffman_encode_spec etable number0 data encoded Hnum Hnl Hd ltac:(rewrite He; done)) as H. cbv zeta in H.
  set (os := huff_octets data) in *. rewrite Hdl in *. rewrite He in *.
  assert (640 <= zlen os <= 3840) as Hos by (rewrite Hn; split; [apply Z.div_le_lower_bound; lia|apply Z.lt_succ_r, Z.div_lt_upper_bound; lia]).
  destruct (length_prefix (zlen os) Hos) as (lo & hi & Hp & Hlo & Hhi). rewrite Hp in H.
  set (prefix := [255; Z.lor 128 lo; hi]) in *. change (zlen prefix) with 3 in H.
  destruct (Z.ltb_spec 3841 (1 + zlen os)); [lia|]. destruct (Z.ltb_spec SSIZE_MAX (3 + zlen os)); [unfold SSIZE_MAX in *; lia|]. cbn [orb] in H.
  destruct (Z.leb_spec (3 + zlen os) 3841), (Z.leb_spec (zlen os) 3838); try lia; [|by rewrite H].
  destruct H as (rest & _ & ->). cbn [mbind outcome_bind]. destruct (Z.ltb_spec (3 + zlen os) 0); [lia|].
  rewrite (skip_prefix_three lo hi (os ++ rest)) by lia. cbn [mbind outcome_bind].
  destruct (Z.eqb_spec 2 (3 + zlen os)); [lia|]. change (drop (Z.to_nat (2 + 1)) (prefix ++ os ++ rest)) with (drop 0 (os ++ rest)).
  rewrite drop_0. replace (3 + zlen os - (2 + 1)) with (zlen os) by lia.
  assert (huffman_decode (Some (os ++ rest)) (zlen os) 8 (Some decoded) 1024 = Ret (1024, Some data)) as ->.
  { transitivity (huffman_decode (Some os) (zlen os) 8 (Some decoded) (zlen decoded)).
    - unfold huffman_decode. by rewrite arr_slice_app, arr_slice_all, Hdec.
    - rewrite huffman_decode_spec by (apply huff_octets_octets || lia). change (8 - 8) with (zlen (huff_bits [])).
      pose proof (huffman_spec_encoded [] data (length decoded) Hd) as Hs. cbn [app] in Hs. unfold os. rewrite Hs by (unfold zlen in *; lia).
      rewrite Hdl, drop_ge by (unfold zlen in *; lia). by rewrite app_nil_r. }
  cbn [mbind outcome_bind default]. unfold id. change (negb (1024 =? 1024)) with false. cbv iota.
  rewrite <- Hdl, arr_slice_all. cbn [mbind outcome_bind]. by rewrite bool_decide_eq_true_2.
Qed.

(** C20: the test programs of the HPACK library, whatever their uninitialised arrays
    hold.  [test.c], [bitbuf-test.c], [encode-test.c] and [decode-test.c] return
    0.  [random-test.c] returns 0 on all data whose code is at most 3838 octets;
    on the rest its buffer, which has no room for the octets of the length, is
    overrun. *)
Theorem hpack_tests buf shortbuf sequence_buf encode_buf decode_buf data encoded decoded :
  octets buf -> zlen buf = 123 -> zlen shortbuf = 1 -> octets sequence_buf -> zlen sequence_buf = 8 ->
  zlen encode_buf = 123 -> zlen decode_buf = 35 ->
  octets data -> zlen data = 1024 -> zlen encoded = 3841 -> zlen decoded = 1024 ->
  number_test_main buf shortbuf sequence_buf = Ret 0 /\ bitbuf_test_main = Ret 0 /\
  encode_test_main etable number0 encode_buf = Ret 0 /\ decode_test_main decode_buf = Ret 0 /\
  random_test_main etable number0 true data 1024 encoded decoded
  = if zlen (huff_octets data) <=? 3838 then Ret 0 else Undef OutOfBounds.
Proof.
  intros. split; [|split; [apply bitbuf_test_passes|split; [by apply encode_test_passes|split; [by apply decode_test_passes|by apply random_test_result]]]].
  unfold number_test_main. rewrite encode_tests_pass by done. cbn [mbind outcome_bind]. change (negb (0 =? 0)) with false. cbv iota.
  rewrite decode_tests_pass. cbn [mbind outcome_bind]. change (negb (0 =? 0)) with false. cbv iota.
  unfold sequence_tests. rewrite sequence_loop_pass by (done || lia). done.
Qed.

End tests.

(** Line feeds, whose code is thirty bits, overrun the buffer. *)
Lemma line_feeds n : zlen (huff_octets (replicate n 10)) = (30 * Z.of_nat n + 7) / 8.
Proof.
  unfold huff_octets. rewrite zlen_pack. f_equal. f_equal. induction n as [|n IH]; [done|]. cbn [replicate].
  rewrite huff_bits_cons, zlen_app, IH. change (zlen (code_bits (huffcode 10))) with 30. lia.
Qed.

Lemma hpack_tests_witness :
  number_test_main (replicate 123 7) [7] (replicate 8 7) = Ret 0 /\ bitbuf_test_main = Ret 0 /\
  encode_test_main huffcodes (replicate 10 7) (replicate 123 7) = Ret 0 /\ decode_test_main (replicate 35 7) = Ret 0 /\
  random_test_main huffcodes (replicate 10 7) true (replicate 1024 10) 1024 (replicate 3841 7) (replicate 1024 7) = Undef OutOfBounds.
Proof.
  destruct (hpack_tests huffcodes (replicate 10 7)) with (buf := replicate 123 7) (shortbuf := [7]) (sequence_buf := replicate 8 7)
    (encode_buf := replicate 123 7) (decode_buf := replicate 35 7) (data := replicate 1024 10) (encoded := replicate 3841 7)
    (decoded := replicate 1024 7) as (H1 & H2 & H3 & H4 & H5).
  1-13: first [apply (bool_decide_unpack _); vm_compute; exact I | vm_compute; reflexivity].
  rewrite line_feeds in H5. split; [exact H1|]. split; [exact H2|]. split; [exact H3|]. split; [exact H4|]. exact H5.
Defined.
