(* ===== verification/HpackHeader.v ===== *)
(** HPACK header fields and string literals: the static table, [class Header]
    and [hpack_encode_string] of [hpack/header.cpp].

    A [std::string] is the list of its octets.  The mutable caches of a [Header]
    are fields, so [name_encoded] and [value_encoded] return the header they
    leave behind. *)
From S2P Require Import Prelude HuffTables Number HuffCode HuffEncode.

(** [struct static_table_entry] *)
Record static_table_entry := mk_entry { entry_name : string; entry_value : string }.

Definition static_table : list static_table_entry := [
  mk_entry EmptyString EmptyString;
  mk_entry ":authority" EmptyString;
  mk_entry ":method" "GET";
  mk_entry ":method" "POST";
  mk_entry ":path" "/";
  mk_entry ":path" "/index.html";
  mk_entry ":scheme" "http";
  mk_entry ":scheme" "https";
  mk_entry ":status" "200";
  mk_entry ":status" "204";
  mk_entry ":status" "206";
  mk_entry ":status" "304";
  mk_entry ":status" "400";
  mk_entry ":status" "404";
  mk_entry ":status" "500";
  mk_entry "accept-charset" EmptyString;
  mk_entry "accept-encoding" "gzip, deflate";
  mk_entry "accept-language" EmptyString;
  mk_entry "accept-ranges" EmptyString;
  mk_entry "accept" EmptyString;
  mk_entry "access-control-allow-origin" EmptyString;
  mk_entry "age" EmptyString;
  mk_entry "allow" EmptyString;
  mk_entry "authorization" EmptyString;
  mk_entry "cache-control" EmptyString;
  mk_entry "content-disposition" EmptyString;
  mk_entry "content-encoding" EmptyString;
  mk_entry "content-language" EmptyString;
  mk_entry "content-length" EmptyString;
  mk_entry "content-location" EmptyString;
  mk_entry "content-range" EmptyString;
  mk_entry "content-type" EmptyString;
  mk_entry "cookie" EmptyString;
  mk_entry "date" EmptyString;
  mk_entry "etag" EmptyString;
  mk_entry "expect" EmptyString;
  mk_entry "expires" EmptyString;
  mk_entry "from" EmptyString;
  mk_entry "host" EmptyString;
  mk_entry "if-match" EmptyString;
  mk_entry "if-modified-since" EmptyString;
  mk_entry "if-none-match" EmptyString;
  mk_entry "if-range" EmptyString;
  mk_entry "if-unmodified-since" EmptyString;
  mk_entry "last-modified" EmptyString;
  mk_entry "link" EmptyString;
  mk_entry "location" EmptyString;
  mk_entry "max-forwards" EmptyString;
  mk_entry "proxy-authenticate" EmptyString;
  mk_entry "proxy-authorization" EmptyString;
  mk_entry "range" EmptyString;
  mk_entry "referer" EmptyString;
  mk_entry "refresh" EmptyString;
  mk_entry "retry-after" EmptyString;
  mk_entry "server" EmptyString;
  mk_entry "set-cookie" EmptyString;
  mk_entry "strict-transport-security" EmptyString;
  mk_entry "transfer-encoding" EmptyString;
  mk_entry "user-agent" EmptyString;
  mk_entry "vary" EmptyString;
  mk_entry "via" EmptyString;
  mk_entry "www-authenticate" EmptyString
  ].

(** [class Header] *)
Record Header := mk_Header {
  name_ : list Z;
  value_ : list Z;
  name_encoded_ : list Z;
  value_encoded_ : list Z;
  never_indexed_ : bool
}.

#[export] Instance Header_eq_dec : EqDecision Header.
Proof. solve_decision. Defined.

(** The constructor with its default arguments. *)
Definition new_Header (name value : list Z) : Header := mk_Header name value [] [] false.

Definition Header_hpack_size (h : Header) : Z := u32 (32 + zlen (name_ h) + zlen (value_ h)).

(** [Header::value(v, encoded_value)] *)
Definition Header_set_value (h : Header) (v encoded_value : list Z) : Header :=
  mk_Header (name_ h) v (name_encoded_ h) encoded_value (never_indexed_ h).

Definition Header_set_never_indexed (h : Header) (v : bool) : Header :=
  mk_Header (name_ h) (value_ h) (name_encoded_ h) (value_encoded_ h) v.

Section encode.
Context (etable : list encv).

(** [number0] and [raws0] are what the local arrays [encoded_number] of
    [huffman_encode] and [raws_length_prefix] hold uninitialised. *)
Definition hpack_encode_string (number0 raws0 : list Z) (s : list Z) : outcome (list Z) :=
  let coded := replicate (Z.to_nat (10 + zlen s)) 0 in
  '(len, coded) ← huffman_encode etable number0 s (zlen s) coded (zlen coded);
  let coded := if 0 <? len then str_resize coded len else coded in
  if (0 <? len) && (zlen coded <=? zlen s) then Ret coded
  else
    '(plen, raws) ← encode_number (zlen s) 7 (Some raws0) 10;
    if plen <? 0 then
      if 0 <? len then Ret coded
      else Throw (runtime_error "Failed to encode string")
    else
      let raw_len := u32 (plen + zlen s) in
      if (len <? 0) || (raw_len <? len) then
        let coded := str_resize coded raw_len in
        p ← arr_slice (default raws0 raws) 0 plen;
        coded ← arr_blit coded 0 p;
        arr_blit coded plen s
      else Ret coded.

Definition name_encoded (number0 raws0 : list Z) (h : Header) : outcome (list Z * Header) :=
  if bool_decide (name_encoded_ h <> []) then Ret (name_encoded_ h, h)
  else
    e ← hpack_encode_string number0 raws0 (name_ h);
    Ret (e, mk_Header (name_ h) (value_ h) e (value_encoded_ h) (never_indexed_ h)).

Definition value_encoded (number0 raws0 : list Z) (h : Header) : outcome (list Z * Header) :=
  if bool_decide (value_encoded_ h <> []) then Ret (value_encoded_ h, h)
  else
    e ← hpack_encode_string number0 raws0 (name_ h);
    Ret (e, mk_Header (name_ h) (value_ h) (name_encoded_ h) e (never_indexed_ h)).
End encode.

(** ** String literals (RFC 7541 section 5.2) *)

Inductive string_literal :=
  | Raw (s : list Z)
  | Huff (s : list Z).

Definition literal_content (l : string_literal) : list Z :=
  match l with Raw s | Huff s => s end.

Definition literal_octets (l : string_literal) : list Z :=
  match l with
  | Raw s => number_octets (zlen s) 7 0 ++ s
  | Huff s => number_octets (zlen (huff_octets s)) 7 128 ++ huff_octets s
  end.

Lemma number_octets_short n hi : 0 <= n <= SSIZE_MAX -> zlen (number_octets n 7 hi) <= 10.
Proof.
  unfold SSIZE_MAX, number_octets. intros Hn. change (2 ^ 7 - 1) with 127.
  destruct (Z.ltb_spec n 127); rewrite zlen_cons; [change (zlen (@nil Z)) with 0; lia|].
  pose proof (varint_length_bound 10 9 (n - 127)). unfold zlen.
  change (128 ^ Z.of_nat 9) with (2 ^ 63) in *. lia.
Qed.

(** [encode_number] into a local array of ten octets: the bit above the prefix
    is the one that was there. *)
Lemma encode_number_local n local :
  0 <= n <= SSIZE_MAX -> octets local -> zlen local = 10 ->
  let os := number_octets n 7 (hd 0 local - hd 0 local mod 128) in
  encode_number n 7 (Some local) 10 = Ret (zlen os, Some (os ++ drop (length os) local)).
Proof.
  intros Hn Hl Hlen os. destruct local as [|b0 tl]; [done|]. cbn [hd] in *.
  pose proof (encode_number_octets n 7 b0 tl) as He. cbv zeta in He. rewrite Hlen in He.
  pose proof (number_octets_short n (b0 - b0 mod 128) Hn) as Hs. unfold SSIZE_MAX in Hn.
  change (2 ^ 7) with 128 in He. fold os in He, Hs.
  destruct (Z.leb_spec (zlen os) 10); [|lia]. apply He; [lia|lia|done].
Qed.

(** Overwriting a buffer with two pieces that fill it. *)
Lemma blit_two (buf a b : list Z) :
  zlen buf = zlen a + zlen b ->
  (buf ← arr_blit buf 0 a; arr_blit buf (zlen a) b) = Ret (a ++ b).
Proof.
  intros Hl. pose proof (zlen_nonneg b). rewrite arr_blit_0 by (unfold zlen in *; lia).
  cbn [mbind outcome_bind]. rewrite arr_blit_in.
  - rewrite to_nat_zlen, take_app_length. f_equal. f_equal. rewrite drop_ge; [apply app_nil_r|].
    rewrite length_app, length_drop. unfold zlen in *. lia.
  - apply zlen_nonneg.
  - rewrite zlen_app. unfold zlen in *. rewrite length_drop. lia.
Qed.

Section encode_string.
Context (etable : list encv) `{!EncodeTable etable} (number0 raws0 : list Z).
Hypothesis (Hnumber0 : octets number0) (Hnumber0_len : zlen number0 = 10).
Hypothesis (Hraws0 : octets raws0) (Hraws0_len : zlen raws0 = 10).

(** The H bit that a raw string gets: whatever the local array held. *)
Definition raw_high : Z := hd 0 raws0 - hd 0 raws0 mod 128.

(** The two forms of [s], and the one chosen. *)
Definition huff_form (s : list Z) : list Z := literal_octets (Huff s).
Definition raw_form (s : list Z) : list Z := number_octets (zlen s) 7 raw_high ++ s.

Definition encoded_string (s : list Z) : list Z :=
  if (zlen (huff_octets s) <=? 9 + zlen s) && (zlen (huff_form s) <=? zlen (raw_form s))
  then huff_form s else raw_form s.

Lemma encode_raw s coded :
  zlen s < 2 ^ 32 - 10 ->
  ('(plen, raws) ← encode_number (zlen s) 7 (Some raws0) 10;
   if plen <? 0 then Throw (runtime_error "Failed to encode string")
   else
     let coded := str_resize coded (u32 (plen + zlen s)) in
     p ← arr_slice (default raws0 raws) 0 plen;
     coded ← arr_blit coded 0 p;
     arr_blit coded plen s) = Ret (raw_form s).
Proof.
  intros Hs. pose proof (zlen_nonneg s). unfold raw_form, raw_high.
  rewrite encode_number_local by (done || unfold SSIZE_MAX; lia).
  set (os := number_octets _ _ _).
  pose proof (number_octets_short (zlen s) (hd 0 raws0 - hd 0 raws0 mod 128)) as Hos.
  fold os in Hos. unfold SSIZE_MAX in Hos. cbn [mbind outcome_bind default]. unfold id. pose proof (zlen_nonneg os).
  destruct (Z.ltb_spec (zlen os) 0); [lia|]. rewrite wrap_small by lia. cbv zeta.
  rewrite arr_slice_in by (rewrite ?zlen_app; pose proof (zlen_nonneg (drop (length os) raws0)); lia).
  change (Z.to_nat 0) with 0%nat. rewrite drop_0, to_nat_zlen, take_app_length.
  apply (blit_two _ os s). rewrite zlen_str_resize; lia.
Qed.

Lemma hpack_encode_string_spec s :
  octets s -> zlen s < 2 ^ 32 - 10 ->
  hpack_encode_string etable number0 raws0 s
  = if (zlen (huff_octets s) <=? 9 + zlen s) && (10 + zlen s <? zlen (huff_form s))
    then Undef OutOfBounds
    else Ret (encoded_string s).
Proof.
  intros Hs Hmax. pose proof (zlen_nonneg s). unfold hpack_encode_string.
  set (coded0 := replicate _ 0).
  assert (zlen coded0 = 10 + zlen s) as Hc0 by (apply zlen_replicate; lia). rewrite Hc0.
  pose proof (huffman_encode_spec etable number0 s coded0 Hnumber0 Hnumber0_len Hs) as He.
  rewrite Hc0 in He. specialize (He ltac:(unfold SSIZE_MAX; lia)). cbv zeta in He.
  unfold encoded_string. set (os := huff_octets s) in *. set (prefix := number_octets (zlen os) 7 128) in *.
  assert (zlen (huff_form s) = zlen prefix + zlen os) as Hhf by apply zlen_app.
  pose proof (number_octets_length (zlen os) 7 128) as Hpl. fold prefix in Hpl. pose proof (zlen_nonneg os).
  pose proof (encode_raw s) as Hraw.
  assert (zlen s < zlen (raw_form s)) as Hrs.
  { unfold raw_form. rewrite zlen_app. pose proof (number_octets_length (zlen s) 7 raw_high). lia. }
  pose proof (encode_number_local (zlen s) raws0 ltac:(unfold SSIZE_MAX; lia) Hraws0 Hraws0_len) as Hen.
  cbv zeta in Hen. fold raw_high in Hen.
  pose proof (number_octets_short (zlen s) raw_high ltac:(unfold SSIZE_MAX; lia)) as Hsh.
  pose proof (number_octets_length (zlen s) 7 raw_high) as Hnl.
  assert (zlen (raw_form s) = zlen (number_octets (zlen s) 7 raw_high) + zlen s) as Hrf by apply zlen_app.
  destruct (Z.ltb_spec (10 + zlen s) (1 + zlen os)); cbn [orb] in He.
  - destruct (Z.leb_spec (zlen os) (9 + zlen s)); [lia|]. cbn [andb].
    destruct He as [buf' ->]. cbn [mbind outcome_bind]. change (0 <? -1) with false. cbn [andb].
    change (-1 <? 0) with true. cbn [orb]. rewrite <- (Hraw buf' Hmax). rewrite Hen. done.
  - destruct (Z.leb_spec (zlen os) (9 + zlen s)); [|lia]. cbn [andb].
    destruct (Z.ltb_spec SSIZE_MAX (zlen prefix + zlen os)); [unfold SSIZE_MAX in *; lia|].
    destruct (Z.leb_spec (zlen prefix + zlen os) (10 + zlen s)), (Z.ltb_spec (10 + zlen s) (zlen (huff_form s)));
      try lia.
    2:{ by rewrite He. }
    destruct He as (rest & Hrest & ->). cbn [mbind outcome_bind].
    destruct (Z.ltb_spec 0 (zlen prefix + zlen os)); [|lia]. cbn [andb].
    rewrite str_resize_take by (rewrite !zlen_app; pose proof (zlen_nonneg rest); lia).
    assert (take (Z.to_nat (zlen prefix + zlen os)) (prefix ++ os ++ rest) = huff_form s) as ->.
    { rewrite (assoc_L (++)), take_app_length'; [done|]. rewrite length_app. unfold zlen. lia. }
    destruct (Z.leb_spec (zlen (huff_form s)) (zlen s)).
    { destruct (Z.leb_spec (zlen (huff_form s)) (zlen (raw_form s))); [done|lia]. }
    rewrite Hen. cbn [mbind outcome_bind].
    destruct (Z.ltb_spec (zlen (number_octets (zlen s) 7 raw_high)) 0); [lia|].
    rewrite wrap_small by lia. destruct (Z.ltb_spec (zlen prefix + zlen os) 0); [lia|]. cbn [orb].
    rewrite <- Hrf. destruct (Z.ltb_spec (zlen (raw_form s)) (zlen prefix + zlen os)),
      (Z.leb_spec (zlen (huff_form s)) (zlen (raw_form s))); try lia; [|done].
    rewrite <- (Hraw (huff_form s) Hmax), Hen. cbn [mbind outcome_bind].
    destruct (Z.ltb_spec (zlen (number_octets (zlen s) 7 raw_high)) 0); [lia|].
    by rewrite wrap_small, <- Hrf by lia.
Qed.
End encode_string.

(** [hpack_encode_string] returns the shorter of the Huffman form and the raw
    form of the string, the Huffman form when they are equally long, for every
    string below 4 GiB.  Two defects are part of the statement: the H bit of the
    raw form's length is the top bit of an uninitialised octet ([raw_form]), and a
    Huffman form that fits the buffer behind one octet of length but not behind
    its own length is moved past the end of it. *)
Theorem hpack_encode_string_correct etable number0 raws0 s :
  EncodeTable etable -> octets number0 -> zlen number0 = 10 -> octets raws0 -> zlen raws0 = 10 ->
  octets s -> zlen s < 2 ^ 32 - 10 ->
  hpack_encode_string etable number0 raws0 s
  = if (zlen (huff_octets s) <=? 9 + zlen s) && (10 + zlen s <? zlen (huff_form s))
    then Undef OutOfBounds
    else Ret (encoded_string raws0 s).
Proof. intros. by apply hpack_encode_string_spec. Qed.

(** 118 octets whose Huffman form is 127 octets. *)
Lemma hpack_encode_string_correct_witness :
  hpack_encode_string huffcodes (replicate 10 0) (replicate 10 0) (replicate 85 38 ++ replicate 33 63)
  = Undef OutOfBounds.
Proof.
  etransitivity.
  - apply (hpack_encode_string_correct huffcodes (replicate 10 0) (replicate 10 0)
      (replicate 85 38 ++ replicate 33 63));
      [apply _|apply (bool_decide_unpack _); exact I|reflexivity
      |apply (bool_decide_unpack _); exact I|reflexivity
      |apply (bool_decide_unpack _); exact I|vm_compute; reflexivity].
  - vm_compute. reflexivity.
Defined.

(** The same string of one octet, encoded over two different stacks. *)
Example raw_prefix_uninitialised :
  hpack_encode_string huffcodes (replicate 10 0) (replicate 10 0) [1] = Ret [1; 1] /\
  hpack_encode_string huffcodes (replicate 10 0) (replicate 10 255) [1] = Ret [129; 1].
Proof. by vm_compute. Qed.

(** ** The names of the static headers

    [enum class StaticHeader: uint_fast8_t] is not used yet; it is to name the
    rows of the table. *)
Module StaticHeader.

Inductive StaticHeader :=
  | AUTHORITY | METHOD_GET | METHOD_POST | PATH_SLASH | PATH_SLASH_INDEX_HTML | SCHEME_HTTP
  | SCHEME_HTTPS | STATUS_200 | STATUS_204 | STATUS_206 | STATUS_304 | STATUS_400 | STATUS_404
  | STATUS_500 | ACCEPT_CHARSET | ACCEPT_ENCODING_GZIP_DEFLATE | ACCEPT_LANGUAGE | ACCEPT_RANGES
  | ACCEPT | ACCESS_CONTROL_ALLOW_ORIGIN | AGE | ALLOW | AUTHORIZATION | CACHE_CONTROL
  | CONTENT_DISPOSITION | CONTENT_ENCODING | CONTENT_LANGUAGE | CONTENT_LENGTH | CONTENT_LOCATION
  | CONTENT_RANGE | CONTENT_TYPE | COOKIE | DATE | ETAG | EXPECT | EXPIRES | FROM | HOST | IF_MATCH
  | IF_MODIFIED_SINCE | IF_NONE_MATCH | IF_RANGE | IF_UNMODIFIED_SINCE | LAST_MODIFIED | LINK
  | LOCATION | MAX_FORWARDS | PROXY_AUTHENTICATE | PROXY_AUTHORIZATION | RANGE | REFERER | REFRESH
  | RETRY_AFTER | SERVER | SET_COOKIE | STRICT_TRANSPORT_SECURITY | TRANSFER_ENCODING | USER_AGENT
  | VARY | VIA | WWW_AUTHENTICATE.

(** The first enumerator is 1, the others count on. *)
Definition StaticHeader_value (h : StaticHeader) : Z :=
  match h with
  | AUTHORITY => 1 | METHOD_GET => 2 | METHOD_POST => 3 | PATH_SLASH => 4
  | PATH_SLASH_INDEX_HTML => 5 | SCHEME_HTTP => 6 | SCHEME_HTTPS => 7 | STATUS_200 => 8
  | STATUS_204 => 9 | STATUS_206 => 10 | STATUS_304 => 11 | STATUS_400 => 12 | STATUS_404 => 13
  | STATUS_500 => 14 | ACCEPT_CHARSET => 15 | ACCEPT_ENCODING_GZIP_DEFLATE => 16
  | ACCEPT_LANGUAGE => 17 | ACCEPT_RANGES => 18 | ACCEPT => 19 | ACCESS_CONTROL_ALLOW_ORIGIN => 20
  | AGE => 21 | ALLOW => 22 | AUTHORIZATION => 23 | CACHE_CONTROL => 24 | CONTENT_DISPOSITION => 25
  | CONTENT_ENCODING => 26 | CONTENT_LANGUAGE => 27 | CONTENT_LENGTH => 28 | CONTENT_LOCATION => 29
  | CONTENT_RANGE => 30 | CONTENT_TYPE => 31 | COOKIE => 32 | DATE => 33 | ETAG => 34 | EXPECT => 35
  | EXPIRES => 36 | FROM => 37 | HOST => 38 | IF_MATCH => 39 | IF_MODIFIED_SINCE => 40
  | IF_NONE_MATCH => 41 | IF_RANGE => 42 | IF_UNMODIFIED_SINCE => 43 | LAST_MODIFIED => 44
  | LINK => 45 | LOCATION => 46 | MAX_FORWARDS => 47 | PROXY_AUTHENTICATE => 48
  | PROXY_AUTHORIZATION => 49 | RANGE => 50 | REFERER => 51 | REFRESH => 52 | RETRY_AFTER => 53
  | SERVER => 54 | SET_COOKIE => 55 | STRICT_TRANSPORT_SECURITY => 56 | TRANSFER_ENCODING => 57
  | USER_AGENT => 58 | VARY => 59 | VIA => 60 | WWW_AUTHENTICATE => 61
  end.

Definition identifier (h : StaticHeader) : string :=
  match h with
  | AUTHORITY => "AUTHORITY" | METHOD_GET => "METHOD_GET" | METHOD_POST => "METHOD_POST"
  | PATH_SLASH => "PATH_SLASH" | PATH_SLASH_INDEX_HTML => "PATH_SLASH_INDEX_HTML"
  | SCHEME_HTTP => "SCHEME_HTTP" | SCHEME_HTTPS => "SCHEME_HTTPS" | STATUS_200 => "STATUS_200"
  | STATUS_204 => "STATUS_204" | STATUS_206 => "STATUS_206" | STATUS_304 => "STATUS_304"
  | STATUS_400 => "STATUS_400" | STATUS_404 => "STATUS_404" | STATUS_500 => "STATUS_500"
  | ACCEPT_CHARSET => "ACCEPT_CHARSET"
  | ACCEPT_ENCODING_GZIP_DEFLATE => "ACCEPT_ENCODING_GZIP_DEFLATE"
  | ACCEPT_LANGUAGE => "ACCEPT_LANGUAGE" | ACCEPT_RANGES => "ACCEPT_RANGES" | ACCEPT => "ACCEPT"
  | ACCESS_CONTROL_ALLOW_ORIGIN => "ACCESS_CONTROL_ALLOW_ORIGIN" | AGE => "AGE" | ALLOW => "ALLOW"
  | AUTHORIZATION => "AUTHORIZATION" | CACHE_CONTROL => "CACHE_CONTROL"
  | CONTENT_DISPOSITION => "CONTENT_DISPOSITION" | CONTENT_ENCODING => "CONTENT_ENCODING"
  | CONTENT_LANGUAGE => "CONTENT_LANGUAGE" | CONTENT_LENGTH => "CONTENT_LENGTH"
  | CONTENT_LOCATION => "CONTENT_LOCATION" | CONTENT_RANGE => "CONTENT_RANGE"
  | CONTENT_TYPE => "CONTENT_TYPE" | COOKIE => "COOKIE" | DATE => "DATE" | ETAG => "ETAG"
  | EXPECT => "EXPECT" | EXPIRES => "EXPIRES" | FROM => "FROM" | HOST => "HOST"
  | IF_MATCH => "IF_MATCH" | IF_MODIFIED_SINCE => "IF_MODIFIED_SINCE"
  | IF_NONE_MATCH => "IF_NONE_MATCH" | IF_RANGE => "IF_RANGE"
  | IF_UNMODIFIED_SINCE => "IF_UNMODIFIED_SINCE" | LAST_MODIFIED => "LAST_MODIFIED" | LINK => "LINK"
  | LOCATION => "LOCATION" | MAX_FORWARDS => "MAX_FORWARDS"
  | PROXY_AUTHENTICATE => "PROXY_AUTHENTICATE" | PROXY_AUTHORIZATION => "PROXY_AUTHORIZATION"
  | RANGE => "RANGE" | REFERER => "REFERER" | REFRESH => "REFRESH" | RETRY_AFTER => "RETRY_AFTER"
  | SERVER => "SERVER" | SET_COOKIE => "SET_COOKIE"
  | STRICT_TRANSPORT_SECURITY => "STRICT_TRANSPORT_SECURITY"
  | TRANSFER_ENCODING => "TRANSFER_ENCODING" | USER_AGENT => "USER_AGENT" | VARY => "VARY"
  | VIA => "VIA" | WWW_AUTHENTICATE => "WWW_AUTHENTICATE"
  end.

(** How an identifier is written in a header: in lower case, with hyphens. *)
Definition spell (c : Z) : Z := if c =? 95 then 45 else if (65 <=? c) && (c <=? 90) then c + 32 else c.
Definition spelled (h : StaticHeader) : list Z := map spell (str (identifier h)).

(** The name of a row, without the colon of a pseudo-header. *)
Definition bare_name (e : static_table_entry) : list Z :=
  match str (entry_name e) with 58 :: l => l | l => l end.

(** Each enumerator is the index of the row it is called after: its identifier is
    the row's name, and says more only where the row has a value or is a
    pseudo-header. *)
Lemma value_names_row h :
  exists e more, static_table !! Z.to_nat (StaticHeader_value h) = Some e /\ spelled h = bare_name e ++ more /\
    (more = [] \/ entry_value e <> EmptyString).
Proof.
  destruct h; (eexists _, _; split; [reflexivity|]; split; [vm_compute; reflexivity|]);
    ((left; reflexivity) || (right; discriminate)).
Qed.

Definition enumerators : list StaticHeader :=
  [AUTHORITY; METHOD_GET; METHOD_POST; PATH_SLASH; PATH_SLASH_INDEX_HTML; SCHEME_HTTP; SCHEME_HTTPS;
   STATUS_200; STATUS_204; STATUS_206; STATUS_304; STATUS_400; STATUS_404; STATUS_500;
   ACCEPT_CHARSET; ACCEPT_ENCODING_GZIP_DEFLATE; ACCEPT_LANGUAGE; ACCEPT_RANGES; ACCEPT;
   ACCESS_CONTROL_ALLOW_ORIGIN; AGE; ALLOW; AUTHORIZATION; CACHE_CONTROL; CONTENT_DISPOSITION;
   CONTENT_ENCODING; CONTENT_LANGUAGE; CONTENT_LENGTH; CONTENT_LOCATION; CONTENT_RANGE;
   CONTENT_TYPE; COOKIE; DATE; ETAG; EXPECT; EXPIRES; FROM; HOST; IF_MATCH; IF_MODIFIED_SINCE;
   IF_NONE_MATCH; IF_RANGE; IF_UNMODIFIED_SINCE; LAST_MODIFIED; LINK; LOCATION; MAX_FORWARDS;
   PROXY_AUTHENTICATE; PROXY_AUTHORIZATION; RANGE; REFERER; REFRESH; RETRY_AFTER; SERVER;
   SET_COOKIE; STRICT_TRANSPORT_SECURITY; TRANSFER_ENCODING; USER_AGENT; VARY; VIA; WWW_AUTHENTICATE].

(** Every row but the first, which is no header, has its enumerator. *)
Lemma row_named n : 1 <= n < Z.of_nat (length static_table) -> exists h, StaticHeader_value h = n.
Proof.
  intros Hn. change (Z.of_nat (length static_table)) with 62 in Hn.
  assert (n ∈ map StaticHeader_value enumerators) as Hin.
  { apply list_elem_of_In. vm_compute. lia. }
  apply list_elem_of_fmap in Hin as (h & -> & _). by exists h.
Qed.

End StaticHeader.
