(* ===== verification/HpackTable.v ===== *)
(** The header tables of HPACK: [class StaticTable], [class DynamicTable] and
    [class HeaderTable] of [hpack/header.cpp].

    [table_] is the vector, newest entry first.  The specification of the
    dynamic table is RFC 7541 section 4: [fitting] keeps the newest entries
    within a size. *)
From S2P Require Import Prelude HpackHeader.

(** [DynamicTable::start_] *)
Definition start_ : Z := 62.

(** [class DynamicTable] *)
Record DynamicTable := mk_DynamicTable { size_octets_ : Z; table_ : list Header }.

Definition new_DynamicTable : DynamicTable := mk_DynamicTable 4096 [].

Definition DynamicTable_get (t : DynamicTable) (index : Z) : outcome Header :=
  if index <? start_ then Throw (out_of_range "requested static table index from dynamic table")
  else
    let index := index - start_ in
    if zlen (table_ t) <=? index then Throw (out_of_range "dynamic table index out of range")
    else (table_ t).[index].

Definition DynamicTable_hpack_size (t : DynamicTable) : Z :=
  foldl (fun s header => u32 (s + Header_hpack_size header)) 0 (table_ t).

(** The [while] loop of [insert]; every round removes an entry. *)
Fixpoint evict (fuel : nat) (newh_size : Z) (t : DynamicTable) : outcome DynamicTable :=
  if (size_octets_ t <? u32 (DynamicTable_hpack_size t + newh_size)) && negb (zlen (table_ t) =? 0) then
    match fuel with
    | O => Undef OutOfFuel
    | S fuel => evict fuel newh_size (mk_DynamicTable (size_octets_ t) (take (length (table_ t) - 1) (table_ t)))
    end
  else Ret t.

Definition DynamicTable_insert (t : DynamicTable) (header : Header) : outcome DynamicTable :=
  let newh_size := Header_hpack_size header in
  if size_octets_ t <? newh_size then Ret (mk_DynamicTable (size_octets_ t) [])
  else
    t ← evict (length (table_ t)) newh_size t;
    Ret (mk_DynamicTable (size_octets_ t) (header :: table_ t)).

(** The [while] loop of [resize]: [nremove] and [hsize] when it ends. *)
Fixpoint count_removed (fuel : nat) (table : list Header) (new_hpack_size nremove hsize : Z) : outcome Z :=
  if negb (zlen table =? 0) && (new_hpack_size <? hsize) then
    match fuel with
    | O => Undef OutOfFuel
    | S fuel =>
        let nremove := nremove + 1 in
        e ← table.[zlen table - nremove];
        let this_entry_sz := Header_hpack_size e in
        c_assert (hsize <? this_entry_sz) ≫= fun _ =>
        count_removed fuel table new_hpack_size nremove (u32 (hsize - this_entry_sz))
    end
  else Ret nremove.

Definition DynamicTable_resize (t : DynamicTable) (new_hpack_size : Z) : outcome DynamicTable :=
  if size_octets_ t <=? new_hpack_size then Ret (mk_DynamicTable new_hpack_size (table_ t))
  else
    nremove ← count_removed (S (length (table_ t))) (table_ t) new_hpack_size 0 (DynamicTable_hpack_size t);
    Ret (mk_DynamicTable (size_octets_ t) (take (length (table_ t) - Z.to_nat nremove) (table_ t))).

Definition DynamicTable_getIndex (t : DynamicTable) (h : Header) : Z * Z := (0, 0).

(** [class StaticTable] has no state. *)
Definition StaticTable_get (index : Z) : outcome Header :=
  if (index =? 0) || (zlen static_table <? index) then
    Throw (out_of_range "invalid index for static table")
  else
    e ← static_table.[index];
    Ret (new_Header (str (entry_name e)) (str (entry_value e))).

Definition StaticTable_getIndex (h : Header) : Z * Z := (0, 0).

(** [class HeaderTable]: the static table is shared, so the state is the dynamic one. *)
Definition HeaderTable := DynamicTable.

Definition HeaderTable_get (t : HeaderTable) (index : Z) : outcome Header :=
  if index <? 62 then StaticTable_get index else DynamicTable_get t index.

Definition HeaderTable_getIndex (t : HeaderTable) (header : Header) : Z * Z :=
  let staticIndex := StaticTable_getIndex header in
  if negb (snd staticIndex =? 0) then staticIndex
  else
    let dynamicIndex := DynamicTable_getIndex t header in
    if negb (snd dynamicIndex =? 0) then dynamicIndex
    else if negb (fst staticIndex =? 0) then staticIndex
    else dynamicIndex.

Definition HeaderTable_insert (t : HeaderTable) (h : Header) : outcome HeaderTable :=
  DynamicTable_insert t h.

Definition HeaderTable_resize (t : HeaderTable) (new_hpack_size : Z) : outcome HeaderTable :=
  DynamicTable_resize t new_hpack_size.

(** ** Specification *)

(** The size of an entry (RFC 7541 section 4.1) and of a table. *)
Definition entry_size (h : Header) : Z := 32 + zlen (name_ h) + zlen (value_ h).
Definition table_size (l : list Header) : Z := foldr (fun h n => entry_size h + n) 0 l.

(** The newest entries of [l] whose sizes add up to at most [room]. *)
Fixpoint fitting (room : Z) (l : list Header) : list Header :=
  match l with
  | [] => []
  | h :: l => if entry_size h <=? room then h :: fitting (room - entry_size h) l else []
  end.

Definition static_entry (index : Z) : static_table_entry :=
  default (mk_entry EmptyString EmptyString) (static_table !! Z.to_nat index).

(** A table within its limit, the limit below 2^31, so that sizes do not wrap. *)
Record table_ok (t : DynamicTable) : Prop := mk_table_ok {
  ok_limit : 0 <= size_octets_ t < 2 ^ 31;
  ok_size : table_size (table_ t) <= size_octets_ t
}.

Lemma entry_size_pos h : 32 <= entry_size h.
Proof. unfold entry_size. pose proof (zlen_nonneg (name_ h)). pose proof (zlen_nonneg (value_ h)). lia. Qed.

Lemma table_size_nonneg l : 0 <= table_size l.
Proof. induction l as [|h l IH]; simpl; [lia|]. pose proof (entry_size_pos h). lia. Qed.

Lemma table_size_app l k : table_size (l ++ k) = table_size l + table_size k.
Proof. induction l as [|h l IH]; simpl; lia. Qed.

Lemma hpack_size_small h : entry_size h < 2 ^ 32 -> Header_hpack_size h = entry_size h.
Proof. intros. pose proof (entry_size_pos h). apply wrap_small. unfold entry_size in *. lia. Qed.

Lemma hpack_size_table t :
  table_size (table_ t) < 2 ^ 32 -> DynamicTable_hpack_size t = table_size (table_ t).
Proof.
  unfold DynamicTable_hpack_size. intros Ht.
  assert (forall l n, 0 <= n -> n + table_size l < 2 ^ 32 ->
    foldl (fun s header => u32 (s + Header_hpack_size header)) n l = n + table_size l) as H.
  { induction l as [|h l IH]; intros n Hn Hl; simpl in *; [lia|].
    pose proof (entry_size_pos h). pose proof (table_size_nonneg l).
    rewrite hpack_size_small, wrap_small by lia. rewrite IH by lia. lia. }
  rewrite H; lia.
Qed.

Lemma fitting_all room l : table_size l <= room -> fitting room l = l.
Proof.
  revert room. induction l as [|h l IH]; intros room Hl; simpl in *; [done|].
  pose proof (table_size_nonneg l). destruct (Z.leb_spec (entry_size h) room); [|lia].
  by rewrite IH by lia.
Qed.

(** The oldest entry goes when there is not room for all. *)
Lemma fitting_snoc room l h : room < table_size (l ++ [h]) -> fitting room (l ++ [h]) = fitting room l.
Proof.
  revert room. induction l as [|x l IH]; intros room Hl; simpl in *.
  - destruct (Z.leb_spec (entry_size h) room); [lia|done].
  - destruct (Z.leb_spec (entry_size x) room); [|done]. f_equal. apply IH. lia.
Qed.

Lemma fitting_size room l : 0 <= room -> table_size (fitting room l) <= room.
Proof.
  revert room. induction l as [|h l IH]; intros room Hr; simpl; [lia|].
  destruct (Z.leb_spec (entry_size h) room); simpl; [|lia].
  specialize (IH (room - entry_size h)). lia.
Qed.

Lemma evict_fitting n limit l fuel :
  0 <= n <= limit -> limit < 2 ^ 31 -> table_size l <= limit -> (length l <= fuel)%nat ->
  evict fuel n (mk_DynamicTable limit l) = Ret (mk_DynamicTable limit (fitting (limit - n) l)).
Proof.
  intros Hn Hlim. revert fuel. induction l as [|h l IH] using rev_ind; intros fuel Hl Hf.
  { by destruct fuel; cbn; rewrite andb_false_r. }
  pose proof (table_size_nonneg (l ++ [h])). pose proof (entry_size_pos h).
  assert ((size_octets_ (mk_DynamicTable limit (l ++ [h])) <?
             u32 (DynamicTable_hpack_size (mk_DynamicTable limit (l ++ [h])) + n))
          && negb (zlen (table_ (mk_DynamicTable limit (l ++ [h]))) =? 0)
          = (limit - n <? table_size (l ++ [h]))) as Hcond.
  { rewrite hpack_size_table, wrap_small by (simpl; lia). cbn [size_octets_ table_].
    rewrite zlen_app. change (zlen [h]) with 1. pose proof (zlen_nonneg l).
    destruct (Z.eqb_spec (zlen l + 1) 0); [lia|].
    destruct (Z.ltb_spec limit (table_size (l ++ [h]) + n)), (Z.ltb_spec (limit - n) (table_size (l ++ [h])));
      lia || done. }
  rewrite length_app in Hf. simpl in Hf. destruct fuel as [|fuel]; [lia|]. cbn [evict].
  rewrite Hcond. destruct (Z.ltb_spec (limit - n) (table_size (l ++ [h]))).
  - cbn [size_octets_ table_]. rewrite length_app, Nat.add_sub, take_app_length, fitting_snoc by done.
    apply IH; [|lia]. rewrite table_size_app in Hl. simpl in Hl. lia.
  - by rewrite fitting_all.
Qed.

(** C23: [DynamicTable::insert] is the insertion of RFC 7541 section 4.4: the new
    entry comes first, and of the entries before it the newest that fit the
    limit are kept; an entry larger than the limit empties the table.  The
    table stays within its limit. *)
Theorem insert_correct t h :
  table_ok t -> entry_size h < 2 ^ 32 ->
  exists t',
    DynamicTable_insert t h = Ret t' /\
    size_octets_ t' = size_octets_ t /\
    table_ t' = fitting (size_octets_ t) (h :: table_ t) /\
    table_ok t'.
Proof.
  destruct t as [limit l]. intros [Hlim Hsize] Hh. cbn [size_octets_ table_] in *.
  unfold DynamicTable_insert. cbn [size_octets_ table_ fitting]. rewrite hpack_size_small by done.
  pose proof (entry_size_pos h).
  destruct (Z.ltb_spec limit (entry_size h)), (Z.leb_spec (entry_size h) limit); try lia.
  - eexists. split; [done|]. split; [done|]. split; [done|]. split; simpl; lia.
  - rewrite evict_fitting by lia. cbn [mbind outcome_bind size_octets_ table_].
    eexists. split; [done|]. split; [done|]. split; [done|]. split; cbn [size_octets_ table_]; [done|].
    simpl. pose proof (fitting_size (limit - entry_size h) l). lia.
Qed.

(** [DynamicTable::resize] on a table within its limit.  A limit at least as
    large as the old one is stored; a smaller limit that the contents already
    fit changes nothing, so the old limit stays in force; a smaller limit that
    would evict an entry fails the assertion, whose comparison is the wrong way
    round, and ends the program. *)
Theorem resize_correct t n :
  table_ok t -> 0 <= n < 2 ^ 32 ->
  DynamicTable_resize t n
  = if size_octets_ t <=? n then Ret (mk_DynamicTable n (table_ t))
    else if table_size (table_ t) <=? n then Ret t
    else Undef AssertionFailed.
Proof.
  destruct t as [limit l]. intros [Hlim Hsize] Hn. cbn [size_octets_ table_] in *.
  unfold DynamicTable_resize. cbn [size_octets_ table_]. rewrite hpack_size_table by (simpl; lia).
  cbn [table_ count_removed]. destruct (Z.leb_spec limit n); [done|].
  destruct (Z.ltb_spec n (table_size l)), (Z.leb_spec (table_size l) n); try lia.
  - destruct l as [|x l _] using rev_ind; [simpl in *; lia|].
    rewrite zlen_app. change (zlen [x]) with 1. pose proof (zlen_nonneg l).
    destruct (Z.eqb_spec (zlen l + 1) 0); [lia|]. cbn [negb andb].
    replace (zlen l + 1 - (0 + 1)) with (zlen l) by lia.
    rewrite (arr_get_app l) by done. cbn [mbind outcome_bind].
    rewrite table_size_app in *. cbn [table_size foldr] in *. pose proof (table_size_nonneg l).
    rewrite hpack_size_small by lia.
    destruct (Z.ltb_spec (table_size l + (entry_size x + 0)) (entry_size x)); [lia|done].
  - rewrite andb_false_r. cbn [mbind outcome_bind Z.to_nat]. rewrite Nat.sub_0_r, firstn_all. done.
Qed.

Lemma get_spec t index :
  0 <= index ->
  HeaderTable_get t index
  = if index =? 0 then Throw (out_of_range "invalid index for static table")
    else if index <=? 61 then
      let e := static_entry index in
      Ret (new_Header (str (entry_name e)) (str (entry_value e)))
    else
      match table_ t !! Z.to_nat (index - 62) with
      | Some h => Ret h
      | None => Throw (out_of_range "dynamic table index out of range")
      end.
Proof.
  intros Hi. unfold HeaderTable_get, StaticTable_get, DynamicTable_get, start_.
  destruct (Z.ltb_spec index 62), (Z.leb_spec index 61); try lia.
  - change (zlen static_table) with 62. destruct (Z.ltb_spec 62 index); [lia|].
    destruct (Z.eqb_spec index 0); cbn [orb]; [done|].
    destruct (arr_get_in static_table index) as (e & -> & He); [change (zlen static_table) with 62; lia|].
    unfold static_entry. by rewrite He.
  - destruct (Z.eqb_spec index 0); [lia|]. destruct (Z.leb_spec (zlen (table_ t)) (index - 62)).
    + unfold zlen in *. by rewrite lookup_ge_None_2 by lia.
    + destruct (arr_get_in (table_ t) (index - 62)) as (h & -> & ->); [lia|done].
Qed.

(** [HeaderTable::get] is the index address space of RFC 7541 section 2.3.3:
    1 to 61 are the static table, 62 and up the dynamic table, newest entry
    first, and every other index throws; no table is read out of range. *)
Theorem get_correct t index :
  0 <= index ->
  HeaderTable_get t index
  = if index =? 0 then Throw (out_of_range "invalid index for static table")
    else if index <=? 61 then
      let e := static_entry index in
      Ret (new_Header (str (entry_name e)) (str (entry_value e)))
    else
      match table_ t !! Z.to_nat (index - 62) with
      | Some h => Ret h
      | None => Throw (out_of_range "dynamic table index out of range")
      end.
Proof. apply get_spec. Qed.

Definition table_example : DynamicTable :=
  mk_DynamicTable 100 [new_Header (str "a") (str "1"); new_Header (str "b") (str "2")].

Lemma insert_correct_witness :
  let h := new_Header (str "c") (str "3") in
  exists t',
    DynamicTable_insert table_example h = Ret t' /\
    size_octets_ t' = 100 /\
    table_ t' = [h; new_Header (str "a") (str "1")] /\
    table_ok t'.
Proof.
  apply (insert_correct table_example (new_Header (str "c") (str "3")));
    [split; vm_compute; repeat split; congruence|vm_compute; reflexivity].
Defined.

Lemma resize_correct_witness : DynamicTable_resize table_example 50 = Undef AssertionFailed.
Proof.
  apply (resize_correct table_example 50); [split; vm_compute; repeat split; congruence|lia].
Defined.

Lemma get_correct_witness :
  HeaderTable_get table_example 63 = Ret (new_Header (str "b") (str "2")).
Proof. apply (get_correct table_example 63). lia. Defined.

(** ** Safety without an invariant: sizes may wrap *)

Definition hpack_sum (l : list Header) : Z := foldr (fun h n => Header_hpack_size h + n) 0 l.

Lemma hpack_sum_app l k : hpack_sum (l ++ k) = hpack_sum l + hpack_sum k.
Proof. induction l as [|h l IH]; simpl; lia. Qed.

Lemma hpack_size_sum t : DynamicTable_hpack_size t = u32 (hpack_sum (table_ t)).
Proof.
  unfold DynamicTable_hpack_size.
  assert (forall l n, 0 <= n < 2 ^ 32 ->
    foldl (fun s header => u32 (s + Header_hpack_size header)) n l = u32 (n + hpack_sum l)) as H.
  { induction l as [|h l IH]; intros n Hn; cbn [foldl hpack_sum foldr].
    - by rewrite Z.add_0_r, wrap_small.
    - rewrite IH by (apply wrap_bound; lia). fold (hpack_sum l). rewrite wrap_add_wrap. f_equal. lia. }
  apply H. lia.
Qed.

Lemma evict_sat E F n t fuel :
  (length (table_ t) <= fuel)%nat -> sat (fun _ => True) E F (evict fuel n t).
Proof.
  revert t. induction fuel as [|fuel IH]; intros [limit l] Hf; cbn [evict size_octets_ table_] in *.
  - destruct l; [|simpl in Hf; lia]. by rewrite andb_false_r.
  - destruct (_ && _) eqn:Ec; [|done]. apply IH. cbn [table_].
    apply andb_true_iff in Ec as [_ Hl]. destruct l; [done|]. rewrite length_take. simpl in *. lia.
Qed.

Lemma insert_sat E F t h : sat (fun _ => True) E F (DynamicTable_insert t h).
Proof.
  unfold DynamicTable_insert. destruct (_ <? _); [done|].
  eapply sat_bind; [by apply evict_sat|]. done.
Qed.

(** What is left is always the size of the entries not yet counted. *)
Lemma count_removed_sat E l k n m fuel :
  0 <= k <= zlen l -> 0 <= n -> (zlen l - k < Z.of_nat fuel) ->
  m = u32 (hpack_sum (take (Z.to_nat (zlen l - k)) l)) ->
  sat (fun _ => True) E (eq AssertionFailed) (count_removed fuel l n k m).
Proof.
  revert k m. induction fuel as [|fuel IH]; intros k m Hk Hn Hf Hm; [lia|]. cbn [count_removed].
  destruct (negb (zlen l =? 0) && (n <? m)) eqn:Ec; [|done].
  apply andb_true_iff in Ec as [_ Hlt]. apply Z.ltb_lt in Hlt.
  destruct (decide (k = zlen l)) as [->|Hne].
  { rewrite Z.sub_diag in Hm. change (m = 0) in Hm. lia. }
  destruct (arr_get_in l (zlen l - (k + 1))) as (e & -> & He); [lia|]. cbn [mbind outcome_bind].
  destruct (m <? Header_hpack_size e); cbn [c_assert mbind outcome_bind]; [|done].
  apply IH; [lia|done|lia|].
  replace (Z.to_nat (zlen l - k)) with (S (Z.to_nat (zlen l - (k + 1)))) in Hm by lia.
  rewrite (take_S_r _ _ _ He), hpack_sum_app in Hm. cbn [hpack_sum foldr] in Hm. fold (hpack_sum []) in Hm.
  rewrite Hm. unfold wrap. rewrite Zminus_mod_idemp_l. f_equal. unfold hpack_sum. lia.
Qed.

Lemma resize_sat E t n : 0 <= n -> sat (fun _ => True) E (eq AssertionFailed) (DynamicTable_resize t n).
Proof.
  intros Hn. unfold DynamicTable_resize. destruct (_ <=? _); [done|].
  eapply sat_bind; [|done]. apply count_removed_sat; [pose proof (zlen_nonneg (table_ t)); lia|done|unfold zlen; lia|].
  rewrite Z.sub_0_r, to_nat_zlen, firstn_all. apply hpack_size_sum.
Qed.

Lemma get_sat F t index :
  0 <= index -> sat (fun _ => True) (fun e => exists what, e = out_of_range what) F (HeaderTable_get t index).
Proof.
  intros Hi. rewrite get_spec by done. destruct (index =? 0), (index <=? 61); try (done || by eexists).
  destruct (table_ t !! _); [done|by eexists].
Qed.
