(* ===== verification/HpackDecode.v ===== *)
(** The HPACK decoder: [class HeaderDecoder] of [hpack/header.cpp].

    The decoder's state is its header table; [buf] is the [std::span] that the
    member functions consume.  The specification is a data type of field
    representations (RFC 7541 section 6), the octets that stand for each, and
    what each does to the table and the header list. *)
From S2P Require Import Prelude HuffTables BitBuf Number HuffCode HuffDecode HuffEncode HpackHeader HpackTable.

(** [std::span::subspan(n)] *)
Definition subspan (buf : list Z) (n : Z) : outcome (list Z) :=
  if (0 <=? n) && (n <=? zlen buf) then Ret (drop (Z.to_nat n) buf) else Undef OutOfBounds.

(** [decode_number] into an [uintmax_t] that is zero. *)
Definition read_number (buf : list Z) (bits : Z) : outcome (Z * Z) :=
  '(len, n) ← decode_number (Some buf) (zlen buf) bits (Some 0);
  Ret (len, default 0 n).

Definition decode_indexed (t : HeaderTable) (buf : list Z) : outcome (Header * list Z) :=
  '(len, idx) ← read_number buf 7;
  if len <? 1 then Throw (runtime_error "Failed to decode indexed header")
  else
    buf ← subspan buf len;
    h ← HeaderTable_get t (u32 idx);
    Ret (h, buf).

(** The string, its encoded form, and the rest of the buffer. *)
Definition decode_raw_string_from_rbuf (buf : list Z) : outcome (list Z * list Z * list Z) :=
  '(bufsz, slen) ← read_number buf 7;
  if bufsz <? 1 then Throw (runtime_error "String length decode failure")
  else
    encoded ← arr_slice buf 0 bufsz;
    buf ← subspan buf bufsz;
    if zlen buf <? slen then Throw (runtime_error "String prefix longer than buffer")
    else
      s ← arr_slice buf 0 slen;
      buf ← subspan buf slen;
      Ret (s, encoded ++ s, buf).

Definition decode_huff_string_from_rbuf (buf : list Z) : outcome (list Z * list Z * list Z) :=
  '(bufsz, coded_len) ← read_number buf 7;
  if bufsz <? 1 then Throw (runtime_error "Huffman-coded string length decode failure")
  else
    encoded ← arr_slice buf 0 bufsz;
    buf ← subspan buf bufsz;
    if zlen buf <? coded_len then
      Throw (runtime_error "Huffman-coded string length longer than buffer")
    else
      coded ← arr_slice buf 0 coded_len;
      let decoded_len := u64 (u64 (coded_len * 8) / 5 + 1) in
      let s := replicate (Z.to_nat decoded_len) 0 in
      '(decoded_len, s) ← huffman_decode (Some buf) coded_len 8 (Some s) (zlen s);
      let s := default [] s in
      buf ← subspan buf coded_len;
      c_assert (decoded_len <=? zlen s) ≫= fun _ =>
      if decoded_len <? 0 then Throw (length_error "basic_string::_M_replace_aux")
      else Ret (str_resize s decoded_len, encoded ++ coded, buf).

Definition decode_string_from_rbuf (buf : list Z) : outcome (list Z * list Z * list Z) :=
  if zlen buf =? 0 then Throw (runtime_error "End of buffer decoding string")
  else
    b0 ← buf.[0];
    if negb (Z.land b0 0x80 =? 0) then decode_huff_string_from_rbuf buf
    else decode_raw_string_from_rbuf buf.

Definition decode_literal_indexed (t : HeaderTable) (index : Z) (buf : list Z)
    : outcome (Header * list Z) :=
  h ← HeaderTable_get t index;
  '(v, e, buf) ← decode_string_from_rbuf buf;
  Ret (Header_set_value h v e, buf).

Definition decode_literal (t : HeaderTable) (buf : list Z) (length_bits : Z)
    : outcome (Header * list Z) :=
  '(len, idx) ← read_number buf length_bits;
  if len <? 1 then Throw (runtime_error "Failed to decode literal incremental header")
  else
    buf ← subspan buf len;
    if negb (idx =? 0) then decode_literal_indexed t (u32 idx) buf
    else
      '(name, name_e, buf) ← decode_string_from_rbuf buf;
      '(value, value_e, buf) ← decode_string_from_rbuf buf;
      Ret (mk_Header name value name_e value_e false, buf).

Definition decode_literal_incremental (t : HeaderTable) (buf : list Z)
    : outcome (Header * HeaderTable * list Z) :=
  '(h, buf) ← decode_literal t buf 6;
  t ← HeaderTable_insert t h;
  Ret (h, t, buf).

Definition dynamic_table_resize (t : HeaderTable) (buf : list Z) : outcome (HeaderTable * list Z) :=
  match buf with
  | [] => Throw (logic_error "Not a dynamic table size update message")
  | b0 :: _ =>
      if negb (Z.land b0 0x02 =? 0x02) then
        Throw (logic_error "Not a dynamic table size update message")
      else
        '(len, new_size) ← read_number buf 5;
        if len <? 1 then Throw (runtime_error "Error decoding buffer resize message")
        else
          buf ← subspan buf len;
          t ← HeaderTable_resize t (u32 new_size);
          Ret (t, buf)
  end.

Definition decode_literal_without_indexing (t : HeaderTable) (buf : list Z)
    : outcome (Header * list Z) :=
  decode_literal t buf 4.

Definition decode_literal_never_indexed (t : HeaderTable) (buf : list Z)
    : outcome (Header * list Z) :=
  '(h, buf) ← decode_literal t buf 4;
  Ret (Header_set_never_indexed h true, buf).

(** One round of the loop of [parseHeaders]: the header it adds, if any. *)
Definition parse_step (t : HeaderTable) (buf : list Z)
    : outcome (option Header * HeaderTable * list Z) :=
  octet ← buf.[0];
  if negb (Z.land octet 0x80 =? 0) then
    '(h, buf) ← decode_indexed t buf; Ret (Some h, t, buf)
  else if negb (Z.land octet 0x40 =? 0) then
    '(h, t, buf) ← decode_literal_incremental t buf; Ret (Some h, t, buf)
  else if negb (Z.land octet 0x20 =? 0) then
    '(t, buf) ← dynamic_table_resize t buf; Ret (None, t, buf)
  else if negb (Z.land octet 0x10 =? 0) then
    '(h, buf) ← decode_literal_never_indexed t buf; Ret (Some h, t, buf)
  else
    '(h, buf) ← decode_literal_without_indexing t buf; Ret (Some h, t, buf).

Fixpoint parse_loop (fuel : nat) (t : HeaderTable) (buf : list Z) (headers : list Header)
    : outcome (list Header * HeaderTable) :=
  if zlen buf =? 0 then Ret (headers, t)
  else
    match fuel with
    | O => Undef OutOfFuel
    | S fuel =>
        '(h, t, buf) ← parse_step t buf;
        parse_loop fuel t buf (headers ++ match h with Some h => [h] | None => [] end)
    end.

(** Every round consumes an octet. *)
Definition parseHeaders (t : HeaderTable) (buf : list Z) : outcome (list Header * HeaderTable) :=
  parse_loop (length buf) t buf [].

(** ** Specification *)

Inductive literal_kind := Incremental | WithoutIndexing | NeverIndexed.

(** A field representation of RFC 7541 section 6.  The name of a literal is an
    index or a string. *)
Inductive field_repr :=
  | Indexed (index : Z)
  | Literal (kind : literal_kind) (name : Z + string_literal) (value : string_literal)
  | SizeUpdate (size : Z).

Definition kind_bits (k : literal_kind) : Z := match k with Incremental => 6 | _ => 4 end.
Definition kind_high (k : literal_kind) : Z :=
  match k with Incremental => 0x40 | WithoutIndexing => 0 | NeverIndexed => 0x10 end.

Definition repr_octets (r : field_repr) : list Z :=
  match r with
  | Indexed i => number_octets i 7 0x80
  | Literal k (inl i) v => number_octets i (kind_bits k) (kind_high k) ++ literal_octets v
  | Literal k (inr n) v =>
      number_octets 0 (kind_bits k) (kind_high k) ++ literal_octets n ++ literal_octets v
  | SizeUpdate n => number_octets n 5 0x20
  end.

(** What a representation does: the header added and the table behind it. *)
Definition repr_apply (t : HeaderTable) (r : field_repr) : outcome (option Header * HeaderTable) :=
  match r with
  | Indexed i => h ← HeaderTable_get t i; Ret (Some h, t)
  | Literal k n v =>
      h ← match n with
          | inl i => h ← HeaderTable_get t i;
                     Ret (Header_set_value h (literal_content v) (literal_octets v))
          | inr n => Ret (mk_Header (literal_content n) (literal_content v)
                            (literal_octets n) (literal_octets v) false)
          end;
      match k with
      | Incremental => t ← HeaderTable_insert t h; Ret (Some h, t)
      | WithoutIndexing => Ret (Some h, t)
      | NeverIndexed => Ret (Some (Header_set_never_indexed h true), t)
      end
  | SizeUpdate n =>
      if (n <? 31) && negb (Z.testbit n 1) then
        Throw (logic_error "Not a dynamic table size update message")
      else t ← HeaderTable_resize t n; Ret (None, t)
  end.

Fixpoint reprs_apply (t : HeaderTable) (rs : list field_repr) (headers : list Header)
    : outcome (list Header * HeaderTable) :=
  match rs with
  | [] => Ret (headers, t)
  | r :: rs =>
      '(h, t) ← repr_apply t r;
      reprs_apply t rs (headers ++ match h with Some h => [h] | None => [] end)
  end.

(** The representations an encoder can write: strings of octets of a
    sensible length, indices and sizes of 32 bits. *)
Definition literal_ok (l : string_literal) : Prop :=
  octets (literal_content l) /\ zlen (literal_content l) < 2 ^ 32.

Definition repr_ok (r : field_repr) : Prop :=
  match r with
  | Indexed i => 0 <= i < 2 ^ 32
  | Literal _ (inl i) v => 0 < i < 2 ^ 32 /\ literal_ok v
  | Literal _ (inr n) v => literal_ok n /\ literal_ok v
  | SizeUpdate n => 0 <= n < 2 ^ 32
  end.

(** ** Reading what is there *)

Lemma subspan_app a b : subspan (a ++ b) (zlen a) = Ret b.
Proof.
  unfold subspan. rewrite zlen_app. pose proof (zlen_nonneg a). pose proof (zlen_nonneg b).
  destruct (Z.leb_spec 0 (zlen a)), (Z.leb_spec (zlen a) (zlen a + zlen b)); try lia. cbn [andb].
  by rewrite to_nat_zlen, drop_app_length.
Qed.

Lemma read_number_octets n bits hi rest :
  0 <= n < 2 ^ 64 -> 1 <= bits <= 8 -> prefix_high hi bits -> octets rest ->
  read_number (number_octets n bits hi ++ rest) bits = Ret (zlen (number_octets n bits hi), n).
Proof. intros. unfold read_number. by rewrite decode_number_octets by done. Qed.

Lemma prefix_nonempty n bits hi : (zlen (number_octets n bits hi) <? 1) = false.
Proof. pose proof (number_octets_length n bits hi). apply Z.ltb_ge. lia. Qed.

(** The bits of a string: between five and thirty an octet. *)
Lemma zlen_huff_bits s : octets s -> 5 * zlen s <= zlen (huff_bits s) <= 30 * zlen s.
Proof.
  induction 1 as [|c s Hc Hs IH]; [done|].
  pose proof (huffcode_ok c Hc). rewrite huff_bits_cons, zlen_app, zlen_code_bits, zlen_cons by lia. lia.
Qed.

Lemma zlen_huff_octets s :
  octets s -> 5 * zlen s <= 8 * zlen (huff_octets s) <= 30 * zlen s + 7.
Proof.
  intros Hs. pose proof (zlen_huff_bits s Hs). unfold huff_octets. rewrite zlen_pack.
  pose proof (Z.div_mod (zlen (huff_bits s) + 7) 8). pose proof (Z.mod_pos_bound (zlen (huff_bits s) + 7) 8). lia.
Qed.

Lemma huffman_decode_octets s n :
  octets s -> zlen s <= n ->
  huffman_decode (Some (huff_octets s)) (zlen (huff_octets s)) 8 (Some (replicate (Z.to_nat n) 0)) n
  = Ret (zlen s, Some (s ++ replicate (Z.to_nat n - length s) 0)).
Proof.
  intros Hs Hn. pose proof (zlen_nonneg s).
  pose proof (huffman_decode_spec (huff_octets s) 8 (replicate (Z.to_nat n) 0) (huff_octets_octets s)) as Hd.
  rewrite zlen_replicate in Hd by lia. rewrite Hd by lia.
  pose proof (huffman_spec_encoded [] s (Z.to_nat n) Hs) as Hspec. cbn [app] in Hspec.
  change (zlen (huff_bits [])) with 0 in Hspec. change (8 - 8) with 0.
  rewrite length_replicate, Hspec by (unfold zlen in *; lia).
  by rewrite drop_replicate.
Qed.

(** [huffman_decode] on the first octets of a longer buffer. *)
Lemma huffman_decode_prefix a b bits dest n :
  huffman_decode (Some (a ++ b)) (zlen a) bits dest n = huffman_decode (Some a) (zlen a) bits dest n.
Proof.
  unfold huffman_decode. destruct dest; [|done]. destruct (_ || _); [done|].
  by rewrite arr_slice_app, arr_slice_all.
Qed.

Lemma decode_raw_literal s rest :
  octets s -> zlen s < 2 ^ 32 -> octets rest ->
  decode_raw_string_from_rbuf (literal_octets (Raw s) ++ rest) = Ret (s, literal_octets (Raw s), rest).
Proof.
  intros Hs Hl Hrest. unfold decode_raw_string_from_rbuf, literal_octets.
  pose proof (zlen_nonneg s). rewrite <- (assoc_L (++)).
  rewrite read_number_octets by (lia || done || by apply Forall_app_2). cbn [mbind outcome_bind].
  rewrite prefix_nonempty, arr_slice_app. cbn [mbind outcome_bind].
  rewrite subspan_app. cbn [mbind outcome_bind]. rewrite zlen_app. pose proof (zlen_nonneg rest).
  destruct (Z.ltb_spec (zlen s + zlen rest) (zlen s)); [lia|].
  rewrite arr_slice_app. cbn [mbind outcome_bind]. by rewrite subspan_app.
Qed.

Lemma decode_huff_literal s rest :
  octets s -> zlen s < 2 ^ 32 -> octets rest ->
  decode_huff_string_from_rbuf (literal_octets (Huff s) ++ rest) = Ret (s, literal_octets (Huff s), rest).
Proof.
  intros Hs Hl Hrest. unfold decode_huff_string_from_rbuf, literal_octets.
  set (os := huff_octets s). pose proof (zlen_huff_octets s Hs) as Hlen. fold os in Hlen.
  pose proof (zlen_nonneg s). pose proof (zlen_nonneg rest). rewrite <- (assoc_L (++)).
  assert (octets os) as Hos by apply huff_octets_octets.
  rewrite read_number_octets by (lia || done || by apply Forall_app_2). cbn [mbind outcome_bind].
  rewrite prefix_nonempty, arr_slice_app. cbn [mbind outcome_bind].
  rewrite subspan_app. cbn [mbind outcome_bind]. rewrite zlen_app.
  destruct (Z.ltb_spec (zlen os + zlen rest) (zlen os)); [lia|].
  rewrite arr_slice_app. cbn [mbind outcome_bind]. rewrite huffman_decode_prefix.
  rewrite (wrap_small 64 (zlen os * 8)) by lia.
  pose proof (Z.div_mod (zlen os * 8) 5). pose proof (Z.mod_pos_bound (zlen os * 8) 5).
  rewrite wrap_small by lia. rewrite zlen_replicate by lia.
  pose proof (huffman_decode_octets s (zlen os * 8 / 5 + 1) Hs ltac:(lia)) as Hd. fold os in Hd. rewrite Hd.
  cbn [mbind outcome_bind default]. unfold id. rewrite subspan_app. cbn [mbind outcome_bind].
  rewrite zlen_app. pose proof (zlen_nonneg (replicate (Z.to_nat (zlen os * 8 / 5 + 1) - length s) 0)).
  destruct (Z.leb_spec (zlen s) (zlen s + zlen (replicate (Z.to_nat (zlen os * 8 / 5 + 1) - length s) 0))); [|lia].
  cbn [c_assert mbind outcome_bind]. destruct (Z.ltb_spec (zlen s) 0); [lia|].
  rewrite str_resize_take by (rewrite zlen_app; lia). by rewrite to_nat_zlen, take_app_length.
Qed.

Lemma decode_literal_string l rest :
  literal_ok l -> octets rest ->
  decode_string_from_rbuf (literal_octets l ++ rest) = Ret (literal_content l, literal_octets l, rest).
Proof.
  intros [Hs Hl] Hrest. unfold decode_string_from_rbuf.
  destruct (prefix_huff (match l with Raw s => zlen s | Huff s => zlen (huff_octets s) end)
              (match l with Raw _ => false | Huff _ => true end)) as (b & tl & Hb & Hbit).
  { destruct l; apply zlen_nonneg. }
  assert (literal_octets l ++ rest = b :: tl ++ match l with Raw s => s | Huff s => huff_octets s end ++ rest) as Heq.
  { destruct l; cbn [literal_octets]; rewrite Hb; cbn [app]; by rewrite <- (assoc_L (++)). }
  assert ((zlen (literal_octets l ++ rest) =? 0) = false) as ->.
  { rewrite Heq, zlen_cons. apply Z.eqb_neq. pose proof (zlen_nonneg (tl ++ match l with Raw s => s | Huff s => huff_octets s end ++ rest)). lia. }
  replace (literal_octets l ++ rest).[0] with (Ret b : outcome Z) by by rewrite Heq.
  cbn [mbind outcome_bind]. rewrite Hbit.
  destruct l as [s|s]; [by apply decode_raw_literal|by apply decode_huff_literal].
Qed.

Lemma literal_octets_octets l : literal_ok l -> octets (literal_octets l).
Proof.
  intros [Hs Hl]. destruct l as [s|s]; cbn [literal_octets literal_content] in *; pose proof (zlen_nonneg s).
  - apply Forall_app_2; [|done]. apply number_octets_bound; [lia|lia|done].
  - pose proof (zlen_huff_octets s Hs). apply Forall_app_2; [|apply huff_octets_octets].
    apply number_octets_bound; [lia|lia|done].
Qed.

(** ** One representation *)

(** The tests of [parseHeaders] on the first octet. *)
Lemma classify b :
  octet b ->
  negb (Z.land b 0x80 =? 0) = (0x80 <=? b) /\
  (b < 0x80 -> negb (Z.land b 0x40 =? 0) = (0x40 <=? b)) /\
  (b < 0x40 -> negb (Z.land b 0x20 =? 0) = (0x20 <=? b)) /\
  (b < 0x20 -> negb (Z.land b 0x10 =? 0) = (0x10 <=? b)).
Proof.
  intros Hb.
  assert (eqb (negb (Z.land b 0x80 =? 0)) (0x80 <=? b)
    && implb (b <? 0x80) (eqb (negb (Z.land b 0x40 =? 0)) (0x40 <=? b))
    && implb (b <? 0x40) (eqb (negb (Z.land b 0x20 =? 0)) (0x20 <=? b))
    && implb (b <? 0x20) (eqb (negb (Z.land b 0x10 =? 0)) (0x10 <=? b)) = true) as H by by_octets b.
  rewrite !andb_true_iff, !implb_true_iff, !eqb_true_iff, !Z.ltb_lt in H. tauto.
Qed.

Lemma number_octets_head n bits hi :
  0 <= n -> 0 < bits ->
  exists m tl, number_octets n bits hi = (hi + m) :: tl /\ 0 <= m < 2 ^ bits /\
    m = Z.min n (2 ^ bits - 1).
Proof.
  intros Hn Hb. unfold number_octets. assert (2 ^ 1 <= 2 ^ bits) by (apply Z.pow_le_mono_r; lia).
  destruct (Z.ltb_spec n (2 ^ bits - 1)); do 2 eexists; (split; [reflexivity|lia]).
Qed.

Lemma kind_prefix k : prefix_high (kind_high k) (kind_bits k) /\ 1 <= kind_bits k <= 8.
Proof. by destruct k. Qed.

(** The literal that [decode_literal] reads behind the first octet's tag. *)
Lemma decode_literal_repr t k name v rest :
  repr_ok (Literal k name v) -> octets rest ->
  decode_literal t (repr_octets (Literal k name v) ++ rest) (kind_bits k)
  = (h ← match name with
         | inl i => h ← HeaderTable_get t i;
                    Ret (Header_set_value h (literal_content v) (literal_octets v))
         | inr n => Ret (mk_Header (literal_content n) (literal_content v)
                           (literal_octets n) (literal_octets v) false)
         end; Ret (h, rest)).
Proof.
  intros Hok Hrest. destruct (kind_prefix k) as [Hp Hb]. unfold decode_literal.
  destruct name as [i|n]; cbn [repr_octets repr_ok] in *; destruct Hok as [Hi Hv];
    pose proof (literal_octets_octets v Hv) as Hvo; rewrite <- !(assoc_L (++)).
  - rewrite read_number_octets by (lia || done || by apply Forall_app_2). cbn [mbind outcome_bind].
    rewrite prefix_nonempty, subspan_app. cbn [mbind outcome_bind].
    destruct (Z.eqb_spec i 0); [lia|]. cbn [negb]. unfold decode_literal_indexed.
    rewrite wrap_small by lia. destruct (HeaderTable_get t i); cbn [mbind outcome_bind]; [|done..].
    by rewrite decode_literal_string.
  - pose proof (literal_octets_octets n Hi) as Hno.
    rewrite read_number_octets by (lia || done || by repeat apply Forall_app_2). cbn [mbind outcome_bind].
    rewrite prefix_nonempty, subspan_app. cbn [mbind outcome_bind negb Z.eqb].
    rewrite decode_literal_string by (done || by apply Forall_app_2). cbn [mbind outcome_bind].
    rewrite decode_literal_string by done. done.
Qed.

Lemma resize_bit n :
  0 <= n ->
  (Z.land (0x20 + Z.min n 31) 0x02 =? 0x02) = negb ((n <? 31) && negb (Z.testbit n 1)).
Proof.
  intros Hn.
  assert (all_octets (fun m => implb (m <? 32) (eqb (Z.land (0x20 + m) 0x02 =? 0x02) (Z.testbit m 1))) = true)
    as H by (vm_compute; reflexivity).
  pose proof (all_octets_spec _ H (Z.min n 31) ltac:(unfold octet; lia)) as Hm. cbv beta in Hm.
  destruct (Z.ltb_spec (Z.min n 31) 32); [|lia]. cbn [implb] in Hm. apply eqb_prop in Hm. rewrite Hm.
  destruct (Z.ltb_spec n 31); cbn [andb negb].
  - by rewrite negb_involutive, Z.min_l by lia.
  - by rewrite Z.min_r by lia.
Qed.

Lemma repr_octets_octets r : repr_ok r -> octets (repr_octets r).
Proof.
  destruct r as [i|k [i|n] v|n]; cbn [repr_ok repr_octets].
  - intros. apply number_octets_bound; lia || done.
  - intros [? Hv]. destruct (kind_prefix k) as [Hp Hb].
    apply Forall_app_2; [apply number_octets_bound; lia || done|by apply literal_octets_octets].
  - intros [Hn Hv]. destruct (kind_prefix k) as [Hp Hb].
    repeat apply Forall_app_2; [apply number_octets_bound; lia || done|by apply literal_octets_octets..].
  - intros. apply number_octets_bound; lia || done.
Qed.

(** The first octet of a representation. *)
Lemma repr_octets_cons r :
  repr_ok r ->
  exists b tl, repr_octets r = b :: tl /\ octet b /\
    match r with
    | Indexed _ => 0x80 <= b
    | Literal Incremental _ _ => 0x40 <= b < 0x80
    | Literal WithoutIndexing _ _ => b < 0x10
    | Literal NeverIndexed _ _ => 0x10 <= b < 0x20
    | SizeUpdate n => b = 0x20 + Z.min n 31
    end.
Proof.
  intros Hok. pose proof (repr_octets_octets r Hok) as Ho.
  assert (exists b tl, repr_octets r = b :: tl /\
    match r with
    | Indexed _ => 0x80 <= b
    | Literal Incremental _ _ => 0x40 <= b < 0x80
    | Literal WithoutIndexing _ _ => b < 0x10
    | Literal NeverIndexed _ _ => 0x10 <= b < 0x20
    | SizeUpdate n => b = 0x20 + Z.min n 31
    end) as (b & tl & Hb & Hr).
  { destruct r as [i|k name v|n]; cbn [repr_ok repr_octets] in *.
    - destruct (number_octets_head i 7 0x80) as (m & tl & -> & Hm & _); [lia|lia|]. do 2 eexists. split; [done|lia].
    - assert (exists i rest, repr_octets (Literal k name v) = number_octets i (kind_bits k) (kind_high k) ++ rest /\ 0 <= i)
        as (i & rest & Heq & Hi) by (destruct name; do 2 eexists; (split; [reflexivity|lia])).
      cbn [repr_octets] in Heq. rewrite Heq. destruct (number_octets_head i (kind_bits k) (kind_high k))
        as (m & tl & -> & Hm & _); [done|by destruct k|]. do 2 eexists. split; [reflexivity|].
      destruct k; simpl in *; lia.
    - destruct (number_octets_head n 5 0x20) as (m & tl & -> & _ & ->); [lia|lia|]. do 2 eexists. split; [done|].
      change (2 ^ 5 - 1) with 31. lia. }
  exists b, tl. split; [done|]. split; [|done]. rewrite Hb in Ho. by inversion Ho.
Qed.

Lemma parse_step_repr t r rest :
  repr_ok r -> octets rest ->
  parse_step t (repr_octets r ++ rest) = ('(h, t) ← repr_apply t r; Ret (h, t, rest)).
Proof.
  intros Hok Hrest. destruct (repr_octets_cons r Hok) as (b & tl & Hb & Ho & Hr).
  unfold parse_step. replace (repr_octets r ++ rest).[0] with (Ret b : outcome Z) by by rewrite Hb.
  cbn [mbind outcome_bind]. destruct (classify b Ho) as (C80 & C40 & C20 & C10). rewrite C80.
  destruct r as [i|k name v|n].
  - destruct (Z.leb_spec 0x80 b); [|lia]. unfold decode_indexed. cbn [repr_octets repr_ok repr_apply] in *.
    rewrite read_number_octets by (lia || done). cbn [mbind outcome_bind].
    rewrite prefix_nonempty, subspan_app. cbn [mbind outcome_bind]. rewrite wrap_small by lia.
    by destruct (HeaderTable_get t i).
  - pose proof (decode_literal_repr t k name v rest Hok Hrest) as Hd. cbn [repr_apply].
    set (h := match name with inl _ => _ | inr _ => _ end) in *.
    unfold decode_literal_incremental, decode_literal_never_indexed, decode_literal_without_indexing.
    destruct k; cbn [kind_bits] in Hd; destruct (Z.leb_spec 0x80 b); try lia;
      rewrite C40 by lia; destruct (Z.leb_spec 0x40 b); try lia;
      rewrite ?C20 by lia; try (destruct (Z.leb_spec 0x20 b); try lia);
      rewrite ?C10 by lia; try (destruct (Z.leb_spec 0x10 b); try lia);
      rewrite Hd; destruct h as [h'| |]; cbn [mbind outcome_bind]; try done.
    by destruct (HeaderTable_insert t h').
  - cbn [repr_ok] in Hok. assert (32 <= b < 64) by lia. destruct (Z.leb_spec 0x80 b); [lia|]. rewrite C40, C20 by lia.
    destruct (Z.leb_spec 0x40 b); [lia|]. destruct (Z.leb_spec 0x20 b); [|lia].
    unfold dynamic_table_resize. cbn [repr_octets repr_ok repr_apply] in *.
    rewrite Hb. cbn [app]. rewrite Hr, resize_bit by lia. rewrite negb_involutive.
    destruct ((n <? 31) && negb (Z.testbit n 1)); [done|].
    rewrite app_comm_cons, <- Hr, <- Hb, read_number_octets by (lia || done). cbn [mbind outcome_bind].
    rewrite prefix_nonempty, subspan_app. cbn [mbind outcome_bind]. rewrite wrap_small by lia.
    by destruct (HeaderTable_resize t n).
Qed.

Lemma parse_loop_reprs rs t fuel headers :
  Forall repr_ok rs -> (length (concat (map repr_octets rs)) <= fuel)%nat ->
  parse_loop fuel t (concat (map repr_octets rs)) headers = reprs_apply t rs headers.
Proof.
  intros Hrs. revert t fuel headers. induction Hrs as [|r rs Hr Hrs IH]; intros t fuel headers Hf.
  { by destruct fuel. }
  cbn [map concat] in *. destruct (repr_octets_cons r Hr) as (b & tl & Hb & _ & _).
  assert (octets (concat (map repr_octets rs))) as Hoct.
  { apply Forall_concat, Forall_map. eapply Forall_impl; [done|]. apply repr_octets_octets. }
  destruct fuel as [|fuel]; [rewrite Hb in Hf; simpl in Hf; lia|]. cbn [parse_loop reprs_apply].
  assert ((zlen (repr_octets r ++ concat (map repr_octets rs)) =? 0) = false) as ->.
  { rewrite Hb. cbn [app]. rewrite zlen_cons. pose proof (zlen_nonneg (tl ++ concat (map repr_octets rs))).
    apply Z.eqb_neq. lia. }
  rewrite parse_step_repr by done. destruct (repr_apply t r) as [[h t']| |]; cbn [mbind outcome_bind]; [|done..].
  apply IH. rewrite Hb, length_app in Hf. simpl in Hf. lia.
Qed.

(** C7: [parseHeaders] decodes the field representations of RFC 7541 section 6:
    on the octets of any sequence of representations, with raw and Huffman
    strings in any mix, it adds the headers that they stand for, in order, and
    does to the header table what they ask, up to the first that throws.  One
    deviation is part of [repr_apply]: the tag test of a size update looks at bit
    1 instead of bit 5, so sizes below 31 without that bit are refused. *)
Theorem parseHeaders_correct t rs :
  Forall repr_ok rs ->
  parseHeaders t (concat (map repr_octets rs)) = reprs_apply t rs [].
Proof. intros. by apply parse_loop_reprs. Qed.

(** ** Safety on arbitrary input *)

Lemma read_number_sat E F buf bits :
  octets buf -> 0 <= bits <= 8 ->
  sat (fun '(len, n) => len < 1 \/ (1 <= len <= zlen buf /\ 0 <= n < 2 ^ 64)) E F (read_number buf bits).
Proof.
  intros Hbuf Hbits. unfold read_number. destruct buf as [|b tl]; [left; reflexivity|].
  destruct (decode_number_cases b tl bits 0 Hbuf Hbits) as [H1 H2]. cbv zeta in *.
  assert (0 < 2 ^ bits) by lia. pose proof (Z.mod_pos_bound b (2 ^ bits)). pose proof (zlen_nonneg tl).
  assert (2 ^ bits <= 2 ^ 8) by (apply Z.pow_le_mono_r; lia). rewrite zlen_cons.
  destruct (decide (b mod 2 ^ bits < 2 ^ bits - 1)) as [Hlt|Hge].
  - rewrite zlen_cons in H1. rewrite H1 by done. simpl. lia.
  - specialize (H2 ltac:(lia)). rewrite zlen_cons in H2.
    destruct (varint_value (take 10 tl)) as [[v k]|] eqn:Ev.
    + rewrite H2. cbn [mbind outcome_bind sat default]. unfold id.
      apply varint_value_pos in Ev as [_ Hk]; [|apply Forall_take; by inversion Hbuf].
      unfold zlen in Hk. rewrite length_take in Hk. pose proof (wrap_bound 64 (2 ^ bits - 1 + v)).
      unfold zlen in *. lia.
    + destruct H2 as [n ->]. cbn. left. unfold INTERNAL_ERROR, PROTOCOL_ERROR. destruct (10 <=? zlen tl); lia.
Qed.

Lemma subspan_sat E F buf n :
  octets buf -> 0 <= n <= zlen buf ->
  sat (fun buf' => octets buf' /\ zlen buf' = zlen buf - n) E F (subspan buf n).
Proof.
  intros Hbuf Hn. unfold subspan. destruct (Z.leb_spec 0 n), (Z.leb_spec n (zlen buf)); try lia.
  cbn [andb sat]. split; [by apply Forall_drop|]. unfold zlen in *. rewrite length_drop. lia.
Qed.

Lemma slice_sat E F (buf : list Z) n :
  octets buf -> 0 <= n <= zlen buf ->
  sat (fun s => octets s /\ zlen s = n) E F (arr_slice buf 0 n).
Proof.
  intros Hbuf Hn. rewrite arr_slice_in by lia. change (Z.to_nat 0) with 0%nat. rewrite drop_0. split.
  - by apply Forall_take.
  - unfold zlen in *. rewrite length_take. lia.
Qed.

(** Room for a symbol in every five bits is enough. *)
Lemma huffman_spec_enough room buf p out :
  8 * zlen buf - p <= 5 * Z.of_nat room ->
  let '(n, out') := huffman_spec room buf p out in n = zlen out'.
Proof.
  revert p out. induction room as [|room IH]; intros p out Hr; cbn [huffman_spec].
  - replace (at_end buf p) with true; [done|]. symmetry. unfold at_end.
    destruct (Z.leb_spec (8 * zlen buf - p) 8); [|lia]. rewrite seqZ_nil by lia. done.
  - destruct (at_end buf p); [done|]. destruct (symbol_at buf p) as [c|] eqn:Ev; [|done].
    apply IH. apply List.find_some in Ev as [Hin _]. apply list_elem_of_In, elem_of_seqZ in Hin.
    pose proof (huffcode_ok c ltac:(unfold octet; lia)). lia.
Qed.

Definition is_runtime_error (e : exn) : Prop := match e with runtime_error _ => True | _ => False end.

(** What a string decoder leaves: a shorter buffer. *)
Definition shorter {A} (buf : list Z) (r : A * list Z) : Prop :=
  octets (snd r) /\ zlen (snd r) < zlen buf.

Lemma decode_raw_sat F buf :
  octets buf -> sat (shorter buf) is_runtime_error F (decode_raw_string_from_rbuf buf).
Proof.
  intros Hbuf. unfold decode_raw_string_from_rbuf.
  eapply sat_bind; [apply read_number_sat; [done|lia]|]. intros [len n] Hlen.
  destruct (Z.ltb_spec len 1); [done|]. destruct Hlen as [|[Hlen Hn]]; [lia|].
  eapply sat_bind; [apply slice_sat; [done|lia]|]. intros e [He _].
  eapply sat_bind; [apply subspan_sat; [done|lia]|]. intros buf' [Hb' Hl'].
  destruct (Z.ltb_spec (zlen buf') n); [done|].
  eapply sat_bind; [apply slice_sat; [done|lia]|]. intros s [Hs _].
  eapply sat_bind; [apply subspan_sat; [done|lia]|]. intros buf2 [Hb2 Hl2].
  split; cbn [snd]; [done|lia].
Qed.

Lemma decode_huff_sat F buf :
  octets buf -> zlen buf < 2 ^ 60 -> sat (shorter buf) is_runtime_error F (decode_huff_string_from_rbuf buf).
Proof.
  intros Hbuf Hmax. unfold decode_huff_string_from_rbuf.
  eapply sat_bind; [apply read_number_sat; [done|lia]|]. intros [len n] Hlen.
  destruct (Z.ltb_spec len 1); [done|]. destruct Hlen as [|[Hlen Hn]]; [lia|].
  eapply sat_bind; [apply slice_sat; [done|lia]|]. intros e [He _].
  eapply sat_bind; [apply subspan_sat; [done|lia]|]. intros buf' [Hb' Hl'].
  destruct (Z.ltb_spec (zlen buf') n); [done|].
  assert (exists a b, buf' = a ++ b /\ zlen a = n) as (a & b & -> & <-).
  { exists (take (Z.to_nat n) buf'), (drop (Z.to_nat n) buf'). rewrite take_drop.
    split; [done|]. unfold zlen in *. rewrite length_take. lia. }
  apply Forall_app in Hb' as [Ha Hb]. rewrite arr_slice_app. cbn [mbind outcome_bind].
  rewrite huffman_decode_prefix. rewrite (wrap_small 64 (zlen a * 8)) by (rewrite ?zlen_app in *; pose proof (zlen_nonneg b); lia).
  pose proof (Z.div_mod (zlen a * 8) 5). pose proof (Z.mod_pos_bound (zlen a * 8) 5).
  pose proof (zlen_nonneg b). pose proof (zlen_nonneg a). rewrite zlen_app in *.
  rewrite wrap_small by lia. set (room := zlen a * 8 / 5 + 1) in *.
  pose proof (huffman_decode_spec a 8 (replicate (Z.to_nat room) 0) Ha ltac:(lia)) as ->.
  pose proof (huffman_spec_enough (Z.to_nat room) a (8 - 8) []) as He2.
  pose proof (huffman_spec_room (Z.to_nat room) a (8 - 8) []) as Hr2.
  rewrite length_replicate. destruct (huffman_spec _ _ _ _) as [k out]. specialize (He2 ltac:(lia)).
  destruct Hr2 as [Hr2 _]. cbn [mbind outcome_bind default]. unfold id. rewrite subspan_app. cbn [mbind outcome_bind].
  rewrite zlen_app. pose proof (zlen_nonneg (drop (length out) (replicate (Z.to_nat room) 0))).
  destruct (Z.leb_spec k (zlen out + zlen (drop (length out) (replicate (Z.to_nat room) 0)))); [|lia].
  cbn [c_assert mbind outcome_bind]. destruct (Z.ltb_spec k 0); [pose proof (zlen_nonneg out); lia|].
  split; cbn [snd]; [done|lia].
Qed.

Lemma decode_string_sat F buf :
  octets buf -> zlen buf < 2 ^ 60 -> sat (shorter buf) is_runtime_error F (decode_string_from_rbuf buf).
Proof.
  intros Hbuf Hmax. unfold decode_string_from_rbuf. destruct buf as [|b tl]; [done|].
  destruct (Z.eqb_spec (zlen (b :: tl)) 0); [rewrite zlen_cons in *; pose proof (zlen_nonneg tl); lia|].
  rewrite arr_get_0. cbn [mbind outcome_bind].
  destruct (negb (Z.land b 128 =? 0)); [by apply decode_huff_sat|by apply decode_raw_sat].
Qed.

(** Decoding a string literal is total: on any octets
    [decode_string_from_rbuf] returns and consumes at least one octet, or throws
    a runtime_error.  The buffer that a Huffman literal is decoded into is
    always large enough: no overrun, no failed assertion, no length_error from
    the -1 that [huffman_decode] returns for want of room. *)
Theorem decode_string_total buf :
  octets buf -> zlen buf < 2 ^ 60 ->
  match decode_string_from_rbuf buf with
  | Ret (_, rest) => octets rest /\ zlen rest < zlen buf
  | Throw e => is_runtime_error e
  | Undef _ => False
  end.
Proof.
  intros Hbuf Hmax. pose proof (decode_string_sat (fun _ => False) buf Hbuf Hmax) as H.
  by destruct (decode_string_from_rbuf buf) as [[r rest]| |].
Qed.

(** What [parseHeaders] throws: [logic_error] is for the one representation that
    is taken for a size update and is none, [out_of_range] for an index without an
    entry. *)
Definition is_rejection (e : exn) : Prop :=
  match e with runtime_error _ | out_of_range _ | logic_error _ => True | _ => False end.

Lemma lift_runtime {A} (P : A -> Prop) F m : sat P is_runtime_error F m -> sat P is_rejection F m.
Proof. intros H. eapply sat_mono; [exact H|done| |done]. by intros []. Qed.

Lemma get_rejects F t index : 0 <= index -> sat (fun _ => True) is_rejection F (HeaderTable_get t index).
Proof. intros Hi. eapply sat_mono; [by apply get_sat|done| |done]. by intros e [what ->]. Qed.

Lemma decode_literal_sat F t buf bits :
  octets buf -> zlen buf < 2 ^ 60 -> 0 <= bits <= 8 ->
  sat (shorter buf) is_rejection F (decode_literal t buf bits).
Proof.
  intros Hbuf Hmax Hbits. unfold decode_literal.
  eapply sat_bind; [by apply read_number_sat|]. intros [len n] Hlen.
  destruct (Z.ltb_spec len 1); [done|]. destruct Hlen as [|[Hlen Hn]]; [lia|].
  eapply sat_bind; [apply subspan_sat; [done|lia]|]. intros buf' [Hb' Hl'].
  destruct (negb (n =? 0)).
  - unfold decode_literal_indexed. eapply sat_bind; [apply get_rejects, wrap_bound; lia|]. intros h _.
    eapply sat_bind; [apply lift_runtime, decode_string_sat; [done|lia]|].
    intros [[v e] buf2] [Ho Hs]. cbn [snd] in *. split; cbn [snd]; [done|lia].
  - eapply sat_bind; [apply lift_runtime, decode_string_sat; [done|lia]|].
    intros [[nm ne] buf2] [Ho Hs]. cbn [snd] in *.
    eapply sat_bind; [apply lift_runtime, decode_string_sat; [done|lia]|].
    intros [[v ve] buf3] [Ho3 Hs3]. cbn [snd] in *. split; cbn [snd]; [done|lia].
Qed.

Lemma parse_step_sat t buf :
  octets buf -> zlen buf < 2 ^ 60 -> buf <> [] ->
  sat (shorter buf) is_rejection (eq AssertionFailed) (parse_step t buf).
Proof.
  intros Hbuf Hmax Hne. destruct buf as [|b tl]; [done|]. unfold parse_step. rewrite arr_get_0.
  cbn [mbind outcome_bind].
  destruct (negb (Z.land b 128 =? 0)); [|destruct (negb (Z.land b 64 =? 0));
    [|destruct (negb (Z.land b 32 =? 0)); [|destruct (negb (Z.land b 16 =? 0))]]].
  - unfold decode_indexed. cbn [mbind outcome_bind]. eapply sat_bind.
    { eapply sat_bind; [apply read_number_sat; [done|lia]|]. intros [len n] Hlen.
      destruct (Z.ltb_spec len 1); [done|]. destruct Hlen as [|[Hlen Hn]]; [lia|].
      eapply sat_bind; [apply subspan_sat; [done|lia]|]. intros buf' [Hb' Hl'].
      eapply sat_bind; [apply get_rejects, wrap_bound; lia|]. intros h _.
      instantiate (1 := shorter (b :: tl)). split; cbn [snd]; [done|lia]. }
    intros [h buf'] [Ho Hs]. by split.
  - unfold decode_literal_incremental. eapply sat_bind.
    { eapply sat_bind; [apply (decode_literal_sat _ t (b :: tl) 6); [done|done|lia]|]. intros [h buf'] [Ho Hs].
      eapply sat_bind; [apply insert_sat|]. intros t' _. instantiate (1 := shorter (b :: tl)). by split. }
    intros [[h t'] buf'] [Ho Hs]. by split.
  - unfold dynamic_table_resize. destruct (negb (Z.land b 2 =? 2)); [done|]. eapply sat_bind.
    { eapply sat_bind; [apply read_number_sat; [done|lia]|]. intros [len n] Hlen.
      destruct (Z.ltb_spec len 1); [done|]. destruct Hlen as [|[Hlen Hn]]; [lia|].
      eapply sat_bind; [apply subspan_sat; [done|lia]|]. intros buf' [Hb' Hl'].
      eapply sat_bind; [apply resize_sat, wrap_bound; lia|]. intros t' _.
      instantiate (1 := shorter (b :: tl)). split; cbn [snd]; [done|lia]. }
    intros [t' buf'] [Ho Hs]. by split.
  - unfold decode_literal_never_indexed. eapply sat_bind.
    { eapply sat_bind; [apply (decode_literal_sat _ t (b :: tl) 4); [done|done|lia]|]. intros [h buf'] [Ho Hs].
      instantiate (1 := shorter (b :: tl)). by split. }
    intros [h buf'] [Ho Hs]. by split.
  - unfold decode_literal_without_indexing. eapply sat_bind; [apply (decode_literal_sat _ t (b :: tl) 4); [done|done|lia]|].
    intros [h buf'] [Ho Hs]. by split.
Qed.

Lemma parse_loop_sat fuel t buf headers :
  octets buf -> zlen buf < 2 ^ 60 -> (length buf <= fuel)%nat ->
  sat (fun _ => True) is_rejection (eq AssertionFailed) (parse_loop fuel t buf headers).
Proof.
  revert t buf headers. induction fuel as [|fuel IH]; intros t buf headers Hbuf Hmax Hf.
  - destruct buf; [done|]. simpl in Hf. lia.
  - cbn [parse_loop]. destruct (Z.eqb_spec (zlen buf) 0); [done|].
    eapply sat_bind; [apply parse_step_sat; [done|done|by intros ->]|].
    intros [[h t'] buf'] [Ho Hs]. cbn [snd] in *. apply IH; [done|lia|]. unfold zlen in *. lia.
Qed.

(** C13: [parseHeaders] on hostile input.  Whatever the octets and whatever the
    header table holds, it ends: it returns, or throws a runtime_error, an
    out_of_range or a logic_error, never the length_error of a string or anything
    else; or it fails the reversed assertion of [DynamicTable::resize] (see
    [resize_correct]), which is the one undefined outcome: no table, string or span
    is accessed out of range. *)
Theorem parseHeaders_safe t buf :
  octets buf -> zlen buf < 2 ^ 60 ->
  match parseHeaders t buf with
  | Ret _ => True
  | Throw e => is_rejection e
  | Undef f => f = AssertionFailed
  end.
Proof.
  intros Hbuf Hmax. pose proof (parse_loop_sat (length buf) t buf [] Hbuf Hmax ltac:(lia)) as H.
  unfold parseHeaders. destruct (parse_loop _ _ _ _); [done|exact H|by symmetry].
Qed.

(** ** What the encoder writes *)

Section encoder.
Context (etable : list encv) `{!EncodeTable etable} (number0 raws0 : list Z).
Hypothesis (Hnumber0 : octets number0) (Hnumber0_len : zlen number0 = 10).
Hypothesis (Hraws0 : octets raws0) (Hraws0_len : zlen raws0 = 10).
(** The uninitialised octet happens to have its top bit clear. *)
Hypothesis (Hclear : hd 0 raws0 < 128).

Lemma encoded_string_literal s :
  encoded_string raws0 s = literal_octets (Huff s) \/ encoded_string raws0 s = literal_octets (Raw s).
Proof.
  unfold encoded_string. destruct (_ && _); [by left|right].
  unfold raw_form, raw_high. destruct raws0 as [|b tl]; [done|]. cbn [hd] in *.
  assert (octet b) as Hb by by inversion Hraws0. unfold octet in Hb.
  by rewrite (Z.mod_small b 128), Z.sub_diag by lia.
Qed.

Lemma encode_string_decodes s coded rest :
  octets s -> zlen s < 2 ^ 32 - 10 -> octets rest ->
  hpack_encode_string etable number0 raws0 s = Ret coded ->
  decode_string_from_rbuf (coded ++ rest) = Ret (s, coded, rest).
Proof.
  intros Hs Hl Hrest Henc. rewrite hpack_encode_string_spec in Henc by done.
  destruct (_ && _); [done|]. injection Henc as <-. pose proof (zlen_nonneg s).
  destruct (encoded_string_literal s) as [-> | ->]; apply decode_literal_string; try done; split; (done || simpl; lia).
Qed.
End encoder.

(** a string encoded by [hpack_encode_string] decodes to itself, whatever
    follows it, provided the uninitialised octet under the length of the raw form
    had its top bit clear. *)
Theorem encode_string_roundtrip etable number0 raws0 s coded rest :
  EncodeTable etable -> octets number0 -> zlen number0 = 10 -> octets raws0 -> zlen raws0 = 10 ->
  hd 0 raws0 < 128 -> octets s -> zlen s < 2 ^ 32 - 10 -> octets rest ->
  hpack_encode_string etable number0 raws0 s = Ret coded ->
  decode_string_from_rbuf (coded ++ rest) = Ret (s, coded, rest).
Proof. intros. by apply (encode_string_decodes etable number0 raws0). Qed.

Lemma encode_string_roundtrip_witness :
  hpack_encode_string huffcodes (replicate 10 0) (replicate 10 7) text_www = Ret (0x8c :: www) /\
  decode_string_from_rbuf ((0x8c :: www) ++ [1; 2]) = Ret (text_www, 0x8c :: www, [1; 2]).
Proof.
  split; [vm_compute; reflexivity|].
  apply (encode_string_roundtrip huffcodes (replicate 10 0) (replicate 10 7) text_www (0x8c :: www) [1; 2]);
    [apply _|apply (bool_decide_unpack _); exact I|reflexivity|apply (bool_decide_unpack _); exact I|reflexivity
    |vm_compute; reflexivity|apply (bool_decide_unpack _); exact I|vm_compute; reflexivity
    |apply (bool_decide_unpack _); exact I|vm_compute; reflexivity].
Defined.

(** The cached encodings of a fresh header.  [name_encoded] gives octets that
    decode to the name.  [value_encoded] gives octets that decode to the name as
    well: the value is never encoded. *)
Theorem encoded_accessors etable number0 raws0 name value e h' rest :
  EncodeTable etable -> octets number0 -> zlen number0 = 10 -> octets raws0 -> zlen raws0 = 10 ->
  hd 0 raws0 < 128 -> octets name -> zlen name < 2 ^ 32 - 10 -> octets rest ->
  (name_encoded etable number0 raws0 (new_Header name value) = Ret (e, h') \/
   value_encoded etable number0 raws0 (new_Header name value) = Ret (e, h')) ->
  decode_string_from_rbuf (e ++ rest) = Ret (name, e, rest) /\
  name_ h' = name /\ value_ h' = value.
Proof.
  intros ? ? ? ? ? ? ? ? ? Hacc.
  assert (hpack_encode_string etable number0 raws0 name = Ret e /\ name_ h' = name /\ value_ h' = value) as (He & Hh).
  { unfold name_encoded, value_encoded in Hacc. cbn in Hacc.
    destruct (hpack_encode_string _ _ _ _); cbn in Hacc; destruct Hacc as [[= <- <-]|[= <- <-]]; done. }
  split; [|done]. by apply (encode_string_decodes etable number0 raws0).
Qed.

Lemma encoded_accessors_witness :
  exists h',
    value_encoded huffcodes (replicate 10 0) (replicate 10 0) (new_Header (str "a") (str "bcd")) = Ret ([129; 31], h') /\
    decode_string_from_rbuf ([129; 31] ++ []) = Ret (str "a", [129; 31], []) /\
    name_ h' = str "a" /\ value_ h' = str "bcd".
Proof.
  eexists. split; [vm_compute; reflexivity|].
  apply (encoded_accessors huffcodes (replicate 10 0) (replicate 10 0) (str "a") (str "bcd") [129; 31] _ []);
    [apply _|apply (bool_decide_unpack _); exact I|reflexivity|apply (bool_decide_unpack _); exact I|reflexivity
    |vm_compute; reflexivity|apply (bool_decide_unpack _); exact I|vm_compute; reflexivity
    |apply (bool_decide_unpack _); exact I|right; vm_compute; reflexivity].
Defined.

(** The requests of RFC 7541 C.4.1 (Huffman strings). *)
Definition request_c41 : list field_repr :=
  [Indexed 2; Indexed 6; Indexed 4; Literal Incremental (inl 1) (Huff text_www)].

Example request_c41_octets :
  concat (map repr_octets request_c41) = [0x82; 0x86; 0x84; 0x41; 0x8c] ++ www.
Proof. vm_compute. reflexivity. Qed.

Lemma request_c41_ok : Forall repr_ok request_c41.
Proof.
  repeat constructor; try (vm_compute; reflexivity); try (vm_compute; discriminate).
Qed.

Lemma parseHeaders_correct_witness :
  parseHeaders new_DynamicTable ([0x82; 0x86; 0x84; 0x41; 0x8c] ++ www)
  = Ret ([new_Header (str ":method") (str "GET"); new_Header (str ":scheme") (str "http");
          new_Header (str ":path") (str "/");
          mk_Header (str ":authority") text_www [] (0x8c :: www) false],
         mk_DynamicTable 4096 [mk_Header (str ":authority") text_www [] (0x8c :: www) false]).
Proof.
  etransitivity.
  - apply (parseHeaders_correct new_DynamicTable request_c41). exact request_c41_ok.
  - vm_compute. reflexivity.
Defined.

Lemma decode_string_total_witness :
  match decode_string_from_rbuf [0x82; 0xff; 0xfe; 0x01] with
  | Ret (_, rest) => octets rest /\ zlen rest < 4
  | Throw e => is_runtime_error e
  | Undef _ => False
  end.
Proof.
  apply (decode_string_total [0x82; 0xff; 0xfe; 0x01]); [apply (bool_decide_unpack _); exact I|vm_compute; reflexivity].
Defined.

(** A size update that evicts, behind a header that fills the table; and the octet
    that is taken for a size update. *)
Lemma parseHeaders_safe_witness :
  parseHeaders table_example [0x20] = Throw (logic_error "Not a dynamic table size update message") /\
  match parseHeaders table_example [0x3f; 0x00] with
  | Ret _ => True
  | Throw e => is_rejection e
  | Undef f => f = AssertionFailed
  end.
Proof.
  split; [vm_compute; reflexivity|].
  apply (parseHeaders_safe table_example [0x3f; 0x00]); [apply (bool_decide_unpack _); exact I|vm_compute; reflexivity].
Defined.
