(* ===== verification/StreamBuf.v ===== *)
(** The byte buffers: [class StreamBuf] ([StreamBuf.cpp], [StreamBuf.h]) and
    [class Payload] ([Payload.h], [Payload-inl.h]).

    [buf_] is the whole vector, so [capacity] is its length; only the first
    [in_use_] octets count.  A [char] is the octet it is made of.  Both classes
    implement a queue of octets: [content] is the queue a [StreamBuf] holds, and
    [pending] the one a [Payload] and the buffer it overflows into hold together. *)
From S2P Require Import Prelude.

(** [class StreamBuf] *)
Record StreamBuf := mk_StreamBuf { in_use_ : Z; buf_ : list Z }.

Definition empty_StreamBuf : StreamBuf := mk_StreamBuf 0 [].

Definition sb_size (b : StreamBuf) : Z := in_use_ b.
Definition sb_isEmpty (b : StreamBuf) : bool := sb_size b =? 0.
Definition sb_capacity (b : StreamBuf) : Z := zlen (buf_ b).
Definition sb_tailroom (b : StreamBuf) : Z := u64 (sb_capacity b - sb_size b).
Definition sb_addTailContent (b : StreamBuf) (size : Z) : StreamBuf :=
  mk_StreamBuf (u64 (in_use_ b + size)) (buf_ b).
Definition sb_clear (b : StreamBuf) : StreamBuf := mk_StreamBuf 0 (buf_ b).

(** [std::vector::resize] throws beyond [max_size()]. *)
Definition vector_resize (v : list Z) (n : Z) : outcome (list Z) :=
  if SSIZE_MAX <? n then Throw (length_error "vector::_M_default_append")
  else Ret (str_resize v n).

Definition sb_reserve (b : StreamBuf) (new_size : Z) : outcome StreamBuf :=
  if new_size <? zlen (buf_ b) then Ret b
  else v ← vector_resize (buf_ b) new_size; Ret (mk_StreamBuf (in_use_ b) v).

Definition sb_ensure (b : StreamBuf) (extra_capacity : Z) : outcome StreamBuf :=
  sb_reserve b (u64 (sb_size b + extra_capacity)).

Definition sb_shrink_to_fit (b : StreamBuf) : outcome StreamBuf :=
  v ← vector_resize (buf_ b) (in_use_ b); Ret (mk_StreamBuf (in_use_ b) v).

Definition sb_advance (b : StreamBuf) (amount : Z) : outcome StreamBuf :=
  if sb_size b <? amount then Throw (length_error "StreamBuf::advance out of range")
  else if amount =? sb_size b then Ret (sb_clear b)
  else
    let in_use := in_use_ b - amount in
    s ← arr_slice (buf_ b) amount in_use;
    v ← arr_blit (buf_ b) 0 s;
    Ret (mk_StreamBuf in_use v).

Definition GROWTH_FACTOR : Z := 4.

Definition sb_grow (b : StreamBuf) : outcome StreamBuf :=
  if sb_size b <? 4096 / GROWTH_FACTOR then sb_reserve b 4096
  else if sb_capacity b / 2 <? sb_size b then
    sb_reserve b (if SIZE_MAX / GROWTH_FACTOR <? sb_capacity b then SIZE_MAX
                  else sb_capacity b * GROWTH_FACTOR)
  else Ret b.

Definition sb_write (b : StreamBuf) (data : list Z) : outcome StreamBuf :=
  b ← sb_ensure b (zlen data);
  v ← arr_blit (buf_ b) (in_use_ b) data;
  Ret (sb_addTailContent (mk_StreamBuf (in_use_ b) v) (zlen data)).

Definition sb_writeOctet (b : StreamBuf) (octet : Z) : outcome StreamBuf :=
  b ← sb_ensure b 1;
  v ← (buf_ b).[in_use_ b := u8 octet];
  Ret (sb_addTailContent (mk_StreamBuf (in_use_ b) v) 1).

(** [class Payload]; [data_] starts out uninitialised. *)
Record Payload := mk_Payload { len_ : Z; data_ : list Z }.

Definition capacity_ : Z := 1440.

Definition payload_size (p : Payload) : Z := len_ p.
Definition payload_tailroom (p : Payload) : Z := zlen (data_ p) - len_ p.
Definition payload_clear (p : Payload) : Payload := mk_Payload 0 (data_ p).

(** [target] is what [target_] points to. *)
Definition payload_flush (p : Payload) (target : StreamBuf) : outcome (Payload * StreamBuf) :=
  target ← sb_ensure target (payload_size p);
  s ← arr_slice (data_ p) 0 (payload_size p);
  v ← arr_blit (buf_ target) (in_use_ target) s;
  Ret (payload_clear p, sb_addTailContent (mk_StreamBuf (in_use_ target) v) (payload_size p)).

Definition payload_write (p : Payload) (target : StreamBuf) (buf : list Z)
    : outcome (Payload * StreamBuf) :=
  let len := zlen buf in
  '(p, target) ← (if zlen (data_ p) <? u64 (payload_size p + len) then payload_flush p target
                  else Ret (p, target));
  if zlen (data_ p) <? len then
    target ← sb_write target buf; Ret (p, target)
  else
    v ← arr_blit (data_ p) (len_ p) buf;
    Ret (mk_Payload (len_ p + len) v, target).

Definition payload_writeOctet (p : Payload) (target : StreamBuf) (octet : Z)
    : outcome (Payload * StreamBuf) := payload_write p target [u8 octet].

(** ** The queue *)

(** The octets between [data()] and [data() + size()]. *)
Definition content (b : StreamBuf) : list Z := take (Z.to_nat (in_use_ b)) (buf_ b).

Record sb_ok (b : StreamBuf) : Prop := mk_sb_ok {
  sb_in_use : 0 <= in_use_ b <= zlen (buf_ b);
  sb_octets : octets (buf_ b)
}.

Record payload_ok (p : Payload) : Prop := mk_payload_ok {
  pl_data : zlen (data_ p) = capacity_;
  pl_len : 0 <= len_ p <= capacity_;
  pl_octets : octets (data_ p)
}.

Definition payload_content (p : Payload) : list Z := take (Z.to_nat (len_ p)) (data_ p).

(** What is on its way out: what overflowed, then what the payload holds. *)
Definition pending (p : Payload) (target : StreamBuf) : list Z := content target ++ payload_content p.

(** The operations on a buffer, and what each does to a queue. *)
Inductive sb_op :=
  | OpWrite (data : list Z)
  | OpWriteOctet (octet : Z)
  | OpAdvance (amount : Z)
  | OpClear
  | OpGrow
  | OpEnsure (extra : Z)
  | OpShrink.

Definition sb_run (b : StreamBuf) (op : sb_op) : outcome StreamBuf :=
  match op with
  | OpWrite data => sb_write b data
  | OpWriteOctet o => sb_writeOctet b o
  | OpAdvance n => sb_advance b n
  | OpClear => Ret (sb_clear b)
  | OpGrow => sb_grow b
  | OpEnsure n => sb_ensure b n
  | OpShrink => sb_shrink_to_fit b
  end.

Definition queue_run (q : list Z) (op : sb_op) : option (list Z) :=
  match op with
  | OpWrite data => Some (q ++ data)
  | OpWriteOctet o => Some (q ++ [o])
  | OpAdvance n => if zlen q <? n then None else Some (drop (Z.to_nat n) q)
  | OpClear => Some []
  | OpGrow | OpEnsure _ | OpShrink => Some q
  end.

Definition op_ok (op : sb_op) : Prop :=
  match op with
  | OpWrite data => octets data /\ zlen data < 2 ^ 61
  | OpWriteOctet o => octet o
  | OpAdvance n => 0 <= n
  | OpEnsure n => 0 <= n < 2 ^ 61
  | _ => True
  end.

Lemma zlen_content b : sb_ok b -> zlen (content b) = in_use_ b.
Proof. intros [Hb _]. unfold content, zlen in *. rewrite length_take. lia. Qed.

Lemma content_octets b : sb_ok b -> octets (content b).
Proof. intros [_ Hb]. by apply Forall_take. Qed.

(** The buffer as its content and the octets behind it. *)
Lemma content_rest b : sb_ok b -> exists rest, buf_ b = content b ++ rest /\ octets rest.
Proof.
  intros [_ Hb]. exists (drop (Z.to_nat (in_use_ b)) (buf_ b)). split; [by unfold content; rewrite take_drop|by apply Forall_drop].
Qed.

Lemma str_resize_octets s n : octets s -> octets (str_resize s n).
Proof.
  intros Hs. apply Forall_app_2; [by apply Forall_take|]. by apply Forall_replicate.
Qed.

Lemma sb_reserve_ok b n :
  sb_ok b -> 0 <= n <= SSIZE_MAX ->
  exists b', sb_reserve b n = Ret b' /\ sb_ok b' /\ content b' = content b /\
    in_use_ b' = in_use_ b /\ n <= zlen (buf_ b').
Proof.
  intros [Hb Ho] Hn. unfold sb_reserve, vector_resize. destruct (Z.ltb_spec n (zlen (buf_ b))).
  { exists b. split; [done|]. split; [by split|]. split; [done|]. split; [done|lia]. }
  destruct (Z.ltb_spec SSIZE_MAX n); [lia|]. cbn [mbind outcome_bind].
  eexists. split; [done|]. cbn [in_use_ buf_]. rewrite zlen_str_resize by lia.
  split; [split; cbn [in_use_ buf_]; [rewrite zlen_str_resize; lia|by apply str_resize_octets]|].
  split; [|split; [done|lia]]. unfold content, str_resize, zlen in *. cbn [in_use_ buf_].
  rewrite take_app_le by (rewrite length_take; lia). by rewrite take_take, Nat.min_l by lia.
Qed.

Lemma sb_write_ok b data :
  sb_ok b -> octets data -> in_use_ b + zlen data <= SSIZE_MAX ->
  exists b', sb_write b data = Ret b' /\ sb_ok b' /\ content b' = content b ++ data /\
    in_use_ b' = in_use_ b + zlen data.
Proof.
  intros Hb Hd Hm. pose proof (zlen_nonneg data). unfold sb_write, sb_ensure, sb_size.
  pose proof Hb as [Hin _]. unfold SSIZE_MAX in Hm. rewrite wrap_small by lia.
  destruct (sb_reserve_ok b (in_use_ b + zlen data) Hb) as (b' & -> & Hb' & Hc & Hi & Hr); [unfold SSIZE_MAX; lia|].
  cbn [mbind outcome_bind]. pose proof Hb' as [Hin' Ho']. rewrite Hi in *.
  rewrite arr_blit_in by lia. cbn [mbind outcome_bind]. unfold sb_addTailContent. cbn [in_use_ buf_].
  rewrite wrap_small by lia. eexists. split; [done|].
  assert (zlen (take (Z.to_nat (in_use_ b)) (buf_ b')) = in_use_ b) as Ht
    by (unfold zlen in *; rewrite length_take; lia).
  split; [|split; [|done]].
  - split; cbn [in_use_ buf_].
    + rewrite !zlen_app, Ht. pose proof (zlen_nonneg (drop (Z.to_nat (in_use_ b) + length data) (buf_ b'))). lia.
    + apply Forall_app_2; [by apply Forall_take|]. apply Forall_app_2; [done|by apply Forall_drop].
  - rewrite <- Hc. unfold content. cbn [in_use_ buf_]. rewrite Hi, (assoc_L (++)).
    apply take_app_length'. rewrite length_app. unfold zlen in *. lia.
Qed.

Lemma sb_writeOctet_ok b o :
  sb_ok b -> octet o -> in_use_ b < SSIZE_MAX ->
  exists b', sb_writeOctet b o = Ret b' /\ sb_ok b' /\ content b' = content b ++ [o] /\
    in_use_ b' = in_use_ b + 1.
Proof.
  intros Hb Ho Hm. unfold sb_writeOctet. pose proof Hb as [Hin _]. unfold SSIZE_MAX in Hm.
  unfold sb_ensure, sb_size. rewrite (wrap_small 64) by lia.
  destruct (sb_reserve_ok b (in_use_ b + 1) Hb) as (b' & -> & Hb' & Hc & Hi & Hr); [unfold SSIZE_MAX; lia|].
  cbn [mbind outcome_bind]. pose proof Hb' as [Hin' Ho']. rewrite Hi in *.
  destruct (content_rest b' Hb') as (rest & Heq & Hro). rewrite Hc in Heq.
  pose proof (zlen_content b Hb) as Hzc. rewrite Heq in *. rewrite zlen_app in *.
  destruct rest as [|y rest]; [rewrite zlen_nil in *; lia|]. inversion Hro; subst.
  rewrite arr_set_app by done. cbn [mbind outcome_bind]. unfold sb_addTailContent. cbn [in_use_ buf_].
  rewrite !wrap_small by (unfold octet in *; lia). eexists. split; [done|].
  rewrite zlen_cons in *. pose proof (zlen_nonneg rest).
  split; [|split; [|done]].
  - split; cbn [in_use_ buf_]; [rewrite zlen_app, zlen_cons; lia|].
    apply Forall_app_2; [by apply content_octets|by constructor].
  - unfold content at 1. cbn [in_use_ buf_]. rewrite cons_middle, (assoc_L (++)).
    apply take_app_length'. rewrite length_app. unfold zlen in *. simpl. lia.
Qed.

Lemma sb_clear_ok b : sb_ok b -> sb_ok (sb_clear b) /\ content (sb_clear b) = [].
Proof. intros [Hb Ho]. split; [split; cbn; [lia|done]|done]. Qed.

Lemma sb_advance_ok b n :
  sb_ok b -> 0 <= n <= in_use_ b ->
  exists b', sb_advance b n = Ret b' /\ sb_ok b' /\ content b' = drop (Z.to_nat n) (content b) /\
    in_use_ b' = in_use_ b - n.
Proof.
  intros Hb Hn. unfold sb_advance, sb_size. destruct (Z.ltb_spec (in_use_ b) n); [lia|].
  pose proof Hb as [Hin Ho]. pose proof (zlen_content b Hb) as Hz.
  destruct (Z.eqb_spec n (in_use_ b)) as [->|Hne].
  - exists (sb_clear b). split; [done|]. split; [by apply sb_clear_ok|]. split; [|simpl; lia].
    rewrite drop_ge; [done|]. unfold zlen in Hz. lia.
  - destruct (content_rest b Hb) as (rest & Heq & Hro). pose proof (zlen_nonneg rest).
    rewrite Heq. rewrite arr_slice_in by (rewrite ?zlen_app; lia). cbn [mbind outcome_bind].
    assert (take (Z.to_nat (in_use_ b - n)) (drop (Z.to_nat n) (content b ++ rest)) = drop (Z.to_nat n) (content b)) as ->.
    { rewrite drop_app_le by (unfold zlen in *; lia). apply take_app_length'.
      rewrite length_drop. unfold zlen in *. lia. }
    assert (zlen (drop (Z.to_nat n) (content b)) = in_use_ b - n) as Hd
      by (unfold zlen in *; rewrite length_drop; lia).
    rewrite arr_blit_0 by (rewrite length_app; unfold zlen in *; lia). cbn [mbind outcome_bind].
    eexists. split; [done|]. cbn [in_use_ buf_]. split; [|split; [|done]].
    + split; cbn [in_use_ buf_].
      * rewrite zlen_app, Hd. pose proof (zlen_nonneg (drop (length (drop (Z.to_nat n) (content b))) (content b ++ rest))). lia.
      * apply Forall_app_2; [by apply Forall_drop, content_octets|].
        apply Forall_drop, Forall_app_2; [by apply content_octets|done].
    + unfold content at 1. cbn [in_use_ buf_]. apply take_app_length'. unfold zlen in *. lia.
Qed.

Lemma sb_advance_over b n :
  in_use_ b < n -> sb_advance b n = Throw (length_error "StreamBuf::advance out of range").
Proof. intros. unfold sb_advance, sb_size. destruct (Z.ltb_spec (in_use_ b) n); [done|lia]. Qed.

(** [grow] always leaves room to read into. *)
Lemma sb_grow_ok b :
  sb_ok b -> zlen (buf_ b) <= 2 ^ 60 ->
  exists b', sb_grow b = Ret b' /\ sb_ok b' /\ content b' = content b /\ in_use_ b' = in_use_ b /\
    512 <= sb_tailroom b'.
Proof.
  intros Hb Hm. pose proof Hb as [Hin Ho]. unfold sb_grow, sb_size, sb_capacity, GROWTH_FACTOR, SIZE_MAX.
  change (4096 / 4) with 1024.
  assert (forall b', sb_ok b' -> in_use_ b' + 512 <= zlen (buf_ b') <= SSIZE_MAX -> 512 <= sb_tailroom b') as Hroom.
  { intros b' [? ?] ?. unfold sb_tailroom, sb_capacity, sb_size, SSIZE_MAX in *. rewrite wrap_small; lia. }
  assert (forall n, in_use_ b + 512 <= n <= SSIZE_MAX ->
            exists b', sb_reserve b n = Ret b' /\ sb_ok b' /\ content b' = content b /\
              in_use_ b' = in_use_ b /\ 512 <= sb_tailroom b') as Hres.
  { intros n Hn. destruct (Z.ltb_spec n (zlen (buf_ b))) as [Hlt|Hge].
    - exists b. unfold sb_reserve. destruct (Z.ltb_spec n (zlen (buf_ b))); [|lia].
      repeat (split; [done|]). apply Hroom; [done|unfold SSIZE_MAX in *; lia].
    - destruct (sb_reserve_ok b n Hb) as (b' & Heq & Hb' & Hc & Hi & Hr); [lia|].
      exists b'. split; [done|]. split; [done|]. split; [done|]. split; [done|].
      apply Hroom; [done|]. split; [lia|]. unfold sb_reserve, vector_resize in Heq.
      destruct (Z.ltb_spec n (zlen (buf_ b))); [lia|]. destruct (Z.ltb_spec SSIZE_MAX n); [lia|].
      injection Heq as <-. cbn [buf_]. rewrite zlen_str_resize by lia. lia. }
  destruct (Z.ltb_spec (in_use_ b) 1024); [apply Hres; unfold SSIZE_MAX; lia|].
  pose proof (Z.div_mod (zlen (buf_ b)) 2). pose proof (Z.mod_pos_bound (zlen (buf_ b)) 2).
  destruct (Z.ltb_spec (zlen (buf_ b) / 2) (in_use_ b)).
  - destruct (Z.ltb_spec ((2 ^ 64 - 1) / 4) (zlen (buf_ b))); [change ((2 ^ 64 - 1) / 4) with 4611686018427387903 in *; lia|].
    apply Hres. unfold SSIZE_MAX. lia.
  - exists b. repeat (split; [done|]). apply Hroom; [done|unfold SSIZE_MAX; lia].
Qed.

Lemma sb_shrink_ok b :
  sb_ok b -> zlen (buf_ b) <= SSIZE_MAX ->
  exists b', sb_shrink_to_fit b = Ret b' /\ sb_ok b' /\ content b' = content b /\ in_use_ b' = in_use_ b.
Proof.
  intros Hb Hm. pose proof Hb as [Hin Ho]. unfold sb_shrink_to_fit, vector_resize.
  destruct (Z.ltb_spec SSIZE_MAX (in_use_ b)); [lia|]. cbn [mbind outcome_bind].
  eexists. split; [done|]. rewrite str_resize_take by lia. fold (content b).
  pose proof (zlen_content b Hb) as Hz. split; [|split; [|done]].
  - split; cbn [in_use_ buf_]; [lia|by apply content_octets].
  - unfold content at 1. cbn [in_use_ buf_]. rewrite take_ge; [done|]. unfold zlen in Hz. lia.
Qed.

(** C15: [StreamBuf] is a queue of octets.  Every operation, on a well-formed
    buffer of a size that exists, returns a well-formed buffer holding what the
    operation makes of the queue; only advancing past the end throws, and no
    operation reads or writes outside the vector.  [grow] leaves at least 512
    octets of tail room, so [onPollIn] never reads into an empty range. *)
Theorem StreamBuf_refines_queue b op :
  sb_ok b -> zlen (buf_ b) <= 2 ^ 60 -> op_ok op ->
  match queue_run (content b) op with
  | Some q => exists b', sb_run b op = Ret b' /\ sb_ok b' /\ content b' = q /\
                (op = OpGrow -> 512 <= sb_tailroom b')
  | None => sb_run b op = Throw (length_error "StreamBuf::advance out of range")
  end.
Proof.
  intros Hb Hm Hop. pose proof Hb as [Hin Ho]. pose proof (zlen_content b Hb) as Hz.
  destruct op as [data|o|n| | |n|]; cbn [queue_run sb_run op_ok] in *.
  - destruct Hop as [Hd Hl]. destruct (sb_write_ok b data Hb Hd) as (b' & ? & ? & ? & _);
      [unfold SSIZE_MAX; lia|]. by exists b'.
  - destruct (sb_writeOctet_ok b o Hb Hop) as (b' & ? & ? & ? & _); [unfold SSIZE_MAX; lia|]. by exists b'.
  - rewrite Hz. destruct (Z.ltb_spec (in_use_ b) n).
    + by apply sb_advance_over.
    + destruct (sb_advance_ok b n Hb) as (b' & ? & ? & ? & _); [lia|]. by exists b'.
  - exists (sb_clear b). split; [done|]. by destruct (sb_clear_ok b Hb).
  - destruct (sb_grow_ok b Hb Hm) as (b' & ? & ? & ? & _ & ?). by exists b'.
  - unfold sb_ensure, sb_size. rewrite wrap_small by lia.
    destruct (sb_reserve_ok b (in_use_ b + n) Hb) as (b' & ? & ? & ? & _); [unfold SSIZE_MAX; lia|]. by exists b'.
  - destruct (sb_shrink_ok b Hb) as (b' & ? & ? & ? & _); [unfold SSIZE_MAX; lia|]. by exists b'.
Qed.

Lemma StreamBuf_refines_queue_witness :
  exists b', sb_run (mk_StreamBuf 3 [1; 2; 3; 9; 9]) (OpAdvance 2) = Ret b' /\ sb_ok b' /\
    content b' = [3] /\ (OpAdvance 2 = OpGrow -> 512 <= sb_tailroom b').
Proof.
  apply (StreamBuf_refines_queue (mk_StreamBuf 3 [1; 2; 3; 9; 9]) (OpAdvance 2));
    [split; [vm_compute; split; congruence|apply (bool_decide_unpack _); exact I]|vm_compute; congruence|vm_compute; congruence].
Defined.

(** ** Payloads *)

Lemma payload_flush_ok p t :
  payload_ok p -> sb_ok t -> in_use_ t + len_ p <= SSIZE_MAX ->
  exists p' t', payload_flush p t = Ret (p', t') /\ payload_ok p' /\ sb_ok t' /\
    len_ p' = 0 /\ data_ p' = data_ p /\ content t' = pending p t /\ in_use_ t' = in_use_ t + len_ p.
Proof.
  intros [Hd Hl Ho] Ht Hm. unfold capacity_ in *.
  destruct (sb_write_ok t (payload_content p) Ht) as (t' & Hw & Ht' & Hc & Hi).
  { by apply Forall_take. }
  { unfold payload_content, zlen in *. rewrite length_take. lia. }
  assert (zlen (payload_content p) = len_ p) as Hpl
    by (unfold payload_content, zlen in *; rewrite length_take; lia).
  unfold sb_write in Hw. rewrite Hpl in Hw. unfold payload_flush, payload_size.
  destruct (sb_ensure t (len_ p)) as [t1| |] eqn:E; cbn [mbind outcome_bind] in *; try done.
  rewrite arr_slice_in by lia. change (Z.to_nat 0) with 0%nat. rewrite drop_0. fold (payload_content p).
  cbn [mbind outcome_bind].
  destruct (arr_blit (buf_ t1) (in_use_ t1) (payload_content p)); cbn [mbind outcome_bind] in *; try done.
  injection Hw as Hw. exists (payload_clear p), t'. rewrite Hw. rewrite Hpl in Hi.
  split; [done|]. split; [split; cbn; unfold capacity_; [done|lia|done]|]. repeat (split; [done|]). done.
Qed.

Lemma payload_write_ok p t buf :
  payload_ok p -> sb_ok t -> octets buf -> in_use_ t + len_ p + zlen buf <= SSIZE_MAX ->
  exists p' t', payload_write p t buf = Ret (p', t') /\ payload_ok p' /\ sb_ok t' /\
    pending p' t' = pending p t ++ buf /\
    in_use_ t' + len_ p' = in_use_ t + len_ p + zlen buf /\ content t `prefix_of` content t'.
Proof.
  intros Hp Ht Hbuf Hm. unfold payload_write, payload_size. pose proof (zlen_nonneg buf).
  rewrite (wrap_small 64) by (destruct Hp as [_ Hl _], Ht as [Hi _]; unfold SSIZE_MAX in Hm; lia).
  assert (exists p1 t1, (if zlen (data_ p) <? len_ p + zlen buf then payload_flush p t else Ret (p, t)) = Ret (p1, t1)
    /\ payload_ok p1 /\ sb_ok t1 /\ pending p1 t1 = pending p t /\ in_use_ t1 + len_ p1 = in_use_ t + len_ p
    /\ (len_ p1 = 0 \/ len_ p1 + zlen buf <= capacity_) /\ content t `prefix_of` content t1)
    as (p1 & t1 & -> & Hp1 & Ht1 & Hpend & Hsum & Hroom & Hpre).
  { pose proof Hp as [Hd Hl Ho]. destruct (Z.ltb_spec (zlen (data_ p)) (len_ p + zlen buf)).
    - destruct (payload_flush_ok p t Hp Ht) as (p1 & t1 & Heq & Hp1 & Ht1 & Hz0 & Hda & Hc & Hi); [lia|].
      exists p1, t1. split; [done|]. split; [done|]. split; [done|].
      split; [|split; [lia|split; [by left|by rewrite Hc; apply prefix_app_r]]].
      unfold pending at 1, payload_content. rewrite Hz0, Hc. apply app_nil_r.
    - exists p, t. repeat (split; [done|]). split; [right; lia|done]. }
  cbn [mbind outcome_bind]. pose proof Hp1 as [Hd1 Hl1 Ho1]. rewrite Hd1. unfold capacity_ in *.
  destruct (Z.ltb_spec 1440 (zlen buf)).
  - destruct (sb_write_ok t1 buf Ht1 Hbuf) as (t2 & -> & Ht2 & Hc & Hi); [lia|]. cbn [mbind outcome_bind].
    exists p1, t2. split; [done|]. split; [done|]. split; [done|].
    split; [|split; [lia|by rewrite Hc; apply prefix_app_r]].
    rewrite <- Hpend. destruct Hroom as [Hz0|]; [|lia].
    unfold pending, payload_content. rewrite Hz0, Hc. cbn [Z.to_nat take]. by rewrite !app_nil_r.
  - rewrite arr_blit_in by lia. cbn [mbind outcome_bind]. eexists _, t1. split; [done|].
    assert (zlen (take (Z.to_nat (len_ p1)) (data_ p1)) = len_ p1) as Htk
      by (unfold zlen in *; rewrite length_take; lia).
    split; [|split; [done|split; [|split; [cbn [len_]; lia|done]]]].
    + constructor; cbn [data_ len_]; unfold capacity_; [|lia|].
      * rewrite !zlen_app, Htk. unfold zlen in *. rewrite length_drop. lia.
      * apply Forall_app_2; [by apply Forall_take|]. apply Forall_app_2; [done|by apply Forall_drop].
    + rewrite <- Hpend. unfold pending, payload_content. cbn [data_ len_].
      rewrite <- (assoc_L (++)). f_equal. rewrite (assoc_L (++)). apply take_app_length'.
      rewrite length_app. unfold zlen in *. lia.
Qed.

(** What taking input off a buffer leaves of it. *)
Record fits (b b' : StreamBuf) : Prop := mk_fits {
  ft_capacity : zlen (buf_ b') <= zlen (buf_ b);
  ft_ok : sb_ok b -> sb_ok b' /\ in_use_ b' <= in_use_ b
}.

#[export] Instance fits_preorder : PreOrder fits.
Proof.
  split; [intros b; by split|]. intros a b c [? Hab] [? Hbc]. split; [lia|]. intros Ha.
  destruct (Hab Ha) as [Hb ?], (Hbc Hb). split; [done|lia].
Qed.

(** A payload written to piece by piece. *)
Fixpoint payload_writes (p : Payload) (t : StreamBuf) (bufs : list (list Z)) : outcome (Payload * StreamBuf) :=
  match bufs with
  | [] => Ret (p, t)
  | b :: bufs => '(p, t) ← payload_write p t b; payload_writes p t bufs
  end.

Lemma payload_writes_ok p t bufs :
  payload_ok p -> sb_ok t -> Forall (Forall octet) bufs ->
  in_use_ t + len_ p + zlen (concat bufs) <= SSIZE_MAX ->
  exists p' t', payload_writes p t bufs = Ret (p', t') /\ payload_ok p' /\ sb_ok t' /\
    pending p' t' = pending p t ++ concat bufs /\
    in_use_ t' + len_ p' = in_use_ t + len_ p + zlen (concat bufs) /\ content t `prefix_of` content t'.
Proof.
  intros Hp Ht Hbufs. revert p t Hp Ht. induction Hbufs as [|b bufs Hb Hbufs IH]; intros p t Hp Ht Hm; cbn [payload_writes concat] in *.
  - exists p, t. rewrite app_nil_r, zlen_nil, Z.add_0_r. by repeat (split; [done|]).
  - rewrite zlen_app in *. pose proof (zlen_nonneg (concat bufs)).
    destruct (payload_write_ok p t b Hp Ht Hb) as (p1 & t1 & -> & Hp1 & Ht1 & Hc1 & Hs1 & Hpre1); [lia|]. cbn [mbind outcome_bind].
    destruct (IH p1 t1 Hp1 Ht1) as (p2 & t2 & -> & Hp2 & Ht2 & Hc2 & Hs2 & Hpre2); [lia|].
    exists p2, t2. split; [done|]. split; [done|]. split; [done|]. split; [|split; [lia|by etrans]].
    by rewrite Hc2, Hc1, <- (assoc_L (++)).
Qed.

(** a [Payload] and the buffer it overflows into are one queue: after any
    writes, small or larger than the payload, the target's octets followed by
    the payload's are those before followed by everything written, in order;
    nothing is written outside the payload's 1440 octets. *)
Theorem Payload_refines_queue p t bufs :
  payload_ok p -> sb_ok t -> Forall (Forall octet) bufs ->
  in_use_ t + len_ p + zlen (concat bufs) <= SSIZE_MAX ->
  exists p' t', payload_writes p t bufs = Ret (p', t') /\ payload_ok p' /\ sb_ok t' /\
    pending p' t' = pending p t ++ concat bufs.
Proof.
  intros Hp Ht Hb Hm. destruct (payload_writes_ok p t bufs Hp Ht Hb Hm) as (p' & t' & ? & ? & ? & ? & _).
  by exists p', t'.
Qed.

Lemma Payload_refines_queue_witness :
  exists p' t',
    payload_writes (mk_Payload 0 (replicate 1440 0)) empty_StreamBuf [replicate 1000 1; replicate 1000 2; [3]]
    = Ret (p', t') /\ payload_ok p' /\ sb_ok t' /\
    pending p' t' = pending (mk_Payload 0 (replicate 1440 0)) empty_StreamBuf
                    ++ concat [replicate 1000 1; replicate 1000 2; [3]].
Proof.
  apply (Payload_refines_queue (mk_Payload 0 (replicate 1440 0)) empty_StreamBuf [replicate 1000 1; replicate 1000 2; [3]]).
  - split; [reflexivity|cbn; unfold capacity_; lia|apply Forall_replicate; unfold octet; lia].
  - split; [vm_compute; split; congruence|constructor].
  - apply (bool_decide_unpack _). exact I.
  - vm_compute. congruence.
Defined.
