(* ===== verification/Frame.v ===== *)
(** HTTP/2 frames: [http2/Frame.h], [Frame.cpp], [DataFrame.h], [HeadersFrame.h].

    [char_signed] is the sign of plain [char] (true on x86): the octets of a
    [StreamBuf] are [char]s, and the conversion of one to [uint32_t] extends its
    sign. *)
From S2P Require Import Prelude StreamBuf HuffCode BitBuf.

(** [enum class FrameType: uint8_t]; every octet is a value. *)
Definition FrameType := Z.
Definition DATA : FrameType := 0x00.
Definition HEADERS : FrameType := 0x01.
Definition PRIORITY : FrameType := 0x02.
Definition RST_STREAM : FrameType := 0x03.
Definition SETTINGS : FrameType := 0x04.
Definition PUSH_PROMISE : FrameType := 0x05.
Definition PING : FrameType := 0x06.
Definition GOAWAY : FrameType := 0x07.
Definition WINDOW_UPDATE : FrameType := 0x08.
Definition CONTINUATION : FrameType := 0x09.

(** [struct FrameHeader]; [flags] is the value of the bitset. *)
Record FrameHeader := mk_FrameHeader {
  fh_length : Z;
  fh_type : FrameType;
  fh_flags : Z;
  fh_reserved : Z;
  fh_streamId : Z
}.

#[export] Instance FrameHeader_eq_dec : EqDecision FrameHeader.
Proof. solve_decision. Defined.

Definition FrameHeader_SIZE : Z := 9.

Definition new_FrameHeader (type : FrameType) : FrameHeader := mk_FrameHeader 0 type 0 0 0.

Definition set_length (h : FrameHeader) (n : Z) : FrameHeader :=
  mk_FrameHeader (u24 n) (fh_type h) (fh_flags h) (fh_reserved h) (fh_streamId h).
Definition set_streamId (h : FrameHeader) (n : Z) : FrameHeader :=
  mk_FrameHeader (fh_length h) (fh_type h) (fh_flags h) (fh_reserved h) (u31 n).
(** [flags.set(pos, value)] and [flags.test(pos)]. *)
Definition set_flag (h : FrameHeader) (pos : Z) (value : bool) : FrameHeader :=
  mk_FrameHeader (fh_length h) (fh_type h)
    (if value then Z.setbit (fh_flags h) pos else Z.clearbit (fh_flags h) pos)
    (fh_reserved h) (fh_streamId h).
Definition test_flag (h : FrameHeader) (pos : Z) : bool := Z.testbit (fh_flags h) pos.

(** The array [bytes] of [FrameHeader::writeTo]. *)
Definition frame_octets (h : FrameHeader) : list Z :=
  let reservedAndStreamId := Z.lor (u32 (Z.shiftl (fh_reserved h) 31)) (fh_streamId h) in
  [u8 (Z.shiftr (fh_length h) 16); u8 (Z.shiftr (fh_length h) 8); u8 (fh_length h);
   u8 (fh_type h); u8 (fh_flags h);
   u8 (Z.shiftr reservedAndStreamId 24); u8 (Z.shiftr reservedAndStreamId 16);
   u8 (Z.shiftr reservedAndStreamId 8); u8 reservedAndStreamId].

Definition FrameHeader_writeTo (h : FrameHeader) (out : Payload) (target : StreamBuf)
    : outcome (Payload * StreamBuf) := payload_write out target (frame_octets h).

(** The [char] made of an octet, and its conversion to [uint32_t]. *)
Definition char_value (char_signed : bool) (c : Z) : Z := if char_signed then i8 c else c.
Definition char_u32 (char_signed : bool) (c : Z) : Z := u32 (char_value char_signed c).

Definition readFrameHeader (char_signed : bool) (input : StreamBuf) : outcome (FrameHeader * StreamBuf) :=
  if sb_size input <? FrameHeader_SIZE then Throw (runtime_error "incomplete header")
  else
    let u := char_u32 char_signed in
    c0 ← (buf_ input).[0]; c1 ← (buf_ input).[1]; c2 ← (buf_ input).[2];
    c3 ← (buf_ input).[3]; c4 ← (buf_ input).[4]; c5 ← (buf_ input).[5];
    c6 ← (buf_ input).[6]; c7 ← (buf_ input).[7]; c8 ← (buf_ input).[8];
    let length := u24 (Z.lor (Z.lor (u32 (Z.shiftl (u c0) 16)) (u32 (Z.shiftl (u c1) 8))) (u c2)) in
    let reservedAndStreamId :=
      Z.lor (Z.lor (Z.lor (u32 (Z.shiftl (u c5) 24)) (u32 (Z.shiftl (u c6) 16)))
               (u32 (Z.shiftl (u c7) 8))) (u c8) in
    input ← sb_advance input FrameHeader_SIZE;
    Ret (mk_FrameHeader length (u8 (char_value char_signed c3)) (u8 (char_value char_signed c4))
           (Z.shiftr reservedAndStreamId 31) (u31 (Z.land reservedAndStreamId 0x7fffffff)),
         input).

Definition tryReadFrameHeader (char_signed : bool) (input : StreamBuf)
    : outcome (option FrameHeader * StreamBuf) :=
  if sb_size input <? FrameHeader_SIZE then Ret (None, input)
  else '(h, input) ← readFrameHeader char_signed input; Ret (Some h, input).

Definition isSettingsACK (h : FrameHeader) : bool := (fh_type h =? SETTINGS) && test_flag h 0.
Definition isPingACK (h : FrameHeader) : bool := (fh_type h =? PING) && test_flag h 0.

(** [class DataFrame] *)
Definition DataFrame_isEndStream (h : FrameHeader) : bool := test_flag h 3.
Definition DataFrame_isPadded (h : FrameHeader) : bool := test_flag h 0.
(** There is no return statement behind the [if]. *)
Definition DataFrame_padding (h : FrameHeader) : outcome Z :=
  if negb (DataFrame_isPadded h) then Ret 0 else Undef MissingReturn.

(** [class HeadersFrame] *)
Record HeadersFrame := mk_HeadersFrame {
  frameHeader_ : FrameHeader;
  exclusiveStreamDependency_ : Z;
  streamDependency_ : Z;
  weight_ : Z;
  headerBlockFragment_ : list Z;
  padding_ : list Z
}.

Definition HeadersFrame_isEndStream (h : FrameHeader) : bool := test_flag h 0.
Definition HeadersFrame_isEndHeaders (h : FrameHeader) : bool := test_flag h 2.
Definition HeadersFrame_isPadded (h : FrameHeader) : bool := test_flag h 3.
Definition HeadersFrame_isPriority (h : FrameHeader) : bool := test_flag h 5.

Definition with_frameHeader (f : HeadersFrame) (h : FrameHeader) : HeadersFrame :=
  mk_HeadersFrame h (exclusiveStreamDependency_ f) (streamDependency_ f) (weight_ f)
    (headerBlockFragment_ f) (padding_ f).

Definition setEndStream (f : HeadersFrame) (value : bool) : HeadersFrame :=
  with_frameHeader f (set_flag (frameHeader_ f) 0 value).
Definition setEndHeaders (f : HeadersFrame) (value : bool) : HeadersFrame :=
  with_frameHeader f (set_flag (frameHeader_ f) 2 value).
Definition setIsPriority (f : HeadersFrame) (value : bool) : HeadersFrame :=
  with_frameHeader f (set_flag (frameHeader_ f) 5 value).
Definition setIsPadded (f : HeadersFrame) (value : bool) : HeadersFrame :=
  with_frameHeader f (set_flag (frameHeader_ f) 3 value).

Definition new_HeadersFrame (streamId : Z) : HeadersFrame :=
  setEndHeaders (mk_HeadersFrame (set_streamId (new_FrameHeader HEADERS) streamId) 0 0 15 [] []) true.

Definition weight (f : HeadersFrame) : Z := weight_ f + 1.

Definition setWeight (f : HeadersFrame) (newWeight : Z) : outcome HeadersFrame :=
  if (newWeight <? 1) || (256 <? newWeight) then Throw (runtime_error "invalid stream/header weight")
  else Ret (mk_HeadersFrame (frameHeader_ f) (exclusiveStreamDependency_ f) (streamDependency_ f)
              (u8 (newWeight - 1)) (headerBlockFragment_ f) (padding_ f)).

Definition HeadersFrame_length (f : HeadersFrame) : Z :=
  u32 (zlen (headerBlockFragment_ f) + zlen (padding_ f)).

Definition setHeaderBlockFragment (f : HeadersFrame) (fragment : list Z) : HeadersFrame :=
  let f := mk_HeadersFrame (frameHeader_ f) (exclusiveStreamDependency_ f) (streamDependency_ f)
             (weight_ f) fragment (padding_ f) in
  with_frameHeader f (set_length (frameHeader_ f) (HeadersFrame_length f)).

Definition setPadding (f : HeadersFrame) (padding : list Z) : HeadersFrame :=
  let f := mk_HeadersFrame (frameHeader_ f) (exclusiveStreamDependency_ f) (streamDependency_ f)
             (weight_ f) (headerBlockFragment_ f) padding in
  let f := setIsPadded f (negb (zlen padding =? 0)) in
  with_frameHeader f (set_length (frameHeader_ f) (HeadersFrame_length f)).

Definition HeadersFrame_writeTo (f : HeadersFrame) (payload : Payload) (target : StreamBuf)
    : outcome (Payload * StreamBuf) :=
  '(payload, target) ← FrameHeader_writeTo (frameHeader_ f) payload target;
  '(payload, target) ← payload_write payload target (headerBlockFragment_ f);
  payload_write payload target (padding_ f).

(** ** Specification *)

Record header_ok (h : FrameHeader) : Prop := mk_header_ok {
  ho_length : 0 <= fh_length h < 2 ^ 24;
  ho_type : octet (fh_type h);
  ho_flags : octet (fh_flags h);
  ho_reserved : 0 <= fh_reserved h <= 1;
  ho_streamId : 0 <= fh_streamId h < 2 ^ 31
}.

(** The number of big-endian octets. *)
Definition be (os : list Z) : Z := foldl (fun n o => n * 256 + o) 0 os.

(** The octets of a number, [k] of them. *)
Definition to_be (k : nat) (n : Z) : list Z :=
  map (fun i => n / 256 ^ Z.of_nat i mod 256) (rev (seq 0 k)).

(** RFC 7540 section 4.1 *)
Definition header_wire (h : FrameHeader) : list Z :=
  to_be 3 (fh_length h) ++ [fh_type h; fh_flags h] ++ to_be 4 (fh_reserved h * 2 ^ 31 + fh_streamId h).

(** Where [char] is signed, an octet of 128 or more sets every bit above it. *)
Fixpoint smear (os : list Z) : list Z :=
  match os with
  | [] => []
  | o :: os => (if existsb (fun o => 128 <=? o) os then 255 else o) :: smear os
  end.

Definition received_number (char_signed : bool) (os : list Z) : Z :=
  be (if char_signed then smear os else os).

(** The header that [readFrameHeader] makes of one that was sent. *)
Definition received (char_signed : bool) (h : FrameHeader) : FrameHeader :=
  let id := received_number char_signed (to_be 4 (fh_reserved h * 2 ^ 31 + fh_streamId h)) in
  mk_FrameHeader (received_number char_signed (to_be 3 (fh_length h))) (fh_type h) (fh_flags h)
    (id / 2 ^ 31) (id mod 2 ^ 31).

(** Every octet above one of 128 or more is 255 already. *)
Fixpoint extended (os : list Z) : bool :=
  match os with
  | [] => true
  | o :: os => (negb (existsb (fun o => 128 <=? o) os) || (o =? 255)) && extended os
  end.

(** The length and the stream id are. *)
Definition clean (h : FrameHeader) : bool :=
  extended (to_be 3 (fh_length h)) && extended (to_be 4 (fh_reserved h * 2 ^ 31 + fh_streamId h)).

(** ** Numbers and their octets *)

Lemma char_u32_bits s c i :
  octet c -> 0 <= i ->
  Z.testbit (char_u32 s c) i
  = if i <? 8 then Z.testbit c i else (i <? 32) && s && (128 <=? c).
Proof.
  intros Hc Hi. unfold char_u32, char_value. pose proof Hc as Hc'. unfold octet in Hc'.
  assert (Z.testbit (u32 c) i = if i <? 8 then Z.testbit c i else false) as Hu.
  { rewrite wrap_small by lia. destruct (Z.ltb_spec i 8); [done|]. by apply (testbit_high 8). }
  destruct s; [|by rewrite Hu, andb_false_r].
  destruct (Z.leb_spec 128 c); rewrite andb_true_r.
  - replace (i8 c) with (c - 256).
    2:{ unfold swrap. change (2 ^ (8 - 1)) with 128. change (2 ^ 8) with 256.
        replace (c + 128) with (c - 128 + 1 * 256) by lia. rewrite Z.mod_add, Z.mod_small by lia. lia. }
    replace (u32 (c - 256)) with (Z.ones 24 * 256 + c).
    2:{ unfold wrap. replace (c - 256) with (Z.ones 24 * 256 + c + (-1) * 2 ^ 32) by (change (Z.ones 24) with (2 ^ 24 - 1); lia).
        rewrite Z.mod_add by lia. rewrite Z.mod_small; [done|]. change (Z.ones 24) with (2 ^ 24 - 1). lia. }
    rewrite testbit_snoc by done. destruct (Z.ltb_spec i 8); [done|]. rewrite andb_true_r.
    destruct (Z.ltb_spec i 32).
    + apply Z.ones_spec_low. lia.
    + apply Z.ones_spec_high. lia.
  - rewrite swrap_small by (simpl; lia). by rewrite Hu, andb_false_r.
Qed.

Lemma char_u32_shl_bits s c k i :
  octet c -> 0 <= i -> 0 <= k ->
  Z.testbit (u32 (Z.shiftl (char_u32 s c) k)) i
  = (k <=? i) && (i <? 32) && (if i - k <? 8 then Z.testbit c (i - k) else s && (128 <=? c)).
Proof.
  intros Hc Hi Hk. rewrite testbit_wrap, testbit_shl by lia.
  destruct (Z.leb_spec k i); cbn [andb]; [|apply andb_false_r].
  destruct (Z.ltb_spec i 32); cbn [andb]; [|done].
  rewrite char_u32_bits by (done || lia). destruct (Z.ltb_spec (i - k) 8); [done|].
  destruct (Z.ltb_spec (i - k) 32); [done|lia].
Qed.

Lemma testbit_snoc_all w o i :
  octet o -> Z.testbit (w * 256 + o) i = if i <? 8 then Z.testbit o i else Z.testbit w (i - 8).
Proof.
  intros Ho. destruct (Z.ltb_spec i 0).
  - rewrite !Z.testbit_neg_r by lia. destruct (Z.ltb_spec i 8); [done|lia].
  - by apply testbit_snoc.
Qed.

Lemma ones_octet_bits i : 0 <= i < 8 -> Z.testbit 255 i = true.
Proof. intros. change 255 with (Z.ones 8). by apply Z.ones_spec_low. Qed.

Lemma smear_octet (b : bool) x : octet x -> octet (if b then 255 else x).
Proof. by destruct b. Qed.

Lemma smear_bit (b : bool) x i :
  0 <= i < 8 -> Z.testbit (if b then 255 else x) i = b || Z.testbit x i.
Proof. intros. destruct b; [by apply ones_octet_bits|done]. Qed.

Lemma be_snoc os o : be (os ++ [o]) = be os * 256 + o.
Proof. unfold be. by rewrite foldl_app. Qed.

(** Case analysis on the octet that bit [i] falls into. *)
Ltac octet_cases i :=
  repeat match goal with
  | |- context [?a <? ?b] => match a with context [i] => destruct (Z.ltb_spec a b); try lia end
  | |- context [?a <=? ?b] => match b with context [i] => destruct (Z.leb_spec a b); try lia end
  end.

Lemma read_3 s a b c :
  octet a -> octet b -> octet c ->
  u24 (Z.lor (Z.lor (u32 (Z.shiftl (char_u32 s a) 16)) (u32 (Z.shiftl (char_u32 s b) 8))) (char_u32 s c))
  = received_number s [a; b; c].
Proof.
  intros Ha Hb Hc. unfold received_number.
  set (a' := if s && ((128 <=? b) || (128 <=? c)) then 255 else a).
  set (b' := if s && (128 <=? c) then 255 else b).
  transitivity (((0 * 256 + a') * 256 + b') * 256 + c).
  - assert (octet a') by (by apply smear_octet). assert (octet b') by (by apply smear_octet).
    apply Z.bits_inj'. intros i Hi.
    rewrite testbit_wrap, !Z.lor_spec, !char_u32_shl_bits, char_u32_bits, !testbit_snoc_all by (done || lia).
    replace (i - 8 - 8) with (i - 16) by lia.
    octet_cases i; subst a' b'; rewrite ?Z.testbit_0_l, ?smear_bit by lia; cbn [andb orb]; rewrite ?orb_false_r; try done.
    all: by destruct s, (128 <=? b), (128 <=? c); cbn [andb orb]; rewrite ?orb_true_r, ?orb_false_r.
  - subst a' b'. destruct s; [|done]. cbn [andb smear existsb]. by rewrite !orb_false_r.
Qed.

Lemma read_4 s a b c d :
  octet a -> octet b -> octet c -> octet d ->
  Z.lor (Z.lor (Z.lor (u32 (Z.shiftl (char_u32 s a) 24)) (u32 (Z.shiftl (char_u32 s b) 16)))
           (u32 (Z.shiftl (char_u32 s c) 8))) (char_u32 s d)
  = received_number s [a; b; c; d].
Proof.
  intros Ha Hb Hc Hd. unfold received_number.
  set (a' := if s && ((128 <=? b) || ((128 <=? c) || (128 <=? d))) then 255 else a).
  set (b' := if s && ((128 <=? c) || (128 <=? d)) then 255 else b).
  set (c' := if s && (128 <=? d) then 255 else c).
  transitivity ((((0 * 256 + a') * 256 + b') * 256 + c') * 256 + d).
  - assert (octet a') by (by apply smear_octet). assert (octet b') by (by apply smear_octet).
    assert (octet c') by (by apply smear_octet).
    apply Z.bits_inj'. intros i Hi.
    rewrite !Z.lor_spec, !char_u32_shl_bits, char_u32_bits, !testbit_snoc_all by (done || lia).
    replace (i - 8 - 8 - 8) with (i - 24) by lia. replace (i - 8 - 8) with (i - 16) by lia.
    octet_cases i; subst a' b' c'; rewrite ?Z.testbit_0_l, ?smear_bit by lia; cbn [andb orb]; rewrite ?orb_false_r; try done.
    all: by destruct s, (128 <=? b), (128 <=? c), (128 <=? d); cbn [andb orb]; rewrite ?orb_true_r, ?orb_false_r.
  - subst a' b' c'. destruct s; [|done]. cbn [andb smear existsb]. by rewrite !orb_false_r.
Qed.

Lemma u8_shiftr n k : u8 (Z.shiftr n (8 * Z.of_nat k)) = n / 256 ^ Z.of_nat k mod 256.
Proof.
  rewrite Z.shiftr_div_pow2 by lia. unfold wrap. rewrite Z.pow_mul_r by lia. done.
Qed.

Lemma to_be_3 n : to_be 3 n = [u8 (Z.shiftr n 16); u8 (Z.shiftr n 8); u8 n].
Proof.
  rewrite (u8_shiftr n 2 : u8 (Z.shiftr n 16) = _), (u8_shiftr n 1 : u8 (Z.shiftr n 8) = _).
  unfold to_be. cbn [seq rev app map]. by rewrite Z.pow_0_r, Z.div_1_r.
Qed.

Lemma to_be_4 n : to_be 4 n = [u8 (Z.shiftr n 24); u8 (Z.shiftr n 16); u8 (Z.shiftr n 8); u8 n].
Proof.
  rewrite (u8_shiftr n 3 : u8 (Z.shiftr n 24) = _), (u8_shiftr n 2 : u8 (Z.shiftr n 16) = _),
    (u8_shiftr n 1 : u8 (Z.shiftr n 8) = _).
  unfold to_be. cbn [seq rev app map]. by rewrite Z.pow_0_r, Z.div_1_r.
Qed.

(** The octets make up the number again. *)
Lemma be_to_be k n : 0 <= n < 256 ^ Z.of_nat k -> be (to_be k n) = n.
Proof.
  revert n. induction k as [|k IH]; intros n Hn; [cbn in *; lia|].
  assert (to_be (S k) n = to_be k (n / 256) ++ [n mod 256]) as ->.
  { unfold to_be. cbn [seq rev]. rewrite map_app. cbn [map]. rewrite Z.pow_0_r, Z.div_1_r. f_equal.
    rewrite <- seq_shift, <- map_rev, map_map. apply map_ext. intros i.
    rewrite Nat2Z.inj_succ, Z.pow_succ_r, Z.div_div by lia. done. }
  rewrite Nat2Z.inj_succ, Z.pow_succ_r in Hn by lia. rewrite be_snoc, IH.
  - pose proof (Z.div_mod n 256). lia.
  - split; [apply Z.div_pos|apply Z.div_lt_upper_bound]; lia.
Qed.

Lemma to_be_octets k n : octets (to_be k n).
Proof. unfold to_be. apply Forall_map, Forall_forall. intros i _. apply (wrap_octet (n / 256 ^ Z.of_nat i)). Qed.

Lemma be_bound os : octets os -> 0 <= be os < 256 ^ zlen os.
Proof.
  induction os as [|o os IH] using rev_ind; intros Hos; [done|].
  apply Forall_app in Hos as [Hos Ho]. inversion Ho as [|? ? Hx _]; subst. specialize (IH Hos).
  rewrite be_snoc, zlen_app. change (zlen [o]) with 1. pose proof (zlen_nonneg os).
  rewrite Z.pow_add_r by lia. unfold octet in Hx. lia.
Qed.

Lemma smear_octets os : octets os -> octets (smear os).
Proof.
  induction 1 as [|o os Ho Hos IH]; simpl; [constructor|]. constructor; [by apply smear_octet|done].
Qed.

Lemma smear_length os : length (smear os) = length os.
Proof. induction os; simpl; auto. Qed.

(** A number has one list of octets of a length. *)
Lemma be_inj os : forall os', octets os -> octets os' -> length os = length os' -> be os = be os' -> os = os'.
Proof.
  induction os as [|o os IH] using rev_ind; intros os' Ho Ho' Hl Hb.
  - symmetry. apply nil_length_inv. by rewrite <- Hl.
  - destruct os' as [|o' os' _] using rev_ind; [rewrite length_app in Hl; cbn in Hl; lia|].
    apply Forall_app in Ho as [Ho Hx], Ho' as [Ho' Hx']. rewrite Forall_singleton in Hx; rewrite Forall_singleton in Hx'.
    rewrite !length_app in Hl. rewrite !be_snoc in Hb. unfold octet in *. cbn in Hl.
    assert (o = o' /\ be os = be os') as [-> Hb'] by lia. f_equal. apply IH; [done|done|lia|done].
Qed.

Lemma smear_extended os : smear os = os <-> extended os = true.
Proof.
  induction os as [|o os IH]; [done|]. cbn [smear extended]. rewrite andb_true_iff, <- IH.
  destruct (existsb _ os); cbn [negb orb].
  - rewrite Z.eqb_eq. split; [by intros [= <- ->]|by intros [-> ->]].
  - split; [by intros [= ->]|by intros [_ ->]].
Qed.

(** What is read is what was written exactly where [char] is unsigned or the
    octets are as a sign extension leaves them. *)
Lemma received_number_exact s k n :
  0 <= n < 256 ^ Z.of_nat k -> received_number s (to_be k n) = n <-> s = false \/ extended (to_be k n) = true.
Proof.
  intros Hn. unfold received_number. destruct s.
  - rewrite <- smear_extended. split; [intros Hb; right|intros [?|He]; [done|by rewrite He, be_to_be]].
    apply be_inj; [apply smear_octets, to_be_octets|apply to_be_octets|apply smear_length|by rewrite Hb, be_to_be].
  - rewrite be_to_be by done. split; [by left|done].
Qed.

(** The reserved bit and the stream id side by side. *)
Lemma stream_word h :
  header_ok h ->
  Z.lor (u32 (Z.shiftl (fh_reserved h) 31)) (fh_streamId h) = fh_reserved h * 2 ^ 31 + fh_streamId h.
Proof.
  intros [_ _ _ Hr Hs]. rewrite Z.shiftl_mul_pow2, wrap_small by lia. rewrite <- Z.add_nocarry_lor; [done|].
  apply Z.bits_inj'. intros i Hi. rewrite Z.land_spec, Z.bits_0. destruct (Z.ltb_spec i 31).
  - rewrite Z.mul_pow2_bits_low by lia. done.
  - rewrite (testbit_high 31 (fh_streamId h)) by lia. apply andb_false_r.
Qed.

Lemma frame_octets_wire h : header_ok h -> frame_octets h = header_wire h.
Proof.
  intros Hh. pose proof Hh as [Hl Ht Hf Hr Hs]. unfold frame_octets, header_wire, octet in *. rewrite stream_word by done.
  rewrite to_be_3, to_be_4, (wrap_small 8 (fh_type h)), (wrap_small 8 (fh_flags h)) by lia. done.
Qed.

Lemma frame_octets_octets h : octets (frame_octets h).
Proof. unfold frame_octets. repeat constructor; apply wrap_bound; lia. Qed.

Lemma char_octet s c : octet c -> u8 (char_value s c) = c.
Proof.
  intros Hc. unfold octet in Hc. destruct s; cbn [char_value]; [|by rewrite wrap_small by lia].
  unfold swrap, wrap. change (2 ^ (8 - 1)) with 128. change (2 ^ 8) with 256.
  rewrite Zminus_mod, Z.mod_mod, <- Zminus_mod by lia. replace (c + 128 - 128) with c by lia. by apply Z.mod_small.
Qed.

Lemma sb_get b q rest i :
  sb_ok b -> content b = q ++ rest -> 0 <= i < zlen q -> (buf_ b).[i] = q.[i].
Proof.
  intros Hb Hc Hi. destruct (content_rest b Hb) as (tl & -> & _). rewrite Hc, <- (assoc_L (++)).
  unfold arr_get. destruct (Z.ltb_spec i 0); [done|]. rewrite lookup_app_l; [done|]. unfold zlen in Hi. lia.
Qed.

Lemma readFrameHeader_wire s b h rest :
  sb_ok b -> header_ok h -> content b = header_wire h ++ rest ->
  exists b', readFrameHeader s b = Ret (received s h, b') /\ sb_ok b' /\ content b' = rest /\
    in_use_ b' = in_use_ b - 9.
Proof.
  intros Hb Hh Hc. pose proof (zlen_content b Hb) as Hz. rewrite Hc, zlen_app in Hz.
  change (zlen (header_wire h)) with 9 in Hz. pose proof (zlen_nonneg rest).
  unfold readFrameHeader, sb_size, FrameHeader_SIZE. destruct (Z.ltb_spec (in_use_ b) 9); [lia|].
  destruct (sb_advance_ok b 9 Hb) as (b' & Hadv & Hb' & Hc' & Hi'); [lia|].
  rewrite !(sb_get b (header_wire h) rest) by (done || (change (zlen (header_wire h)) with 9; lia)).
  unfold header_wire. rewrite to_be_3, to_be_4. cbn [app].
  arr_gets. rewrite read_3, read_4 by apply wrap_octet. rewrite Hadv. cbn [mbind outcome_bind].
  exists b'. split; [|split; [done|split; [|done]]].
  - destruct Hh as [_ Ht Hf _ _]. rewrite !char_octet by done. unfold received. rewrite to_be_3, to_be_4.
    repeat match goal with |- context [received_number s ?l] => generalize (received_number s l); intros ? end.
    rewrite Z.shiftr_div_pow2 by lia. replace 0x7fffffff with (Z.ones 31) by done.
    rewrite Z.land_ones by lia. unfold wrap. by rewrite Z.mod_mod.
  - rewrite Hc', Hc. apply drop_app_length'. done.
Qed.

Lemma received_exact s h : header_ok h -> received s h = h <-> s = false \/ clean h = true.
Proof.
  intros [Hl Ht Hf Hr Hs]. unfold clean. rewrite andb_true_iff.
  pose proof (received_number_exact s 3 (fh_length h) Hl) as H3.
  pose proof (received_number_exact s 4 (fh_reserved h * 2 ^ 31 + fh_streamId h) ltac:(simpl; lia)) as H4.
  assert (received s h = h <-> received_number s (to_be 3 (fh_length h)) = fh_length h /\
    received_number s (to_be 4 (fh_reserved h * 2 ^ 31 + fh_streamId h)) = fh_reserved h * 2 ^ 31 + fh_streamId h) as ->; [|tauto].
  unfold received. set (n := received_number s (to_be 4 _)). set (m := received_number s (to_be 3 _)).
  pose proof (Z.div_mod n (2 ^ 31) ltac:(lia)) as Hdm. clear H3 H4. split.
  - intros Heq. rewrite <- Heq. cbn [fh_length fh_reserved fh_streamId]. split; [done|]. lia.
  - intros [-> ->]. rewrite Z.div_add_l, Z.div_small, Z.add_0_r by lia.
    rewrite Z.add_comm, Z.mod_add, Z.mod_small by lia. by destruct h.
Qed.

Lemma received_clean s h : header_ok h -> s = false \/ clean h = true -> received s h = h.
Proof. intros Hh. by apply received_exact. Qed.

(** C24: frame headers.  [writeTo] appends the nine octets of RFC 7540 section
    4.1.  [readFrameHeader] takes nine octets off the buffer, and what it makes
    of the octets of a header ([received]) is that header exactly when [char] is
    unsigned or, in the length and in the word of the stream id, every octet above
    one of 128 or more is 255 already: where [char] is signed, an octet of 128 or
    more turns all those above it into 255. *)
Theorem frame_header_roundtrip s h p t b rest :
  header_ok h -> payload_ok p -> sb_ok t -> in_use_ t + len_ p + 9 <= SSIZE_MAX ->
  sb_ok b -> content b = header_wire h ++ rest ->
  (exists p' t', FrameHeader_writeTo h p t = Ret (p', t') /\ pending p' t' = pending p t ++ header_wire h) /\
  (exists b', readFrameHeader s b = Ret (received s h, b') /\ content b' = rest) /\
  (received s h = h <-> s = false \/ clean h = true).
Proof.
  intros Hh Hp Ht Hm Hb Hc. split; [|split].
  - destruct (payload_write_ok p t (frame_octets h) Hp Ht (frame_octets_octets h)) as (p' & t' & ? & _ & _ & Hpe & _); [done|].
    exists p', t'. split; [done|]. by rewrite Hpe, frame_octets_wire.
  - destruct (readFrameHeader_wire s b h rest Hb Hh Hc) as (b' & ? & _ & ? & _). by exists b'.
  - by apply received_exact.
Qed.

(** A header of 200 octets of payload on stream 1, where [char] is signed: the
    length is read as 16777160.  The greatest length is read as it was written. *)
Definition header_200 : FrameHeader := mk_FrameHeader 200 HEADERS 4 0 1.

Example greatest_length : clean (mk_FrameHeader 0xffffff DATA 0 0 1) = true.
Proof. vm_compute. reflexivity. Qed.

Lemma frame_header_roundtrip_witness :
  let b := mk_StreamBuf 11 (header_wire header_200 ++ [7; 8]) in
  fh_length (received true header_200) = 16777160 /\
  (exists p' t', FrameHeader_writeTo header_200 (mk_Payload 0 (replicate 1440 0)) empty_StreamBuf = Ret (p', t') /\
     pending p' t' = pending (mk_Payload 0 (replicate 1440 0)) empty_StreamBuf ++ header_wire header_200) /\
  (exists b', readFrameHeader true b = Ret (received true header_200, b') /\ content b' = [7; 8]) /\
  (received true header_200 = header_200 <-> true = false \/ clean header_200 = true).
Proof.
  split; [vm_compute; reflexivity|].
  apply (frame_header_roundtrip true header_200 (mk_Payload 0 (replicate 1440 0)) empty_StreamBuf
           (mk_StreamBuf 11 (header_wire header_200 ++ [7; 8])) [7; 8]).
  - split; vm_compute; split; congruence.
  - split; [reflexivity|cbn; unfold capacity_; lia|apply Forall_replicate; unfold octet; lia].
  - split; [vm_compute; split; congruence|constructor].
  - vm_compute. congruence.
  - split; [vm_compute; split; congruence|apply (bool_decide_unpack _); exact I].
  - vm_compute. reflexivity.
Defined.

(** the frame that the [HeadersFrame] setters build and [writeTo] writes: the
    length in its header is the number of octets that follow it and the flags say
    END_HEADERS, and PADDED when there is padding.  The Pad Length octet that
    RFC 7540 section 6.2 puts before the fragment of a padded frame is missing. *)
Theorem headers_frame_wire streamId fragment padding p t :
  0 <= streamId < 2 ^ 31 -> octets fragment -> octets padding ->
  zlen fragment + zlen padding < 2 ^ 24 ->
  payload_ok p -> sb_ok t -> in_use_ t + len_ p < 2 ^ 60 ->
  let f := setPadding (setHeaderBlockFragment (new_HeadersFrame streamId) fragment) padding in
  exists p' t',
    HeadersFrame_writeTo f p t = Ret (p', t') /\
    pending p' t' = pending p t
      ++ header_wire (mk_FrameHeader (zlen fragment + zlen padding) HEADERS
                        (if bool_decide (padding = []) then 4 else 12) 0 streamId)
      ++ fragment ++ padding.
Proof.
  intros Hid Hfr Hpad Hlen Hp Ht Hm f. pose proof (zlen_nonneg fragment). pose proof (zlen_nonneg padding).
  assert (frameHeader_ f = mk_FrameHeader (zlen fragment + zlen padding) HEADERS
            (if bool_decide (padding = []) then 4 else 12) 0 streamId) as Hf.
  { unfold f, setPadding, setHeaderBlockFragment, new_HeadersFrame, setEndHeaders, setIsPadded, with_frameHeader,
      set_length, set_flag, set_streamId, HeadersFrame_length. cbn.
    rewrite (wrap_small 32), (wrap_small 24), (wrap_small 31) by lia. f_equal.
    destruct padding as [|x l]; [done|]. rewrite zlen_cons. pose proof (zlen_nonneg l).
    destruct (Z.eqb_spec (1 + zlen l) 0); [lia|done]. }
  assert (header_ok (frameHeader_ f)) as Hok.
  { rewrite Hf. split; cbn [fh_length fh_type fh_flags fh_reserved fh_streamId]; [lia| | |lia|lia].
    - vm_compute. split; congruence.
    - case_bool_decide; unfold octet; lia. }
  unfold HeadersFrame_writeTo, FrameHeader_writeTo.
  destruct (payload_write_ok p t (frame_octets (frameHeader_ f)) Hp Ht (frame_octets_octets _))
    as (p1 & t1 & -> & Hp1 & Ht1 & Hc1 & Hs1 & _); [change (zlen (frame_octets _)) with 9; unfold SSIZE_MAX; lia|].
  change (zlen (frame_octets _)) with 9 in Hs1. cbn [mbind outcome_bind].
  change (headerBlockFragment_ f) with fragment. change (padding_ f) with padding.
  destruct (payload_write_ok p1 t1 fragment Hp1 Ht1 Hfr) as (p2 & t2 & -> & Hp2 & Ht2 & Hc2 & Hs2 & _); [unfold SSIZE_MAX; lia|].
  cbn [mbind outcome_bind].
  destruct (payload_write_ok p2 t2 padding Hp2 Ht2 Hpad) as (p3 & t3 & -> & Hp3 & Ht3 & Hc3 & _); [unfold SSIZE_MAX; lia|].
  exists p3, t3. split; [done|]. rewrite Hc3, Hc2, Hc1, frame_octets_wire, Hf by done. by rewrite <- !(assoc_L (++)).
Qed.

Lemma headers_frame_wire_witness :
  let p := mk_Payload 0 (replicate 1440 0) in
  let f := setPadding (setHeaderBlockFragment (new_HeadersFrame 1) [0x88]) [0; 0] in
  exists p' t',
    HeadersFrame_writeTo f p empty_StreamBuf = Ret (p', t') /\
    pending p' t' = pending p empty_StreamBuf
      ++ header_wire (mk_FrameHeader (zlen [0x88] + zlen [0; 0]) HEADERS
                        (if bool_decide ([0; 0] = []) then 4 else 12) 0 1)
      ++ [0x88] ++ [0; 0].
Proof.
  apply (headers_frame_wire 1 [0x88] [0; 0] (mk_Payload 0 (replicate 1440 0)) empty_StreamBuf).
  - lia.
  - apply (bool_decide_unpack _). exact I.
  - apply (bool_decide_unpack _). exact I.
  - vm_compute. reflexivity.
  - split; [reflexivity|cbn; unfold capacity_; lia|apply Forall_replicate; unfold octet; lia].
  - split; [vm_compute; split; congruence|constructor].
  - vm_compute. reflexivity.
Defined.
