(* ===== verification/Settings.v ===== *)
(** HTTP/2 settings and flow control: [http2/Settings.h], [Settings.cpp] and
    [FlowControl.h].  The octets of a setting are read through plain [char]
    as those of a frame header are (see [Frame]). *)
From S2P Require Import Prelude StreamBuf HuffCode BitBuf Frame.

(** [enum Settings::Name : uint16_t] *)
Definition HeaderTableSize : Z := 0x01.
Definition EnablePush : Z := 0x02.
Definition MaxConcurrentStreams : Z := 0x03.
Definition InitialWindowSize : Z := 0x04.
Definition MaxFrameSize : Z := 0x05.
Definition MaxHeaderListSize : Z := 0x06.
Definition First_ : Z := 0x01.
Definition Last_ : Z := 0x06.

Definition serializedSize : Z := (Last_ - First_ + 1) * 6.

(** [struct Settings]: the array [values_]. *)
Abbreviation Settings := (list Z).

Definition default_Settings : Settings := [4096; 1; UINT32_MAX; 65535; 16384; UINT32_MAX].

Definition Settings_value (s : Settings) (name : Z) : outcome Z := s.[name - First_].
Definition Settings_set (s : Settings) (name value : Z) : outcome Settings := s.[name - First_ := value].

(** The loop of [createFromBuffer]; the size of [buf] is a multiple of six. *)
Fixpoint settings_loop (char_signed : bool) (buf : list Z) (settings : Settings) : outcome Settings :=
  match buf with
  | c0 :: c1 :: c2 :: c3 :: c4 :: c5 :: buf =>
      let u := char_u32 char_signed in
      let id := u16 (Z.lor (Z.shiftl (u16 (char_value char_signed c0)) 8) (u16 (char_value char_signed c1))) in
      if (id <? First_) || (Last_ <? id) then settings_loop char_signed buf settings
      else
        let value :=
          Z.lor (Z.lor (Z.lor (u32 (Z.shiftl (u c2) 24)) (u32 (Z.shiftl (u c3) 16)))
                   (u32 (Z.shiftl (u c4) 8))) (u c5) in
        settings ← Settings_set settings id value;
        settings_loop char_signed buf settings
  | _ => Ret settings
  end.

Definition createFromBuffer (char_signed : bool) (buf : list Z) : outcome Settings :=
  if negb (zlen buf mod 6 =? 0) then
    Throw (runtime_error "malformed SETTINGS: size not a multiple of 6")
  else settings_loop char_signed buf default_Settings.

(** The octets of [htons(n)] and [htonl(n)] in memory. *)
Definition net16 (n : Z) : list Z := to_be 2 n.
Definition net32 (n : Z) : list Z := to_be 4 n.

(** The loop of [writeTo] with [n] settings to go. *)
Fixpoint settings_write_loop (n : nat) (i : Z) (s : Settings) (p : Payload) (t : StreamBuf)
    : outcome (Payload * StreamBuf) :=
  match n with
  | O => Ret (p, t)
  | S n =>
      v ← s.[i];
      '(p, t) ← payload_write p t (net16 (u16 (First_ + i)));
      '(p, t) ← payload_write p t (net32 v);
      settings_write_loop n (i + 1) s p t
  end.

Definition Settings_writeTo (s : Settings) (p : Payload) (t : StreamBuf) : outcome (Payload * StreamBuf) :=
  settings_write_loop (Z.to_nat (Last_ - First_ + 1)) 0 s p t.

(** ** Flow control *)

Definition wouldAddOverflow (first second : Z) : bool := INT32_MAX - first <? second.

(** Both arguments are [int32_t]. *)
Definition addWindowSize (existingWindowSize add : Z) : outcome Z :=
  if add <? 1 then Throw (runtime_error "invalid window update")
  else if existingWindowSize <? 0 then Ret (existingWindowSize + add)
  else if wouldAddOverflow existingWindowSize add then Throw (runtime_error "window size overflow")
  else Ret (existingWindowSize + add).

(** ** Specification *)

(** A setting on the wire, and its effect where it is received. *)
Definition setting_wire (kv : Z * Z) : list Z := to_be 2 (fst kv) ++ to_be 4 (snd kv).

Definition setting_ok (kv : Z * Z) : Prop := 0 <= fst kv < 2 ^ 16 /\ 0 <= snd kv < 2 ^ 32.

Definition apply_setting (char_signed : bool) (s : Settings) (kv : Z * Z) : Settings :=
  let id := received_number char_signed (to_be 2 (fst kv)) in
  let value := received_number char_signed (to_be 4 (snd kv)) in
  if (1 <=? id) && (id <=? 6) then <[Z.to_nat (id - 1) := value]> s else s.

(** The settings in force, by RFC 7540 section 6.5: the last value of each. *)
Definition apply_setting_spec (s : Settings) (kv : Z * Z) : Settings :=
  if (1 <=? fst kv) && (fst kv <=? 6) then <[Z.to_nat (fst kv - 1) := snd kv]> s else s.

Definition clean_setting (kv : Z * Z) : bool :=
  extended (to_be 2 (fst kv)) && extended (to_be 4 (snd kv)).

Record settings_ok (s : Settings) : Prop := mk_settings_ok {
  so_length : length s = 6%nat;
  so_values : Forall (fun v => 0 <= v < 2 ^ 32) s
}.

Lemma wrap_16_32 x : u16 (u32 x) = u16 x.
Proof.
  apply Z.bits_inj'. intros i Hi. rewrite !testbit_wrap by lia.
  destruct (Z.ltb_spec i 16), (Z.ltb_spec i 32); try lia; done.
Qed.

Lemma char_u16_bits s c i :
  octet c -> 0 <= i ->
  Z.testbit (u16 (char_value s c)) i
  = (i <? 16) && (if i <? 8 then Z.testbit c i else s && (128 <=? c)).
Proof.
  intros Hc Hi. rewrite <- wrap_16_32, testbit_wrap by lia. fold (char_u32 s c). rewrite char_u32_bits by done.
  destruct (Z.ltb_spec i 16), (Z.ltb_spec i 8), (Z.ltb_spec i 32); try lia; done.
Qed.

Lemma read_2 s a b :
  octet a -> octet b ->
  u16 (Z.lor (Z.shiftl (u16 (char_value s a)) 8) (u16 (char_value s b))) = received_number s [a; b].
Proof.
  intros Ha Hb. unfold received_number. set (a' := if s && (128 <=? b) then 255 else a).
  transitivity ((0 * 256 + a') * 256 + b).
  - assert (octet a') by (by apply smear_octet). apply Z.bits_inj'. intros i Hi.
    rewrite testbit_wrap, Z.lor_spec, testbit_shl, !testbit_snoc_all, (char_u16_bits s b) by (done || lia).
    destruct (Z.leb_spec 8 i); cbn [andb].
    + rewrite char_u16_bits by (done || lia). octet_cases i; subst a';
        rewrite ?Z.testbit_0_l, ?smear_bit by lia; cbn [andb orb]; rewrite ?orb_false_r; try done.
      by destruct s, (128 <=? b); cbn [andb orb]; rewrite ?orb_true_r, ?orb_false_r.
    + octet_cases i; rewrite ?andb_true_r; cbn [andb orb]; done.
  - subst a'. destruct s; [|done]. cbn [andb smear existsb]. by rewrite orb_false_r.
Qed.

Lemma to_be_2 n : to_be 2 n = [n / 256 mod 256; n mod 256].
Proof. unfold to_be. cbn [seq rev app map]. by rewrite Z.pow_0_r, Z.div_1_r. Qed.

Lemma received_bound s os : octets os -> 0 <= received_number s os < 256 ^ zlen os.
Proof.
  intros Hos. unfold received_number. destruct s; [|by apply be_bound].
  replace (zlen os) with (zlen (smear os)) by (unfold zlen; by rewrite smear_length).
  by apply be_bound, smear_octets.
Qed.

Lemma received_clean_number s k n :
  0 <= n < 256 ^ Z.of_nat k -> s = false \/ extended (to_be k n) = true ->
  received_number s (to_be k n) = n.
Proof. intros Hn Hs. by apply received_number_exact. Qed.

Lemma apply_setting_ok s kv st : settings_ok st -> settings_ok (apply_setting s st kv).
Proof.
  intros [Hl Hv]. unfold apply_setting. destruct (_ && _); [|by split].
  split; [by rewrite length_insert|]. apply Forall_insert; [done|].
  apply (received_bound s (to_be 4 (snd kv)) (to_be_octets 4 _)).
Qed.

Lemma settings_loop_wire s kvs st :
  settings_ok st ->
  settings_loop s (concat (map setting_wire kvs)) st = Ret (foldl (apply_setting s) st kvs).
Proof.
  revert st. induction kvs as [|[k v] kvs IH]; intros st Hst; [done|].
  cbn [map concat foldl]. rewrite <- (IH (apply_setting s st (k, v))) by by apply apply_setting_ok.
  unfold setting_wire at 1, apply_setting. cbn [fst snd]. rewrite to_be_2, to_be_4. cbn [app].
  set (rest := concat (map setting_wire kvs)). cbn [settings_loop].
  rewrite read_2 by apply wrap_octet. rewrite read_4 by apply wrap_octet.
  set (id := received_number s [_; _]). set (value := received_number s [_; _; _; _]).
  unfold First_, Last_.
  destruct (Z.ltb_spec id 1), (Z.leb_spec 1 id), (Z.leb_spec id 6), (Z.ltb_spec 6 id); cbn [andb orb]; try lia; try done.
  unfold Settings_set, First_. rewrite arr_set_in; [done|]. destruct Hst as [Hl _]. unfold zlen. lia.
Qed.

Lemma default_settings_ok : settings_ok default_Settings.
Proof. split; [done|]. unfold default_Settings, UINT32_MAX. repeat constructor; lia. Qed.

Lemma zlen_settings_wire kvs : zlen (concat (map setting_wire kvs)) = 6 * zlen kvs.
Proof.
  induction kvs as [|kv kvs IH]; [done|]. cbn [map concat]. rewrite zlen_app, zlen_cons, IH.
  change (zlen (setting_wire kv)) with 6. lia.
Qed.

Lemma createFromBuffer_wire s kvs :
  createFromBuffer s (concat (map setting_wire kvs)) = Ret (foldl (apply_setting s) default_Settings kvs).
Proof.
  unfold createFromBuffer. rewrite zlen_settings_wire, Z.mul_comm, Z.mod_mul by lia.
  apply settings_loop_wire, default_settings_ok.
Qed.

Lemma apply_setting_clean s st kv :
  setting_ok kv -> s = false \/ clean_setting kv = true -> apply_setting s st kv = apply_setting_spec st kv.
Proof.
  intros [Hk Hv] Hs. unfold apply_setting, apply_setting_spec.
  rewrite !received_clean_number; [done|simpl; lia| |simpl; lia|];
    (destruct Hs as [|Hs]; [by left|right]); unfold clean_setting in Hs; apply andb_true_iff in Hs; tauto.
Qed.

(** Six settings written out, one by one. *)
Lemma settings_write_loop_ok n i s p t :
  settings_ok s -> payload_ok p -> sb_ok t -> 0 <= i -> i + Z.of_nat n = 6 ->
  in_use_ t + len_ p + 6 * Z.of_nat n < 2 ^ 60 ->
  exists p' t', settings_write_loop n i s p t = Ret (p', t') /\ payload_ok p' /\ sb_ok t' /\
    pending p' t' = pending p t
      ++ concat (map setting_wire (zip (seqZ (i + 1) (Z.of_nat n)) (drop (Z.to_nat i) s))).
Proof.
  intros Hs. revert i p t. induction n as [|n IH]; intros i p t Hp Ht Hi Hn Hm.
  { exists p, t. cbn. rewrite app_nil_r. by repeat (split; [done|]). }
  cbn [settings_write_loop]. pose proof Hs as [Hl Hv].
  destruct (arr_get_in s i) as (v & -> & Hlk); [unfold zlen; lia|]. cbn [mbind outcome_bind].
  destruct (payload_write_ok p t (net16 (u16 (First_ + i))) Hp Ht (to_be_octets 2 _))
    as (p1 & t1 & -> & Hp1 & Ht1 & Hc1 & Hs1 & _); [change (zlen (net16 _)) with 2; unfold SSIZE_MAX; lia|].
  change (zlen (net16 _)) with 2 in Hs1. cbn [mbind outcome_bind].
  destruct (payload_write_ok p1 t1 (net32 v) Hp1 Ht1 (to_be_octets 4 _))
    as (p2 & t2 & -> & Hp2 & Ht2 & Hc2 & Hs2 & _); [change (zlen (net32 _)) with 4; unfold SSIZE_MAX; lia|].
  change (zlen (net32 _)) with 4 in Hs2. cbn [mbind outcome_bind].
  destruct (IH (i + 1) p2 t2 Hp2 Ht2) as (p3 & t3 & -> & Hp3 & Ht3 & Hc3); [lia|lia|lia|].
  exists p3, t3. split; [done|]. split; [done|]. split; [done|].
  rewrite Hc3, Hc2, Hc1, (drop_S _ _ _ Hlk), <- !(assoc_L (++)). f_equal.
  rewrite (seqZ_cons (i + 1)) by lia. cbn [zip_with map concat]. unfold setting_wire at 2. cbn [fst snd].
  unfold net16, net32, First_. rewrite wrap_small by lia. rewrite (Z.add_comm 1 i), <- (assoc_L (++)).
  replace (Z.to_nat (i + 1)) with (S (Z.to_nat i)) by lia.
  replace (Z.pred (Z.of_nat (S n))) with (Z.of_nat n) by lia. by replace (Z.succ (i + 1)) with (i + 1 + 1) by lia.
Qed.

(** C25: [Settings::createFromBuffer] on any sequence of settings: the last value of
    each known identifier counts, unknown identifiers are skipped, the rest keep
    their defaults ([apply_setting_spec]), when [char] is unsigned or every octet
    above one of 128 or more in an identifier or value is 255 already; otherwise
    the sign of that octet overwrites those above it.  A buffer whose size is not a
    multiple of six is refused. *)
Theorem createFromBuffer_correct s kvs buf :
  Forall setting_ok kvs ->
  createFromBuffer s (concat (map setting_wire kvs)) = Ret (foldl (apply_setting s) default_Settings kvs) /\
  (s = false \/ forallb clean_setting kvs = true ->
   foldl (apply_setting s) default_Settings kvs = foldl apply_setting_spec default_Settings kvs) /\
  (zlen buf mod 6 <> 0 ->
   createFromBuffer s buf = Throw (runtime_error "malformed SETTINGS: size not a multiple of 6")).
Proof.
  intros Hok. split; [apply createFromBuffer_wire|]. split.
  - intros Hs. generalize default_Settings. induction Hok as [|kv kvs Hkv Hok IH]; intros st; [done|].
    cbn [foldl]. rewrite apply_setting_clean; [apply IH|done|];
      (destruct Hs as [|Hs]; [by left|right]); cbn [forallb] in Hs; apply andb_true_iff in Hs; tauto.
  - intros Hb. unfold createFromBuffer. destruct (Z.eqb_spec (zlen buf mod 6) 0); [done|done].
Qed.

(** INITIAL_WINDOW_SIZE = 65535, its default, is read as 4294967295 where [char]
    is signed. *)
Lemma createFromBuffer_correct_witness :
  foldl (apply_setting true) default_Settings [(4, 65535)]
  = [4096; 1; UINT32_MAX; 4294967295; 16384; UINT32_MAX] /\
  createFromBuffer true (concat (map setting_wire [(4, 65535)]))
  = Ret (foldl (apply_setting true) default_Settings [(4, 65535)]) /\
  (true = false \/ forallb clean_setting [(4, 65535)] = true ->
   foldl (apply_setting true) default_Settings [(4, 65535)]
   = foldl apply_setting_spec default_Settings [(4, 65535)]) /\
  (zlen [0] mod 6 <> 0 ->
   createFromBuffer true [0] = Throw (runtime_error "malformed SETTINGS: size not a multiple of 6")).
Proof.
  split; [vm_compute; reflexivity|].
  apply (createFromBuffer_correct true [(4, 65535)] [0]). repeat constructor; simpl; lia.
Defined.

(** [Settings::writeTo] writes all six settings in order, and reading them back
    gives the settings that were written, where [char] is unsigned. *)
Theorem settings_roundtrip st p t :
  settings_ok st -> payload_ok p -> sb_ok t -> in_use_ t + len_ p < 2 ^ 59 ->
  exists p' t' wire,
    Settings_writeTo st p t = Ret (p', t') /\
    pending p' t' = pending p t ++ wire /\ zlen wire = serializedSize /\
    createFromBuffer false wire = Ret st.
Proof.
  intros Hst Hp Ht Hm.
  destruct (settings_write_loop_ok 6 0 st p t Hst Hp Ht) as (p' & t' & Hw & _ & _ & Hc); [lia|lia|simpl; lia|].
  exists p', t', (concat (map setting_wire (zip (seqZ 1 6) st))). split; [exact Hw|]. split; [exact Hc|].
  destruct Hst as [Hl Hv].
  destruct st as [|a [|b [|c [|d [|e [|f [|]]]]]]]; try discriminate Hl.
  split; [done|]. rewrite createFromBuffer_wire. f_equal.
  rewrite !Forall_cons in Hv. destruct Hv as (Ha & Hb & Hc' & Hd & He & Hf & _).
  change (zip (seqZ 1 6) [a; b; c; d; e; f]) with [(1, a); (2, b); (3, c); (4, d); (5, e); (6, f)].
  cbn [foldl]. rewrite !apply_setting_clean by (first [split; cbn [fst snd]; lia | by left]). done.
Qed.

Lemma settings_roundtrip_witness :
  exists p' t' wire,
    Settings_writeTo default_Settings (mk_Payload 0 (replicate 1440 0)) empty_StreamBuf = Ret (p', t') /\
    pending p' t' = pending (mk_Payload 0 (replicate 1440 0)) empty_StreamBuf ++ wire /\
    zlen wire = serializedSize /\
    createFromBuffer false wire = Ret default_Settings.
Proof.
  apply (settings_roundtrip default_Settings (mk_Payload 0 (replicate 1440 0)) empty_StreamBuf).
  - split; [reflexivity|unfold default_Settings, UINT32_MAX; repeat constructor; lia].
  - split; [reflexivity|cbn; unfold capacity_; lia|apply Forall_replicate; unfold octet; lia].
  - split; [vm_compute; split; congruence|constructor].
  - vm_compute. reflexivity.
Defined.

(** C26: [addWindowSize] on [int32_t] arguments: it refuses an increment below one
    and a sum above 2^31 - 1, and otherwise returns the sum, which is an
    [int32_t]: the addition never overflows. *)
Theorem addWindowSize_correct w n :
  INT32_MIN <= w <= INT32_MAX -> INT32_MIN <= n <= INT32_MAX ->
  match addWindowSize w n with
  | Ret r => r = w + n /\ 1 <= n /\ INT32_MIN <= r <= INT32_MAX
  | Throw e => e = runtime_error (if n <? 1 then "invalid window update" else "window size overflow") /\
               (n < 1 \/ INT32_MAX < w + n)
  | Undef _ => False
  end.
Proof.
  unfold INT32_MIN, INT32_MAX, addWindowSize, wouldAddOverflow. intros Hw Hn.
  destruct (Z.ltb_spec n 1); [split; [done|by left]|].
  destruct (Z.ltb_spec w 0); [lia|]. unfold INT32_MAX.
  destruct (Z.ltb_spec (2 ^ 31 - 1 - w) n); [split; [done|right; lia]|lia].
Qed.

Lemma addWindowSize_correct_witness :
  addWindowSize 65535 INT32_MAX = Throw (runtime_error "window size overflow") /\
  match addWindowSize (-5) 7 with
  | Ret r => r = -5 + 7 /\ 1 <= 7 /\ INT32_MIN <= r <= INT32_MAX
  | Throw e => e = runtime_error (if 7 <? 1 then "invalid window update" else "window size overflow") /\
               (7 < 1 \/ INT32_MAX < -5 + 7)
  | Undef _ => False
  end.
Proof.
  split; [reflexivity|].
  apply (addWindowSize_correct (-5) 7); unfold INT32_MIN, INT32_MAX; lia.
Defined.
