(* ===== verification/OldSettings.v ===== *)
(** The settings that are not built any more: [settings.h], [settings.cpp] (their
    lines of [CMakeLists.txt] are comments). *)
From S2P Require Import Prelude.

(** [enum Setting] *)
Definition HEADER_TABLE_SIZE : Z := 0x1.
Definition ENABLE_PUSH : Z := 0x2.
Definition MAX_CONCURRENT_STREAMS : Z := 0x3.
Definition INITIAL_WINDOW_SIZE : Z := 0x4.
Definition MAX_FRAME_SIZE : Z := 0x5.
Definition MAX_HEADER_LIST_SIZE : Z := 0x6.

(** [enum ErrorCode] of [Error.h]: what [validate] returns, and [set] throws. *)
Inductive ErrorCode :=
  | NO_ERROR | PROTOCOL_ERROR | INTERNAL_ERROR | FLOW_CONTROL_ERROR | SETTINGS_TIMEOUT | STREAM_CLOSED
  | FRAME_SIZE_ERROR | REFUSED_STREAM | CANCEL | COMPRESSION_ERROR | CONNECT_ERROR | ENHANCE_YOUR_CALM
  | INADEQUATE_SECURITY | HTTP_1_1_REQUIRED.

#[export] Instance ErrorCode_eq_dec : EqDecision ErrorCode.
Proof. solve_decision. Defined.

Definition ErrorCode_value (e : ErrorCode) : Z :=
  match e with
  | NO_ERROR => 0x0 | PROTOCOL_ERROR => 0x1 | INTERNAL_ERROR => 0x2 | FLOW_CONTROL_ERROR => 0x3
  | SETTINGS_TIMEOUT => 0x4 | STREAM_CLOSED => 0x5 | FRAME_SIZE_ERROR => 0x6 | REFUSED_STREAM => 0x7
  | CANCEL => 0x8 | COMPRESSION_ERROR => 0x9 | CONNECT_ERROR => 0xa | ENHANCE_YOUR_CALM => 0xb
  | INADEQUATE_SECURITY => 0xc | HTTP_1_1_REQUIRED => 0xd
  end.

(** Different codes have different values, as what a RST_STREAM or GOAWAY frame
    carries must. *)
#[export] Instance ErrorCode_value_inj : Inj (=) (=) ErrorCode_value.
Proof. by intros [] []. Qed.

(** [values_] *)
Abbreviation values := (list Z).
Definition initial_values : values := [4096; 1; UINT32_MAX; 65535; 16384; UINT32_MAX].

Definition validate (setting value : Z) : outcome ErrorCode :=
  if (value =? 0) || (zlen initial_values <? value) then Ret NO_ERROR
  else if setting =? HEADER_TABLE_SIZE then Ret NO_ERROR
  else if setting =? ENABLE_PUSH then Ret (if (value =? 1) || (value =? 0) then NO_ERROR else PROTOCOL_ERROR)
  else if setting =? MAX_CONCURRENT_STREAMS then Ret NO_ERROR
  else if setting =? INITIAL_WINDOW_SIZE then Ret (if value <? 2 ^ 31 - 1 then NO_ERROR else FLOW_CONTROL_ERROR)
  else if setting =? MAX_FRAME_SIZE then
    Ret (if (Z.shiftl 1 14 <=? value) || (value <=? Z.shiftl 1 24 - 1) then NO_ERROR else PROTOCOL_ERROR)
  else if setting =? MAX_HEADER_LIST_SIZE then Ret NO_ERROR
  else Throw (logic_error "Unrecognized setting not ignored").

(** [throw e] of an [ErrorCode] is the left component. *)
Definition old_set (setting value : Z) (values_ : values) : outcome (ErrorCode + values) :=
  e ← validate setting value;
  if bool_decide (e <> NO_ERROR) then Ret (inl e)
  else if (setting <? 1) || (zlen values_ <? setting) then Ret (inr values_)
  else v ← values_.[setting - 1 := value]; Ret (inr v).

Definition old_get (setting : Z) (values_ : values) : outcome Z := values_.[setting].

(** What RFC 7540 6.5.2 refuses, and with what. *)
Definition refused (setting value : Z) : option ErrorCode :=
  if (setting =? 2) && (1 <? value) then Some PROTOCOL_ERROR
  else if (setting =? 4) && (2 ^ 31 - 1 <? value) then Some FLOW_CONTROL_ERROR
  else if (setting =? 5) && ((value <? 2 ^ 14) || (2 ^ 24 - 1 <? value)) then Some PROTOCOL_ERROR
  else None.

Lemma validate_cases setting value :
  0 <= setting -> 0 <= value ->
  validate setting value =
    if (1 <=? value) && (value <=? 6) && ((setting =? 2) && (1 <? value)) then Ret PROTOCOL_ERROR
    else if (1 <=? value) && (value <=? 6) && ((setting <? 1) || (6 <? setting))
    then Throw (logic_error "Unrecognized setting not ignored")
    else Ret NO_ERROR.
Proof.
  intros Hs Hv. unfold validate. change (zlen initial_values) with 6.
  destruct (Z.eqb_spec value 0) as [->|H0]; [done|]. destruct (Z.ltb_spec 6 value) as [H6|H6]; cbn [orb].
  { assert (value <=? 6 = false) as -> by lia. by rewrite !andb_false_r. }
  assert (1 <=? value = true) as -> by lia. assert (value <=? 6 = true) as -> by lia. cbn [andb].
  unfold HEADER_TABLE_SIZE, ENABLE_PUSH, MAX_CONCURRENT_STREAMS, INITIAL_WINDOW_SIZE, MAX_FRAME_SIZE, MAX_HEADER_LIST_SIZE.
  change (Z.shiftl 1 14) with 16384. change (Z.shiftl 1 24) with 16777216.
  assert (value <? 2 ^ 31 - 1 = true) as -> by lia. assert (value <=? 16777216 - 1 = true) as -> by lia. rewrite orb_true_r.
  assert (setting <? 1 = (setting =? 0)) as -> by lia.
  destruct (Z.eqb_spec setting 1) as [->|]; [done|]. destruct (Z.eqb_spec setting 2) as [->|].
  { cbn [andb orb Z.eqb Z.ltb Z.compare]. destruct (Z.eqb_spec value 1) as [->|]; [done|]. 
    by assert (1 <? value = true) as -> by lia. }
  cbn [andb]. do 4 (match goal with |- context [setting =? ?n] => destruct (Z.eqb_spec setting n) as [->|]; [done|] end).
  assert (6 <? setting = negb (setting =? 0)) as -> by lia. by destruct (setting =? 0).
Qed.

(** The settings of [settings.cpp].  [set] refuses a value for ENABLE_PUSH
    between 2 and 6, throws a logic_error for an unknown setting whose value is
    between 1 and 6, and stores everything else; in particular it stores each
    value above 6, with which the RFC has ENABLE_PUSH, INITIAL_WINDOW_SIZE and
    MAX_FRAME_SIZE refused.  [get] gives the value of the setting after the one
    it is asked for, and reads behind the array for the last. *)
Theorem old_settings_correct setting value values_ :
  length values_ = 6%nat -> 0 <= setting < 2 ^ 16 -> 0 <= value < 2 ^ 32 ->
  old_set setting value values_ =
    (if (1 <=? value) && (value <=? 6) && ((setting =? 2) && (1 <? value)) then Ret (inl PROTOCOL_ERROR)
     else if (1 <=? value) && (value <=? 6) && ((setting <? 1) || (6 <? setting))
     then Throw (logic_error "Unrecognized setting not ignored")
     else Ret (inr (if (1 <=? setting) && (setting <=? 6) then <[Z.to_nat (setting - 1) := value]> values_ else values_))) /\
  (6 < value -> is_Some (refused setting value) -> exists v, old_set setting value values_ = Ret (inr v)) /\
  (forall v, 1 <= setting < 6 -> old_set setting value values_ = Ret (inr v) ->
     old_get setting v = old_get setting values_ /\ old_get (setting - 1) v = Ret value) /\
  old_get 6 values_ = Undef OutOfBounds.
Proof.
  intros Hlen Hs Hv. assert (zlen values_ = 6) as Hz by (unfold zlen; lia).
  assert (forall x, validate setting value = x -> old_set setting value values_ = (e ← x;
    if bool_decide (e <> NO_ERROR) then Ret (inl e)
    else Ret (inr (if (1 <=? setting) && (setting <=? 6) then <[Z.to_nat (setting - 1) := value]> values_ else values_)))) as Hset.
  { intros x <-. unfold old_set. destruct (validate setting value) as [e| |]; try done. cbn [mbind outcome_bind].
    destruct (bool_decide (e <> NO_ERROR)); [done|]. rewrite Hz.
    destruct (Z.ltb_spec setting 1), (Z.ltb_spec 6 setting), (Z.leb_spec 1 setting), (Z.leb_spec setting 6); try lia; try done.
    cbn [orb andb]. by rewrite arr_set_in by lia. }
  specialize (Hset _ (validate_cases setting value ltac:(lia) ltac:(lia))).
  split; [|split; [|split]].
  - rewrite Hset. destruct (_ && _ && (_ && _)); [done|]. by destruct (_ && _ && (_ || _)).
  - intros Hbig _. rewrite Hset. assert (value <=? 6 = false) as -> by lia. rewrite !andb_false_r. cbn [andb]. by eexists.
  - intros v Hrange. rewrite Hset. assert (setting <? 1 = false) as -> by lia. assert (6 <? setting = false) as -> by lia.
    rewrite andb_false_r. assert (1 <=? setting = true) as -> by lia. assert (setting <=? 6 = true) as -> by lia.
    destruct (_ && _ && (_ && _)); [done|]. intros [= <-]. unfold old_get. split.
    + unfold arr_get. rewrite list_lookup_insert_ne by lia. done.
    + apply arr_get_Some; [lia|]. apply list_lookup_insert_eq. lia.
  - unfold old_get. apply arr_get_out. lia.
Qed.

Lemma old_settings_correct_witness :
  old_set 5 7 initial_values = Ret (inr [4096; 1; UINT32_MAX; 65535; 7; UINT32_MAX]) /\
  exists v, old_set 5 7 initial_values = Ret (inr v).
Proof.
  destruct (old_settings_correct 5 7 initial_values) as (Heq & Hbig & _); [reflexivity|lia|lia|].
  split; [exact Heq|]. apply Hbig; [lia|]. by eexists.
Defined.

