(* ===== verification/Sender.v ===== *)
(** What a transport needs of the connection it writes to: [send] and the
    outgoing buffer that a payload overflows into ([getOutgoingPayload]).
    [Connection] provides it; the transports are written and verified against
    the class. *)
From S2P Require Import Prelude StreamBuf.

(** [send c mem len] is [Connection::send(data, len)]; [mem] is the memory from
    [data] on, of which the first [len] octets are to be sent. *)
Class Sender (C : Type) := {
  send : C -> list Z -> Z -> outcome C;
  out_ : C -> StreamBuf;
  set_out : C -> StreamBuf -> C
}.

(** [getOutgoingPayload], some writes, and [send(payload)].  [raw] is what the
    payload's array holds before it is written to. *)
Definition send_payload {C} `{Sender C} (raw : list Z) (c : C) (writes : list (list Z)) : outcome C :=
  '(p, t) ← payload_writes (mk_Payload 0 raw) (out_ c) writes;
  send (set_out c t) (data_ p) (len_ p).

(** ** The contract

    [sent c] is everything handed to [c] so far, in order: what has left and
    what is queued.  What overflows into the outgoing buffer is sent with what
    follows it: [sender_ok] is for the time between two calls of [send]. *)
Class SenderOk (C : Type) `{Sender C} := {
  sent : C -> list Z;
  sender_ok : C -> Prop;
  out_ok c : sender_ok c -> sb_ok (out_ c) /\ in_use_ (out_ c) <= zlen (sent c);
  set_out_same c : set_out c (out_ c) = c;
  send_out_ok c t x mem len :
    sender_ok c -> sb_ok t -> content t = content (out_ c) ++ x -> octets mem -> 0 <= len <= zlen mem ->
    0 < len \/ content t <> [] -> zlen (sent c) + zlen x + len < 2 ^ 60 ->
    exists c', send (set_out c t) mem len = Ret c' /\ sender_ok c' /\ sent c' = sent c ++ x ++ take (Z.to_nat len) mem
}.

Record raw_ok (raw : list Z) : Prop := mk_raw_ok {
  raw_len : zlen raw = capacity_;
  raw_octets : octets raw
}.

Lemma new_payload_ok raw : raw_ok raw -> payload_ok (mk_Payload 0 raw).
Proof. intros [Hl Ho]. split; cbn; unfold capacity_ in *; [done|lia|done]. Qed.

Section contract.
Context {C} `{HS : SenderOk C}.

(** Whatever the sizes of the writes, a sent payload is sent whole and in order. *)
Lemma send_payload_ok raw c writes :
  raw_ok raw -> sender_ok c -> Forall (Forall octet) writes -> concat writes <> [] ->
  zlen (sent c) + zlen (concat writes) < 2 ^ 60 ->
  exists c', send_payload raw c writes = Ret c' /\ sender_ok c' /\ sent c' = sent c ++ concat writes.
Proof.
  intros Hraw Hc Hw Hne Hm. destruct (out_ok c Hc) as [Ho Hle].
  destruct (payload_writes_ok (mk_Payload 0 raw) (out_ c) writes) as (p & t & Heq & Hp & Ht & Hpend & Hsum & x & Hx);
    [by apply new_payload_ok|done|done|cbn [len_]; unfold SSIZE_MAX; lia|].
  unfold send_payload. rewrite Heq. cbn [mbind outcome_bind].
  pose proof Hp as [Hpd Hpl Hpo]. unfold pending, payload_content in Hpend. cbn [len_ data_] in *.
  rewrite Hx in Hpend. cbn [Z.to_nat take] in Hpend. rewrite app_nil_r, <- (assoc_L (++)) in Hpend.
  apply (inj (content (out_ c) ++.)) in Hpend.
  assert (zlen (take (Z.to_nat (len_ p)) (data_ p)) = len_ p) as Htk.
  { unfold zlen in *. rewrite length_take. lia. }
  destruct (send_out_ok c t x (data_ p) (len_ p) Hc Ht Hx Hpo) as (c' & Hsend & Hc' & Hs'); [lia| | |].
  - destruct (decide (len_ p = 0)) as [Hz|]; [right|left; lia]. rewrite Hx.
    rewrite Hz in Hpend. cbn [Z.to_nat take] in Hpend. rewrite app_nil_r in Hpend.
    intros [_ Hxn]%app_eq_nil. by rewrite Hxn in Hpend.
  - rewrite <- Hpend, zlen_app, Htk in Hm. lia.
  - exists c'. split; [done|]. split; [done|]. by rewrite Hs', Hpend.
Qed.

(** Without a payload. *)
Lemma send_ok c mem len :
  sender_ok c -> octets mem -> 0 < len <= zlen mem -> zlen (sent c) + len < 2 ^ 60 ->
  exists c', send c mem len = Ret c' /\ sender_ok c' /\ sent c' = sent c ++ take (Z.to_nat len) mem.
Proof.
  intros Hc Hm Hl Hsz. destruct (out_ok c Hc) as [Ho _]. assert (send c mem len = send (set_out c (out_ c)) mem len) as -> by (by rewrite set_out_same).
  apply (send_out_ok c (out_ c) [] mem len Hc Ho); [by rewrite app_nil_r|done|lia|left; lia|].
  change (zlen (@nil Z)) with 0. lia.
Qed.

End contract.

(** An endpoint in memory: it keeps what it is sent. *)
Record Endpoint := mk_Endpoint { delivered : list Z; queue : StreamBuf }.

#[export] Instance Endpoint_sender : Sender Endpoint := {
  send e mem len :=
    data ← arr_slice mem 0 len;
    Ret (mk_Endpoint (delivered e ++ content (queue e) ++ data) empty_StreamBuf);
  out_ := queue;
  set_out e t := mk_Endpoint (delivered e) t
}.

#[export] Program Instance Endpoint_ok : SenderOk Endpoint := {
  sent e := delivered e ++ content (queue e);
  sender_ok e := sb_ok (queue e)
}.
Next Obligation.
  intros e He. split; [done|]. pose proof (zlen_nonneg (delivered e)). cbn in *.
  rewrite zlen_app, zlen_content by done. lia.
Qed.
Next Obligation. by intros []. Qed.
Next Obligation.
  intros e t x mem len He Ht Hx Hm Hl _ _. cbn in *. rewrite arr_slice_in by lia. cbn [mbind outcome_bind].
  eexists. split; [done|]. split; [split; [vm_compute; split; congruence|constructor]|].
  cbn [delivered queue]. rewrite app_nil_r. cbn. by rewrite drop_0, Hx, !(assoc_L (++)).
Qed.

Definition fresh_endpoint : Endpoint := mk_Endpoint [] empty_StreamBuf.
