(* ===== verification/Connection.v ===== *)
(** A connection and the system calls it makes: [Connection.cpp].  What the
    kernel answers is part of the state: the invariants hold for every order of
    partial writes, full socket buffers and errors, and what is delivered is stated
    for sockets that are [calm]. *)
From stdpp Require Import relations.
From S2P Require Import Prelude StreamBuf Sender.

(** ** The kernel

    One answer of [send(2)] on the non-blocking socket: there was room for [r]
    octets, none (EAGAIN), or an error.  One answer of [read(2)]: octets, the
    end of the stream, EAGAIN, or an error.  A list that has run out answers
    EAGAIN. *)
Inductive send_answer := Accept (r : Z) | Again | Broken.
Inductive read_answer := Data (octets : list Z) | Eof | NotYet | ReadError.

(** [wire]: what left the socket; [interest]: the events registered with epoll
    ([Some pollout]) if the descriptor is; [ctl]: whether [epoll_ctl] succeeds;
    [removed]: what the manager was asked to remove; [closed]: what was closed. *)
Record kernel := mk_kernel {
  wire : list Z;
  sends : list send_answer;
  reads : list read_answer;
  interest : option bool;
  ctl : bool;
  removed : list Z;
  closed : list Z
}.

(** [class Connection]; the transport is kept beside it (see [onPollIn]). *)
Record Connection := mk_Connection {
  fd_ : Z;
  epfd_ : Z;
  incoming_ : StreamBuf;
  outgoing_ : StreamBuf;
  manager_ : bool;
  os : kernel
}.

Definition with_os (c : Connection) (k : kernel) : Connection :=
  mk_Connection (fd_ c) (epfd_ c) (incoming_ c) (outgoing_ c) (manager_ c) k.
Definition with_incoming (c : Connection) (b : StreamBuf) : Connection :=
  mk_Connection (fd_ c) (epfd_ c) b (outgoing_ c) (manager_ c) (os c).
Definition with_outgoing (c : Connection) (b : StreamBuf) : Connection :=
  mk_Connection (fd_ c) (epfd_ c) (incoming_ c) b (manager_ c) (os c).

Definition isOpen (c : Connection) : bool := negb (fd_ c =? -1).
Definition isClosed (c : Connection) : bool := fd_ c =? -1.

(** ** System calls *)

(** What [send(2)] or [read(2)] returned: a count, or -1 and whether [errno] is
    EAGAIN or EWOULDBLOCK. *)
Inductive sys_result := Count (n : Z) | Errno (again : bool).

(** [::send(fd_, mem, n, 0)] *)
Definition sys_send (c : Connection) (mem : list Z) (n : Z) : outcome (sys_result * Connection) :=
  let k := os c in
  if isClosed c then Ret (Errno false, c)
  else
    let pop := fun w rest => with_os c (mk_kernel w rest (reads k) (interest k) (ctl k) (removed k) (closed k)) in
    match sends k with
    | [] => Ret (Errno true, c)
    | Again :: rest => Ret (Errno true, pop (wire k) rest)
    | Broken :: rest => Ret (Errno false, pop (wire k) rest)
    | Accept r :: rest =>
        data ← arr_slice mem 0 (Z.min n r);
        Ret (Count (Z.min n r), pop (wire k ++ data) rest)
    end.

(** [::read(fd_, tail, n)]; what does not fit is read next time. *)
Definition sys_read (c : Connection) (n : Z) : sys_result * list Z * Connection :=
  let k := os c in
  if isClosed c then (Errno false, [], c)
  else
    let pop := fun rest => with_os c (mk_kernel (wire k) (sends k) rest (interest k) (ctl k) (removed k) (closed k)) in
    match reads k with
    | [] => (Errno true, [], c)
    | NotYet :: rest => (Errno true, [], pop rest)
    | ReadError :: rest => (Errno false, [], pop rest)
    | Eof :: _ => (Count 0, [], c)
    | Data l :: rest =>
        if zlen l <=? n then (Count (zlen l), l, pop rest)
        else (Count n, take (Z.to_nat n) l, pop (Data (drop (Z.to_nat n) l) :: rest))
    end.

(** ** Operations *)

Definition new_Connection (epfd fd : Z) (k : kernel) : outcome Connection :=
  let c := mk_Connection fd epfd empty_StreamBuf empty_StreamBuf false k in
  if epfd <? 0 then Throw (invalid_argument "Bad event FD")
  else if fd <? 0 then Throw (invalid_argument "Connection fd invalid")
  else if ctl k
  then Ret (with_os c (mk_kernel (wire k) (sends k) (reads k) (Some false) (ctl k) (removed k) (closed k)))
  else Throw (runtime_error "Connection EPOLL_CTL_ADD").

Definition updateSubscription (c : Connection) : outcome Connection :=
  let k := os c in
  if isClosed c || negb (ctl k) || bool_decide (interest k = None)
  then Throw (runtime_error "Failed to modify connection's epoll")
  else Ret (with_os c (mk_kernel (wire k) (sends k) (reads k) (Some (negb (sb_isEmpty (outgoing_ c))))
                         (ctl k) (removed k) (closed k))).

Definition close (c : Connection) : Connection :=
  if fd_ c =? -1 then c
  else
    let k := os c in
    let removed := if manager_ c then removed k ++ [fd_ c] else removed k in
    let closed := if manager_ c then closed k else closed k ++ [fd_ c] in
    mk_Connection (-1) (-1) (incoming_ c) (outgoing_ c) (manager_ c)
      (mk_kernel (wire k) (sends k) (reads k) None (ctl k) removed closed).

(** The loop of [onPollOut]; it also returns the last value of [sent]. *)
Fixpoint pollout_loop (fuel : nat) (c : Connection) : outcome (sys_result * Connection) :=
  match fuel with
  | O => Undef OutOfFuel
  | S fuel =>
      '(sent, c) ← sys_send c (buf_ (outgoing_ c)) (sb_size (outgoing_ c));
      match sent with
      | Count n =>
          if 0 <? n then
            b ← sb_advance (outgoing_ c) n;
            let c := with_outgoing c b in
            if sb_isEmpty b then Ret (sent, c) else pollout_loop fuel c
          else Ret (sent, c)
      | Errno _ => Ret (sent, c)
      end
  end.

Definition onPollOut (c : Connection) : outcome Connection :=
  if sb_isEmpty (outgoing_ c) then updateSubscription c
  else
    '(sent, c) ← pollout_loop (S (Z.to_nat (sb_size (outgoing_ c)))) c;
    match sent with
    | Errno false => Ret (close c)
    | _ => if sb_isEmpty (outgoing_ c) then updateSubscription c else Ret c
    end.

(** The loop of [send_immediate]: the last [sent] and [total_sent].  Each call
    passes [len + total_sent] octets from [data + total_sent] on. *)
Fixpoint send_loop (fuel : nat) (c : Connection) (mem : list Z) (len total_sent : Z)
    : outcome (sys_result * Z * Connection) :=
  match fuel with
  | O => Undef OutOfFuel
  | S fuel =>
      '(sent, c) ← sys_send c (drop (Z.to_nat total_sent) mem) (u64 (len + total_sent));
      match sent with
      | Count n =>
          if 0 <? n then
            let total_sent := total_sent + n in
            if total_sent <? len then send_loop fuel c mem len total_sent
            else Ret (sent, total_sent, c)
          else Ret (sent, total_sent, c)
      | Errno _ => Ret (sent, total_sent, c)
      end
  end.

Definition send_immediate (c : Connection) (mem : list Z) (len : Z) : outcome Connection :=
  '(sent, total_sent, c) ← send_loop (S (Z.to_nat len)) c mem len 0;
  match sent with
  | Count 0 | Errno false => Ret (close c)
  | _ =>
      if total_sent <? len then
        data ← arr_slice mem total_sent (len - total_sent);
        b ← sb_write (outgoing_ c) data;
        Ret (with_outgoing c b)
      else Ret c
  end.

Definition queue_and_send (c : Connection) (mem : list Z) (len : Z) : outcome Connection :=
  data ← arr_slice mem 0 len;
  b ← sb_write (outgoing_ c) data;
  onPollOut (with_outgoing c b).

Definition Connection_send (c : Connection) (mem : list Z) (len : Z) : outcome Connection :=
  if sb_isEmpty (outgoing_ c) then send_immediate c mem len else queue_and_send c mem len.

#[export] Instance Connection_sender : Sender Connection := {
  send := Connection_send;
  out_ := outgoing_;
  set_out := with_outgoing
}.

(** [setConnectionManager], of a manager or of none. *)
Definition setConnectionManager (c : Connection) (manager : bool) : Connection :=
  mk_Connection (fd_ c) (epfd_ c) (incoming_ c) (outgoing_ c) manager (os c).

(** [onPollIn], with the transport's [onInput]; the transport reaches the
    connection it belongs to, its input buffer included.  The recursion ends
    when the kernel has nothing more to read. *)
Section input.
Context {T : Type} (onInput : T -> Connection -> outcome (T * Connection)).

Fixpoint onPollIn (fuel : nat) (t : T) (c : Connection) : outcome (T * Connection) :=
  match fuel with
  | O => Undef OutOfFuel
  | S fuel =>
      b ← sb_grow (incoming_ c);
      let '(read_len, data, c) := sys_read (with_incoming c b) (sb_tailroom b) in
      match read_len with
      | Count n =>
          if 0 <? n then
            buf ← arr_blit (buf_ b) (in_use_ b) data;
            let b := sb_addTailContent (mk_StreamBuf (in_use_ b) buf) n in
            '(t, c) ← onInput t (with_incoming c b);
            if isOpen c then onPollIn fuel t c else Ret (t, c)
          else Ret (t, close c)
      | Errno true => Ret (t, c)
      | Errno false => Ret (t, close c)
      end
  end.

End input.

(** ** Specification *)

Definition send_answer_ok (a : send_answer) : Prop := match a with Accept r => 0 < r | _ => True end.

(** Everything given to the connection to send, in order. *)
Definition handed (c : Connection) : list Z := wire (os c) ++ content (outgoing_ c).

(** No call fails, and the kernel never makes room between two calls of one
    [send_immediate]: an answer that might be partial is followed by EAGAIN.  This
    is an assumption: nothing in send(2) promises it, a peer may acknowledge data
    between the two calls, and [send_immediate_overruns] is what happens then. *)
Fixpoint calm (l : list send_answer) : Prop :=
  match l with
  | [] => True
  | Broken :: _ => False
  | Again :: l => calm l
  | Accept r :: l =>
      0 < r /\ (2 ^ 63 <= r \/ match l with [] | Again :: _ => True | _ => False end) /\ calm l
  end.

(** A socket that takes all of whatever it is offered. *)
Definition ample (a : send_answer) : Prop := match a with Accept r => 2 ^ 63 <= r | _ => False end.

#[export] Instance ample_dec a : Decision (ample a).
Proof. destruct a; cbn; apply _. Defined.

Record conn_ok (c : Connection) : Prop := mk_conn_ok {
  co_open : isOpen c = true;
  co_out : sb_ok (outgoing_ c);
  co_ctl : ctl (os c) = true;
  co_interest : interest (os c) <> None
}.

(** What sending leaves alone. *)
Record same_but_sent (c c' : Connection) : Prop := mk_same {
  sm_fd : fd_ c' = fd_ c;
  sm_epfd : epfd_ c' = epfd_ c;
  sm_incoming : incoming_ c' = incoming_ c;
  sm_manager : manager_ c' = manager_ c;
  sm_reads : reads (os c') = reads (os c);
  sm_interest : interest (os c') = interest (os c);
  sm_ctl : ctl (os c') = ctl (os c);
  sm_sends : sends (os c') `suffix_of` sends (os c)
}.

Lemma same_refl c : same_but_sent c c.
Proof. by split. Qed.

Lemma same_trans a b c : same_but_sent a b -> same_but_sent b c -> same_but_sent a c.
Proof. intros [] []. split; by etrans. Qed.

(** The kernel takes a prefix of what it is given. *)
Lemma sys_send_ok c mem n :
  octets mem -> Forall send_answer_ok (sends (os c)) -> 0 <= n <= zlen mem ->
  exists r c', sys_send c mem n = Ret (r, c') /\ same_but_sent c c' /\ outgoing_ c' = outgoing_ c /\
    match r with
    | Count k => 0 <= k <= n /\ (0 < n -> 0 < k) /\ wire (os c') = wire (os c) ++ take (Z.to_nat k) mem
    | Errno again => wire (os c') = wire (os c) /\ (again = false -> isOpen c = true -> Broken ∈ sends (os c))
    end.
Proof.
  intros Hm Hs Hn. unfold sys_send. destruct (isClosed c) eqn:Hop.
  { exists (Errno false), c. split; [done|]. split; [done|]. split; [done|]. split; [done|].
    unfold isOpen, isClosed in *. by rewrite Hop. }
  destruct (sends (os c)) as [|a rest] eqn:E; [by exists (Errno true), c|].
  assert (rest `suffix_of` a :: rest) by (by apply suffix_cons_r).
  destruct a as [r| |].
  - inversion Hs as [|? ? Hr]; subst. simpl in Hr. rewrite arr_slice_in by lia.
    cbn [mbind outcome_bind]. eexists _, _. split; [done|]. split; [by split; cbn; rewrite ?E|].
    split; [done|]. split; [lia|]. split; [lia|]. by rewrite drop_0.
  - eexists _, _. split; [done|]. split; [by split; cbn; rewrite ?E|]. done.
  - eexists _, _. split; [done|]. split; [by split; cbn; rewrite ?E|].
    split; [done|]. split; [done|]. intros _ _. rewrite ?E. by left.
Qed.

Lemma same_answers c c' :
  same_but_sent c c' -> Forall send_answer_ok (sends (os c)) -> Forall send_answer_ok (sends (os c')).
Proof. intros Hs H. destruct (sm_sends _ _ Hs) as [l Hl]. rewrite Hl in H. by apply Forall_app in H as [_ ?]. Qed.

(** The part of the vector that is in use, read as memory. *)
Lemma take_content b n : sb_ok b -> 0 <= n <= in_use_ b -> take (Z.to_nat n) (buf_ b) = take (Z.to_nat n) (content b).
Proof. intros Hb Hn. unfold content. rewrite take_take. f_equal. lia. Qed.

Lemma pollout_loop_ok fuel c :
  sb_ok (outgoing_ c) -> Forall send_answer_ok (sends (os c)) -> 0 < in_use_ (outgoing_ c) ->
  in_use_ (outgoing_ c) < Z.of_nat fuel ->
  exists r c', pollout_loop fuel c = Ret (r, c') /\ same_but_sent c c' /\ sb_ok (outgoing_ c') /\
    handed c' = handed c /\
    match r with
    | Count k => 0 < k /\ in_use_ (outgoing_ c') = 0
    | Errno again => 0 < in_use_ (outgoing_ c') /\ (again = false -> isOpen c = true -> Broken ∈ sends (os c))
    end.
Proof.
  revert c. induction fuel as [|fuel IH]; intros c Hb Hs Hu Hf; [lia|]. cbn [pollout_loop].
  pose proof Hb as [Hin Hoct]. unfold sb_size.
  destruct (sys_send_ok c (buf_ (outgoing_ c)) (in_use_ (outgoing_ c)) Hoct Hs) as (r & c1 & -> & Hsm & Ho & Hr); [lia|].
  cbn [mbind outcome_bind]. destruct r as [k|again].
  - destruct Hr as (Hk & Hpos & Hw). specialize (Hpos Hu). destruct (Z.ltb_spec 0 k); [|lia]. rewrite Ho.
    destruct (sb_advance_ok (outgoing_ c) k Hb) as (b & -> & Hb' & Hc & Hi); [lia|]. cbn [mbind outcome_bind].
    assert (handed (with_outgoing c1 b) = handed c) as Hh.
    { unfold handed. cbn. rewrite Hw, Hc, (take_content _ k Hb) by lia. by rewrite <- (assoc_L (++)), take_drop. }
    assert (same_but_sent c (with_outgoing c1 b)) as Hsm' by (destruct Hsm; by split).
    unfold sb_isEmpty, sb_size. destruct (Z.eqb_spec (in_use_ b) 0).
    + eexists _, _. split; [done|]. split; [done|]. split; [done|]. split; [done|]. by cbn.
    + destruct (IH (with_outgoing c1 b)) as (r' & c2 & -> & Hsm2 & Hb2 & Hh2 & Hr2); cbn.
      * done.
      * by apply (same_answers c).
      * destruct Hb'. lia.
      * lia.
      * exists r', c2. split; [done|]. split; [by eapply same_trans|]. split; [done|]. split; [by rewrite Hh2|].
        destruct r' as [|again]; [done|]. destruct Hr2 as [? Hbr]. split; [done|]. intros Hag Hop.
        destruct (sm_sends _ _ Hsm) as [l Hl]. rewrite Hl. apply elem_of_app. right. apply Hbr; [done|].
        unfold isOpen in *. cbn. by rewrite (sm_fd _ _ Hsm).
  - destruct Hr as [Hw Hbr]. exists (Errno again), c1. split; [done|]. split; [done|]. rewrite Ho. split; [done|].
    unfold handed. rewrite Hw, Ho. by split.
Qed.

Lemma handed_close c : handed (close c) = handed c.
Proof. unfold close. by destruct (fd_ c =? -1). Qed.

Lemma open_close c : isOpen (close c) = false.
Proof. unfold close. destruct (fd_ c =? -1) eqn:E; unfold isOpen; [by rewrite E|done]. Qed.

Lemma updateSubscription_cases c :
  sb_isEmpty (outgoing_ c) = true ->
  match updateSubscription c with
  | Ret c' => handed c' = handed c /\ outgoing_ c' = outgoing_ c /\ isOpen c' = true /\ interest (os c') = Some false /\
      sends (os c') = sends (os c) /\ ctl (os c') = ctl (os c)
  | Throw e => e = runtime_error "Failed to modify connection's epoll" /\ (conn_ok c -> False)
  | Undef _ => False
  end.
Proof.
  intros He. unfold updateSubscription, isClosed. destruct (_ || _) eqn:E.
  - split; [done|]. intros [Ho _ Hc Hi]. unfold isOpen in Ho. rewrite Hc in E.
    destruct (fd_ c =? -1); [done|]. cbn in E. by rewrite bool_decide_eq_false_2 in E.
  - apply orb_false_iff in E as [[E _]%orb_false_iff _]. cbn. rewrite He. unfold isOpen. cbn. by rewrite E.
Qed.

Lemma onPollOut_cases c :
  sb_ok (outgoing_ c) -> Forall send_answer_ok (sends (os c)) ->
  match onPollOut c with
  | Ret c' => handed c' = handed c /\ sb_ok (outgoing_ c') /\
      (interest (os c') = interest (os c) \/ interest (os c') = Some false \/
       interest (os c') = None /\ isOpen c' = false) /\
      (isOpen c' = false -> isOpen c = true -> Broken ∈ sends (os c)) /\
      sends (os c') `suffix_of` sends (os c) /\ ctl (os c') = ctl (os c)
  | Throw e => e = runtime_error "Failed to modify connection's epoll" /\ (conn_ok c -> False)
  | Undef _ => False
  end.
Proof.
  intros Hb Hs. unfold onPollOut. destruct (sb_isEmpty (outgoing_ c)) eqn:E.
  { pose proof (updateSubscription_cases c E) as Hu. destruct (updateSubscription c) as [c'|e|f]; [|done|done].
    destruct Hu as (Hh & Ho & Hop & Hi & Hse & Hct). split; [done|]. rewrite Ho, Hop, Hse.
    split; [done|]. split; [by right; left|done]. }
  unfold sb_isEmpty, sb_size in *. pose proof Hb as [Hin _].
  destruct (pollout_loop_ok (S (Z.to_nat (in_use_ (outgoing_ c)))) c Hb Hs) as (r & c1 & -> & Hsm & Hb1 & Hh & Hr);
    [lia|lia|]. cbn [mbind outcome_bind]. destruct r as [k|again].
  - destruct Hr as [_ Hz]. rewrite (proj2 (Z.eqb_eq _ _) Hz).
    pose proof (updateSubscription_cases c1) as Hu. unfold sb_isEmpty, sb_size in Hu.
    specialize (Hu (proj2 (Z.eqb_eq _ _) Hz)).
    destruct (updateSubscription c1) as [c'|e|f]; [| |done].
    + destruct Hu as (Hh' & Ho & Hop & Hi & Hse & Hct). split; [by rewrite Hh', Hh|]. rewrite Ho, Hop, Hse, Hct.
      split; [done|]. split; [by right; left|]. split; [done|]. split; [apply Hsm|apply (sm_ctl _ _ Hsm)].
    + destruct Hu as [-> Hu]. split; [done|]. intros [Hop _ Hc Hi]. apply Hu.
      destruct Hsm as [Hfd _ _ _ _ Hint Hctl _]. split; [|done| |].
      * unfold isOpen in *. by rewrite Hfd.
      * by rewrite Hctl.
      * by rewrite Hint.
  - destruct Hr as [Hpos Hbr]. destruct again.
    + destruct (Z.eqb_spec (in_use_ (outgoing_ c1)) 0); [lia|]. split; [done|]. split; [done|].
      split; [left; by rewrite (sm_interest _ _ Hsm)|].
      split; [|split; [apply Hsm|apply (sm_ctl _ _ Hsm)]]. intros Ho1 Ho. unfold isOpen in *.
      rewrite (sm_fd _ _ Hsm) in Ho1. by rewrite Ho1 in Ho.
    + rewrite handed_close. split; [done|]. unfold close. destruct (fd_ c1 =? -1) eqn:Ef; cbn.
      * split; [done|]. split; [left; by rewrite (sm_interest _ _ Hsm)|].
        split; [intros _; by apply Hbr|]. split; [apply Hsm|apply (sm_ctl _ _ Hsm)].
      * split; [done|]. split; [by right; right|].
        split; [intros _; by apply Hbr|]. split; [apply Hsm|apply (sm_ctl _ _ Hsm)].
Qed.

(** When the socket can be written to.  Whatever the kernel answers --
    any sequence of partial writes, EAGAIN or an error -- [onPollOut] ends;
    what has left and what is still queued are together what they were, in
    order; the connection is closed only when there was an error, and there is
    no exception while the descriptor is registered with epoll. *)
Theorem onPollOut_flushes c :
  sb_ok (outgoing_ c) -> Forall send_answer_ok (sends (os c)) ->
  match onPollOut c with
  | Ret c' => handed c' = handed c /\ sb_ok (outgoing_ c') /\
      (isOpen c' = false -> isOpen c = true -> Broken ∈ sends (os c))
  | Throw e => e = runtime_error "Failed to modify connection's epoll" /\ (conn_ok c -> False)
  | Undef _ => False
  end.
Proof.
  intros Hb Hs. pose proof (onPollOut_cases c Hb Hs) as H.
  destruct (onPollOut c); [|done|done]. destruct H as (? & ? & _ & ? & _). by split.
Qed.

Definition conn_example (sends : list send_answer) (outgoing : StreamBuf) : Connection :=
  mk_Connection 7 3 empty_StreamBuf outgoing true (mk_kernel [] sends [] (Some false) true [] []).

Lemma onPollOut_flushes_witness :
  let c := conn_example [Accept 2; Accept 1; Again] (mk_StreamBuf 5 [1; 2; 3; 4; 5; 9]) in
  match onPollOut c with Ret c' => (wire (os c'), content (outgoing_ c')) | _ => ([], []) end
    = ([1; 2; 3], [4; 5]) /\
  match onPollOut c with
  | Ret c' => handed c' = handed c /\ sb_ok (outgoing_ c') /\
      (isOpen c' = false -> isOpen c = true -> Broken ∈ sends (os c))
  | Throw e => e = runtime_error "Failed to modify connection's epoll" /\ (conn_ok c -> False)
  | Undef _ => False
  end.
Proof.
  split; [vm_compute; reflexivity|].
  apply (onPollOut_flushes (conn_example [Accept 2; Accept 1; Again] (mk_StreamBuf 5 [1; 2; 3; 4; 5; 9]))).
  - split; [vm_compute; split; congruence|apply (bool_decide_unpack _); exact I].
  - repeat constructor.
Defined.

(** ** Sending *)

Lemma queue_data c data :
  conn_ok c -> octets data -> zlen (handed c) + zlen data < 2 ^ 60 ->
  exists b, sb_write (outgoing_ c) data = Ret b /\ conn_ok (with_outgoing c b) /\
    handed (with_outgoing c b) = handed c ++ data /\ in_use_ b = in_use_ (outgoing_ c) + zlen data.
Proof.
  intros [Ho Hb Hc Hi] Hd Hm. pose proof (zlen_nonneg (wire (os c))). unfold handed in Hm.
  rewrite zlen_app, zlen_content in Hm by done.
  destruct (sb_write_ok (outgoing_ c) data Hb Hd) as (b & -> & Hb' & Hcn & Hu); [unfold SSIZE_MAX; lia|].
  exists b. split; [done|]. split; [by split|]. split; [|done].
  unfold handed. cbn. by rewrite Hcn, (assoc_L (++)).
Qed.

Lemma conn_ok_same c c' : conn_ok c -> same_but_sent c c' -> sb_ok (outgoing_ c') -> conn_ok c'.
Proof.
  intros [Ho _ Hc Hi] [Hf _ _ _ _ Hin Hct _] Hb. split; [|done|by rewrite Hct|by rewrite Hin].
  unfold isOpen in *. by rewrite Hf.
Qed.

Lemma calm_answers l : calm l -> Forall send_answer_ok l.
Proof.
  induction l as [|a l IH]; [constructor|]. destruct a; cbn; intros H; [|constructor; [done|by apply IH]|done].
  destruct H as (? & _ & H). constructor; [done|by apply IH].
Qed.

Lemma calm_suffix l k : k `suffix_of` l -> calm l -> calm k.
Proof.
  intros [p ->]. induction p as [|a p IH]; [done|]. cbn. destruct a; [|done|done]. intros (_ & _ & H). by apply IH.
Qed.

Lemma calm_no_break l : calm l -> Broken ∉ l.
Proof.
  induction l as [|a l IH]; [intros _ H; inversion H|]. intros H Hin. apply elem_of_cons in Hin as [<-|Hin]; [done|].
  revert Hin. apply IH. by apply (calm_suffix (a :: l) l); [apply suffix_cons_r|].
Qed.

(** One call of [send_immediate]'s loop, when the answers are calm: the octets
    that left are a prefix of [data]. *)
Lemma send_loop_calm c mem len :
  conn_ok c -> octets mem -> 0 < len <= zlen mem -> len < 2 ^ 60 -> calm (sends (os c)) ->
  exists r n c', send_loop (S (Z.to_nat len)) c mem len 0 = Ret (r, n, c') /\ same_but_sent c c' /\
    outgoing_ c' = outgoing_ c /\ 0 <= n <= len /\ wire (os c') = wire (os c) ++ take (Z.to_nat n) mem /\
    r <> Count 0 /\ r <> Errno false.
Proof.
  intros Hc Hm Hl Hb Hcalm. pose proof (calm_answers _ Hcalm) as Hans.
  assert (isClosed c = false) as Hcl.
  { destruct Hc as [Ho _ _ _]. unfold isOpen, isClosed in *. by destruct (fd_ c =? -1). }
  cbn [send_loop]. rewrite Z.add_0_r, wrap_small by lia. change (Z.to_nat 0) with 0%nat. rewrite drop_0.
  destruct (sys_send_ok c mem len Hm Hans) as (r & c1 & Heq & Hsm & Ho & Hr); [lia|]. rewrite Heq.
  cbn [mbind outcome_bind]. destruct r as [k|again].
  2: { destruct Hr as [Hw Hbr]. exists (Errno again), 0, c1. split; [done|]. split; [done|]. split; [done|].
       split; [lia|]. cbn [Z.to_nat take]. rewrite app_nil_r. split; [done|]. split; [done|]. intros [= ->].
       apply (calm_no_break _ Hcalm), Hbr; [done|]. by destruct Hc. }
  destruct Hr as (Hk & Hpos & Hw). destruct (Z.ltb_spec 0 k); [|lia]. rewrite Z.add_0_l.
  destruct (Z.ltb_spec k len).
  2: { exists (Count k), k, c1. split; [done|]. repeat (split; [done||lia|]). split; [|done]. intros [=]. lia. }
  (* the kernel took less than it was given: the next answer is EAGAIN *)
  assert (sys_send c1 (drop (Z.to_nat k) mem) (u64 (len + k)) = Ret (Errno true, c1) \/
          exists c2, sys_send c1 (drop (Z.to_nat k) mem) (u64 (len + k)) = Ret (Errno true, c2) /\ same_but_sent c1 c2 /\
            outgoing_ c2 = outgoing_ c1 /\ wire (os c2) = wire (os c1)) as Hnext.
  { assert (isClosed c1 = false) as Hcl1 by (unfold isClosed in *; by rewrite (sm_fd _ _ Hsm)).
    unfold sys_send in Heq |- *. rewrite Hcl in Heq. rewrite Hcl1.
    destruct (sends (os c)) as [|[r| |] rest] eqn:E; try done.
    destruct Hcalm as (Hr0 & Hnx & Hrest). destruct (arr_slice mem 0 (Z.min len r)) as [d| |]; try done.
    injection Heq as Hmin <-. cbn [os sends with_os]. destruct Hnx as [Hbig|Hnx]; [lia|].
    destruct rest as [|[r'| |] rest']; [by left| |right|]; try done.
    eexists. split; [done|]. split; [|done]. split; try done. cbn. by apply suffix_cons_r. }
  destruct (Z.to_nat len) as [|f] eqn:Ef; [lia|]. cbn [send_loop].
  destruct Hnext as [->|(c2 & -> & Hsm2 & Ho2 & Hw2)]; cbn [mbind outcome_bind].
  - exists (Errno true), k, c1. repeat (split; [done||lia|]). done.
  - exists (Errno true), k, c2. split; [done|]. split; [by eapply same_trans|]. split; [by rewrite Ho2|].
    split; [lia|]. split; [by rewrite Hw2|done].
Qed.

Lemma Connection_send_ok c mem len :
  conn_ok c -> calm (sends (os c)) -> octets mem -> 0 <= len <= zlen mem ->
  0 < len \/ content (outgoing_ c) <> [] -> zlen (handed c) + len < 2 ^ 60 ->
  exists c', Connection_send c mem len = Ret c' /\ conn_ok c' /\ calm (sends (os c')) /\
    handed c' = handed c ++ take (Z.to_nat len) mem.
Proof.
  intros Hc Hcalm Hm Hl Hne Hsz. pose proof (zlen_nonneg (handed c)). pose proof Hc as [Hop Hb Hct Hin].
  unfold Connection_send, sb_isEmpty, sb_size. destruct (Z.eqb_spec (in_use_ (outgoing_ c)) 0) as [Hz|Hz].
  - destruct Hne as [Hpos|Hne]; [|unfold content in Hne; rewrite Hz in Hne; done].
    unfold send_immediate.
    destruct (send_loop_calm c mem len Hc Hm) as (r & n & c1 & -> & Hsm & Ho & Hn & Hw & Hr1 & Hr2); [lia|lia|done|].
    cbn [mbind outcome_bind].
    assert (conn_ok c1) as Hc1 by (apply (conn_ok_same c); [done|done|by rewrite Ho]).
    assert (calm (sends (os c1))) as Hcalm1 by (eapply calm_suffix; [apply (sm_sends _ _ Hsm)|done]).
    assert (handed c1 = handed c ++ take (Z.to_nat n) mem) as Hh.
    { unfold handed. rewrite Hw, Ho. unfold content. rewrite Hz. cbn [Z.to_nat take]. by rewrite !app_nil_r. }
    destruct (Z.ltb_spec n len) as [Hlt|Hge].
    + assert (zlen (take (Z.to_nat (len - n)) (drop (Z.to_nat n) mem)) = len - n) as Hd
        by (unfold zlen in *; rewrite length_take, length_drop; lia).
      assert (zlen (take (Z.to_nat n) mem) = n) as Htn by (unfold zlen in *; rewrite length_take; lia).
      destruct (queue_data c1 (take (Z.to_nat (len - n)) (drop (Z.to_nat n) mem)) Hc1) as (b & Hwr & Hc2 & Hh2 & _);
        [by apply Forall_take, Forall_drop|rewrite Hh, zlen_app; lia|].
      exists (with_outgoing c1 b). split; [|split; [done|split; [done|]]].
      * destruct r as [[|k|k]|[]]; try done; rewrite arr_slice_in by lia; cbn [mbind outcome_bind]; rewrite Hwr; done.
      * rewrite Hh2, Hh, <- (assoc_L (++)). f_equal.
        replace (Z.to_nat len) with (Z.to_nat n + Z.to_nat (len - n))%nat by lia. by rewrite take_take_drop.
    + exists c1. split; [by destruct r as [[|k|k]|[]]|]. split; [done|]. split; [done|].
      rewrite Hh. do 2 f_equal. lia.
  - unfold queue_and_send. rewrite arr_slice_in by lia. change (Z.to_nat 0) with 0%nat. rewrite drop_0.
    cbn [mbind outcome_bind].
    destruct (queue_data c (take (Z.to_nat len) mem) Hc) as (b & -> & Hc2 & Hh2 & _);
      [by apply Forall_take|unfold zlen in *; rewrite length_take; lia|]. cbn [mbind outcome_bind].
    pose proof (onPollOut_cases (with_outgoing c b) (co_out _ Hc2) (calm_answers _ Hcalm)) as Hcase.
    destruct (onPollOut (with_outgoing c b)) as [c'|e|f]; [|by destruct Hcase as [_ []]|done].
    destruct Hcase as (Hh & Hb' & Hint & Hop' & Hsuf & Hct'). cbn in Hop', Hsuf, Hct', Hint.
    assert (isOpen c' = true) as Ho'.
    { destruct (isOpen c') eqn:E; [done|]. exfalso. by apply (calm_no_break _ Hcalm), Hop'. }
    exists c'. split; [done|]. split; [|split; [by eapply calm_suffix|by rewrite Hh]].
    split; [done|done|by rewrite Hct'|]. destruct Hint as [->|[->|[_ ?]]]; [done|done|congruence].
Qed.

(** Behind a call of [send] nothing is queued, if the socket takes everything and
    has not stopped answering. *)
Definition flushed (c : Connection) : Prop :=
  Forall ample (sends (os c)) /\ (sends (os c) <> [] -> content (outgoing_ c) = []).

Lemma content_none b : in_use_ b = 0 -> content b = [].
Proof. intros Hz. unfold content. by rewrite Hz. Qed.

Lemma onPollOut_flushed c c' :
  sb_ok (outgoing_ c) -> isClosed c = false -> Forall ample (sends (os c)) -> 0 < in_use_ (outgoing_ c) < 2 ^ 60 ->
  onPollOut c = Ret c' -> flushed c'.
Proof.
  intros [Hu Ho] Hcl Ha Hsz. unfold onPollOut, sb_isEmpty, sb_size. destruct (Z.eqb_spec (in_use_ (outgoing_ c)) 0); [lia|].
  cbn [pollout_loop]. unfold sys_send, sb_size. rewrite Hcl. destruct (sends (os c)) as [|[r| |] rest] eqn:E; try (by apply Forall_cons in Ha as [[] _]).
  - cbn [mbind outcome_bind]. destruct (Z.eqb_spec (in_use_ (outgoing_ c)) 0); [done|]. intros [= <-]. by split; rewrite E.
  - apply Forall_cons in Ha as [Hr Ha]. cbn in Hr. rewrite Z.min_l, arr_slice_in by lia. cbn [mbind outcome_bind].
    destruct (Z.ltb_spec 0 (in_use_ (outgoing_ c))); [|lia]. cbn [outgoing_ with_os]. unfold sb_advance, sb_size.
    rewrite Z.ltb_irrefl, Z.eqb_refl. cbn [mbind outcome_bind]. unfold sb_isEmpty, sb_size, sb_clear. cbn [in_use_ Z.eqb outgoing_ with_outgoing].
    cbn [mbind outcome_bind outgoing_ with_outgoing in_use_ Z.eqb]. unfold updateSubscription. match goal with |- (if ?b then _ else _) = _ -> _ => destruct b end; [done|]. intros [= <-]. by split.
Qed.

Lemma Connection_send_flushed c mem len c' :
  conn_ok c -> Forall ample (sends (os c)) -> octets mem -> 0 <= len <= zlen mem -> 0 < len \/ content (outgoing_ c) <> [] ->
  in_use_ (outgoing_ c) + len < 2 ^ 60 -> Connection_send c mem len = Ret c' -> flushed c'.
Proof.
  intros [Hop Hb Hct Hin] Ha Hm Hl Hne Hsz. pose proof Hb as [Hu _].
  assert (isClosed c = false) as Hcl by (unfold isOpen, isClosed in *; by destruct (fd_ c =? -1)).
  unfold Connection_send, sb_isEmpty, sb_size. destruct (Z.eqb_spec (in_use_ (outgoing_ c)) 0) as [Hz|Hz].
  - destruct Hne as [Hpos|Hne]; [|by rewrite content_none in Hne].
    unfold send_immediate. cbn [send_loop]. rewrite Z.add_0_r, wrap_small by lia. change (Z.to_nat 0) with 0%nat. rewrite drop_0.
    unfold sys_send. rewrite Hcl. destruct (sends (os c)) as [|[r| |] rest] eqn:E; try (by apply Forall_cons in Ha as [[] _]).
    + cbn [mbind outcome_bind]. intros H. destruct (0 <? len); inv_ret; subst; by split; cbn; rewrite ?E.
    + apply Forall_cons in Ha as [Hr Ha]. cbn in Hr. rewrite Z.min_l, arr_slice_in by lia. cbn [mbind outcome_bind].
      destruct (Z.ltb_spec 0 len); [|lia]. rewrite Z.add_0_l, Z.ltb_irrefl. cbn [mbind outcome_bind].
      destruct len as [|l|l]; [lia| |lia]. rewrite Z.ltb_irrefl. intros [= <-]. split; [done|]. intros _. by apply content_none.
  - unfold queue_and_send. rewrite arr_slice_in by lia. cbn [mbind outcome_bind]. intros H. apply bind_ret in H as (b & Hw & H).
    change (Z.to_nat 0) with 0%nat in Hw. rewrite drop_0 in Hw.
    assert (zlen (take (Z.to_nat len) mem) = len) as Hd by (unfold zlen in *; rewrite length_take; lia).
    destruct (sb_write_ok (outgoing_ c) (take (Z.to_nat len) mem) Hb) as (b' & Hw' & Hb' & _ & Hu'); [by apply Forall_take|unfold SSIZE_MAX; lia|].
    rewrite Hw in Hw'. injection Hw' as ->. apply (onPollOut_flushed (with_outgoing c b')); [done|done|done|cbn; lia|done].
Qed.

(** Whether the socket is taken to have room for everything; else it is calm. *)
Class Roomy := roomy : bool.

(** [Connection] keeps the promise of [Sender]. *)
#[export] Program Instance Connection_sender_ok `{Roomy} : SenderOk Connection := {
  sent := handed;
  sender_ok c := (conn_ok c /\ calm (sends (os c))) /\ (roomy = true -> flushed c)
}.
Next Obligation.
  intros ? c [[[Ho Hb Hc Hi] _] _]. split; [done|]. cbn. unfold handed. pose proof (zlen_nonneg (wire (os c))).
  rewrite zlen_app, zlen_content by done. lia.
Qed.
Next Obligation. by intros ? []. Qed.
Next Obligation.
  intros ? c t x mem len [[[Ho Hb Hc Hi] Hcalm] Hroomy] Ht Hx Hm Hl Hne Hsz. cbn [send set_out out_ Connection_sender] in *.
  assert (conn_ok (with_outgoing c t)) as Hok by by split.
  assert (handed (with_outgoing c t) = handed c ++ x) as Hh by (unfold handed; cbn; by rewrite Hx, (assoc_L (++))).
  assert (zlen (handed (with_outgoing c t)) + len < 2 ^ 60) as Hsz' by (rewrite Hh, zlen_app; lia).
  destruct (Connection_send_ok (with_outgoing c t) mem len) as (c' & Hsend & Hok' & Hcalm' & Hh'); try done.
  exists c'. split; [done|]. split; [|by rewrite Hh', Hh, <- (assoc_L (++))]. split; [done|]. intros Hr. destruct (Hroomy Hr) as [Hall _].
  apply (Connection_send_flushed (with_outgoing c t) mem len); try done. cbn. unfold handed in Hsz'. rewrite zlen_app in Hsz'.
  cbn in Hsz'. rewrite zlen_content in Hsz' by done. pose proof (zlen_nonneg (wire (os c))). lia.
Qed.

(** A connection that is what its contract is about; what its socket has taken is
    everything it was given, if nothing is queued. *)
Lemma flushed_wire c : flushed c -> sends (os c) <> [] -> content (outgoing_ c) = [] /\ wire (os c) = handed c.
Proof. intros [_ Hf] Hs. specialize (Hf Hs). split; [done|]. unfold handed. by rewrite Hf, app_nil_r. Qed.

(** A sequence of payloads, each written piece by piece and sent. *)
Fixpoint send_payloads {C} `{Sender C} (raw : list Z) (c : C) (msgs : list (list (list Z))) : outcome C :=
  match msgs with
  | [] => Ret c
  | m :: msgs => c ← send_payload raw c m; send_payloads raw c msgs
  end.

Lemma payloads_sent {C} `{SenderOk C} raw (Hraw : raw_ok raw) msgs : forall c,
  sender_ok c -> Forall (Forall (Forall octet)) msgs -> Forall (fun m => concat m <> []) msgs ->
  zlen (sent c) + zlen (concat (concat msgs)) < 2 ^ 60 ->
  exists c', send_payloads raw c msgs = Ret c' /\ sender_ok c' /\ sent c' = sent c ++ concat (concat msgs).
Proof.
  induction msgs as [|m msgs IH]; intros c Hc Hm Hne Hsz; cbn [send_payloads concat] in *.
  - exists c. by rewrite app_nil_r.
  - apply Forall_cons in Hm as [Hm Hms], Hne as [Hne1 Hne2]. rewrite concat_app, zlen_app in *. pose proof (zlen_nonneg (concat (concat msgs))).
    destruct (send_payload_ok raw c m Hraw Hc Hm Hne1) as (c1 & -> & Hc1 & Hs1); [lia|]. cbn [mbind outcome_bind].
    destruct (IH c1 Hc1 Hms Hne2) as (c2 & -> & Hc2 & Hs2); [rewrite Hs1, zlen_app; lia|].
    exists c2. split; [done|]. split; [done|]. by rewrite Hs2, Hs1, (assoc_L (++)).
Qed.

(** C8: Everything sent through payloads, of whatever sizes, is taken by the socket
    or left in [outgoing_] exactly once and in the order it was sent; what the
    socket has taken is a prefix of it.  This is on an open, registered connection,
    for payloads that are not empty, over a kernel that is [calm]: the socket may
    take any part of what it is offered, but then EAGAIN comes next, and no call
    fails.  (Where there is room again at once, [send_immediate_overruns].)  If the
    socket takes everything it is offered and has not stopped answering, nothing
    is left in [outgoing_]; what is left there, nothing but another call of [send]
    would flush ([never_polls_for_output]). *)
Theorem connection_delivers_in_order raw c msgs :
  raw_ok raw -> conn_ok c -> calm (sends (os c)) -> Forall (Forall (Forall octet)) msgs ->
  Forall (fun m => concat m <> []) msgs ->
  zlen (handed c) + zlen (concat (concat msgs)) < 2 ^ 60 ->
  exists c', send_payloads raw c msgs = Ret c' /\ conn_ok c' /\
    wire (os c') ++ content (outgoing_ c') = wire (os c) ++ content (outgoing_ c) ++ concat (concat msgs) /\
    (Forall ample (sends (os c)) -> content (outgoing_ c) = [] -> sends (os c') <> [] ->
     content (outgoing_ c') = [] /\ wire (os c') = wire (os c) ++ concat (concat msgs)).
Proof.
  intros Hraw Hc Hcalm Hm Hne Hsz. set (HR := bool_decide (Forall ample (sends (os c)) /\ content (outgoing_ c) = []) : Roomy).
  assert (sender_ok (SenderOk := Connection_sender_ok) c) as Hok.
  { split; [done|]. intros Hr. apply bool_decide_eq_true in Hr as [? ?]. by split. }
  destruct (payloads_sent raw Hraw msgs c Hok Hm Hne Hsz) as (c' & Hrun & [[Hc' _] Hf] & Hs). exists c'. split; [done|]. split; [done|].
  change (handed c' = handed c ++ concat (concat msgs)) in Hs. split; [by rewrite (assoc_L (++))|]. intros Ha Hz Hans.
  destruct (flushed_wire c') as [Hnone Hw]; [by apply Hf, bool_decide_eq_true|done|].
  split; [done|]. rewrite Hw, Hs. unfold handed. by rewrite Hz, app_nil_r.
Qed.

Definition payload_example : list (list (list Z)) := [[[1; 2]; [3; 4]]; [[5]]; [replicate 2000 6; [7]]].

(** A socket that takes three octets and has no room for a while, and one that takes
    everything. *)
Lemma connection_delivers_in_order_witness :
  (let c := conn_example [Accept 3; Again; Accept (2 ^ 63)] empty_StreamBuf in
   exists c', send_payloads (replicate 1440 0) c payload_example = Ret c' /\ conn_ok c' /\
     wire (os c') ++ content (outgoing_ c') = wire (os c) ++ content (outgoing_ c) ++ concat (concat payload_example)) /\
  (let c := conn_example (replicate 9 (Accept (2 ^ 63))) empty_StreamBuf in
   exists c', send_payloads (replicate 1440 0) c payload_example = Ret c' /\
     content (outgoing_ c') = [] /\ wire (os c') = concat (concat payload_example)).
Proof.
  assert (raw_ok (replicate 1440 0)) as Hraw by (split; [reflexivity|apply (bool_decide_unpack _); exact I]).
  assert (forall l, conn_ok (conn_example l empty_StreamBuf)) as Hc
    by (intros l; split; [reflexivity|split; [vm_compute; split; congruence|constructor]|reflexivity|discriminate]).
  split.
  - destruct (connection_delivers_in_order (replicate 1440 0) (conn_example [Accept 3; Again; Accept (2 ^ 63)] empty_StreamBuf)
                payload_example Hraw (Hc _)) as (c' & Hrun & Hc' & Hw & _); [| | |vm_compute; reflexivity|].
    + cbn [sends os conn_example calm]. split; [lia|]. split; [by right|]. split; [lia|]. split; [left; lia|done].
    + apply (bool_decide_unpack _). exact I.
    + apply (bool_decide_unpack _). exact I.
    + exists c'. split; [exact Hrun|]. split; [exact Hc'|exact Hw].
  - destruct (connection_delivers_in_order (replicate 1440 0) (conn_example (replicate 9 (Accept (2 ^ 63))) empty_StreamBuf)
                payload_example Hraw (Hc _)) as (c' & Hrun & _ & _ & Hall); [| | |vm_compute; reflexivity|].
    + cbn [sends os conn_example calm replicate]. repeat (split; [lia|]; split; [left; lia|]). done.
    + apply (bool_decide_unpack _). exact I.
    + apply (bool_decide_unpack _). exact I.
    + exists c'. split; [exact Hrun|]. apply Hall; [apply (bool_decide_unpack _); vm_compute; exact I|reflexivity|].
      vm_compute in Hrun. by injection Hrun as <-.
Defined.

(** C29: where the kernel takes a part of the data and has room again for the
    next call, [send_immediate] goes wrong.  Its second call is given
    [len + total_sent] octets instead of [len - total_sent]: the octets behind
    the data, up to twice those of the first part, leave as well, and where that
    memory does not belong to the buffer the read is out of bounds. *)
Theorem send_immediate_overruns c mem len r1 r2 rest :
  isOpen c = true -> in_use_ (outgoing_ c) = 0 -> sends (os c) = Accept r1 :: Accept r2 :: rest ->
  0 < r1 < len -> len <= zlen mem -> len < 2 ^ 62 -> len - r1 <= r2 ->
  let n := r1 + Z.min (len + r1) r2 in
  if n <=? zlen mem then
    exists c', Connection_send c mem len = Ret c' /\ wire (os c') = wire (os c) ++ take (Z.to_nat n) mem /\
      outgoing_ c' = outgoing_ c
  else Connection_send c mem len = Undef OutOfBounds.
Proof.
  intros Hop Hz Hs Hr1 Hl Hlen Hr2 n. pose proof (zlen_nonneg mem).
  assert (isClosed c = false) as Hcl by (unfold isOpen, isClosed in *; by destruct (fd_ c =? -1)).
  assert (exists f, Z.to_nat len = S f) as [f Ef] by (exists (pred (Z.to_nat len)); lia).
  enough (exists Y, Connection_send c mem len = Y /\ if n <=? zlen mem then
    exists c', Y = Ret c' /\ wire (os c') = wire (os c) ++ take (Z.to_nat n) mem /\ outgoing_ c' = outgoing_ c
    else Y = Undef OutOfBounds) as (Y & -> & HY) by done.
  eexists. split.
  { unfold Connection_send, sb_isEmpty, sb_size. rewrite Hz. change (0 =? 0) with true. cbv iota.
  unfold send_immediate. cbn [send_loop]. rewrite Z.add_0_r, wrap_small by lia.
  unfold sys_send at 1. rewrite Hcl, Hs. change (Z.to_nat 0) with 0%nat. rewrite drop_0, Z.min_r by lia.
  rewrite arr_slice_in by lia. cbn [mbind outcome_bind]. destruct (Z.ltb_spec 0 r1); [|lia].
  rewrite Z.add_0_l. destruct (Z.ltb_spec r1 len); [|lia].
  rewrite Ef. cbn [send_loop]. rewrite wrap_small by lia.
  unfold sys_send. unfold isClosed in *. cbn [fd_ with_os os sends]. rewrite Hcl. reflexivity. }
  assert (zlen (drop (Z.to_nat r1) mem) = zlen mem - r1) as Hd by (unfold zlen in *; rewrite length_drop; lia).
  unfold n in *. destruct (Z.leb_spec (r1 + Z.min (len + r1) r2) (zlen mem)) as [Hin|Hout].
  - rewrite arr_slice_in by lia. cbn [mbind outcome_bind].
    destruct (Z.ltb_spec 0 (Z.min (len + r1) r2)); [|lia].
    destruct (Z.ltb_spec (r1 + Z.min (len + r1) r2) len); [lia|]. cbn [mbind outcome_bind].
    destruct (Z.min (len + r1) r2) as [|m|m] eqn:Em; [lia| |lia]. rewrite <- Em in *.
    destruct (Z.ltb_spec (r1 + Z.min (len + r1) r2) len); [lia|]. eexists. split; [done|]. split; [|done].
    cbn [wire os with_os]. rewrite <- (assoc_L (++)). f_equal. rewrite !drop_0.
    replace (Z.to_nat (r1 + Z.min (len + r1) r2)) with (Z.to_nat r1 + Z.to_nat (Z.min (len + r1) r2))%nat by lia.
    by rewrite take_take_drop.
  - by rewrite arr_slice_out by lia.
Qed.

(** Five octets at the start of an array of twelve: the kernel takes two, then
    the other three with four more that were never meant to be sent. *)
Lemma send_immediate_overruns_witness :
  let c := conn_example [Accept 2; Accept 9] empty_StreamBuf in
  let mem := [1; 2; 3; 4; 5; 91; 92; 93; 94; 95; 96; 97] in
  let n := 2 + Z.min (5 + 2) 9 in
  if n <=? zlen mem then
    exists c', Connection_send c mem 5 = Ret c' /\ wire (os c') = wire (os c) ++ take (Z.to_nat n) mem /\
      outgoing_ c' = outgoing_ c
  else Connection_send c mem 5 = Undef OutOfBounds.
Proof.
  apply (send_immediate_overruns (conn_example [Accept 2; Accept 9] empty_StreamBuf)
           [1; 2; 3; 4; 5; 91; 92; 93; 94; 95; 96; 97] 5 2 9 []); reflexivity || (vm_compute; split; reflexivity) || (vm_compute; congruence).
Defined.

(** ** Which events the connection asks for *)

(** What the transport and the kernel make a connection do. *)
Inductive conn_step : Connection -> Connection -> Prop :=
  | StepSend c mem len c' : Connection_send c mem len = Ret c' -> conn_step c c'
  | StepOverflow c t : conn_step c (with_outgoing c t)
  | StepPollOut c c' : onPollOut c = Ret c' -> conn_step c c'
  | StepRead c n r l c' : sys_read c n = (r, l, c') -> conn_step c c'
  | StepInput c b : conn_step c (with_incoming c b)
  | StepClose c : conn_step c (close c).

(** And its owner. *)
Inductive conn_life : Connection -> Connection -> Prop :=
  | LifeStep c c' : conn_step c c' -> conn_life c c'
  | LifeManager c manager : conn_life c (setConnectionManager c manager).

Definition asks_for_output (c : Connection) : Prop := interest (os c) = Some true.

Lemma sys_send_interest c mem n r c' :
  sys_send c mem n = Ret (r, c') -> interest (os c') = interest (os c) /\ outgoing_ c' = outgoing_ c.
Proof.
  unfold sys_send. destruct (isClosed c); [by intros [= _ <-]|].
  destruct (sends (os c)) as [|[k| |] l]; try by intros [= _ <-].
  destruct (arr_slice mem 0 (Z.min n k)); try done. by intros [= _ <-].
Qed.

Lemma pollout_loop_interest fuel c r c' :
  pollout_loop fuel c = Ret (r, c') -> interest (os c') = interest (os c).
Proof.
  revert c. induction fuel as [|fuel IH]; intros c; cbn [pollout_loop]; [done|]. intros H.
  apply bind_ret in H as ([r1 c1] & H1 & H). apply sys_send_interest in H1 as [H1 _].
  destruct r1 as [n|]; [|by injection H as _ <-]. destruct (0 <? n); [|by injection H as _ <-].
  apply bind_ret in H as (b & _ & H). destruct (sb_isEmpty b); [by injection H as _ <-|].
  apply IH in H. by rewrite H.
Qed.

Lemma send_loop_interest fuel c mem len total r n c' :
  send_loop fuel c mem len total = Ret (r, n, c') -> interest (os c') = interest (os c).
Proof.
  revert c total. induction fuel as [|fuel IH]; intros c total; cbn [send_loop]; [done|]. intros H.
  apply bind_ret in H as ([r1 c1] & H1 & H). apply sys_send_interest in H1 as [H1 _].
  destruct r1 as [k|]; [|by injection H as _ _ <-]. destruct (0 <? k); [|by injection H as _ _ <-].
  destruct (total + k <? len); [|by injection H as _ _ <-]. apply IH in H. by rewrite H.
Qed.

Lemma updateSubscription_interest c c' :
  sb_isEmpty (outgoing_ c) = true -> updateSubscription c = Ret c' -> interest (os c') = Some false.
Proof. intros He. unfold updateSubscription. destruct (_ || _); [done|]. intros [= <-]. cbn. by rewrite He. Qed.

Lemma close_quiet c : ~ asks_for_output c -> ~ asks_for_output (close c).
Proof. unfold asks_for_output, close. by destruct (fd_ c =? -1). Qed.

Lemma onPollOut_quiet c c' : onPollOut c = Ret c' -> ~ asks_for_output c -> ~ asks_for_output c'.
Proof.
  unfold onPollOut. destruct (sb_isEmpty (outgoing_ c)) eqn:E; intros H Hq.
  - apply updateSubscription_interest in H; [|done]. unfold asks_for_output. by rewrite H.
  - apply bind_ret in H as ([r c1] & H1 & H). apply pollout_loop_interest in H1.
    assert (~ asks_for_output c1) as Hq1 by (unfold asks_for_output in *; by rewrite H1).
    assert ((if sb_isEmpty (outgoing_ c1) then updateSubscription c1 else Ret c1) = Ret c' -> ~ asks_for_output c') as Hrest.
    { destruct (sb_isEmpty (outgoing_ c1)) eqn:E1; [|by intros [= <-]]. intros Hu.
      apply updateSubscription_interest in Hu; [|done]. unfold asks_for_output. by rewrite Hu. }
    destruct r as [n|[]]; [by apply Hrest|by apply Hrest|]. injection H as <-. by apply close_quiet.
Qed.

Lemma send_quiet c mem len c' : Connection_send c mem len = Ret c' -> ~ asks_for_output c -> ~ asks_for_output c'.
Proof.
  unfold Connection_send. destruct (sb_isEmpty (outgoing_ c)); intros H Hq.
  - apply bind_ret in H as ([[r n] c1] & H1 & H). apply send_loop_interest in H1.
    assert (~ asks_for_output c1) as Hq1 by (unfold asks_for_output in *; by rewrite H1).
    assert ((if n <? len then data ← arr_slice mem n (len - n); b ← sb_write (outgoing_ c1) data;
             Ret (with_outgoing c1 b) else Ret c1) = Ret c' -> ~ asks_for_output c') as Hrest.
    { destruct (n <? len); [|by intros [= <-]]. intros Hu. apply bind_ret in Hu as (d & _ & Hu).
      apply bind_ret in Hu as (b & _ & Hu). by injection Hu as <-. }
    destruct r as [[|k|k]|[]]; try (by apply Hrest); injection H as <-; by apply close_quiet.
  - apply bind_ret in H as (d & _ & H). apply bind_ret in H as (b & _ & H). by apply onPollOut_quiet in H.
Qed.

Lemma step_quiet c c' : conn_step c c' -> ~ asks_for_output c -> ~ asks_for_output c'.
Proof.
  destruct 1 as [c mem len c' H|c t|c c' H|c n r l c' H|c b|c].
  - by apply (send_quiet c mem len).
  - done.
  - by apply onPollOut_quiet.
  - unfold sys_read in H. destruct (isClosed c); [by injection H as _ _ <-|].
    destruct (reads (os c)) as [|[d| | |] rest]; try (by injection H as _ _ <-).
    destruct (zlen d <=? n); by injection H as _ _ <-.
  - done.
  - apply close_quiet.
Qed.

(** C28: no connection ever asks epoll for EPOLLOUT.  [updateSubscription] would,
    but it is only called when there is nothing left to send; so in every state
    a connection can reach -- with output queued after an EAGAIN as well -- the
    kernel is asked for input alone, and nothing calls [onPollOut] when the
    socket becomes writable again. *)
Theorem never_polls_for_output epfd fd k c0 c :
  new_Connection epfd fd k = Ret c0 -> rtc conn_life c0 c -> interest (os c) <> Some true.
Proof.
  intros Hnew Hr. change (~ asks_for_output c).
  assert (~ asks_for_output c0) as H0.
  { unfold new_Connection in Hnew. destruct (epfd <? 0); [done|]. destruct (fd <? 0); [done|].
    destruct (ctl k); [|done]. by injection Hnew as <-. }
  clear Hnew. induction Hr as [|c1 c2 c3 H12 _ IH]; [done|]. apply IH. destruct H12 as [c1 c2 H12|c1 m]; [by eapply step_quiet|done].
Qed.

(** Five octets, of which the socket takes two: three stay queued. *)
Lemma never_polls_for_output_witness :
  let k := mk_kernel [] [Accept 2; Again] [] None true [] [] in
  let c0 := mk_Connection 7 3 empty_StreamBuf empty_StreamBuf false
              (mk_kernel [] [Accept 2; Again] [] (Some false) true [] []) in
  exists c, new_Connection 3 7 k = Ret c0 /\ rtc conn_life c0 c /\ content (outgoing_ c) = [3; 4; 5] /\
    interest (os c) <> Some true.
Proof.
  intros k c0. pose (c := match Connection_send c0 [1; 2; 3; 4; 5] 5 with Ret c => c | _ => c0 end).
  assert (rtc conn_life c0 c) as Hr by (apply rtc_once, LifeStep, (StepSend _ [1; 2; 3; 4; 5] 5); vm_compute; reflexivity).
  exists c. split; [reflexivity|]. split; [exact Hr|]. split; [vm_compute; reflexivity|].
  apply (never_polls_for_output 3 7 k c0 c); [reflexivity|exact Hr].
Defined.

(** ** Receiving *)

Definition read_answer_ok (a : read_answer) : Prop :=
  match a with Data l => l <> [] /\ octets l | _ => True end.

#[export] Instance read_answer_ok_dec a : Decision (read_answer_ok a).
Proof. destruct a; cbn; apply _. Defined.

Lemma sb_grow_capacity b b' :
  sb_ok b -> zlen (buf_ b) <= 2 ^ 60 -> in_use_ b <= 2 ^ 57 -> sb_grow b = Ret b' -> zlen (buf_ b') <= 2 ^ 60.
Proof.
  intros [Hin _] Hcap Hu. unfold sb_grow, sb_size, sb_capacity, GROWTH_FACTOR, SIZE_MAX.
  change (4096 / 4) with 1024. change ((2 ^ 64 - 1) / 4) with 4611686018427387903.
  assert (forall n, 0 <= n <= 2 ^ 60 -> sb_reserve b n = Ret b' -> zlen (buf_ b') <= 2 ^ 60) as Hres.
  { intros n Hn. unfold sb_reserve, vector_resize. destruct (n <? zlen (buf_ b)); [by intros [= <-]|].
    destruct (SSIZE_MAX <? n); [done|]. intros [= <-]. cbn [buf_]. rewrite zlen_str_resize; lia. }
  pose proof (Z.div_mod (zlen (buf_ b)) 2). pose proof (Z.mod_pos_bound (zlen (buf_ b)) 2).
  destruct (Z.ltb_spec (in_use_ b) 1024); [apply Hres; lia|].
  destruct (Z.ltb_spec (zlen (buf_ b) / 2) (in_use_ b)); [|by intros [= <-]].
  destruct (Z.ltb_spec 4611686018427387903 (zlen (buf_ b))); [lia|]. apply Hres. lia.
Qed.

Lemma sb_tailroom_ok b : sb_ok b -> zlen (buf_ b) <= 2 ^ 60 -> sb_tailroom b = zlen (buf_ b) - in_use_ b.
Proof. intros [Hin _] Hc. unfold sb_tailroom, sb_capacity, sb_size. apply wrap_small. lia. Qed.

(** Reading into the tail appends. *)
Lemma read_appends b d :
  sb_ok b -> octets d -> zlen d <= sb_tailroom b -> zlen (buf_ b) <= 2 ^ 60 ->
  exists buf, arr_blit (buf_ b) (in_use_ b) d = Ret buf /\ zlen buf = zlen (buf_ b) /\
    let b' := sb_addTailContent (mk_StreamBuf (in_use_ b) buf) (zlen d) in
    sb_ok b' /\ content b' = content b ++ d /\ in_use_ b' = in_use_ b + zlen d.
Proof.
  intros Hb Hd Hl Hc. rewrite (sb_tailroom_ok b Hb Hc) in Hl. pose proof (zlen_nonneg d).
  pose proof Hb as [Hin Ho]. rewrite arr_blit_in by lia. eexists. split; [done|].
  assert (zlen (take (Z.to_nat (in_use_ b)) (buf_ b)) = in_use_ b) as Ht by apply (zlen_content b Hb).
  assert (zlen (take (Z.to_nat (in_use_ b)) (buf_ b) ++ d ++ drop (Z.to_nat (in_use_ b) + length d) (buf_ b))
          = zlen (buf_ b)) as Hz.
  { rewrite !zlen_app, Ht. unfold zlen in *. rewrite length_drop. lia. }
  split; [done|]. unfold sb_addTailContent. cbn [in_use_ buf_]. rewrite wrap_small by lia.
  split; [split; cbn [in_use_ buf_]|split; [|done]].
  - rewrite Hz. lia.
  - apply Forall_app_2; [by apply Forall_take|]. apply Forall_app_2; [done|by apply Forall_drop].
  - unfold content. cbn [in_use_ buf_]. rewrite (assoc_L (++)). apply take_app_length'.
    rewrite length_app. unfold zlen in *. lia.
Qed.

(** The first read of a call: some octets, the first of those that are to come. *)
Lemma sys_read_chunk c n l chunks stop :
  isOpen c = true -> 512 <= n -> l <> [] -> reads (os c) = map Data (l :: chunks) ++ stop ->
  exists d chunks' c', sys_read c n = (Count (zlen d), d, c') /\ 0 < zlen d <= n /\
    isOpen c' = true /\ incoming_ c' = incoming_ c /\
    reads (os c') = map Data chunks' ++ stop /\ concat (l :: chunks) = d ++ concat chunks' /\
    (Forall (fun l => l <> [] /\ octets l) (l :: chunks) -> octets d /\ Forall (fun l => l <> [] /\ octets l) chunks').
Proof.
  intros Ho Hn Hl Hr. unfold sys_read, isOpen, isClosed in *. destruct (fd_ c =? -1) eqn:E; [done|]. rewrite Hr.
  assert (0 < zlen l) as Hpos by (destruct l; [done|rewrite zlen_cons; pose proof (zlen_nonneg l); lia]).
  cbn [map app]. destruct (Z.leb_spec (zlen l) n).
  - exists l, chunks. eexists. split; [done|]. split; [lia|]. cbn. rewrite E. repeat (split; [done|]).
    intros Hf. inversion Hf as [|? ? [??]]; subst. done.
  - exists (take (Z.to_nat n) l), (drop (Z.to_nat n) l :: chunks).
    assert (zlen (take (Z.to_nat n) l) = n) as Ht by (unfold zlen in *; rewrite length_take; lia).
    rewrite Ht. eexists. split; [done|]. split; [lia|]. cbn. rewrite E. repeat (split; [done|]).
    split; [by rewrite (assoc_L (++)), take_drop|]. intros Hf. inversion Hf as [|? ? [? Hoct]]; subst.
    split; [by apply Forall_take|]. constructor; [|done]. split; [|by apply Forall_drop].
    intros Hnil%(f_equal length). rewrite length_drop in Hnil. unfold zlen in *. simpl in Hnil. lia.
Qed.

(** The answers to [read]: the octets that are there to be read, whether an end of
    the input or an error comes behind them, and what comes behind that answer or
    behind EAGAIN. *)
Fixpoint arrived (l : list read_answer) : list Z := match l with Data d :: l => d ++ arrived l | _ => [] end.
Fixpoint after_data (l : list read_answer) : list read_answer := match l with Data _ :: l => after_data l | _ => l end.
Definition ends_input (l : list read_answer) : bool :=
  match after_data l with Eof :: _ | ReadError :: _ => true | _ => false end.
Definition behind (l : list read_answer) : list read_answer :=
  match after_data l with NotYet :: r | ReadError :: r => r | r => r end.

Definition with_reads (k : kernel) (l : list read_answer) : kernel :=
  mk_kernel (wire k) (sends k) l (interest k) (ctl k) (removed k) (closed k).

(** A connection that has read [d] into its buffer and done nothing else; [l] is
    what is left to read. *)
Definition after_read (c : Connection) (d : list Z) (l : list read_answer) (c1 : Connection) : Prop :=
  exists b, c1 = with_incoming (with_os c (with_reads (os c) l)) b /\ sb_ok b /\ content b = content (incoming_ c) ++ d.

(** A read of some of the octets that are there. *)
Lemma sys_read_data c n d0 rest :
  isOpen c = true -> 512 <= n -> Forall read_answer_ok (Data d0 :: rest) -> reads (os c) = Data d0 :: rest ->
  exists d l, sys_read c n = (Count (zlen d), d, with_os c (with_reads (os c) l)) /\ 0 < zlen d <= n /\ octets d /\
    arrived (Data d0 :: rest) = d ++ arrived l /\ after_data l = after_data rest /\ Forall read_answer_ok l.
Proof.
  intros Ho Hn Hok Hr. apply Forall_cons in Hok as [[Hne Hd0] Hok]. unfold sys_read, isOpen, isClosed in *.
  destruct (fd_ c =? -1); [done|]. rewrite Hr.
  assert (0 < zlen d0) by (destruct d0; [done|rewrite zlen_cons; pose proof (zlen_nonneg d0); lia]).
  destruct (Z.leb_spec (zlen d0) n) as [Hle|Hgt].
  - exists d0, rest. split; [done|]. split; [lia|]. by repeat split.
  - assert (zlen (take (Z.to_nat n) d0) = n) as Ht by (unfold zlen in *; rewrite length_take; lia).
    exists (take (Z.to_nat n) d0), (Data (drop (Z.to_nat n) d0) :: rest). rewrite Ht. split; [done|]. split; [lia|].
    split; [by apply Forall_take|]. cbn [arrived after_data]. split; [by rewrite (assoc_L (++)), take_drop|]. split; [done|].
    constructor; [|done]. split; [|by apply Forall_drop]. intros Hnil%(f_equal length). rewrite length_drop in Hnil.
    unfold zlen in *. simpl in Hnil. lia.
Qed.

Lemma after_data_length l : (length (after_data l) <= length l)%nat.
Proof. induction l as [|[d| | |] l IH]; cbn; lia. Qed.

(** A read where no octets are. *)
Lemma sys_read_end c n :
  isOpen c = true -> after_data (reads (os c)) = reads (os c) ->
  exists r, sys_read c n = (r, [], with_os c (with_reads (os c) (behind (reads (os c))))) /\
    if ends_input (reads (os c)) then r = Count 0 \/ r = Errno false else r = Errno true.
Proof.
  intros Ho Hend. unfold sys_read, isOpen, isClosed, ends_input, behind in *. rewrite Hend. destruct (fd_ c =? -1); [done|].
  destruct c as [fd ep inc out m [w se re i ct rm cl]]. unfold with_os, with_reads. cbn in *.
  destruct re as [|[d| | |] l]; try (eexists; split; [reflexivity|]; first [done|by left|by right]).
  exfalso. apply (f_equal length) in Hend. cbn in Hend. pose proof (after_data_length l). lia.
Qed.

(** What [onPollIn] asks of a transport: it leaves what is to be read, and of its
    input a valid buffer that has not grown. *)
Class Reader {T} (onInput : T -> Connection -> outcome (T * Connection)) : Prop :=
  reader : forall t c t' c', onInput t c = Ret (t', c') -> reads (os c') = reads (os c) /\ fits (incoming_ c) (incoming_ c').

Section receive.
Context {T : Type} (onInput : T -> Connection -> outcome (T * Connection)).

(** The transport was given the pieces [ds]: each was read behind what it had left
    of the others, and then it was called. *)
Inductive given : T -> Connection -> list (list Z) -> T -> Connection -> Prop :=
  | given_nil t c : given t c [] t c
  | given_cons t c d ds l c1 t1 c2 t' c' :
      isOpen c = true -> d <> [] -> after_read c d l c1 -> onInput t c1 = Ret (t1, c2) -> given t1 c2 ds t' c' ->
      given t c (d :: ds) t' c'.

(** It was given some pieces, and its call for the next one is [m]. *)
Definition given_up_to (t : T) (c : Connection) (m : outcome (T * Connection)) : Prop :=
  exists ds d l t1 c1 c2, given t c ds t1 c1 /\ isOpen c1 = true /\ d <> [] /\ after_read c1 d l c2 /\
    concat ds ++ d `prefix_of` arrived (reads (os c)) /\ onInput t1 c2 = m.

(** Everything was read and given to it; or it has closed the connection. *)
Definition read_out (t : T) (c : Connection) (t' : T) (c' : Connection) : Prop :=
  exists ds c1, given t c ds t' c1 /\
    if isOpen c1 then
      concat ds = arrived (reads (os c)) /\
      exists c2, after_read c1 [] (behind (reads (os c))) c2 /\ c' = (if ends_input (reads (os c)) then close c2 else c2)
    else concat ds `prefix_of` arrived (reads (os c)) /\ c' = c1.

(** What is read first, and what comes of the rest. *)
Lemma read_out_cons t c d l c1 t1 c2 t' c' :
  isOpen c = true -> d <> [] -> after_read c d l c1 -> onInput t c1 = Ret (t1, c2) -> reads (os c2) = l ->
  arrived (reads (os c)) = d ++ arrived l -> after_data l = after_data (reads (os c)) ->
  read_out t1 c2 t' c' -> read_out t c t' c'.
Proof.
  intros Ho Hd Har Hin Hl Harr Haft (ds & c3 & Hg & Hrest). exists (d :: ds), c3.
  split; [by eapply given_cons|]. unfold ends_input, behind in *. rewrite Hl, Haft in Hrest. rewrite Harr. cbn [concat].
  destruct (isOpen c3); destruct Hrest as [Hcat Hrest]; split; [by rewrite Hcat|done|by apply prefix_app|done].
Qed.

Lemma given_up_to_cons t c d l c1 t1 c2 m :
  isOpen c = true -> d <> [] -> after_read c d l c1 -> onInput t c1 = Ret (t1, c2) -> reads (os c2) = l ->
  arrived (reads (os c)) = d ++ arrived l -> given_up_to t1 c2 m -> given_up_to t c m.
Proof.
  intros Ho Hd Har Hin Hl Harr (ds & d' & l' & t3 & c3 & c4 & Hg & Ho3 & Hd' & Har' & Hpre & Hm).
  exists (d :: ds), d', l', t3, c3, c4. split; [by eapply given_cons|]. split; [done|]. split; [done|]. split; [done|].
  split; [|done]. rewrite Harr. cbn [concat]. rewrite <- (assoc_L (++)). rewrite Hl in Hpre. by apply prefix_app.
Qed.

Context `{!Reader onInput}.

(** A call of [onPollIn], whatever the kernel answers. *)
Lemma onPollIn_ok fuel : forall t c,
  isOpen c = true -> sb_ok (incoming_ c) -> zlen (buf_ (incoming_ c)) <= 2 ^ 60 -> Forall read_answer_ok (reads (os c)) ->
  in_use_ (incoming_ c) + zlen (arrived (reads (os c))) <= 2 ^ 57 -> zlen (arrived (reads (os c))) < Z.of_nat fuel ->
  let m := onPollIn onInput fuel t c in
  match m with Ret (t', c') => read_out t c t' c' | _ => given_up_to t c m end.
Proof.
  induction fuel as [|fuel IH]; intros t c Ho Hb Hcap Hok Hsz Hf.
  { pose proof (zlen_nonneg (arrived (reads (os c)))). lia. }
  cbn [onPollIn]. destruct (sb_grow_ok (incoming_ c) Hb Hcap) as (b & Hg & Hb' & Hcn & Hu & Hroom). rewrite Hg. cbn [mbind outcome_bind].
  pose proof (zlen_nonneg (arrived (reads (os c)))) as Hpos. pose proof (sb_grow_capacity _ _ Hb Hcap ltac:(lia) Hg) as Hcap'.
  assert ((exists d rest, reads (os c) = Data d :: rest) \/ after_data (reads (os c)) = reads (os c)) as [(d0 & rest & Hr)|Hend]
    by (destruct (reads (os c)) as [|[d| | |] l]; [by right|left; by exists d, l|by right..]).
  - destruct (sys_read_data (with_incoming c b) (sb_tailroom b) d0 rest) as (d & l & -> & Hd & Hoct & Harr & Haft & Hokl);
      [done|lia|by rewrite <- Hr|done|].
    destruct (Z.ltb_spec 0 (zlen d)); [|lia].
    destruct (read_appends b d Hb' Hoct ltac:(lia) Hcap') as (buf & -> & Hzb & Hb2 & Hc2 & Hu2). cbn [mbind outcome_bind].
    set (b2 := sb_addTailContent (mk_StreamBuf (in_use_ b) buf) (zlen d)) in *. rewrite <- Hr in Harr.
    set (c1 := with_incoming (with_os (with_incoming c b) (with_reads (os (with_incoming c b)) l)) b2).
    assert (after_read c d l c1) as Hread by (exists b2; split; [done|split; [done|by rewrite Hc2, Hcn]]).
    assert (d <> []) as Hne by (intros ->; change (zlen (@nil Z)) with 0 in Hd; lia).
    assert (after_data l = after_data (reads (os c))) as Haft' by by rewrite Hr.
    destruct (onInput t c1) as [[t1 c2]|e|u] eqn:Hin; cbn [mbind outcome_bind].
    2, 3: exists [], d, l, t, c, c1; split; [constructor|]; split; [done|]; split; [done|]; split; [done|];
      split; [cbn [concat app]; rewrite Harr; by apply prefix_app_r|done].
    destruct (reader t c1 t1 c2 Hin) as [Hrd [Hcap2 Hfit]]. destruct (Hfit Hb2) as [Hb3 Hu3].
    assert (zlen (buf_ b2) = zlen (buf_ b)) as Hz2 by exact Hzb.
    change (reads (os c1)) with l in Hrd. change (incoming_ c1) with b2 in *. rewrite Harr, zlen_app in *.
    destruct (isOpen c2) eqn:Ho2.
    + specialize (IH t1 c2 Ho2 Hb3 ltac:(lia)). rewrite Hrd in IH. specialize (IH Hokl ltac:(lia) ltac:(lia)).
      cbv zeta in IH |- *. destruct (onPollIn onInput fuel t1 c2) as [[t' c']|e|u].
      * by eapply read_out_cons.
      * by eapply given_up_to_cons.
      * by eapply given_up_to_cons.
    + exists [d], c2. split; [by eapply given_cons, given_nil|]. rewrite Ho2. split; [|done].
      cbn [concat]. rewrite app_nil_r, Harr. by apply prefix_app_r.
  - destruct (sys_read_end (with_incoming c b) (sb_tailroom b) Ho Hend) as (r & -> & Hcase).
    assert (arrived (reads (os c)) = []) as Hnone.
    { destruct (reads (os c)) as [|[d| | |] l]; try done. exfalso. apply (f_equal length) in Hend. cbn in Hend.
      pose proof (after_data_length l). lia. }
    set (c1 := with_os (with_incoming c b) (with_reads (os (with_incoming c b)) (behind (reads (os (with_incoming c b)))))) in *.
    assert (after_read c [] (behind (reads (os c))) c1) as Hread by (exists b; split; [done|split; [done|by rewrite app_nil_r]]).
    change (reads (os (with_incoming c b))) with (reads (os c)) in *.
    assert (read_out t c t (if ends_input (reads (os c)) then close c1 else c1)) as Hout.
    { exists [], c. split; [constructor|]. rewrite Ho. split; [by rewrite Hnone|]. by exists c1. }
    destruct (ends_input (reads (os c))); [|by rewrite Hcase]. by destruct Hcase as [-> | ->].
Qed.

End receive.
