(* ===== verification/Headers.v ===== *)
(** Message headers: [StringUtils-inl.h], [Headers.cpp], [Message.h], and the
    standard headers that [Stream.cpp] adds. *)
From S2P Require Import Prelude.

(** ** Strings *)

Definition isLWS (c : Z) : bool := (c =? 32) || (c =? 9).

(** The loop of [trimTrailingLWS] from [i] down; the [i] it stops at. *)
Fixpoint trim_loop (s : list Z) (i : nat) : nat :=
  match i with
  | O => O
  | S i => if isLWS (nth i s 0) then trim_loop s i else i
  end.

Definition trimTrailingLWS (s : list Z) : list Z :=
  let initial_size := length s in
  let i := trim_loop s initial_size in
  let new_size := (i + 1)%nat in
  if (new_size =? initial_size)%nat then s else str_resize s (Z.of_nat i).

Fixpoint leading_whitespace (s : list Z) : nat :=
  match s with
  | [] => O
  | c :: s => if isLWS c then S (leading_whitespace s) else O
  end.

Definition trimLeadingLWS (s : list Z) : list Z := drop (leading_whitespace s) s.

Definition trimLWS (s : list Z) : list Z := trimLeadingLWS (trimTrailingLWS s).

(** [::tolower] in the C locale *)
Definition tolower (c : Z) : Z := if (65 <=? c) && (c <=? 90) then c + 32 else c.

Definition asciiLower (s : list Z) : list Z := map tolower s.

(** [ascii::CaseInsensitiveEqual] *)
Fixpoint CaseInsensitiveEqual (a b : list Z) : bool :=
  match a, b with
  | [], [] => true
  | l :: a, r :: b => (tolower l =? tolower r) && CaseInsensitiveEqual a b
  | _, _ => false
  end.

(** ** The multimap

    [std::unordered_multimap] keeps its elements in an order the standard leaves
    open, as it does which of several equivalent elements [find] returns:
    [place] and [find] are those choices. *)
Abbreviation header := (list Z * list Z)%type.

Class Multimap := {
  place : list header -> header -> list header;
  find : list header -> list Z -> option nat
}.

Class MultimapOk `{Multimap} := {
  place_perm l h : place l h ≡ₚ h :: l;
  find_some l name i :
    find l name = Some i -> exists h, l !! i = Some h /\ CaseInsensitiveEqual (fst h) name = true;
  find_none l name :
    find l name = None -> Forall (fun h => CaseInsensitiveEqual (fst h) name = false) l
}.

(** [class Headers] *)
Record Headers := mk_Headers { kv_ : list header }.

Definition no_header : header := ([], []).
Definition new_Headers : Headers := mk_Headers [].

Section headers.
Context `{Multimap}.

Definition Headers_add (h : Headers) (name value : list Z) : Headers := mk_Headers (place (kv_ h) (name, value)).

Definition Headers_remove (h : Headers) (name : list Z) : Headers :=
  mk_Headers (List.filter (fun e => negb (CaseInsensitiveEqual (fst e) name)) (kv_ h)).

Definition Headers_set (h : Headers) (name value : list Z) : Headers :=
  Headers_add (Headers_remove h name) name value.

Definition Headers_find (h : Headers) (name : list Z) : option header :=
  i ← find (kv_ h) name; kv_ h !! i.

Definition Headers_get (h : Headers) (name : list Z) : header :=
  match Headers_find h name with Some e => e | None => no_header end.

(** [operator+=] *)
Definition Headers_append (h headers : Headers) : Headers :=
  foldl (fun h e => Headers_add h (fst e) (snd e)) h (kv_ headers).

(** Position of the first [c] in [s] from [start] on: [std::string::find]. *)
Fixpoint find_char (c : Z) (s : list Z) : option nat :=
  match s with
  | [] => None
  | x :: s => if x =? c then Some O else S <$> find_char c s
  end.

(** One "name: value" string of the constructor. *)
Definition Headers_emplace_line (h : Headers) (hstr : list Z) : outcome Headers :=
  match find_char 58 hstr with
  | None => Throw (runtime_error "Malformed string header; ':' required")
  | Some col =>
      let value := drop (col + 1) hstr in
      let name := str_resize hstr (Z.of_nat col) in
      Ret (Headers_add h (trimLWS name) (trimLWS value))
  end.

Fixpoint Headers_of_strings (h : Headers) (headers : list (list Z)) : outcome Headers :=
  match headers with
  | [] => Ret h
  | hstr :: headers => h ← Headers_emplace_line h hstr; Headers_of_strings h headers
  end.

(** [std::to_string] *)
Fixpoint decimal_loop (fuel : nat) (n : Z) (acc : list Z) : list Z :=
  match fuel with
  | O => acc
  | S fuel =>
      let acc := (48 + n mod 10) :: acc in
      if n <? 10 then acc else decimal_loop fuel (n / 10) acc
  end.
Definition to_string (n : Z) : list Z := decimal_loop 20 n [].

Definition add_unless_present (h : Headers) (name value : list Z) : Headers :=
  match find (kv_ h) name with Some _ => h | None => Headers_add h name value end.

Definition setContentLength (h : Headers) (content_length : Z) : Headers :=
  add_unless_present h (str "content-length") (to_string content_length).

(** [Stream.cpp]; [now] is [Date::now()]. *)
Definition PRODUCT : list Z := str "Shitty".
Definition setDateHeader (now : list Z) (h : Headers) : Headers := add_unless_present h (str "date") now.
Definition setServerHeader (h : Headers) : Headers := add_unless_present h (str "server") PRODUCT.
Definition setGeneralServerHeaders (now : list Z) (h : Headers) : Headers :=
  setServerHeader (setDateHeader now h).
Definition setUserAgentHeader (h : Headers) : Headers := add_unless_present h (str "user-agent") PRODUCT.

End headers.

(** [class Message] *)
Record Message := mk_Message { body_ : list Z; headers_ : Headers }.
Definition new_Message : Message := mk_Message [] new_Headers.

(** [class Request], [class Response] *)
Record Request := mk_Request { message_ : Message; method_ : list Z; path_ : list Z }.
Record Response := mk_Response { message : Message; status_code_ : Z }.

(** One choice: elements in the order they came, [find] the first. *)
Fixpoint first_match (l : list header) (name : list Z) : option nat :=
  match l with
  | [] => None
  | h :: l => if CaseInsensitiveEqual (fst h) name then Some O else S <$> first_match l name
  end.

#[export] Instance in_order : Multimap := { place l h := l ++ [h]; find := first_match }.

(** ** The case-insensitive equality *)

Lemma CaseInsensitiveEqual_spec a b : CaseInsensitiveEqual a b = true <-> asciiLower a = asciiLower b.
Proof.
  revert b. induction a as [|x a IH]; intros [|y b]; cbn; try done.
  rewrite andb_true_iff, Z.eqb_eq, IH. split; [intros [??]; by f_equal|by intros [= ??]].
Qed.

Definition same_name (a b : list Z) : Prop := asciiLower a = asciiLower b.

#[export] Instance same_name_equivalence : Equivalence same_name.
Proof. split; unfold same_name; repeat intro; congruence. Qed.

#[export] Instance same_name_dec a b : Decision (same_name a b).
Proof. unfold same_name. apply _. Defined.

#[export] Instance CaseInsensitiveEqual_proper : Proper (same_name ==> same_name ==> eq) CaseInsensitiveEqual.
Proof.
  intros a a' Ha b b' Hb. apply eq_true_iff_eq. rewrite !CaseInsensitiveEqual_spec.
  unfold same_name in *. split; congruence.
Qed.

Lemma CaseInsensitiveEqual_refl a : CaseInsensitiveEqual a a = true.
Proof. by apply CaseInsensitiveEqual_spec. Qed.

#[export] Instance in_order_ok : MultimapOk.
Proof.
  split.
  - intros l h. cbn. by rewrite (comm (++)).
  - intros l name. cbn. induction l as [|h l IH]; intros i; cbn; [done|].
    destruct (CaseInsensitiveEqual (fst h) name) eqn:E; [intros [= <-]; by exists h|].
    destruct (first_match l name) as [j|] eqn:Ej; cbn; [|done]. intros [= <-]. by apply IH.
  - intros l name. cbn. induction l as [|h l IH]; cbn; [constructor|].
    destruct (CaseInsensitiveEqual (fst h) name) eqn:E; [done|].
    destruct (first_match l name) eqn:Ej; cbn; [done|]. intros _. constructor; [done|by apply IH].
Qed.

(** ** Trimming *)

Abbreviation white := (Forall (fun c => isLWS c = true)).

(** No white space at either end. *)
Definition solid (s : list Z) : Prop :=
  match head s, last s with
  | Some a, Some b => isLWS a = false /\ isLWS b = false
  | _, _ => True
  end.

Lemma trim_loop_white s r : white r -> trim_loop (s ++ r) (length (s ++ r)) = trim_loop (s ++ r) (length s).
Proof.
  intros Hr. induction r as [|c r IH] using rev_ind; [by rewrite app_nil_r|].
  apply Forall_app in Hr as [Hr Hc]. inversion Hc as [|? ? Hc1 _]; subst.
  rewrite (assoc_L (++)) in *. rewrite length_app, Nat.add_1_r. cbn [trim_loop].
  rewrite app_nth2, Nat.sub_diag by lia. cbn [nth]. rewrite Hc1.
  assert (forall i, (i <= length (s ++ r))%nat -> trim_loop ((s ++ r) ++ [c]) i = trim_loop (s ++ r) i) as Hext.
  { induction i as [|i IHi]; [done|]. intros Hi. cbn [trim_loop]. rewrite app_nth1 by lia. rewrite IHi by lia. done. }
  rewrite !Hext by (rewrite ?length_app; lia). by apply IH.
Qed.

Lemma trim_loop_solid s c : isLWS c = false -> forall r, trim_loop ((s ++ [c]) ++ r) (length (s ++ [c])) = length s.
Proof.
  intros Hc r. rewrite length_app, Nat.add_1_r. cbn [trim_loop]. rewrite <- (assoc_L (++)).
  rewrite app_nth2, Nat.sub_diag by lia. cbn. by rewrite Hc.
Qed.

Lemma trimTrailingLWS_solid s c r :
  isLWS c = false -> white r -> trimTrailingLWS (s ++ [c] ++ r) = match r with [] => s ++ [c] | _ => s end.
Proof.
  intros Hc Hr. unfold trimTrailingLWS. rewrite (assoc_L (++)), trim_loop_white by done.
  rewrite trim_loop_solid by done. rewrite !length_app. simpl length.
  destruct r as [|x r]; simpl length.
  - rewrite (proj2 (Nat.eqb_eq _ _)) by lia. by rewrite app_nil_r.
  - rewrite (proj2 (Nat.eqb_neq _ _)) by lia. unfold str_resize. rewrite Nat2Z.id, !length_app.
    replace (length s - _)%nat with 0%nat by (simpl; lia). rewrite <- (assoc_L (++)), take_app_length. apply app_nil_r.
Qed.

Lemma trimTrailingLWS_white s : white s -> white (trimTrailingLWS s) .
Proof.
  intros Hs. unfold trimTrailingLWS. pose proof (trim_loop_white [] s Hs) as H. cbn in H. rewrite H.
  destruct (_ =? _)%nat; [done|]. cbn. unfold str_resize. cbn. constructor.
Qed.

Lemma leading_white l s : white l -> leading_whitespace (l ++ s) = (length l + leading_whitespace s)%nat.
Proof. induction 1 as [|c l Hc _ IH]; cbn; [done|]. by rewrite Hc, IH. Qed.

Lemma trimLeadingLWS_white l s : white l -> trimLeadingLWS (l ++ s) = trimLeadingLWS s.
Proof. intros Hl. unfold trimLeadingLWS. rewrite leading_white by done. by rewrite <- drop_drop, drop_app_length. Qed.

(** What [trimLWS] makes of a string: with white space behind it, its last
    character is lost as well. *)
Lemma trimLWS_cases l mid r :
  white l -> white r -> solid mid ->
  trimLWS (l ++ mid ++ r) = match r with [] => mid | _ => removelast mid end.
Proof.
  intros Hl Hr Hm. unfold trimLWS.
  destruct mid as [|c0 mid'] using rev_ind; [|clear IHmid'].
  - cbn [app]. assert (white (l ++ r)) as Hw by by apply Forall_app.
    rewrite <- (app_nil_r (trimTrailingLWS (l ++ r))), trimLeadingLWS_white by by apply trimTrailingLWS_white.
    by destruct r.
  - unfold solid in Hm. rewrite last_snoc in Hm. destruct (mid' ++ [c0]) as [|a t] eqn:E; [by destruct mid'|].
    cbn [head] in Hm. destruct Hm as [Ha Hc]. rewrite <- E.
    replace (l ++ (mid' ++ [c0]) ++ r) with ((l ++ mid') ++ [c0] ++ r) by by rewrite <- !(assoc_L (++)).
    rewrite trimTrailingLWS_solid by done.
    assert (forall t, trimLeadingLWS (a :: t) = a :: t) as Hsolid.
    { intros u. unfold trimLeadingLWS. cbn. by rewrite Ha. }
    destruct r as [|x r].
    + rewrite <- (assoc_L (++)), trimLeadingLWS_white, E by done. apply Hsolid.
    + rewrite trimLeadingLWS_white, removelast_last by done.
      destruct mid' as [|a' mid']; [done|]. injection E as <- _. apply Hsolid.
Qed.

(** [trimLWS] on any string, taken apart as white space, text and white
    space.  The white space in front always goes.  When there is some behind the
    text it goes too, and the last character of the text with it; otherwise the
    text is kept whole. *)
Theorem trimLWS_correct l mid r :
  white l -> white r -> solid mid ->
  trimLWS (l ++ mid ++ r) = if bool_decide (r = []) then mid else removelast mid.
Proof. intros. rewrite trimLWS_cases by done. by destruct r. Qed.

Lemma trimLWS_correct_witness :
  trimLWS (str "  " ++ str "keep alive" ++ str " ")
  = if bool_decide (str " " = []) then str "keep alive" else removelast (str "keep alive").
Proof. apply trimLWS_correct; [repeat constructor..|done]. Defined.

(** ** Headers as a map from names to values *)

Section named.
Context `{MM : Multimap} `{!MultimapOk}.

(** The elements of that name, whatever the case. *)
Definition named (h : Headers) (name : list Z) : list header :=
  filter (fun e => same_name (fst e) name) (kv_ h).

Lemma named_add h n v m :
  named (Headers_add h n v) m ≡ₚ (if bool_decide (same_name n m) then [(n, v)] else []) ++ named h m.
Proof.
  unfold named, Headers_add. cbn [kv_]. rewrite place_perm, filter_cons. cbn [fst]. case_decide; case_bool_decide; done.
Qed.

Lemma named_remove h n m :
  named (Headers_remove h n) m = if bool_decide (same_name n m) then [] else named h m.
Proof.
  unfold named, Headers_remove. cbn [kv_]. induction (kv_ h) as [|[k v] l IH]; cbn [List.filter fst].
  { by case_bool_decide. }
  destruct (CaseInsensitiveEqual k n) eqn:E; cbn [negb].
  - apply CaseInsensitiveEqual_spec in E. rewrite IH, filter_cons. cbn [fst].
    case_bool_decide as Hnm; [done|]. rewrite decide_False; [done|]. intros Hkm. apply Hnm.
    unfold same_name in *. congruence.
  - rewrite !filter_cons, IH. cbn [fst]. case_bool_decide as Hnm; [|done].
    rewrite decide_False; [done|]. intros Hkm. apply not_true_iff_false in E. apply E, CaseInsensitiveEqual_spec.
    unfold same_name in *. congruence.
Qed.

Lemma Headers_find_cases h m :
  match Headers_find h m with Some e => e ∈ named h m | None => named h m = [] end.
Proof.
  unfold Headers_find, named. destruct (find (kv_ h) m) as [i|] eqn:E; cbn.
  - apply find_some in E as (e & Hi & He). rewrite Hi. apply list_elem_of_filter. split.
    + by apply CaseInsensitiveEqual_spec.
    + by eapply list_elem_of_lookup_2.
  - apply find_none in E. induction E as [|e l He _ IH]; [done|]. rewrite filter_cons, decide_False; [done|].
    intros Hs%CaseInsensitiveEqual_spec. congruence.
Qed.

Lemma named_set h n v m :
  named (Headers_set h n v) m ≡ₚ if bool_decide (same_name n m) then [(n, v)] else named h m.
Proof. unfold Headers_set. rewrite named_add, named_remove. by case_bool_decide. Qed.

(** C16: [Headers] is a map from names, compared without case, to collections of
    values, whichever order the container keeps its elements in.  Adding adds one
    value to its name, setting leaves exactly the one value, removing none, all
    without touching another name; [get] gives one of the values the name has,
    and [no_header] when there is none. *)
Theorem headers_are_a_map h n v m :
  named (Headers_add h n v) m ≡ₚ (if bool_decide (same_name n m) then [(n, v)] else []) ++ named h m /\
  named (Headers_set h n v) m ≡ₚ (if bool_decide (same_name n m) then [(n, v)] else named h m) /\
  named (Headers_remove h n) m = (if bool_decide (same_name n m) then [] else named h m) /\
  (if bool_decide (named h m = []) then Headers_get h m = no_header else Headers_get h m ∈ named h m).
Proof.
  split; [apply named_add|]. split; [apply named_set|]. split; [apply named_remove|].
  unfold Headers_get. pose proof (Headers_find_cases h m) as Hf. destruct (Headers_find h m) as [e|].
  - rewrite bool_decide_eq_false_2; [done|]. intros Hn. rewrite Hn in Hf. by apply not_elem_of_nil in Hf.
  - by rewrite bool_decide_eq_true_2.
Qed.

(** A header that is added unless its name is there already is there. *)
Lemma named_add_unless_present h n v m :
  named (add_unless_present h n v) m
  ≡ₚ if bool_decide (same_name n m /\ named h m = []) then [(n, v)] else named h m.
Proof.
  unfold add_unless_present. pose proof (Headers_find_cases h n) as Hf. unfold Headers_find in Hf.
  destruct (find (kv_ h) n) as [i|] eqn:E; cbn in Hf.
  - assert (named h n <> []) as Hne.
    { apply find_some in E as (e & Hi & _). rewrite Hi in Hf. intros Hn. rewrite Hn in Hf. by apply not_elem_of_nil in Hf. }
    case_bool_decide as Hb; [|done]. destruct Hb as [Hs Hn]. exfalso. apply Hne. revert Hn. unfold named.
    intros Hn. rewrite <- Hn. apply list_filter_iff. intros e. split; intros; by etrans.
  - rewrite named_add. case_bool_decide as H1; case_bool_decide as H2; try done.
    + destruct H2 as [_ ->]. done.
    + exfalso. apply H2. split; [done|]. rewrite <- Hf. unfold named. apply list_filter_iff. intros e.
      split; intros; etrans; done || by symmetry.
    + by destruct H2.
Qed.

End named.

Lemma headers_are_a_map_witness :
  let h := mk_Headers [(str "Host", str "a"); (str "Accept", str "x"); (str "accept", str "y")] in
  Headers_get (Headers_set h (str "ACCEPT") (str "z")) (str "accept") = (str "ACCEPT", str "z") /\
  named (Headers_add h (str "host") (str "b")) (str "HOST") ≡ₚ
    (if bool_decide (same_name (str "host") (str "HOST")) then [(str "host", str "b")] else []) ++ named h (str "HOST") /\
  named (Headers_set h (str "host") (str "b")) (str "HOST") ≡ₚ
    (if bool_decide (same_name (str "host") (str "HOST")) then [(str "host", str "b")] else named h (str "HOST")) /\
  named (Headers_remove h (str "host")) (str "HOST")
    = (if bool_decide (same_name (str "host") (str "HOST")) then [] else named h (str "HOST")) /\
  (if bool_decide (named h (str "HOST") = []) then Headers_get h (str "HOST") = no_header
   else Headers_get h (str "HOST") ∈ named h (str "HOST")).
Proof.
  split; [vm_compute; reflexivity|].
  apply (headers_are_a_map
           (mk_Headers [(str "Host", str "a"); (str "Accept", str "x"); (str "accept", str "y")])
           (str "host") (str "b") (str "HOST")).
Defined.
