(* ===== verification/Http2.v ===== *)
(** The HTTP/2 server connection: [http2/ServerTransport.cpp] and
    [http2/ServerStream.cpp], over any connection that is a [Sender]. *)
From stdpp Require Import gmap pretty.
From S2P Require Import Prelude StreamBuf Sender HpackHeader HpackTable HpackDecode Headers HuffCode Frame Settings.

(** [http2/Protocol.h] *)
Definition CLIENT_PREFACE : list Z :=
  [0x50; 0x52; 0x49; 0x20; 0x2a; 0x20; 0x48; 0x54;
   0x54; 0x50; 0x2f; 0x32; 0x2e; 0x30; 0x0d; 0x0a;
   0x0d; 0x0a; 0x53; 0x4d; 0x0d; 0x0a; 0x0d; 0x0a].

(** ** Streams: [http2/ServerStream.h] *)

Inductive StreamState :=
  | Idle | ReservedLocal | ReservedRemote | Open | HalfClosedLocal | HalfClosedRemote | Closed.

#[export] Instance StreamState_eq_dec : EqDecision StreamState.
Proof. solve_decision. Defined.

Record ServerStream := mk_ServerStream {
  id_ : Z;
  stream_windowSize_ : Z;
  state_ : StreamState;
  request_ : Message
}.

Definition new_ServerStream (id : Z) : outcome ServerStream :=
  if 0x7fffffff <? id then Throw (runtime_error "stream id too big")
  else Ret (mk_ServerStream id 65535 Idle new_Message).

Definition with_window (st : ServerStream) (w : Z) : ServerStream :=
  mk_ServerStream (id_ st) w (state_ st) (request_ st).
Definition with_request (st : ServerStream) (m : Message) : ServerStream :=
  mk_ServerStream (id_ st) (stream_windowSize_ st) (state_ st) m.
Definition setState (st : ServerStream) (s : StreamState) : ServerStream :=
  mk_ServerStream (id_ st) (stream_windowSize_ st) s (request_ st).

(** What a [runtime_error] caught and thrown again says. *)
Definition rethrow {A} (prefix : string) (m : outcome A) : outcome A :=
  match m with
  | Throw (runtime_error what) => Throw (runtime_error (prefix ++ what))
  | _ => m
  end.

Definition ServerStream_addWindowSize (st : ServerStream) (windowSize : Z) : outcome ServerStream :=
  w ← rethrow "stream error: " (addWindowSize (stream_windowSize_ st) windowSize);
  Ret (with_window st w).

Definition subtractWindowSize (st : ServerStream) (adjustment : Z) : outcome ServerStream :=
  let w := stream_windowSize_ st in
  if (w <? 0) && (u32 (Z.abs w) <? adjustment) || (INT32_MAX <? adjustment)
  then Throw (runtime_error "window size reduction too large")
  else if w - adjustment <? INT32_MIN then Undef SignedOverflow
  else Ret (with_window st (w - adjustment)).

(** ** The connection: [ServerTransport::Impl] *)

Record Impl := mk_Impl {
  localSettings_ : Settings;
  peerSettings_ : Settings;
  headerDecoder_ : HeaderTable;
  streams_ : gmap Z ServerStream;
  currentFrameHeader_ : option FrameHeader;
  windowSize_ : Z;
  prefaceReceived_ : bool;
  windowUpdateReceived_ : bool
}.

Definition with_peer (s : Impl) (peer : Settings) (w : Z) : Impl :=
  mk_Impl (localSettings_ s) peer (headerDecoder_ s) (streams_ s) (currentFrameHeader_ s) w
    (prefaceReceived_ s) (windowUpdateReceived_ s).
Definition with_decoder (s : Impl) (t : HeaderTable) : Impl :=
  mk_Impl (localSettings_ s) (peerSettings_ s) t (streams_ s) (currentFrameHeader_ s) (windowSize_ s)
    (prefaceReceived_ s) (windowUpdateReceived_ s).
Definition with_streams (s : Impl) (m : gmap Z ServerStream) : Impl :=
  mk_Impl (localSettings_ s) (peerSettings_ s) (headerDecoder_ s) m (currentFrameHeader_ s) (windowSize_ s)
    (prefaceReceived_ s) (windowUpdateReceived_ s).
Definition with_current (s : Impl) (h : option FrameHeader) : Impl :=
  mk_Impl (localSettings_ s) (peerSettings_ s) (headerDecoder_ s) (streams_ s) h (windowSize_ s)
    (prefaceReceived_ s) (windowUpdateReceived_ s).
Definition with_windowSize (s : Impl) (w : Z) : Impl :=
  mk_Impl (localSettings_ s) (peerSettings_ s) (headerDecoder_ s) (streams_ s) (currentFrameHeader_ s) w
    (prefaceReceived_ s) true.
Definition with_preface (s : Impl) : Impl :=
  mk_Impl (localSettings_ s) (peerSettings_ s) (headerDecoder_ s) (streams_ s) (currentFrameHeader_ s)
    (windowSize_ s) true (windowUpdateReceived_ s).

Section transport.
Context {C : Type} `{Sender C} `{Multimap}.
(** Whether [char] is signed, and what the array of a new payload holds. *)
Context (char_signed : bool) (raw : list Z).
(** github.com/tedjp/fb64: the length and the result of decoding base64. *)
Context (fb64_decoded_size_nopad : Z -> Z) (fb64_decode : list Z -> option (list Z)).

(** *** Sending *)

Definition writeFrame (frameHeader : FrameHeader) (data : list Z) (c : C) : outcome C :=
  send_payload raw c [frame_octets (set_length frameHeader (zlen data)); data].

Definition writeHeadersFrame (frame : HeadersFrame) (c : C) : outcome C :=
  send_payload raw c [frame_octets (frameHeader_ frame); headerBlockFragment_ frame; padding_ frame].

Definition ackSettings (c : C) : outcome C :=
  send_payload raw c [frame_octets (set_flag (new_FrameHeader SETTINGS) 0 true)].

Definition sendPingResponse (data : list Z) (c : C) : outcome C :=
  send_payload raw c [frame_octets (set_length (set_flag (new_FrameHeader PING) 0 true) (zlen data)); data].

Definition sendPreface (c : C) : outcome C :=
  let settingsFrame := [0x00; 0x00; 0x00; 0x04; 0x00; 0x00; 0x00; 0x00; 0x00] in
  send c settingsFrame 9.

Definition sendResponse (st : ServerStream) (response : Response) (c : C) : outcome C :=
  let headers := new_HeadersFrame (id_ st) in
  let headers := setHeaderBlockFragment headers [0x88] in
  let headers := setEndStream headers true in
  writeHeadersFrame headers c.

Definition ServerStream_onRequest (st : ServerStream) (request : Request) (c : C) : outcome C :=
  sendResponse st (mk_Response new_Message 200) c.

(** *** Construction *)

Definition decodeBase64Settings (b64encoded : list Z) : outcome Settings :=
  let decodedLen := fb64_decoded_size_nopad (zlen b64encoded) in
  if 128 <? decodedLen then Throw (runtime_error "excessive HTTP2-Settings length")
  else
    match fb64_decode b64encoded with
    | None => Throw (runtime_error "HTTP2-Settings decode error")
    | Some decoded => d ← arr_slice decoded 0 decodedLen; createFromBuffer char_signed d
    end.

Definition initialize (s : Impl) (c : C) : outcome (Impl * C) :=
  l ← Settings_set (localSettings_ s) EnablePush 0;
  st ← new_ServerStream 1;
  c ← sendPreface c;
  Ret (mk_Impl l (peerSettings_ s) (headerDecoder_ s) (<[1 := st]> (streams_ s)) (currentFrameHeader_ s)
         (windowSize_ s) (prefaceReceived_ s) (windowUpdateReceived_ s), c).

Definition new_Impl (http2Settings : option (list Z)) (c : C) : outcome (Impl * C) :=
  let s := mk_Impl default_Settings default_Settings new_DynamicTable ∅ None 65535 false false in
  peer ← match http2Settings with
         | Some v => decodeBase64Settings v
         | None => Ret (peerSettings_ s)
         end;
  initialize (with_peer s peer (windowSize_ s)) c.

(** *** Requests *)

Definition getHeaderValue (headers : Headers) (name : list Z) : list Z := snd (Headers_get headers name).
Definition getMethod (headers : Headers) : list Z := getHeaderValue headers (str ":method").
Definition getPath (headers : Headers) : list Z := getHeaderValue headers (str ":path").

Definition getStream (s : Impl) (id : Z) : outcome ServerStream :=
  match streams_ s !! id with
  | Some st => Ret st
  | None => Throw (runtime_error "No such stream")
  end.

Definition Impl_dispatch (st : ServerStream) (c : C) : outcome C :=
  let method := getMethod (headers_ (request_ st)) in
  let path := getPath (headers_ (request_ st)) in
  ServerStream_onRequest st (mk_Request (request_ st) method path) c.

Definition endStream (s : Impl) (streamId : Z) : Impl := with_streams s (delete streamId (streams_ s)).

(** *** Frames *)

Definition receivePing (header : FrameHeader) (s : Impl) (c : C) (buf : StreamBuf) : outcome (Impl * C * StreamBuf) :=
  if isPingACK header then Ret (s, c, buf)
  else if negb (fh_streamId header =? 0) then Throw (runtime_error ("Non-zero stream ID " ++ pretty (fh_streamId header) ++ " in PING"))
  else if negb (fh_length header =? 8) then Throw (runtime_error ("Incorrect PING payload size " ++ pretty (fh_length header)))
  else if sb_size buf <? 8 then Ret (s, c, buf)
  else
    data ← arr_slice (buf_ buf) 0 8;
    c ← sendPingResponse data c;
    buf ← sb_advance buf 8;
    Ret (s, c, buf).

Definition receiveResetStream (header : FrameHeader) (s : Impl) (c : C) (buf : StreamBuf)
    : outcome (Impl * C * StreamBuf) :=
  if negb (fh_length header =? 4) then Throw (runtime_error "RST_STREAM wrong size")
  else if fh_streamId header =? 0 then Throw (runtime_error "Invalid RST_STREAM stream id 0")
  else
    errorCode ← arr_slice (buf_ buf) 0 4;
    Ret (endStream s (fh_streamId header), c, buf).

Definition receiveSettings (header : FrameHeader) (s : Impl) (c : C) (buf : StreamBuf)
    : outcome (Impl * C * StreamBuf) :=
  if isSettingsACK header then Ret (s, c, buf)
  else
    data ← arr_slice (buf_ buf) 0 (fh_length header);
    peer ← createFromBuffer char_signed data;
    w ← (if windowUpdateReceived_ s then Ret (windowSize_ s) else Settings_value peer InitialWindowSize);
    let s := with_peer s peer w in
    c ← ackSettings c;
    Ret (s, c, buf).

Definition receiveData (header : FrameHeader) (s : Impl) (c : C) (buf : StreamBuf)
    : outcome (Impl * C * StreamBuf) :=
  if fh_streamId header =? 0 then Throw (runtime_error "connection_error PROTOCOL_ERROR")
  else
    st ← getStream s (fh_streamId header);
    if bool_decide (state_ st <> Open) && bool_decide (state_ st <> HalfClosedLocal)
    then Throw (runtime_error "stream_error STREAM_CLOSED")
    else
      st ← subtractWindowSize st (fh_length header);
      '(length, buf) ←
        (if DataFrame_isPadded header then
           if (fh_length header =? 0) || sb_isEmpty buf then Throw (runtime_error "Empty padded data frame")
           else
             charPadLength ← (buf_ buf).[0];
             buf ← sb_advance buf 1;
             let padLength := u8 charPadLength in
             if fh_length header <? padLength
             then Throw (runtime_error "Padding length exceeds DATA frame size")
             else Ret (fh_length header - padLength, buf)
         else Ret (fh_length header, buf));
      data ← arr_slice (buf_ buf) 0 length;
      let st := with_request st (mk_Message (body_ (request_ st) ++ data) (headers_ (request_ st))) in
      c ← Impl_dispatch st c;
      Ret (endStream s (id_ st), c, buf).

Definition receiveHeaders (header : FrameHeader) (s : Impl) (c : C) (buf : StreamBuf)
    : outcome (Impl * C * StreamBuf) :=
  _ ← c_assert (fh_length header <=? sb_size buf);
  block ← arr_slice (buf_ buf) 0 (fh_length header);
  '(headers, t) ← parseHeaders (headerDecoder_ s) block;
  let s := with_decoder s t in
  st ← match streams_ s !! fh_streamId header with
       | Some st => Ret st
       | None => new_ServerStream (fh_streamId header)
       end;
  let s := with_streams s (<[fh_streamId header := st]> (streams_ s)) in
  let hs := foldl (fun hs h => Headers_add hs (name_ h) (value_ h)) (headers_ (request_ st)) headers in
  let st := with_request st (mk_Message (body_ (request_ st)) hs) in
  c ← Impl_dispatch st c;
  Ret (endStream s (id_ st), c, buf).

Definition readWindowSize (buf : StreamBuf) : outcome Z :=
  d0 ← (buf_ buf).[0]; d1 ← (buf_ buf).[1]; d2 ← (buf_ buf).[2]; d3 ← (buf_ buf).[3];
  let windowSize :=
    u32 (Z.lor (Z.lor (Z.lor (i32 (Z.shiftl d0 24)) (Z.shiftl d1 16)) (Z.shiftl d2 8)) d3) in
  Ret (i32 (Z.land windowSize 0x7fffffff)).

Definition addConnectionWindowSize (s : Impl) (windowSize : Z) : outcome Impl :=
  w ← rethrow "connection error: " (addWindowSize (i32 (windowSize_ s)) windowSize);
  Ret (with_windowSize s (u32 w)).

Definition addStreamWindowSize (s : Impl) (streamId windowSize : Z) : outcome Impl :=
  match streams_ s !! streamId with
  | Some st =>
      st ← ServerStream_addWindowSize st windowSize;
      Ret (with_streams s (<[streamId := st]> (streams_ s)))
  | None => Ret s
  end.

Definition receiveWindowUpdate (header : FrameHeader) (s : Impl) (c : C) (buf : StreamBuf)
    : outcome (Impl * C * StreamBuf) :=
  if negb (fh_length header =? 4) then Throw (runtime_error "WINDOW_UPDATE wrong size")
  else
    windowSize ← readWindowSize buf;
    s ← (if fh_streamId header =? 0 then addConnectionWindowSize s windowSize
         else addStreamWindowSize s (fh_streamId header) windowSize);
    Ret (s, c, buf).

Definition receiveBody (header : FrameHeader) (s : Impl) (c : C) (buf : StreamBuf)
    : outcome (Impl * C * StreamBuf) :=
  let type := fh_type header in
  if type =? DATA then receiveData header s c buf
  else if type =? HEADERS then receiveHeaders header s c buf
  else if type =? PING then receivePing header s c buf
  else if type =? RST_STREAM then receiveResetStream header s c buf
  else if type =? SETTINGS then receiveSettings header s c buf
  else if type =? WINDOW_UPDATE then receiveWindowUpdate header s c buf
  else Ret (s, c, buf).

Definition processFrameBody (s : Impl) (c : C) (buf : StreamBuf) : outcome (Impl * C * StreamBuf) :=
  match currentFrameHeader_ s with
  | None => Undef AssertionFailed
  | Some header =>
      if sb_size buf <? fh_length header then Ret (s, c, buf)
      else
        '(s, c, buf) ← receiveBody header s c buf;
        buf ← sb_advance buf (fh_length header);
        Ret (with_current s None, c, buf)
  end.

Definition receiveFrameHeader (s : Impl) (buf : StreamBuf) : outcome (Impl * StreamBuf) :=
  _ ← c_assert (bool_decide (currentFrameHeader_ s = None));
  if sb_size buf <? FrameHeader_SIZE then Ret (s, buf)
  else
    '(h, buf) ← readFrameHeader char_signed buf;
    Ret (with_current s (Some h), buf).

Definition receiveFrame (s : Impl) (c : C) (buf : StreamBuf) : outcome (bool * (Impl * C * StreamBuf)) :=
  '(s, buf) ← match currentFrameHeader_ s with
              | None => receiveFrameHeader s buf
              | Some _ => Ret (s, buf)
              end;
  match currentFrameHeader_ s with
  | None => Ret (false, (s, c, buf))
  | Some header =>
      if sb_size buf <? fh_length header then Ret (false, (s, c, buf))
      else
        r ← processFrameBody s c buf;
        Ret (true, r)
  end.

Fixpoint frames_loop (fuel : nat) (s : Impl) (c : C) (buf : StreamBuf) : outcome (Impl * C * StreamBuf) :=
  match fuel with
  | O => Undef OutOfFuel
  | S fuel =>
      '(moreToProcess, (s, c, buf)) ← receiveFrame s c buf;
      if moreToProcess && negb (sb_isEmpty buf) then frames_loop fuel s c buf else Ret (s, c, buf)
  end.

(** A frame takes nine octets of the buffer, except one whose header was read
    before. *)
Definition receiveFrames (s : Impl) (c : C) (buf : StreamBuf) : outcome (Impl * C * StreamBuf) :=
  frames_loop (S (S (Z.to_nat (sb_size buf)))) s c buf.

Definition receivePreface (s : Impl) (c : C) (buf : StreamBuf) : outcome (Impl * C * StreamBuf) :=
  if sb_size buf <? zlen CLIENT_PREFACE then Ret (s, c, buf)
  else
    start ← arr_slice (buf_ buf) 0 (zlen CLIENT_PREFACE);
    if negb (bool_decide (start = CLIENT_PREFACE)) then Throw (runtime_error "Invalid connection preface")
    else
      let s := with_preface s in
      buf ← sb_advance buf (zlen CLIENT_PREFACE);
      receiveFrames s c buf.

Definition Impl_onInput (s : Impl) (c : C) (buf : StreamBuf) : outcome (Impl * C * StreamBuf) :=
  '(s, c, buf) ← (if prefaceReceived_ s then Ret (s, c, buf) else receivePreface s c buf);
  receiveFrames s c buf.

End transport.
