(* ===== verification/Http2Spec.v ===== *)
(** What the HTTP/2 server connection does with a sequence of frames, however
    the octets arrive, and that it is safe on any octets. *)
From stdpp Require Import gmap pretty.
From S2P Require Import Prelude StreamBuf Sender HpackHeader HpackTable HpackDecode Headers HuffCode Frame Settings Http2.

(** ** Frames *)

Inductive body :=
  | BData (payload : list Z)
  | BHeaders (block : list field_repr)
  | BReset (code : Z)
  | BSettings (settings : list (Z * Z))
  | BPing (payload : list Z)
  | BWindowUpdate (increment : Z)
  | BOther (type : Z) (payload : list Z).

Record frame := mk_frame { f_flags : Z; f_reserved : Z; f_id : Z; f_body : body }.

Definition body_type (b : body) : Z :=
  match b with
  | BData _ => DATA
  | BHeaders _ => HEADERS
  | BReset _ => RST_STREAM
  | BSettings _ => SETTINGS
  | BPing _ => PING
  | BWindowUpdate _ => WINDOW_UPDATE
  | BOther type _ => type
  end.

Definition payload (f : frame) : list Z :=
  match f_body f with
  | BData p | BPing p | BOther _ p => p
  | BHeaders rs => concat (map repr_octets rs)
  | BReset code => to_be 4 code
  | BSettings kvs => concat (map setting_wire kvs)
  | BWindowUpdate n => to_be 4 n
  end.

Definition header_of (f : frame) : FrameHeader :=
  mk_FrameHeader (zlen (payload f)) (body_type (f_body f)) (f_flags f) (f_reserved f) (f_id f).

Definition frame_wire (f : frame) : list Z := header_wire (header_of f) ++ payload f.

Definition ack (f : frame) : bool := Z.testbit (f_flags f) 0.

(** The frames the theorems speak of: what the wire can carry, the header such
    that it is read as it was sent, PING only as an acknowledgement (the others
    are dealt with by [ping_loses_input]). *)
Record frame_ok (char_signed : bool) (f : frame) : Prop := mk_frame_ok {
  fo_header : header_ok (header_of f);
  fo_clean : char_signed = false \/ clean (header_of f) = true;
  fo_payload : octets (payload f);
  fo_body : match f_body f with
            | BHeaders rs => Forall repr_ok rs
            | BReset code => 0 <= code < 2 ^ 32
            | BPing _ => ack f = true
            | BWindowUpdate n => 0 <= n < 2 ^ 32
            | BOther type _ => type ∉ [DATA; HEADERS; RST_STREAM; SETTINGS; PING; WINDOW_UPDATE]
            | _ => True
            end
}.

(** The replies: an acknowledgement of SETTINGS, and a HEADERS frame with
    END_HEADERS and END_STREAM that holds ":status: 200". *)
Definition settings_ack : list Z := header_wire (mk_FrameHeader 0 SETTINGS 1 0 0).
Definition response_200 (id : Z) : list Z := header_wire (mk_FrameHeader 1 HEADERS 5 0 id) ++ [0x88].

(** A window opened by a WINDOW_UPDATE. *)
Definition open_window (who : string) (window increment : Z) : outcome Z :=
  if increment <? 1 then Throw (runtime_error (who ++ " error: invalid window update"))
  else if INT32_MAX <? window + increment then Throw (runtime_error (who ++ " error: window size overflow"))
  else Ret (window + increment).

(** What a frame does: the state behind it and the reply. *)
Definition apply_frame (char_signed : bool) (s : Impl) (f : frame) : outcome (Impl * list Z) :=
  match f_body f with
  | BData _ =>
      if f_id f =? 0 then Throw (runtime_error "connection_error PROTOCOL_ERROR")
      else if bool_decide (is_Some (streams_ s !! f_id f))
      then Throw (runtime_error "stream_error STREAM_CLOSED")
      else Throw (runtime_error "No such stream")
  | BHeaders rs =>
      '(_, t) ← reprs_apply (headerDecoder_ s) rs [];
      Ret (endStream (with_decoder s t) (f_id f), response_200 (f_id f))
  | BReset _ =>
      if f_id f =? 0 then Throw (runtime_error "Invalid RST_STREAM stream id 0")
      else Ret (endStream s (f_id f), [])
  | BSettings kvs =>
      if ack f then Ret (s, [])
      else
        let peer := foldl (apply_setting char_signed) default_Settings kvs in
        let w := if windowUpdateReceived_ s then windowSize_ s else nth 3 peer 0 in
        Ret (with_peer s peer w, settings_ack)
  | BWindowUpdate n =>
      let increment := n mod 2 ^ 31 in
      if f_id f =? 0 then
        w ← open_window "connection" (i32 (windowSize_ s)) increment; Ret (with_windowSize s (u32 w), [])
      else
        match streams_ s !! f_id f with
        | Some st =>
            w ← open_window "stream" (stream_windowSize_ st) increment;
            Ret (with_streams s (<[f_id f := with_window st w]> (streams_ s)), [])
        | None => Ret (s, [])
        end
  | BPing _ | BOther _ _ => Ret (s, [])
  end.

Fixpoint apply_frames (char_signed : bool) (s : Impl) (fs : list frame) : outcome (Impl * list Z) :=
  match fs with
  | [] => Ret (s, [])
  | f :: fs =>
      '(s, out1) ← apply_frame char_signed s f;
      '(s, out2) ← apply_frames char_signed s fs;
      Ret (s, out1 ++ out2)
  end.

(** What is read but not processed: the header of a frame whose payload has not
    arrived, and what is in the buffer. *)
Definition unread (s : Impl) (buf : StreamBuf) : list Z :=
  match currentFrameHeader_ s with Some h => header_wire h | None => [] end ++ content buf.

(** The beginning of a frame, not all of it. *)
Definition partial_frame (char_signed : bool) (p : list Z) : Prop :=
  exists f rest, frame_ok char_signed f /\ frame_wire f = p ++ rest /\ rest <> [].

(** ** The invariant *)

Record stream_ok (id : Z) (st : ServerStream) : Prop := mk_stream_ok {
  st_id : id_ st = id;
  st_range : 0 <= id < 2 ^ 31;
  st_window : INT32_MIN <= stream_windowSize_ st <= INT32_MAX;
  st_idle : state_ st = Idle
}.

Record impl_ok (s : Impl) : Prop := mk_impl_ok {
  io_local : settings_ok (localSettings_ s);
  io_peer : settings_ok (peerSettings_ s);
  io_streams : map_Forall stream_ok (streams_ s);
  io_window : 0 <= windowSize_ s < 2 ^ 32;
  io_current : match currentFrameHeader_ s with Some h => header_ok h | None => True end
}.

(** ** Numbers on the wire *)

Lemma be_4 a b c d : octet a -> octet b -> octet c -> octet d ->
  Z.lor (Z.lor (Z.lor (Z.shiftl a 24) (Z.shiftl b 16)) (Z.shiftl c 8)) d = be [a; b; c; d].
Proof.
  intros Ha Hb Hc Hd. pose proof (read_4 false a b c d Ha Hb Hc Hd) as H.
  unfold char_u32, char_value, received_number, octet in *. rewrite !Z.shiftl_mul_pow2 in * by lia.
  rewrite (wrap_small 32 a), (wrap_small 32 b), (wrap_small 32 c), (wrap_small 32 d) in H by lia.
  by rewrite !(wrap_small 32) in H by lia.
Qed.

Lemma wrap_swrap w z : wrap w (swrap w z) = wrap w z.
Proof. unfold wrap, swrap. rewrite Zminus_mod_idemp_l. f_equal. lia. Qed.

Lemma wrap_wrap_le w v z : 0 <= w <= v -> wrap w (wrap v z) = wrap w z.
Proof.
  intros Hw. apply Z.bits_inj'. intros i Hi. rewrite !testbit_wrap by lia.
  destruct (Z.ltb_spec i w), (Z.ltb_spec i v); lia || done.
Qed.

Lemma wrap_lor w a b : 0 <= w -> wrap w (Z.lor a b) = Z.lor (wrap w a) (wrap w b).
Proof.
  intros Hw. apply Z.bits_inj'. intros i Hi. rewrite Z.lor_spec, !testbit_wrap, Z.lor_spec by lia.
  by destruct (i <? w).
Qed.

Lemma wrap_i32 z : wrap 31 (i32 z) = wrap 31 z.
Proof. rewrite <- (wrap_wrap_le 31 32), wrap_swrap by lia. apply wrap_wrap_le. lia. Qed.

Lemma header_wire_inj h k : header_ok h -> header_ok k -> header_wire h = header_wire k -> h = k.
Proof.
  intros Hh Hk Heq. rewrite <- (received_clean false h), <- (received_clean false k) by (done || by left).
  unfold received, received_number. unfold header_wire in Heq.
  apply app_inj_1 in Heq as [H3 Heq]; [|done].
  apply app_inj_1 in Heq as [H2 H4]; [|done]. injection H2 as Ht Hf. by rewrite H3, H4, Ht, Hf.
Qed.

(** ** Replies *)

Section transport_ok.
Context {C : Type} `{HS : SenderOk C} `{HM : Multimap}.
Context (char_signed : bool) (raw : list Z) (Hraw : raw_ok raw).

Lemma response_header id :
  0 <= id < 2 ^ 31 ->
  frameHeader_ (setEndStream (setHeaderBlockFragment (new_HeadersFrame id) [0x88]) true) = mk_FrameHeader 1 HEADERS 5 0 id.
Proof.
  intros Hid. unfold setEndStream, setHeaderBlockFragment, new_HeadersFrame, setEndHeaders, with_frameHeader,
    set_length, set_flag, set_streamId, HeadersFrame_length, new_FrameHeader.
  cbn [frameHeader_ headerBlockFragment_ padding_ fh_length fh_type fh_flags fh_reserved fh_streamId].
  by rewrite (wrap_small 31) by done.
Qed.

Lemma dispatch_ok st c :
  0 <= id_ st < 2 ^ 31 -> sender_ok c -> zlen (sent c) + 64 < 2 ^ 60 ->
  exists c', Impl_dispatch raw st c = Ret c' /\ sender_ok c' /\ sent c' = sent c ++ response_200 (id_ st).
Proof.
  intros Hid Hc Hsz. unfold Impl_dispatch, ServerStream_onRequest, sendResponse, writeHeadersFrame.
  rewrite response_header by done.
  change (headerBlockFragment_ _) with [0x88]. change (padding_ _) with (@nil Z).
  assert (header_ok (mk_FrameHeader 1 HEADERS 5 0 (id_ st))) as Hh.
  { split; cbn [fh_length fh_type fh_flags fh_reserved fh_streamId]; unfold octet; [lia|vm_compute; split; congruence|lia|lia|done]. }
  rewrite frame_octets_wire by done.
  destruct (send_payload_ok raw c [header_wire (mk_FrameHeader 1 HEADERS 5 0 (id_ st)); [0x88]; []] Hraw Hc)
    as (c' & -> & Hc' & Hs).
  - constructor; [rewrite <- frame_octets_wire by done; apply frame_octets_octets|].
    repeat constructor; unfold octet; lia.
  - done.
  - change (zlen (concat _)) with 10. lia.
  - exists c'. split; [done|]. split; [done|]. by rewrite Hs.
Qed.

Lemma ackSettings_ok c :
  sender_ok c -> zlen (sent c) + 64 < 2 ^ 60 ->
  exists c', ackSettings raw c = Ret c' /\ sender_ok c' /\ sent c' = sent c ++ settings_ack.
Proof.
  intros Hc Hsz. unfold ackSettings.
  destruct (send_payload_ok raw c [frame_octets (set_flag (new_FrameHeader SETTINGS) 0 true)] Hraw Hc) as (c' & -> & Hc' & Hs).
  - repeat constructor; apply wrap_bound; lia.
  - done.
  - change (zlen (concat _)) with 9. lia.
  - exists c'. split; [done|]. split; [done|]. by rewrite Hs.
Qed.

Lemma sendPingResponse_ok data c :
  octets data -> zlen data = 8 -> sender_ok c -> zlen (sent c) + 64 < 2 ^ 60 ->
  exists c', sendPingResponse raw data c = Ret c' /\ sender_ok c' /\
    sent c' = sent c ++ header_wire (mk_FrameHeader 8 PING 1 0 0) ++ data.
Proof.
  intros Hd Hl Hc Hsz. unfold sendPingResponse. rewrite Hl.
  destruct (send_payload_ok raw c [frame_octets (set_length (set_flag (new_FrameHeader PING) 0 true) 8); data] Hraw Hc)
    as (c' & -> & Hc' & Hs).
  - repeat constructor; try apply wrap_bound; try lia. done.
  - done.
  - cbn [concat]. rewrite !zlen_app, Hl. change (zlen (frame_octets _)) with 9. change (zlen []) with 0. lia.
  - exists c'. split; [done|]. split; [done|]. rewrite Hs. cbn [concat]. by rewrite app_nil_r.
Qed.

(** ** One frame *)

Lemma slice_content b q rest :
  sb_ok b -> content b = q ++ rest -> arr_slice (buf_ b) 0 (zlen q) = Ret q.
Proof.
  intros Hb Hc. destruct (content_rest b Hb) as (tl & -> & _). rewrite Hc, <- (assoc_L (++)). apply arr_slice_app.
Qed.

Lemma readWindowSize_ok b n rest :
  sb_ok b -> 0 <= n < 2 ^ 32 -> content b = to_be 4 n ++ rest -> readWindowSize b = Ret (n mod 2 ^ 31).
Proof.
  intros Hb Hn Hc. unfold readWindowSize.
  rewrite !(sb_get b (to_be 4 n) rest) by (done || (change (zlen (to_be 4 n)) with 4; lia)).
  assert (n mod 2 ^ 31 = wrap 31 (be (to_be 4 n))) as -> by by rewrite be_to_be.
  rewrite to_be_4. arr_gets. rewrite <- be_4 by apply wrap_octet. f_equal.
  generalize (u8 (Z.shiftr n 24)), (u8 (Z.shiftr n 16)), (u8 (Z.shiftr n 8)), (u8 n). intros a b0 c d.
  replace 0x7fffffff with (Z.ones 31) by done. rewrite Z.land_ones by lia.
  match goal with |- context [?x mod 2 ^ 31] => change (x mod 2 ^ 31) with (wrap 31 x); pose proof (wrap_bound 31 x) end.
  rewrite swrap_small by lia. rewrite wrap_wrap_le, !wrap_lor, wrap_i32 by lia. done.
Qed.

Lemma window_connection w n :
  INT32_MIN <= w <= INT32_MAX -> 0 <= n <= INT32_MAX ->
  rethrow "connection error: " (addWindowSize w n) = open_window "connection" w n.
Proof.
  intros Hw Hn. unfold addWindowSize, open_window, wouldAddOverflow.
  destruct (Z.ltb_spec n 1); [done|]. destruct (Z.ltb_spec w 0).
  - destruct (Z.ltb_spec INT32_MAX (w + n)); [lia|done].
  - destruct (Z.ltb_spec (INT32_MAX - w) n), (Z.ltb_spec INT32_MAX (w + n)); lia || done.
Qed.

Lemma window_stream st n :
  INT32_MIN <= stream_windowSize_ st <= INT32_MAX -> 0 <= n <= INT32_MAX ->
  ServerStream_addWindowSize st n = w ← open_window "stream" (stream_windowSize_ st) n; Ret (with_window st w).
Proof.
  intros Hw Hn. unfold ServerStream_addWindowSize, addWindowSize, open_window, wouldAddOverflow.
  destruct (Z.ltb_spec n 1); [done|]. destruct (Z.ltb_spec (stream_windowSize_ st) 0).
  - destruct (Z.ltb_spec INT32_MAX (stream_windowSize_ st + n)); [lia|done].
  - destruct (Z.ltb_spec (INT32_MAX - stream_windowSize_ st) n), (Z.ltb_spec INT32_MAX (stream_windowSize_ st + n)); lia || done.
Qed.

Lemma i32_bound z : INT32_MIN <= i32 z <= INT32_MAX.
Proof. unfold swrap, INT32_MIN, INT32_MAX. pose proof (Z.mod_pos_bound (z + 2 ^ (32 - 1)) (2 ^ 32)). lia. Qed.

(** A handler against its specification. *)
Definition handles (s : Impl) (c : C) (buf : StreamBuf) (f : frame) (m : outcome (Impl * C * StreamBuf)) : Prop :=
  match apply_frame char_signed s f with
  | Ret (s', out) => exists c', m = Ret (s', c', buf) /\ sender_ok c' /\ sent c' = sent c ++ out
  | Throw e => m = Throw e
  | Undef u => m = Undef u
  end.

Section frame.
Context (s : Impl) (c : C) (buf : StreamBuf) (f : frame) (rest : list Z).
Context (Hs : impl_ok s) (Hc : sender_ok c) (Hb : sb_ok buf) (Hf : frame_ok char_signed f).
Context (Hcn : content buf = payload f ++ rest) (Hsz : zlen (sent c) + 64 < 2 ^ 60).

Lemma in_use_payload : in_use_ buf = zlen (payload f) + zlen rest.
Proof. by rewrite <- (zlen_content buf Hb), Hcn, zlen_app. Qed.

Lemma nothing_sent : sender_ok c /\ sent c = sent c ++ [].
Proof. by rewrite app_nil_r. Qed.

Lemma receiveData_ok p : f_body f = BData p -> handles s c buf f (receiveData raw (header_of f) s c buf).
Proof.
  intros Hfb. unfold handles, apply_frame, receiveData, getStream. rewrite Hfb. cbn [fh_streamId header_of].
  destruct (f_id f =? 0); [done|]. destruct (streams_ s !! f_id f) as [st|] eqn:E.
  - rewrite bool_decide_eq_true_2 by done. cbn [mbind outcome_bind].
    destruct (io_streams s Hs _ _ E) as [_ _ _ Hi]. by rewrite Hi.
  - by rewrite bool_decide_eq_false_2 by (intros [? ?]; done).
Qed.

Lemma receiveHeaders_ok rs : f_body f = BHeaders rs -> handles s c buf f (receiveHeaders raw (header_of f) s c buf).
Proof.
  intros Hfb. pose proof in_use_payload as Hin. pose proof (zlen_nonneg rest).
  unfold handles, apply_frame, receiveHeaders. rewrite Hfb. cbn [fh_length fh_streamId header_of].
  unfold sb_size. rewrite (proj2 (Z.leb_le _ _)) by lia. cbn [c_assert mbind outcome_bind].
  rewrite (slice_content buf (payload f) rest Hb Hcn). cbn [mbind outcome_bind].
  pose proof (fo_body _ _ Hf) as Hrs. rewrite Hfb in Hrs.
  unfold payload. rewrite Hfb. unfold parseHeaders. rewrite parse_loop_reprs by done.
  destruct (reprs_apply (headerDecoder_ s) rs []) as [[hs t]| |]; [|done|done]. cbn [mbind outcome_bind].
  pose proof (ho_streamId _ (fo_header _ _ Hf)) as Hid. cbn [fh_streamId header_of] in Hid.
  assert (exists st, (match streams_ (with_decoder s t) !! f_id f with Some st => Ret st | None => new_ServerStream (f_id f) end) = Ret st
            /\ id_ st = f_id f) as (st & -> & Hst).
  { cbn [streams_ with_decoder]. destruct (streams_ s !! f_id f) as [st|] eqn:E.
    - exists st. split; [done|]. by destruct (io_streams s Hs _ _ E).
    - unfold new_ServerStream. destruct (Z.ltb_spec 0x7fffffff (f_id f)); [lia|]. by eexists. }
  cbn [mbind outcome_bind].
  match goal with |- context [Impl_dispatch raw ?st' c] => destruct (dispatch_ok st' c) as (c' & -> & Hc' & Hsent) end;
    [cbn [id_ with_request]; by rewrite Hst|done|done|]. cbn [mbind outcome_bind].
  exists c'. cbn [id_ with_request] in *. rewrite Hst in *. split; [|done].
  unfold endStream, with_streams. cbn. do 4 f_equal. by rewrite delete_insert_eq.
Qed.

Lemma receiveResetStream_ok n : f_body f = BReset n -> handles s c buf f (receiveResetStream (header_of f) s c buf).
Proof.
  intros Hfb. unfold handles, apply_frame, receiveResetStream. rewrite Hfb. cbn [fh_length fh_streamId header_of].
  pose proof (slice_content buf (payload f) rest Hb Hcn) as Hsl.
  replace (zlen (payload f)) with 4 in * by by (unfold payload; rewrite Hfb).
  cbn [negb Z.eqb Pos.eqb]. destruct (f_id f =? 0); [done|]. rewrite Hsl. cbn [mbind outcome_bind].
  exists c. split; [done|apply nothing_sent].
Qed.

Lemma foldl_settings_ok kvs st : settings_ok st -> settings_ok (foldl (apply_setting char_signed) st kvs).
Proof. revert st. induction kvs as [|kv kvs IH]; intros st Hst; [done|]. by apply IH, apply_setting_ok. Qed.

Lemma receiveSettings_ok kvs : f_body f = BSettings kvs -> handles s c buf f (receiveSettings char_signed raw (header_of f) s c buf).
Proof.
  intros Hfb. unfold handles, apply_frame, receiveSettings. rewrite Hfb.
  replace (isSettingsACK (header_of f)) with (ack f) by by (unfold isSettingsACK; cbn; rewrite Hfb).
  destruct (ack f); [exists c; split; [done|apply nothing_sent]|]. cbn [fh_length header_of].
  rewrite (slice_content buf (payload f) rest Hb Hcn). cbn [mbind outcome_bind].
  unfold payload. rewrite Hfb, createFromBuffer_wire. cbn [mbind outcome_bind].
  pose proof (foldl_settings_ok kvs _ default_settings_ok) as [Hl _]. set (peer := foldl _ _ _) in *.
  assert ((if windowUpdateReceived_ s then Ret (windowSize_ s) else Settings_value peer InitialWindowSize)
          = Ret (if windowUpdateReceived_ s then windowSize_ s else nth 3 peer 0)) as ->.
  { destruct (windowUpdateReceived_ s); [done|]. unfold Settings_value, InitialWindowSize, First_.
    do 4 (destruct peer as [|? peer]; [done|]). done. }
  cbn [mbind outcome_bind]. destruct (ackSettings_ok c Hc Hsz) as (c' & -> & ? & ?). by exists c'.
Qed.

Lemma receivePing_ok p : f_body f = BPing p -> handles s c buf f (receivePing raw (header_of f) s c buf).
Proof.
  intros Hfb. unfold handles, apply_frame, receivePing. rewrite Hfb. pose proof (fo_body _ _ Hf) as Hack.
  rewrite Hfb in Hack. unfold isPingACK. cbn [fh_type header_of]. rewrite Hfb. unfold test_flag, ack in *.
  cbn [fh_flags header_of]. rewrite Hack. exists c. split; [done|apply nothing_sent].
Qed.

Lemma receiveWindowUpdate_ok n : f_body f = BWindowUpdate n -> handles s c buf f (receiveWindowUpdate (header_of f) s c buf).
Proof.
  intros Hfb. unfold handles, apply_frame, receiveWindowUpdate. rewrite Hfb. cbn [fh_length fh_streamId header_of].
  pose proof (fo_body _ _ Hf) as Hn. rewrite Hfb in Hn.
  replace (zlen (payload f)) with 4 by by (unfold payload; rewrite Hfb). cbn [negb Z.eqb Pos.eqb].
  rewrite (readWindowSize_ok buf n rest Hb Hn) by (rewrite Hcn; unfold payload; by rewrite Hfb). cbn [mbind outcome_bind].
  pose proof (Z.mod_pos_bound n (2 ^ 31)). destruct (f_id f =? 0).
  - unfold addConnectionWindowSize. rewrite window_connection by (unfold INT32_MAX; apply i32_bound || lia).
    destruct (open_window _ _ _); [|done|done]. exists c. split; [done|apply nothing_sent].
  - unfold addStreamWindowSize. destruct (streams_ s !! f_id f) as [st|] eqn:E.
    + pose proof (st_window _ _ (io_streams s Hs _ _ E)). rewrite window_stream by (done || (unfold INT32_MAX; lia)).
      destruct (open_window _ _ _); [|done|done]. exists c. split; [done|apply nothing_sent].
    + exists c. split; [done|apply nothing_sent].
Qed.

Lemma receiveBody_ok : handles s c buf f (receiveBody char_signed raw (header_of f) s c buf).
Proof.
  unfold receiveBody. cbn [fh_type header_of]. pose proof (fo_body _ _ Hf) as Hok.
  destruct (f_body f) eqn:Hfb; cbn [body_type].
  - by eapply receiveData_ok.
  - by eapply receiveHeaders_ok.
  - by eapply receiveResetStream_ok.
  - by eapply receiveSettings_ok.
  - by eapply receivePing_ok.
  - by eapply receiveWindowUpdate_ok.
  - repeat (rewrite not_elem_of_cons in Hok). destruct Hok as (H0 & H1 & H3 & H4 & H6 & H8 & _).
    rewrite !(proj2 (Z.eqb_neq _ _)) by done. unfold handles, apply_frame. rewrite Hfb.
    exists c. split; [done|apply nothing_sent].
Qed.

End frame.

(** ** The specification keeps the invariant *)

Lemma apply_frame_current s f x :
  apply_frame char_signed (with_current s x) f
  = '(s', out) ← apply_frame char_signed s f; Ret (with_current s' x, out).
Proof.
  unfold apply_frame. destruct (f_body f); cbn [streams_ with_current headerDecoder_ windowUpdateReceived_ windowSize_].
  - destruct (f_id f =? 0); [done|]. by destruct (bool_decide _).
  - by destruct (reprs_apply _ _ _) as [[??]| |].
  - by destruct (f_id f =? 0).
  - by destruct (ack f).
  - done.
  - destruct (f_id f =? 0); [by destruct (open_window _ _ _)|].
    destruct (streams_ s !! f_id f); [by destruct (open_window _ _ _)|done].
  - done.
Qed.

Lemma open_window_bound who w n r :
  INT32_MIN <= w -> open_window who w n = Ret r -> INT32_MIN <= r <= INT32_MAX.
Proof.
  intros Hw. unfold open_window. destruct (Z.ltb_spec n 1); [done|].
  destruct (Z.ltb_spec INT32_MAX (w + n)); [done|]. intros [= <-]. lia.
Qed.

Lemma endStream_ok s id : impl_ok s -> impl_ok (endStream s id).
Proof. intros [H1 H2 H3 H4 H5]. split; try done. cbn. by apply map_Forall_delete. Qed.

Lemma nth_3_ok peer : settings_ok peer -> 0 <= nth 3 peer 0 < 2 ^ 32.
Proof.
  intros [Hl Hv]. do 4 (destruct peer as [|? peer]; [done|]). cbn.
  do 3 apply Forall_cons in Hv as [_ Hv]. by apply Forall_cons in Hv as [? _].
Qed.

Lemma apply_frame_ok s f s' out :
  impl_ok s -> apply_frame char_signed s f = Ret (s', out) ->
  impl_ok s' /\ currentFrameHeader_ s' = currentFrameHeader_ s /\ zlen out <= 10.
Proof.
  intros Hs. unfold apply_frame. destruct (f_body f) as [|rs| |kvs| |n|].
  - destruct (f_id f =? 0); [done|]. by destruct (bool_decide _).
  - destruct (reprs_apply _ _ _) as [[hs t]| |]; try done. intros [= <- <-].
    split; [apply endStream_ok; by destruct Hs|]. split; [done|]. unfold response_200, header_wire.
    rewrite !zlen_app. by vm_compute.
  - destruct (f_id f =? 0); [done|]. intros [= <- <-]. by split; [apply endStream_ok|].
  - destruct (ack f); intros [= <- <-]; [by split|]. pose proof (foldl_settings_ok kvs _ default_settings_ok) as Hp.
    split; [|split; [done|by vm_compute]]. destruct Hs. split; try done. cbn.
    destruct (windowUpdateReceived_ s); [done|]. by apply nth_3_ok.
  - intros [= <- <-]. by split.
  - destruct (f_id f =? 0).
    + destruct (open_window _ _ _) as [w| |] eqn:E; try done. intros [= <- <-].
      split; [|by split]. destruct Hs. split; try done. cbn. apply wrap_bound. lia.
    + destruct (streams_ s !! f_id f) as [st|] eqn:Est; [|by intros [= <- <-]; split].
      destruct (open_window _ _ _) as [w| |] eqn:E; try done. intros [= <- <-].
      split; [|by split]. pose proof (io_streams s Hs _ _ Est) as [? ? ? ?].
      apply open_window_bound in E; [|lia]. destruct Hs. split; try done. cbn.
      apply map_Forall_insert_2; [by split|done].
  - intros [= <- <-]. by split.
Qed.

(** ** Receiving a frame *)

Lemma frame_wire_length f : zlen (frame_wire f) = 9 + zlen (payload f).
Proof. unfold frame_wire. by rewrite zlen_app. Qed.

Lemma frame_wire_nonempty f : frame_wire f <> [].
Proof. intros E. apply (f_equal zlen) in E. rewrite frame_wire_length in E. pose proof (zlen_nonneg (payload f)). change (zlen []) with 0 in E. lia. Qed.

(** The part of [receiveFrame] behind the header. *)
Lemma receiveFrame_body s c buf f rest :
  impl_ok s -> sender_ok c -> sb_ok buf -> frame_ok char_signed f -> zlen (sent c) + 64 < 2 ^ 60 ->
  currentFrameHeader_ s = Some (header_of f) -> content buf = payload f ++ rest ->
  match apply_frame char_signed (with_current s None) f with
  | Ret (s', out) =>
      exists c' buf', receiveFrame char_signed raw s c buf = Ret (true, (s', c', buf')) /\ sender_ok c' /\
        sent c' = sent c ++ out /\ sb_ok buf' /\ content buf' = rest
  | Throw e => receiveFrame char_signed raw s c buf = Throw e
  | Undef u => receiveFrame char_signed raw s c buf = Undef u
  end.
Proof.
  intros Hs Hc Hb Hf Hsz Hcur Hcn. pose proof (in_use_payload buf f rest Hb Hcn) as Hin. pose proof (zlen_nonneg rest).
  pose proof (receiveBody_ok s c buf f rest Hs Hc Hb Hf Hcn Hsz) as Hh. unfold handles in Hh.
  unfold receiveFrame. rewrite Hcur. cbn [mbind outcome_bind]. rewrite Hcur. cbn [fh_length header_of]. unfold sb_size.
  destruct (Z.ltb_spec (in_use_ buf) (zlen (payload f))); [lia|].
  unfold processFrameBody. rewrite Hcur. unfold sb_size. cbn [fh_length header_of].
  destruct (Z.ltb_spec (in_use_ buf) (zlen (payload f))); [lia|].
  rewrite apply_frame_current. destruct (apply_frame char_signed s f) as [[s' out]|e|u]; cbn [mbind outcome_bind] in *.
  - destruct Hh as (c' & -> & Hc' & Hsent). cbn [mbind outcome_bind].
    destruct (sb_advance_ok buf (zlen (payload f)) Hb) as (buf' & -> & Hb' & Hcn' & _);
      [pose proof (zlen_nonneg (payload f)); lia|]. cbn [mbind outcome_bind].
    exists c', buf'. split; [done|]. split; [done|]. split; [done|]. split; [done|].
    by rewrite Hcn', Hcn, to_nat_zlen, drop_app_length.
  - by rewrite Hh.
  - by rewrite Hh.
Qed.

Lemma unread_header s buf h rest :
  impl_ok s -> currentFrameHeader_ s = Some h -> forall f, header_ok (header_of f) ->
  unread s buf = header_wire (header_of f) ++ rest -> h = header_of f /\ content buf = rest.
Proof.
  intros Hs Hcur f Hf Hu. pose proof (io_current s Hs) as Hh. unfold unread in Hu. rewrite Hcur in *.
  apply app_inj_1 in Hu as [Hw Hr]; [|done]. split; [by apply header_wire_inj|done].
Qed.

Lemma read_header s buf f rest :
  impl_ok s -> sb_ok buf -> frame_ok char_signed f -> currentFrameHeader_ s = None ->
  content buf = header_wire (header_of f) ++ rest ->
  exists buf', receiveFrameHeader char_signed s buf = Ret (with_current s (Some (header_of f)), buf') /\
    impl_ok (with_current s (Some (header_of f))) /\ sb_ok buf' /\ content buf' = rest /\ in_use_ buf' <= in_use_ buf.
Proof.
  intros Hs Hb Hf Hcur Hcn. unfold receiveFrameHeader. rewrite bool_decide_eq_true_2 by done.
  cbn [c_assert mbind outcome_bind]. pose proof (zlen_content buf Hb) as Hz. rewrite Hcn, zlen_app in Hz.
  change (zlen (header_wire _)) with 9 in Hz. pose proof (zlen_nonneg rest). unfold sb_size, FrameHeader_SIZE.
  destruct (Z.ltb_spec (in_use_ buf) 9); [lia|].
  destruct (readFrameHeader_wire char_signed buf (header_of f) rest Hb (fo_header _ _ Hf) Hcn) as (buf' & -> & Hb' & Hcn' & Hi).
  cbn [mbind outcome_bind]. rewrite received_clean by apply Hf. exists buf'. split; [done|]. split; [|by repeat (split; [done||lia|]); lia].
  destruct Hs as [? ? ? ? _]. split; try done. apply Hf.
Qed.

Lemma receiveFrame_whole s c buf f rest :
  impl_ok s -> sender_ok c -> sb_ok buf -> frame_ok char_signed f -> zlen (sent c) + 64 < 2 ^ 60 ->
  unread s buf = frame_wire f ++ rest ->
  match apply_frame char_signed (with_current s None) f with
  | Ret (s', out) =>
      exists c' buf', receiveFrame char_signed raw s c buf = Ret (true, (s', c', buf')) /\ sender_ok c' /\
        sent c' = sent c ++ out /\ sb_ok buf' /\ content buf' = rest
  | Throw e => receiveFrame char_signed raw s c buf = Throw e
  | Undef u => receiveFrame char_signed raw s c buf = Undef u
  end.
Proof.
  intros Hs Hc Hb Hf Hsz Hu. unfold frame_wire in Hu. rewrite <- (assoc_L (++)) in Hu.
  destruct (currentFrameHeader_ s) as [h|] eqn:Hcur.
  - destruct (unread_header s buf h _ Hs Hcur f (fo_header _ _ Hf) Hu) as [-> Hcn]. by apply receiveFrame_body.
  - unfold unread in Hu. rewrite Hcur in Hu.
    destruct (read_header s buf f (payload f ++ rest) Hs Hb Hf Hcur Hu) as (buf1 & Hrd & Hs1 & Hb1 & Hcn1 & _).
    pose proof (receiveFrame_body (with_current s (Some (header_of f))) c buf1 f rest Hs1 Hc Hb1 Hf Hsz eq_refl Hcn1) as Hbody.
    assert (receiveFrame char_signed raw s c buf
            = receiveFrame char_signed raw (with_current s (Some (header_of f))) c buf1) as ->; [|exact Hbody].
    unfold receiveFrame at 1. rewrite Hcur, Hrd. done.
Qed.

Lemma receiveFrame_partial s c buf p :
  impl_ok s -> sb_ok buf -> partial_frame char_signed p -> unread s buf = p ->
  exists s' buf', receiveFrame char_signed raw s c buf = Ret (false, (s', c, buf')) /\
    with_current s' None = with_current s None /\ impl_ok s' /\ sb_ok buf' /\ unread s' buf' = p.
Proof.
  intros Hs Hb (f & rest & Hf & Hw & Hne) Hu. pose proof (zlen_content buf Hb) as Hz.
  assert (0 < zlen rest) as Hpos by (destruct rest; [done|rewrite zlen_cons; pose proof (zlen_nonneg rest); lia]).
  (* a header and not all of its payload *)
  assert (forall s' buf', impl_ok s' -> sb_ok buf' -> currentFrameHeader_ s' = Some (header_of f) ->
            content buf' ++ rest = payload f -> receiveFrame char_signed raw s' c buf' = Ret (false, (s', c, buf'))) as Hwait.
  { intros s' buf' Hs' Hb' Hcur' Hcn'. unfold receiveFrame. rewrite Hcur'. cbn [mbind outcome_bind].
    rewrite Hcur'. cbn [fh_length header_of]. unfold sb_size. rewrite <- (zlen_content buf' Hb'), <- Hcn', zlen_app.
    destruct (Z.ltb_spec (zlen (content buf')) (zlen (content buf') + zlen rest)); [done|lia]. }
  destruct (currentFrameHeader_ s) as [h|] eqn:Hcur.
  - assert (unread s buf ++ rest = header_wire (header_of f) ++ payload f) as Hu' by by rewrite Hu, <- Hw.
    unfold unread in Hu'. rewrite Hcur, <- (assoc_L (++)) in Hu'. apply app_inj_1 in Hu' as [Hh Hp]; [|done].
    pose proof (io_current s Hs) as Hok. rewrite Hcur in Hok. apply header_wire_inj in Hh; [|done|apply Hf]. subst h.
    exists s, buf. split; [by apply Hwait|]. done.
  - unfold unread in Hu. rewrite Hcur in Hu. cbn [app] in Hu. destruct (Z.ltb_spec (in_use_ buf) 9) as [Hlt|Hge].
    + exists s, buf. split; [|by unfold unread; rewrite Hcur].
      unfold receiveFrame. rewrite Hcur. unfold receiveFrameHeader. rewrite bool_decide_eq_true_2 by done.
      cbn [c_assert mbind outcome_bind]. unfold sb_size, FrameHeader_SIZE. destruct (Z.ltb_spec (in_use_ buf) 9); [|lia].
      cbn [mbind outcome_bind]. by rewrite Hcur.
    + assert (exists q, p = header_wire (header_of f) ++ q /\ q ++ rest = payload f) as (q & -> & Hq).
      { exists (drop 9 p). unfold frame_wire in Hw.
        assert (take 9 p = header_wire (header_of f)) as Ht.
        { apply (f_equal (take 9)) in Hw. rewrite take_app_length' in Hw by done. rewrite Hw.
          rewrite take_app_le; [done|]. subst p. unfold zlen in Hz. lia. }
        split; [by rewrite <- Ht, take_drop|]. apply (f_equal (drop 9)) in Hw.
        rewrite drop_app_length' in Hw by done. rewrite Hw. rewrite drop_app_le; [done|]. subst p. unfold zlen in Hz. lia. }
      destruct (read_header s buf f q Hs Hb Hf Hcur Hu) as (buf1 & Hrd & Hs1 & Hb1 & Hcn1 & _).
      exists (with_current s (Some (header_of f))), buf1.
      split; [|split; [done|split; [done|split; [done|by unfold unread; cbn; rewrite Hcn1]]]].
      rewrite <- (Hwait _ buf1 Hs1 Hb1 eq_refl) by by rewrite Hcn1.
      unfold receiveFrame at 1. rewrite Hcur, Hrd. done.
Qed.


(** ** All there is to read *)

(** [m] does what [fs] ask for, and leaves [p] unread. *)
Definition serves (s : Impl) (c : C) (fs : list frame) (p : list Z) (m : outcome (Impl * C * StreamBuf)) : Prop :=
  match apply_frames char_signed (with_current s None) fs with
  | Ret (s', out) =>
      exists s2 c' buf', m = Ret (s2, c', buf') /\ with_current s2 None = s' /\ impl_ok s2 /\ sender_ok c' /\
        sent c' = sent c ++ out /\ sb_ok buf' /\ unread s2 buf' = p
  | Throw e => m = Throw e
  | Undef u => m = Undef u
  end.

Lemma partial_nil : partial_frame char_signed [].
Proof.
  exists (mk_frame 1 0 0 (BSettings [])), (frame_wire (mk_frame 1 0 0 (BSettings []))).
  split; [|split; [done|apply frame_wire_nonempty]]. split; [split|right|constructor|done]; done || (vm_compute; split; congruence).
Qed.

Lemma with_current_none s : currentFrameHeader_ s = None -> with_current s None = s.
Proof. destruct s. by intros [= ->]. Qed.

Lemma content_empty b : sb_ok b -> sb_isEmpty b = bool_decide (content b = []).
Proof.
  intros Hb. pose proof (zlen_content b Hb) as Hz. unfold sb_isEmpty, sb_size. rewrite <- Hz.
  destruct (content b) as [|x l]; [done|]. rewrite zlen_cons. pose proof (zlen_nonneg l).
  rewrite bool_decide_eq_false_2 by done. apply Z.eqb_neq. lia.
Qed.

Lemma zlen_wires fs : 9 * zlen fs <= zlen (concat (map frame_wire fs)).
Proof.
  induction fs as [|f fs IH]; [done|]. cbn [map concat]. rewrite zlen_cons, zlen_app, frame_wire_length.
  pose proof (zlen_nonneg (payload f)). lia.
Qed.

Lemma frames_loop_ok fs p fuel s c buf :
  impl_ok s -> sender_ok c -> sb_ok buf -> Forall (frame_ok char_signed) fs -> partial_frame char_signed p ->
  unread s buf = concat (map frame_wire fs) ++ p -> (length fs < fuel)%nat ->
  zlen (sent c) + 64 * (zlen fs + 1) < 2 ^ 60 ->
  serves s c fs p (frames_loop char_signed raw fuel s c buf).
Proof.
  intros Hs Hc Hb Hfs Hp. revert s c buf fuel Hs Hc Hb.
  induction Hfs as [|f fs Hf Hfs IH]; intros s c buf fuel Hs Hc Hb Hu Hfuel Hsz;
    (destruct fuel as [|fuel]; [simpl in Hfuel; lia|]); cbn [frames_loop]; unfold serves; cbn [apply_frames].
  - destruct (receiveFrame_partial s c buf p Hs Hb Hp Hu) as (s2 & buf' & -> & Hcur & Hs2 & Hb2 & Hu2).
    cbn [mbind outcome_bind andb]. exists s2, c, buf'. rewrite app_nil_r. done.
  - cbn [map concat] in Hu. rewrite <- (assoc_L (++)) in Hu. rewrite zlen_cons in Hsz. pose proof (zlen_nonneg fs).
    pose proof (receiveFrame_whole s c buf f _ Hs Hc Hb Hf ltac:(lia) Hu) as Hw.
    destruct (apply_frame char_signed (with_current s None) f) as [[s1 out1]|e|u] eqn:Happ;
      cbn [mbind outcome_bind]; [|by rewrite Hw|by rewrite Hw].
    destruct Hw as (c1 & buf1 & -> & Hc1 & Hs1 & Hb1 & Hcn1). cbn [mbind outcome_bind andb].
    assert (impl_ok (with_current s None)) as Hs0 by (destruct Hs; by split).
    destruct (apply_frame_ok _ _ _ _ Hs0 Happ) as (Hok1 & Hcur1 & Hout). cbn in Hcur1.
    rewrite content_empty by done. case_bool_decide as Hemp; cbn [negb].
    + rewrite Hcn1 in Hemp. apply app_eq_nil in Hemp as [Hfs0 ->].
      destruct fs as [|f' fs]; [|exfalso; cbn [map concat] in Hfs0; apply app_eq_nil in Hfs0 as [? _]; by apply (frame_wire_nonempty f')].
      cbn [apply_frames mbind outcome_bind]. exists s1, c1, buf1. rewrite app_nil_r.
      split; [done|]. split; [by apply with_current_none|]. unfold unread. by rewrite Hcur1.
    + specialize (IH s1 c1 buf1 fuel Hok1 Hc1 Hb1). unfold serves in IH. rewrite (with_current_none s1) in IH by done.
      destruct (apply_frames char_signed s1 fs) as [[s' out]|e|u]; cbn [mbind outcome_bind].
      * destruct IH as (s2 & c2 & buf2 & -> & ? & ? & ? & Hs2 & ? & ?).
        { unfold unread. by rewrite Hcur1. } { simpl in Hfuel. lia. } { rewrite Hs1, zlen_app. lia. }
        exists s2, c2, buf2. repeat (split; [done|]). split; [by rewrite Hs2, Hs1, <- (assoc_L (++))|done].
      * apply IH; [unfold unread; by rewrite Hcur1|simpl in Hfuel; lia|rewrite Hs1, zlen_app; lia].
      * apply IH; [unfold unread; by rewrite Hcur1|simpl in Hfuel; lia|rewrite Hs1, zlen_app; lia].
Qed.

Lemma receiveFrames_ok fs p s c buf :
  impl_ok s -> sender_ok c -> sb_ok buf -> Forall (frame_ok char_signed) fs -> partial_frame char_signed p ->
  unread s buf = concat (map frame_wire fs) ++ p -> zlen (sent c) + 64 * (zlen fs + 1) < 2 ^ 60 ->
  serves s c fs p (receiveFrames char_signed raw s c buf).
Proof.
  intros Hs Hc Hb Hfs Hp Hu Hsz. unfold receiveFrames. apply frames_loop_ok; try done.
  apply (f_equal zlen) in Hu. unfold unread in Hu. rewrite !zlen_app, (zlen_content buf Hb) in Hu.
  pose proof (zlen_wires fs). pose proof (zlen_nonneg p). pose proof (sb_in_use _ Hb). unfold sb_size.
  assert (zlen (match currentFrameHeader_ s with Some h => header_wire h | None => [] end) <= 9).
  { destruct (currentFrameHeader_ s); [by vm_compute|by vm_compute]. }
  unfold zlen in *. lia.
Qed.

Lemma apply_frames_ok fs s s' out :
  impl_ok s -> apply_frames char_signed s fs = Ret (s', out) -> impl_ok s' /\ zlen out <= 10 * zlen fs.
Proof.
  revert s s' out. induction fs as [|f fs IH]; intros s s' out Hs; cbn [apply_frames]; [by intros [= <- <-]|].
  destruct (apply_frame char_signed s f) as [[s1 out1]| |] eqn:E1; try done. cbn [mbind outcome_bind].
  destruct (apply_frames char_signed s1 fs) as [[s2 out2]| |] eqn:E2; try done. cbn [mbind outcome_bind]. intros [= <- <-].
  destruct (apply_frame_ok _ _ _ _ Hs E1) as (Hs1 & _ & ?). destruct (IH _ _ _ Hs1 E2) as [? ?].
  rewrite zlen_cons, zlen_app. split; [done|lia].
Qed.

(** Receiving again changes nothing. *)
Lemma receiveFrames_again fs p s c m :
  impl_ok s -> partial_frame char_signed p -> zlen (sent c) + 64 * (zlen fs + 1) < 2 ^ 60 -> serves s c fs p m ->
  serves s c fs p ('(s, c, buf) ← m; receiveFrames char_signed raw s c buf).
Proof.
  intros Hs Hp Hsz. unfold serves.
  destruct (apply_frames char_signed (with_current s None) fs) as [[s' out]|e|u] eqn:E; [|by intros ->|by intros ->].
  intros (s2 & c' & buf' & -> & Hcur & Hs2 & Hc' & Hsent & Hb' & Hu). cbn [mbind outcome_bind].
  assert (impl_ok (with_current s None)) as Hs0 by (destruct Hs; by split).
  destruct (apply_frames_ok _ _ _ _ Hs0 E) as [_ Hout]. pose proof (zlen_nonneg fs).
  pose proof (receiveFrames_ok [] p s2 c' buf' Hs2 Hc' Hb' (Forall_nil_2 _) Hp Hu) as Hag.
  unfold serves in Hag. cbn [apply_frames] in Hag.
  destruct Hag as (s3 & c3 & buf3 & -> & Hcur3 & ? & ? & Hs3 & ? & ?).
  { rewrite Hsent, zlen_app. change (zlen []) with 0. lia. }
  exists s3, c3, buf3. split; [done|]. split; [by rewrite Hcur3|]. rewrite app_nil_r in Hs3. by rewrite Hs3.
Qed.

Lemma with_preface_id s : prefaceReceived_ s = true -> with_preface s = s.
Proof. destruct s. cbn. by intros ->. Qed.

(** What the connection owes before anything is read: the preface. *)
Definition expected_preface (s : Impl) : list Z := if prefaceReceived_ s then [] else CLIENT_PREFACE.

Lemma onInput_ok fs p s c buf :
  impl_ok s -> sender_ok c -> sb_ok buf -> Forall (frame_ok char_signed) fs -> partial_frame char_signed p ->
  prefaceReceived_ s = true \/ currentFrameHeader_ s = None ->
  unread s buf = expected_preface s ++ concat (map frame_wire fs) ++ p ->
  zlen (sent c) + 64 * (zlen fs + 1) < 2 ^ 60 ->
  serves (with_preface s) c fs p (Impl_onInput char_signed raw s c buf).
Proof.
  intros Hs Hc Hb Hfs Hp Hpre Hu Hsz. unfold Impl_onInput, expected_preface in *.
  assert (impl_ok (with_preface s)) as Hs0 by (destruct Hs; by split).
  destruct (prefaceReceived_ s) eqn:Epre.
  { cbn [mbind outcome_bind]. rewrite with_preface_id in * by done. by apply receiveFrames_ok. }
  destruct Hpre as [|Hcur]; [done|]. unfold unread in Hu. rewrite Hcur in Hu. cbn [app] in Hu.
  apply receiveFrames_again; [done|done|done|]. unfold receivePreface.
  pose proof (zlen_content buf Hb) as Hz. rewrite Hu, zlen_app in Hz.
  pose proof (zlen_nonneg (concat (map frame_wire fs) ++ p)). change (zlen CLIENT_PREFACE) with 24 in *. unfold sb_size.
  destruct (Z.ltb_spec (in_use_ buf) 24); [lia|].
  pose proof (slice_content buf _ _ Hb Hu) as Hsl. change (zlen CLIENT_PREFACE) with 24 in Hsl. rewrite Hsl. cbn [mbind outcome_bind].
  rewrite bool_decide_eq_true_2 by done. cbn [negb].
  destruct (sb_advance_ok buf 24 Hb) as (buf' & -> & Hb' & Hcn & _); [lia|]. cbn [mbind outcome_bind].
  apply receiveFrames_ok; try done. unfold unread. cbn. rewrite Hcur, Hcn, Hu. by rewrite drop_app_length'.
Qed.


(** ** Input in pieces *)

(** Pieces of input as they are read: each is appended to the buffer, and the
    transport is told ([Connection::onPollIn]). *)
Fixpoint feed (s : Impl) (c : C) (buf : StreamBuf) (chunks : list (list Z)) : outcome (Impl * C * StreamBuf) :=
  match chunks with
  | [] => Ret (s, c, buf)
  | d :: ds =>
      buf ← sb_write buf d;
      '(s, c, buf) ← Impl_onInput char_signed raw s c buf;
      feed s c buf ds
  end.

Lemma apply_frames_app fs1 fs2 s :
  apply_frames char_signed s (fs1 ++ fs2)
  = '(s, out1) ← apply_frames char_signed s fs1; '(s, out2) ← apply_frames char_signed s fs2; Ret (s, out1 ++ out2).
Proof.
  revert s. induction fs1 as [|f fs1 IH]; intros s; cbn [apply_frames app].
  - cbn [mbind outcome_bind]. by destruct (apply_frames char_signed s fs2) as [[??]| |].
  - destruct (apply_frame char_signed s f) as [[s1 o1]| |]; cbn [mbind outcome_bind]; [|done|done]. rewrite IH.
    destruct (apply_frames char_signed s1 fs1) as [[s2 o2]| |]; cbn [mbind outcome_bind]; [|done|done].
    destruct (apply_frames char_signed s2 fs2) as [[s3 o3]| |]; cbn [mbind outcome_bind]; [|done|done].
    by rewrite (assoc_L (++)).
Qed.

Lemma apply_frames_preface fs s s' out :
  apply_frames char_signed s fs = Ret (s', out) -> prefaceReceived_ s' = prefaceReceived_ s.
Proof.
  revert s s' out. induction fs as [|f fs IH]; intros s s' out; cbn [apply_frames]; [by intros [= <- <-]|].
  destruct (apply_frame char_signed s f) as [[s1 out1]| |] eqn:E1; try done. cbn [mbind outcome_bind].
  destruct (apply_frames char_signed s1 fs) as [[s2 out2]| |] eqn:E2; try done. cbn [mbind outcome_bind]. intros [= <- <-].
  rewrite (IH _ _ _ E2). revert E1. unfold apply_frame. destruct (f_body f).
  - destruct (f_id f =? 0); [done|]. by destruct (bool_decide _).
  - destruct (reprs_apply _ _ _) as [[??]| |]; try done. by intros [= <- <-].
  - destruct (f_id f =? 0); [done|]. by intros [= <- <-].
  - by destruct (ack f); intros [= <- <-].
  - by intros [= <- <-].
  - destruct (f_id f =? 0); [|destruct (streams_ s !! f_id f); [|by intros [= <- <-]]];
      destruct (open_window _ _ _); try done; by intros [= <- <-].
  - by intros [= <- <-].
Qed.

(** A cut anywhere falls behind some whole frames and inside the next. *)
Lemma cut_frames fs p x y :
  Forall (frame_ok char_signed) fs -> partial_frame char_signed p -> x ++ y = concat (map frame_wire fs) ++ p ->
  exists fs1 fs2 p1, fs = fs1 ++ fs2 /\ x = concat (map frame_wire fs1) ++ p1 /\ partial_frame char_signed p1 /\
    p1 ++ y = concat (map frame_wire fs2) ++ p.
Proof.
  intros Hfs Hp. revert x. induction Hfs as [|f fs Hf Hfs IH]; intros x Hx.
  - exists [], [], x. split; [done|]. split; [done|]. split; [|done]. destruct Hp as (f & rest & Hf & Hw & Hne).
    exists f, (y ++ rest). cbn in Hx. rewrite Hw, <- Hx, <- (assoc_L (++)). split; [done|]. split; [done|].
    by intros [_ ?]%app_eq_nil.
  - cbn [map concat] in Hx. rewrite <- (assoc_L (++)) in Hx. destruct (decide (length (frame_wire f) <= length x)%nat) as [Hle|Hlt].
    + assert (x = frame_wire f ++ drop (length (frame_wire f)) x) as Hsp.
      { rewrite <- (take_drop (length (frame_wire f)) x) at 1. f_equal. apply (f_equal (take (length (frame_wire f)))) in Hx.
        by rewrite take_app_length, take_app_le in Hx by done. }
      rewrite Hsp, <- (assoc_L (++)) in Hx. apply (inj (frame_wire f ++.)) in Hx.
      destruct (IH _ Hx) as (fs1 & fs2 & p1 & -> & Hx1 & Hp1 & Hy). exists (f :: fs1), fs2, p1.
      split; [done|]. split; [|done]. cbn [map concat]. by rewrite <- (assoc_L (++)), <- Hx1.
    + exists [], (f :: fs), x. split; [done|]. split; [done|]. split; [|by cbn [map concat]; rewrite <- (assoc_L (++))].
      exists f, (drop (length x) (frame_wire f)).
      assert (take (length x) (frame_wire f) = x) as Ht.
      { apply (f_equal (take (length x))) in Hx. by rewrite take_app_length, take_app_le in Hx by lia. }
      split; [done|]. split; [by rewrite <- Ht at 1; rewrite take_drop|].
      intros E. apply (f_equal length) in E. rewrite length_drop in E. change (length []) with 0%nat in E. lia.
Qed.

Lemma partial_no_frame f x : frame_ok char_signed f -> ~ partial_frame char_signed (frame_wire f ++ x).
Proof.
  intros Hf (f0 & rest & Hf0 & Hw & Hne). pose proof Hw as Hl. unfold frame_wire in Hw. rewrite <- !(assoc_L (++)) in Hw.
  apply app_inj_1 in Hw as [Hh _]; [|done]. apply header_wire_inj in Hh; [|apply Hf0|apply Hf].
  assert (zlen (payload f0) = zlen (payload f)) as Hz by by injection Hh.
  apply (f_equal zlen) in Hl. rewrite !zlen_app, !frame_wire_length in Hl. apply Hne.
  pose proof (zlen_nonneg x). destruct rest; [done|]. rewrite zlen_cons in Hl. pose proof (zlen_nonneg rest). lia.
Qed.

Lemma in_use_unread s buf : sb_ok buf -> in_use_ buf <= zlen (unread s buf).
Proof. intros Hb. unfold unread. rewrite zlen_app, zlen_content by done. match goal with |- context [zlen ?l] => pose proof (zlen_nonneg l) end. lia. Qed.

(** What follows a piece: the rest of the pieces, on what the piece left. *)
Lemma serves_bind s c fs1 fs2 p1 p m k :
  serves s c fs1 p1 m ->
  (forall s2 c2 b2 s' out, apply_frames char_signed (with_current s None) fs1 = Ret (s', out) -> with_current s2 None = s' ->
     impl_ok s2 -> sender_ok c2 -> sent c2 = sent c ++ out -> sb_ok b2 -> unread s2 b2 = p1 ->
     serves s2 c2 fs2 p (k s2 c2 b2)) ->
  serves s c (fs1 ++ fs2) p ('(s, c, b) ← m; k s c b).
Proof.
  unfold serves. intros Hm Hk. rewrite apply_frames_app.
  destruct (apply_frames char_signed (with_current s None) fs1) as [[s1 out1]|e|u]; [|by rewrite Hm|by rewrite Hm].
  destruct Hm as (s2 & c2 & b2 & -> & Hcur & Hs2 & Hc2 & Hsent & Hb2 & Hu). cbn [mbind outcome_bind].
  specialize (Hk s2 c2 b2 s1 out1 eq_refl Hcur Hs2 Hc2 Hsent Hb2 Hu). rewrite Hcur in Hk.
  destruct (apply_frames char_signed s1 fs2) as [[s3 out3]|e|u]; cbn [mbind outcome_bind]; [|done|done].
  destruct Hk as (s4 & c4 & b4 & -> & ? & ? & ? & Hs4 & ?). exists s4, c4, b4. repeat (split; [done|]).
  split; [by rewrite Hs4, Hsent, <- (assoc_L (++))|done].
Qed.

Lemma feed_ok chunks : forall fs p s c buf,
  impl_ok s -> sender_ok c -> sb_ok buf -> Forall (frame_ok char_signed) fs -> partial_frame char_signed p ->
  prefaceReceived_ s = true -> Forall (Forall octet) chunks -> partial_frame char_signed (unread s buf) ->
  unread s buf ++ concat chunks = concat (map frame_wire fs) ++ p -> zlen (unread s buf) + zlen (concat chunks) < 2 ^ 60 ->
  zlen (sent c) + 64 * (zlen fs + 1) < 2 ^ 60 ->
  serves s c fs p (feed s c buf chunks).
Proof.
  induction chunks as [|d ds IH]; intros fs p s c buf Hs Hc Hb Hfs Hp Hpre Hoct Hpart Hu Hsz Hsent; cbn [feed concat] in *.
  - rewrite app_nil_r in Hu. destruct Hfs as [|f fs Hf Hfs].
    + exists s, c, buf. rewrite app_nil_r. by repeat (split; [done|]).
    + exfalso. rewrite Hu in Hpart. cbn [map concat] in Hpart. rewrite <- (assoc_L (++)) in Hpart.
      by apply partial_no_frame in Hpart.
  - inversion Hoct as [|? ? Hd Hds]; subst. rewrite zlen_app in Hsz. pose proof (zlen_nonneg (concat ds)).
    pose proof (in_use_unread s buf Hb).
    destruct (sb_write_ok buf d Hb Hd) as (b1 & -> & Hb1 & Hcn1 & _); [unfold SSIZE_MAX; lia|]. cbn [mbind outcome_bind].
    assert (unread s b1 = unread s buf ++ d) as Hu1 by (unfold unread; by rewrite Hcn1, (assoc_L (++))).
    rewrite (assoc_L (++)), <- Hu1 in Hu.
    destruct (cut_frames fs p _ _ Hfs Hp Hu) as (fs1 & fs2 & p1 & -> & Hx & Hp1 & Hy).
    apply Forall_app in Hfs as [Hfs1 Hfs2]. rewrite zlen_app in Hsent. pose proof (zlen_nonneg fs1). pose proof (zlen_nonneg fs2).
    assert (zlen p1 <= zlen (unread s b1)) as Hzp.
    { rewrite Hx, zlen_app. pose proof (zlen_nonneg (concat (map frame_wire fs1))). lia. }
    apply serves_bind with (p1 := p1).
    + pose proof (onInput_ok fs1 p1 s c b1 Hs Hc Hb1 Hfs1 Hp1 (or_introl Hpre)) as Hin.
      unfold expected_preface in Hin. rewrite Hpre, with_preface_id in Hin by done. apply Hin; [done|lia].
    + intros s2 c2 b2 s' out Happ Hcur Hs2 Hc2 Hout Hb2 Hu2.
      assert (impl_ok (with_current s None)) as Hs0 by (destruct Hs; by split).
      destruct (apply_frames_ok _ _ _ _ Hs0 Happ) as [_ Hzo]. apply apply_frames_preface in Happ.
      rewrite Hu1, zlen_app in Hzp. apply IH; try done.
      * rewrite <- Hpre. change (prefaceReceived_ s) with (prefaceReceived_ (with_current s None)). by rewrite <- Happ, <- Hcur.
      * by rewrite Hu2.
      * by rewrite Hu2.
      * rewrite Hu2. lia.
      * rewrite Hout, zlen_app. lia.
Qed.

(** The whole preface with [d] behind it in the buffer, and more in any pieces. *)
Lemma preface_feed_ok fs p s c b d ds :
  impl_ok s -> sender_ok c -> sb_ok b -> prefaceReceived_ s = false -> currentFrameHeader_ s = None ->
  Forall (frame_ok char_signed) fs -> partial_frame char_signed p -> content b = CLIENT_PREFACE ++ d ->
  Forall (Forall octet) ds -> d ++ concat ds = concat (map frame_wire fs) ++ p ->
  zlen (d ++ concat ds) + 24 < 2 ^ 60 -> zlen (sent c) + 64 * (zlen fs + 1) < 2 ^ 60 ->
  serves (with_preface s) c fs p ('(s, c, b) ← Impl_onInput char_signed raw s c b; feed s c b ds).
Proof.
  intros Hs Hc Hb Hpre Hcur Hfs Hp Hcn Hds Heq Hsz Hsent. pose proof (zlen_nonneg fs).
  destruct (cut_frames fs p d (concat ds) Hfs Hp Heq) as (fs1 & fs2 & p1 & -> & Hd1 & Hp1 & Hd2).
  apply Forall_app in Hfs as [Hfs1 Hfs2]. rewrite !zlen_app in *. pose proof (zlen_nonneg fs1). pose proof (zlen_nonneg fs2).
  pose proof (zlen_nonneg d). pose proof (zlen_nonneg (concat ds)).
  assert (impl_ok (with_preface s)) as Hs0 by (destruct Hs; by split).
  apply serves_bind with (p1 := p1).
  - apply onInput_ok; try done; [by right| |lia]. unfold unread, expected_preface. rewrite Hcur, Hpre, Hcn. cbn [app].
    by rewrite Hd1.
  - intros s2 c2 b2 s' out Happ Hcur2 Hs2 Hc2 Hout Hb2 Hu2.
    assert (impl_ok (with_current (with_preface s) None)) as Hs0' by (destruct Hs0; by split).
    destruct (apply_frames_ok _ _ _ _ Hs0' Happ) as [_ Hzo]. apply apply_frames_preface in Happ.
    assert (zlen p1 <= zlen d) by (rewrite Hd1, zlen_app; pose proof (zlen_nonneg (concat (map frame_wire fs1))); lia).
    apply feed_ok; try done.
    + change (prefaceReceived_ s2) with (prefaceReceived_ (with_current s2 None)). by rewrite Hcur2, Happ.
    + by rewrite Hu2.
    + by rewrite Hu2.
    + rewrite Hu2. lia.
    + rewrite Hout, zlen_app. lia.
Qed.

(** A connection that is made without settings of the client. *)
Definition initial_impl : Impl :=
  mk_Impl [4096; 0; UINT32_MAX; 65535; 16384; UINT32_MAX] default_Settings new_DynamicTable
    {[1 := mk_ServerStream 1 65535 Idle new_Message]} None 65535 false false.

Lemma initial_impl_ok : impl_ok initial_impl.
Proof.
  split; cbn; try done; try apply default_settings_ok.
  - split; [done|]. unfold UINT32_MAX. repeat constructor; lia.
  - apply map_Forall_singleton. split; cbn; unfold INT32_MIN, INT32_MAX; lia || done.
Qed.

Lemma new_Impl_initial fb64_size fb64_decode c :
  sender_ok c -> zlen (sent c) + 9 < 2 ^ 60 ->
  exists c', new_Impl char_signed fb64_size fb64_decode None c = Ret (initial_impl, c') /\ sender_ok c' /\
    sent c' = sent c ++ header_wire (mk_FrameHeader 0 SETTINGS 0 0 0).
Proof.
  intros Hc Hsz. unfold new_Impl, initialize. cbn [mbind outcome_bind with_peer localSettings_].
  change (Settings_set default_Settings EnablePush 0) with (Ret (A:=Settings) [4096; 0; UINT32_MAX; 65535; 16384; UINT32_MAX]).
  cbn [mbind outcome_bind]. unfold new_ServerStream. change (0x7fffffff <? 1) with false. cbn [mbind outcome_bind].
  unfold sendPreface.
  destruct (send_ok c [0x00; 0x00; 0x00; 0x04; 0x00; 0x00; 0x00; 0x00; 0x00] 9) as (c' & -> & Hc' & Hsent); try done.
  - repeat constructor; unfold octet; lia.
  - cbn [mbind outcome_bind]. by exists c'.
Qed.

(** A connection is made, then the client's preface arrives with [d] behind it
    and more in any pieces. *)
Lemma new_Impl_ok fb64_size fb64_decode c :
  sender_ok c -> zlen (sent c) + 9 < 2 ^ 60 ->
  exists s c', new_Impl char_signed fb64_size fb64_decode None c = Ret (s, c') /\ impl_ok s /\ sender_ok c' /\
    sent c' = sent c ++ header_wire (mk_FrameHeader 0 SETTINGS 0 0 0) /\
    prefaceReceived_ s = false /\ currentFrameHeader_ s = None.
Proof.
  intros Hc Hsz. destruct (new_Impl_initial fb64_size fb64_decode c Hc Hsz) as (c' & -> & Hc' & Hsent).
  exists initial_impl, c'. split; [done|]. split; [apply initial_impl_ok|done].
Qed.


(** ** Any octets at all *)

(** What a call on hostile input may do: return in a good state, throw, or run
    into the assertion of [DynamicTable::resize]. *)
Definition good (c : C) (b : StreamBuf) (n : Z) (r : Impl * C * StreamBuf) : Prop :=
  let '(s', c', b') := r in
  impl_ok s' /\ sender_ok c' /\ sb_ok b' /\ in_use_ b' <= in_use_ b /\ sent c `prefix_of` sent c' /\
  zlen (sent c') <= zlen (sent c) + n.

Definition tame {A} (P : A -> Prop) (m : outcome A) : Prop := sat P (fun _ => True) (eq AssertionFailed) m.

Lemma settings_loop_sat n : forall buf st,
  (length buf < n)%nat -> octets buf -> settings_ok st -> tame settings_ok (settings_loop char_signed buf st).
Proof.
  induction n as [|n IH]; intros buf st Hl Ho Hst; [lia|].
  destruct buf as [|c0 [|c1 [|c2 [|c3 [|c4 [|c5 buf]]]]]]; try done. cbn [settings_loop].
  repeat (apply Forall_cons in Ho as [? Ho]). simpl in Hl. rewrite read_2, read_4 by done.
  set (id := received_number _ [c0; c1]). set (v := received_number _ [c2; c3; c4; c5]).
  assert (0 <= v < 2 ^ 32) as Hv by (apply (received_bound char_signed [c2; c3; c4; c5]); repeat apply Forall_cons_2; done || constructor).
  unfold First_, Last_. destruct (Z.ltb_spec id 1), (Z.ltb_spec 6 id); cbn [orb]; try (apply IH; [lia|done|done]).
  destruct Hst as [Hlen Hvs]. unfold Settings_set, First_. rewrite arr_set_in by (unfold zlen; lia). cbn [mbind outcome_bind].
  apply IH; [lia|done|]. split; [by rewrite length_insert|by apply Forall_insert].
Qed.

Lemma good_same s c b : impl_ok s -> sender_ok c -> sb_ok b -> good c b 17 (s, c, b).
Proof. intros. repeat (split; [done || lia|]). lia. Qed.

Lemma good_sent s c c' b out n :
  impl_ok s -> sender_ok c' -> sb_ok b -> sent c' = sent c ++ out -> zlen out <= n -> good c b n (s, c', b).
Proof.
  intros Hs Hc Hb Hout Hn. repeat (split; [done || lia|]). rewrite Hout, zlen_app. split; [by apply prefix_app_r|lia].
Qed.

Section any.
Context (s : Impl) (c : C) (b : StreamBuf) (h : FrameHeader).
Context (Hs : impl_ok s) (Hc : sender_ok c) (Hb : sb_ok b) (Hh : header_ok h).
Context (Hlen : fh_length h <= in_use_ b) (Hsz : zlen (sent c) + 64 < 2 ^ 60).

Lemma receiveData_any : tame (good c b 17) (receiveData raw h s c b).
Proof.
  unfold receiveData, getStream. destruct (fh_streamId h =? 0); [done|].
  destruct (streams_ s !! fh_streamId h) as [st|] eqn:E; [|done]. cbn [mbind outcome_bind].
  destruct (io_streams s Hs _ _ E) as [_ _ _ Hi]. by rewrite Hi.
Qed.

Lemma receiveHeaders_any : tame (good c b 17) (receiveHeaders raw h s c b).
Proof.
  pose proof Hb as [Hin Ho]. pose proof Hh as [Hhl _ _ _ Hid]. unfold receiveHeaders, sb_size.
  rewrite (proj2 (Z.leb_le _ _)) by lia. cbn [c_assert mbind outcome_bind].
  eapply sat_bind; [apply slice_sat; [done|lia]|]. intros block [Hbo Hbl]. cbn beta in Hbl.
  eapply sat_bind; [eapply (sat_mono _ (fun _ => True)); [apply parse_loop_sat; [done|lia|lia]|done..]|]. intros [hs t] _.
  assert (exists st, (match streams_ (with_decoder s t) !! fh_streamId h with
            | Some st => Ret st | None => new_ServerStream (fh_streamId h) end) = Ret st /\ id_ st = fh_streamId h)
    as (st & -> & Hst).
  { cbn [streams_ with_decoder]. destruct (streams_ s !! fh_streamId h) as [st|] eqn:E.
    - exists st. split; [done|]. by destruct (io_streams s Hs _ _ E).
    - unfold new_ServerStream. destruct (Z.ltb_spec 0x7fffffff (fh_streamId h)); [lia|]. by eexists. }
  cbn [mbind outcome_bind].
  match goal with |- context [Impl_dispatch raw ?st' c] => destruct (dispatch_ok st' c) as (c' & -> & Hc' & Hsent) end;
    [cbn [id_ with_request]; by rewrite Hst|done|done|]. cbn [mbind outcome_bind sat tame].
  eapply good_sent; [|done|done|done|by vm_compute].
  unfold endStream, with_streams. cbn. cbn [id_ with_request]. rewrite Hst, delete_insert_eq.
  apply (endStream_ok (with_decoder s t)). by destruct Hs.
Qed.

Lemma receivePing_any : tame (good c b 17) (receivePing raw h s c b).
Proof.
  unfold receivePing. pose proof (good_same s c b Hs Hc Hb). destruct (isPingACK h); [done|].
  destruct (negb (fh_streamId h =? 0)); [done|]. destruct (Z.eqb_spec (fh_length h) 8); [|done]. cbn [negb].
  unfold sb_size. destruct (Z.ltb_spec (in_use_ b) 8); [done|]. pose proof Hb as [Hin Ho].
  eapply sat_bind; [apply slice_sat; [done|lia]|]. intros data [Hd Hdl]. cbn beta in Hdl.
  destruct (sendPingResponse_ok data c Hd Hdl Hc Hsz) as (c' & -> & Hc' & Hsent). cbn [mbind outcome_bind].
  destruct (sb_advance_ok b 8 Hb) as (b' & -> & Hb' & _ & Hi); [lia|]. cbn [mbind outcome_bind sat tame].
  split; [done|]. split; [done|]. split; [done|]. split; [lia|]. rewrite Hsent, zlen_app.
  split; [by apply prefix_app_r|]. rewrite zlen_app, Hdl. change (zlen (header_wire _)) with 9. lia.
Qed.

Lemma receiveResetStream_any : tame (good c b 17) (receiveResetStream h s c b).
Proof.
  unfold receiveResetStream. destruct (Z.eqb_spec (fh_length h) 4); [|done]. cbn [negb].
  destruct (fh_streamId h =? 0); [done|]. pose proof Hb as [Hin Ho].
  eapply sat_bind; [apply slice_sat; [done|lia]|]. intros code _. cbn [sat].
  by apply good_same; [apply endStream_ok| |].
Qed.

Lemma receiveSettings_any : tame (good c b 17) (receiveSettings char_signed raw h s c b).
Proof.
  unfold receiveSettings. destruct (isSettingsACK h); [by apply good_same|]. pose proof Hb as [Hin Ho].
  pose proof (ho_length h Hh).
  eapply sat_bind; [apply slice_sat; [done|lia]|]. intros data [Hd _].
  eapply sat_bind with (Q := settings_ok).
  { unfold createFromBuffer. destruct (negb _); [done|]. eapply settings_loop_sat; [apply Nat.lt_succ_diag_r|done|apply default_settings_ok]. }
  intros peer Hp. assert ((if windowUpdateReceived_ s then Ret (windowSize_ s) else Settings_value peer InitialWindowSize)
    = Ret (if windowUpdateReceived_ s then windowSize_ s else nth 3 peer 0)) as ->.
  { destruct (windowUpdateReceived_ s); [done|]. destruct Hp as [Hl _]. unfold Settings_value, InitialWindowSize, First_.
    do 4 (destruct peer as [|? peer]; [done|]). done. }
  cbn [mbind outcome_bind]. destruct (ackSettings_ok c Hc Hsz) as (c' & -> & Hc' & Hsent). cbn [mbind outcome_bind sat].
  eapply good_sent; [|done|done|done|by vm_compute]. destruct Hs. split; try done. cbn.
  destruct (windowUpdateReceived_ s); [done|by apply nth_3_ok].
Qed.

Lemma increment_bound x : 0 <= i32 (Z.land x 0x7fffffff) <= INT32_MAX.
Proof.
  assert (Z.land x 0x7fffffff = x mod 2 ^ 31) as -> by (rewrite <- (Z.land_ones x 31) by lia; reflexivity).
  pose proof (Z.mod_pos_bound x (2 ^ 31)). rewrite swrap_small by lia. unfold INT32_MAX. lia.
Qed.

Lemma rethrow_window {A} who w n (k : Z -> outcome A) P :
  (forall r, INT32_MIN <= r <= INT32_MAX -> tame P (k r)) -> INT32_MIN <= w -> tame P (r ← open_window who w n; k r).
Proof.
  intros Hk Hw. destruct (open_window who w n) as [r| |] eqn:E; cbn; [|done|].
  - by apply Hk, (open_window_bound who w n).
  - revert E. unfold open_window. destruct (n <? 1); [done|]. by destruct (INT32_MAX <? w + n).
Qed.

Lemma receiveWindowUpdate_any : tame (good c b 17) (receiveWindowUpdate h s c b).
Proof.
  unfold receiveWindowUpdate. destruct (Z.eqb_spec (fh_length h) 4); [|done]. cbn [negb].
  pose proof Hb as [Hin Ho]. unfold readWindowSize.
  destruct (arr_get_in (buf_ b) 0) as (x0 & -> & _); [lia|]. destruct (arr_get_in (buf_ b) 1) as (x1 & -> & _); [lia|].
  destruct (arr_get_in (buf_ b) 2) as (x2 & -> & _); [lia|]. destruct (arr_get_in (buf_ b) 3) as (x3 & -> & _); [lia|].
  cbn [mbind outcome_bind].
  match goal with |- context [Z.land ?x 0x7fffffff] => pose proof (increment_bound x) as HW; generalize dependent (i32 (Z.land x 0x7fffffff)) end.
  intros n HW.
  destruct (fh_streamId h =? 0).
  - unfold addConnectionWindowSize. rewrite window_connection by (apply i32_bound || done).
    eapply sat_bind with (Q := impl_ok); [|intros s' Hs'; by apply good_same].
    apply rethrow_window; [|apply i32_bound]. intros r Hr. cbn. destruct Hs. split; try done. cbn. apply wrap_bound. lia.
  - unfold addStreamWindowSize. destruct (streams_ s !! fh_streamId h) as [st|] eqn:E; [|by apply good_same].
    pose proof (io_streams s Hs _ _ E) as [? ? ? ?]. rewrite window_stream by (done || lia).
    eapply sat_bind with (Q := impl_ok); [|intros s' Hs'; by apply good_same].
    eapply sat_bind with (Q := stream_ok (fh_streamId h)).
    + apply rethrow_window; [|lia]. intros r Hr. cbn. by split.
    + intros st' Hst'. cbn. destruct Hs. split; try done. cbn. by apply map_Forall_insert_2.
Qed.

Lemma receiveBody_any : tame (good c b 17) (receiveBody char_signed raw h s c b).
Proof.
  unfold receiveBody.
  destruct (fh_type h =? DATA); [apply receiveData_any|]. destruct (fh_type h =? HEADERS); [apply receiveHeaders_any|].
  destruct (fh_type h =? PING); [apply receivePing_any|]. destruct (fh_type h =? RST_STREAM); [apply receiveResetStream_any|].
  destruct (fh_type h =? SETTINGS); [apply receiveSettings_any|].
  destruct (fh_type h =? WINDOW_UPDATE); [apply receiveWindowUpdate_any|]. by apply good_same.
Qed.

End any.


Lemma readFrameHeader_any b :
  sb_ok b -> 9 <= in_use_ b ->
  exists h b', readFrameHeader char_signed b = Ret (h, b') /\ header_ok h /\ sb_ok b' /\ in_use_ b' = in_use_ b - 9.
Proof.
  intros Hb Hlen. pose proof (zlen_content b Hb) as Hz. pose proof (content_octets b Hb) as Ho.
  unfold readFrameHeader, sb_size, FrameHeader_SIZE. destruct (Z.ltb_spec (in_use_ b) 9); [lia|].
  destruct (sb_advance_ok b 9 Hb) as (b' & Hadv & Hb' & _ & Hi); [lia|].
  destruct (content b) as [|c0 [|c1 [|c2 [|c3 [|c4 [|c5 [|c6 [|c7 [|c8 rest]]]]]]]]] eqn:E; try (unfold zlen in Hz; simpl in Hz; lia).
  rewrite !(sb_get b [c0; c1; c2; c3; c4; c5; c6; c7; c8] rest) by (done || (vm_compute; split; congruence)).
  arr_gets. do 9 (apply Forall_cons in Ho as [? Ho]). rewrite read_3, read_4 by done. rewrite Hadv. cbn [mbind outcome_bind].
  assert (0 <= received_number char_signed [c0; c1; c2] < 2 ^ 24) by
    (apply (received_bound char_signed [c0; c1; c2]); repeat apply Forall_cons_2; done || constructor).
  assert (0 <= received_number char_signed [c5; c6; c7; c8] < 2 ^ 32) by
    (apply (received_bound char_signed [c5; c6; c7; c8]); repeat apply Forall_cons_2; done || constructor).
  generalize dependent (received_number char_signed [c0; c1; c2]). intros len Hl.
  generalize dependent (received_number char_signed [c5; c6; c7; c8]). intros id Hid.
  eexists _, b'. split; [done|]. split; [|done].
  split; cbn [fh_length fh_type fh_flags fh_reserved fh_streamId]; try apply wrap_octet; [done| |].
  - rewrite Z.shiftr_div_pow2 by lia. split; [apply Z.div_pos; lia|]. apply Z.lt_succ_r, Z.div_lt_upper_bound; lia.
  - apply (wrap_bound 31). lia.
Qed.

Definition measure (s : Impl) (b : StreamBuf) : Z :=
  in_use_ b + match currentFrameHeader_ s with Some _ => 1 | None => 0 end.

Lemma receiveFrame_some s c b h :
  impl_ok s -> sender_ok c -> sb_ok b -> currentFrameHeader_ s = Some h -> zlen (sent c) + 64 < 2 ^ 60 ->
  tame (fun '(more, r) => good c b 17 r /\
          (more = true -> currentFrameHeader_ (r.1.1) = None))
    (receiveFrame char_signed raw s c b).
Proof.
  intros Hs Hc Hb Hcur Hsz. unfold receiveFrame. rewrite Hcur. cbn [mbind outcome_bind]. rewrite Hcur. unfold sb_size.
  destruct (Z.ltb_spec (in_use_ b) (fh_length h)); [split; [by apply good_same|done]|].
  pose proof (io_current s Hs) as Hh. rewrite Hcur in Hh.
  eapply sat_bind with (Q := fun r => good c b 17 r /\ currentFrameHeader_ (r.1.1) = None); [|by intros r [? ?]].
  unfold processFrameBody. rewrite Hcur. unfold sb_size. destruct (Z.ltb_spec (in_use_ b) (fh_length h)); [lia|].
  eapply sat_bind; [by apply receiveBody_any|]. intros [[s' c'] b'] (Hs' & Hc' & Hb' & Hi & Hpre & Hl).
  pose proof (ho_length h Hh). destruct (Z.ltb_spec (in_use_ b') (fh_length h)).
  - rewrite sb_advance_over by done. done.
  - destruct (sb_advance_ok b' (fh_length h) Hb') as (b2 & -> & Hb2 & _ & Hi2); [lia|]. cbn [mbind outcome_bind sat].
    split; [|done]. split; [by destruct Hs'|]. split; [done|]. split; [done|]. split; [lia|]. done.
Qed.

Lemma receiveFrame_any s c b :
  impl_ok s -> sender_ok c -> sb_ok b -> zlen (sent c) + 64 < 2 ^ 60 ->
  tame (fun '(more, r) => good c b 17 r /\ (more = true -> measure (r.1.1) (r.2) < measure s b))
    (receiveFrame char_signed raw s c b).
Proof.
  intros Hs Hc Hb Hsz. unfold measure. destruct (currentFrameHeader_ s) as [h|] eqn:Hcur.
  - eapply sat_mono; [by eapply receiveFrame_some| |done|done].
    intros [more [[s' c'] b']] [Hg Hm]. split; [done|]. intros Hmore. cbn in *. rewrite (Hm Hmore).
    destruct Hg as (_ & _ & _ & Hi & _). lia.
  - destruct (Z.ltb_spec (in_use_ b) 9).
    + unfold receiveFrame. rewrite Hcur. unfold receiveFrameHeader. rewrite bool_decide_eq_true_2 by done.
      cbn [c_assert mbind outcome_bind]. unfold sb_size, FrameHeader_SIZE. destruct (Z.ltb_spec (in_use_ b) 9); [|lia].
      cbn [mbind outcome_bind]. rewrite Hcur. split; [by apply good_same|done].
    + destruct (readFrameHeader_any b Hb) as (h & b1 & Hrd & Hh & Hb1 & Hi1); [lia|].
      assert (receiveFrame char_signed raw s c b = receiveFrame char_signed raw (with_current s (Some h)) c b1) as ->.
      { unfold receiveFrame at 1. rewrite Hcur. unfold receiveFrameHeader. rewrite bool_decide_eq_true_2 by done.
        cbn [c_assert mbind outcome_bind]. unfold sb_size, FrameHeader_SIZE. destruct (Z.ltb_spec (in_use_ b) 9); [lia|].
        rewrite Hrd. done. }
      eapply sat_mono; [eapply (receiveFrame_some _ c b1 h); [|done|done|done|done]; destruct Hs; by split| |done|done].
      intros [more [[s' c'] b']] [(? & ? & ? & Hi & ? & ?) Hm]. split; [repeat (split; [done||lia|]); done|].
      intros Hmore. cbn in *. rewrite (Hm Hmore). lia.
Qed.

Lemma frames_loop_any fuel s c b :
  impl_ok s -> sender_ok c -> sb_ok b -> measure s b < Z.of_nat fuel -> zlen (sent c) + 17 * Z.of_nat fuel + 64 < 2 ^ 60 ->
  tame (good c b (17 * Z.of_nat fuel)) (frames_loop char_signed raw fuel s c b).
Proof.
  revert s c b. induction fuel as [|fuel IH]; intros s c b Hs Hc Hb Hm Hsz.
  { unfold measure in Hm. pose proof (sb_in_use b Hb). destruct (currentFrameHeader_ s); lia. }
  cbn [frames_loop]. eapply sat_bind; [apply receiveFrame_any; try done; lia|].
  intros [more [[s' c'] b']] [(Hs' & Hc' & Hb' & Hi & Hp & Hl) Hless].
  destruct more; cbn [andb]; [destruct (sb_isEmpty b'); cbn [negb]|].
  - cbn. repeat (split; [done||lia|]). lia.
  - eapply sat_mono; [apply (IH s' c' b'); try done|..]; try done.
    + specialize (Hless eq_refl). cbn in Hless. lia.
    + lia.
    + intros [[s2 c2] b2] (? & ? & ? & ? & Hp2 & ?). repeat (split; [done||lia|]). split; [by etrans|lia].
  - cbn. repeat (split; [done||lia|]). lia.
Qed.

Lemma receiveFrames_any s c b :
  impl_ok s -> sender_ok c -> sb_ok b -> zlen (sent c) + 17 * (in_use_ b + 2) + 64 < 2 ^ 60 ->
  tame (good c b (17 * (in_use_ b + 2))) (receiveFrames char_signed raw s c b).
Proof.
  intros Hs Hc Hb Hsz. unfold receiveFrames, sb_size. pose proof (sb_in_use b Hb).
  replace (17 * (in_use_ b + 2)) with (17 * Z.of_nat (S (S (Z.to_nat (in_use_ b))))) by lia.
  apply frames_loop_any; try done; [|lia]. unfold measure. destruct (currentFrameHeader_ s); lia.
Qed.

Lemma onInput_any s c b :
  impl_ok s -> sender_ok c -> sb_ok b -> zlen (sent c) + 34 * (in_use_ b + 2) + 64 < 2 ^ 60 ->
  tame (good c b (34 * (in_use_ b + 2))) (Impl_onInput char_signed raw s c b).
Proof.
  intros Hs Hc Hb Hsz. unfold Impl_onInput. pose proof (sb_in_use b Hb).
  eapply sat_bind with (Q := good c b (17 * (in_use_ b + 2))).
  - destruct (prefaceReceived_ s); [cbn; repeat (split; [done||lia|]); lia|].
    unfold receivePreface. change (zlen CLIENT_PREFACE) with 24. unfold sb_size.
    destruct (Z.ltb_spec (in_use_ b) 24); [cbn; repeat (split; [done||lia|]); lia|].
    pose proof (sb_octets b Hb). eapply sat_bind; [apply slice_sat; [done|lia]|]. intros start _.
    destruct (negb _); [done|]. destruct (sb_advance_ok b 24 Hb) as (b' & -> & Hb' & _ & Hi); [lia|]. cbn [mbind outcome_bind].
    eapply sat_mono; [apply receiveFrames_any; [by destruct Hs|done|done|lia]| |done|done].
    intros [[s2 c2] b2] (? & ? & ? & ? & ? & ?). repeat (split; [done||lia|]); lia.
  - intros [[s1 c1] b1] (Hs1 & Hc1 & Hb1 & Hi1 & Hp1 & Hl1).
    eapply sat_mono; [apply receiveFrames_any; [done|done|done|lia]| |done|done].
    intros [[s2 c2] b2] (? & ? & ? & ? & Hp2 & ?). repeat (split; [done||lia|]). split; [by etrans|lia].
Qed.

End transport_ok.
