(* ===== verification/Http2Correct.v ===== *)
(** The properties of the HTTP/2 server connection, and each at work on a
    connection in memory. *)
From stdpp Require Import gmap pretty.
From S2P Require Import Prelude StreamBuf Sender HpackHeader HpackTable HpackDecode Headers HuffCode Frame Settings Http2 Http2Spec.

Definition fits {C} `{SenderOk C} (c : C) (fs : list frame) : Prop := zlen (sent c) + 64 * (zlen fs + 2) < 2 ^ 60.

(** An HTTP/2 connection serves what its client sends.  A new connection
    sends its SETTINGS frame.  When the client's preface has arrived in one piece,
    the sequence of frames behind it may be cut into pieces anywhere: the
    connection ends in the state, and has sent the replies, that the frames ask
    for one after the other ([apply_frame]: every SETTINGS acknowledged, every
    HEADERS block decoded and answered with status 200 on its stream,
    WINDOW_UPDATE added, RST_STREAM obeyed, unknown frames skipped), or it throws
    at the first frame that does; what is left unread is the incomplete frame at
    the end.  DATA always throws: no stream ever leaves the idle state. *)
Theorem http2_serves_any_segmentation {C} `{SenderOk C} `{Multimap} char_signed raw fb64_size fb64_decode c d ds fs p :
  raw_ok raw -> sender_ok c -> Forall (frame_ok char_signed) fs -> partial_frame char_signed p ->
  octets d -> Forall (Forall octet) ds -> d ++ concat ds = concat (map frame_wire fs) ++ p ->
  zlen (d ++ concat ds) + 24 < 2 ^ 60 -> fits c fs ->
  exists s c1,
    new_Impl char_signed fb64_size fb64_decode None c = Ret (s, c1) /\
    sent c1 = sent c ++ header_wire (mk_FrameHeader 0 SETTINGS 0 0 0) /\
    match apply_frames char_signed (with_preface s) fs with
    | Ret (s', replies) =>
        exists s2 c2 buf,
          feed char_signed raw s c1 empty_StreamBuf ((CLIENT_PREFACE ++ d) :: ds) = Ret (s2, c2, buf) /\
          with_current s2 None = s' /\ sent c2 = sent c1 ++ replies /\ unread s2 buf = p
    | Throw e => feed char_signed raw s c1 empty_StreamBuf ((CLIENT_PREFACE ++ d) :: ds) = Throw e
    | Undef u => feed char_signed raw s c1 empty_StreamBuf ((CLIENT_PREFACE ++ d) :: ds) = Undef u
    end.
Proof.
  intros Hraw Hc Hfs Hp Hd Hds Heq Hsz Hfit. unfold fits in Hfit. pose proof (zlen_nonneg fs).
  destruct (new_Impl_ok char_signed fb64_size fb64_decode c Hc) as (s & c1 & Hnew & Hs & Hc1 & Hsent & Hpre & Hcur); [lia|].
  exists s, c1. split; [done|]. split; [done|].
  assert (serves char_signed (with_preface s) c1 fs p
            (feed char_signed raw s c1 empty_StreamBuf ((CLIENT_PREFACE ++ d) :: ds))) as Hserves.
  { cbn [feed]. assert (sb_ok empty_StreamBuf) as He by (split; [vm_compute; split; congruence|constructor]).
    assert (octets (CLIENT_PREFACE ++ d)) as Hoct by (apply Forall_app_2; [apply (bool_decide_unpack _); exact I|done]).
    pose proof Hsz as Hsz'. rewrite zlen_app in Hsz'. pose proof (zlen_nonneg (concat ds)).
    destruct (sb_write_ok empty_StreamBuf (CLIENT_PREFACE ++ d) He Hoct) as (b & -> & Hb & Hcn & _).
    { rewrite zlen_app. change (in_use_ empty_StreamBuf) with 0. change (zlen CLIENT_PREFACE) with 24. unfold SSIZE_MAX. lia. }
    cbn [mbind outcome_bind]. apply (preface_feed_ok char_signed raw Hraw fs p s c1 b d ds); try done.
    rewrite Hsent, zlen_app. change (zlen (header_wire _)) with 9. lia. }
  unfold serves in Hserves. rewrite with_current_none in Hserves by (cbn; done).
  destruct (apply_frames char_signed (with_preface s) fs) as [[s' out]|e|u]; [|done|done].
  destruct Hserves as (s2 & c2 & buf & ? & ? & _ & _ & ? & _ & ?). by exists s2, c2, buf.
Qed.

(** C11: hostile input.  On any octets, in any state of the invariant, [onInput]
    ends; it returns with the invariant kept, consuming input and only adding
    to the output, or it throws.  No buffer, table or string is accessed out of
    range and no signed addition overflows; the one undefined outcome is the
    failed assertion of [DynamicTable::resize]. *)
Theorem http2_input_safe {C} `{SenderOk C} `{Multimap} char_signed raw s (c : C) buf :
  raw_ok raw -> impl_ok s -> sender_ok c -> sb_ok buf -> zlen (sent c) + 34 * (in_use_ buf + 4) < 2 ^ 60 ->
  match Impl_onInput char_signed raw s c buf with
  | Ret (s', c', buf') =>
      impl_ok s' /\ sender_ok c' /\ sb_ok buf' /\ in_use_ buf' <= in_use_ buf /\ sent c `prefix_of` sent c'
  | Throw _ => True
  | Undef u => u = AssertionFailed
  end.
Proof.
  intros Hraw Hs Hc Hb Hsz. pose proof (onInput_any char_signed raw Hraw s c buf Hs Hc Hb ltac:(lia)) as Hg.
  unfold tame, sat, good in Hg. destruct (Impl_onInput char_signed raw s c buf) as [[[s' c'] b']|e|u]; [|done|done].
  destruct Hg as (? & ? & ? & ? & ? & _). done.
Qed.

(** C30: a PING that is not an acknowledgement.  Its eight octets are sent back in
    a PING with the ACK flag, as they should, but the payload is then taken off
    the buffer twice: the first eight octets of the next frame are lost, and when
    fewer have arrived an exception ends the connection. *)
Theorem ping_loses_input {C} `{SenderOk C} `{Multimap} char_signed raw s (c : C) buf flags reserved data rest :
  raw_ok raw -> impl_ok s -> sender_ok c -> sb_ok buf -> currentFrameHeader_ s = None -> zlen (sent c) + 64 < 2 ^ 60 ->
  octet flags -> Z.testbit flags 0 = false -> 0 <= reserved <= 1 -> octets data -> zlen data = 8 ->
  content buf = header_wire (mk_FrameHeader 8 PING flags reserved 0) ++ data ++ rest ->
  if zlen rest <? 8
  then receiveFrame char_signed raw s c buf = Throw (length_error "StreamBuf::advance out of range")
  else exists c' buf',
    receiveFrame char_signed raw s c buf = Ret (true, (s, c', buf')) /\
    sent c' = sent c ++ header_wire (mk_FrameHeader 8 PING 1 0 0) ++ data /\
    content buf' = drop 8 rest.
Proof.
  intros Hraw Hs Hc Hb Hcur Hsz Hfl Hack Hr Hd Hdl Hcn. set (h := mk_FrameHeader 8 PING flags reserved 0) in *.
  assert (header_ok h) as Hh by
    (split; cbn [fh_length fh_type fh_flags fh_reserved fh_streamId]; try done; try lia; vm_compute; split; congruence).
  assert (clean h = true) as Hcl.
  { assert (reserved = 0 \/ reserved = 1) as [-> | ->] by lia; by vm_compute. }
  destruct (readFrameHeader_wire char_signed buf h (data ++ rest) Hb Hh Hcn) as (b1 & Hrd & Hb1 & Hcn1 & Hi1).
  rewrite received_clean in Hrd by (done || by right). pose proof (zlen_content b1 Hb1) as Hz1. rewrite Hcn1, zlen_app, Hdl in Hz1.
  pose proof (zlen_nonneg rest).
  unfold receiveFrame. rewrite Hcur. unfold receiveFrameHeader. rewrite bool_decide_eq_true_2 by done.
  cbn [c_assert mbind outcome_bind]. unfold sb_size, FrameHeader_SIZE. destruct (Z.ltb_spec (in_use_ buf) 9); [lia|].
  rewrite Hrd. cbn [mbind outcome_bind currentFrameHeader_ with_current]. unfold sb_size. change (fh_length h) with 8.
  destruct (Z.ltb_spec (in_use_ b1) 8); [lia|].
  unfold processFrameBody. cbn [currentFrameHeader_ with_current]. unfold sb_size. change (fh_length h) with 8.
  destruct (Z.ltb_spec (in_use_ b1) 8); [lia|]. unfold receiveBody. change (fh_type h) with PING. cbn [Z.eqb].
  change (PING =? DATA) with false. change (PING =? HEADERS) with false. change (PING =? PING) with true. cbv iota.
  unfold receivePing, isPingACK, test_flag. change (fh_flags h) with flags. rewrite Hack, andb_false_r.
  change (fh_streamId h) with 0. change (fh_length h) with 8. cbn [negb Z.eqb Pos.eqb]. unfold sb_size.
  destruct (Z.ltb_spec (in_use_ b1) 8); [lia|].
  pose proof (slice_content b1 data rest Hb1 Hcn1) as Hsl. rewrite Hdl in Hsl. rewrite Hsl. cbn [mbind outcome_bind].
  destruct (sendPingResponse_ok raw Hraw data c Hd Hdl Hc Hsz) as (c' & -> & _ & Hsent). cbn [mbind outcome_bind].
  destruct (sb_advance_ok b1 8 Hb1) as (b2 & -> & Hb2 & Hcn2 & Hi2); [lia|]. cbn [mbind outcome_bind].
  assert (content b2 = rest) as Hcn2' by (rewrite Hcn2, Hcn1; apply drop_app_length'; unfold zlen in Hdl; lia).
  destruct (Z.ltb_spec (zlen rest) 8).
  - rewrite sb_advance_over by lia. done.
  - destruct (sb_advance_ok b2 8 Hb2) as (b3 & -> & Hb3 & Hcn3 & _); [lia|]. cbn [mbind outcome_bind].
    exists c', b3. split; [|by rewrite Hcn3, Hcn2']. do 4 f_equal. by apply (with_current_none s).
Qed.

(** The client's preface has to arrive in one piece.  When its first 9 to 23
    octets arrive alone, they are taken for the header of a frame of 5263945
    octets; once the rest is there, the connection is refused as if the preface
    had been wrong. *)
Theorem preface_must_come_whole {C} `{SenderOk C} `{Multimap} char_signed raw s (c : C) buf k :
  impl_ok s -> sb_ok buf -> prefaceReceived_ s = false -> currentFrameHeader_ s = None ->
  (9 <= k < 24)%nat -> content buf = take k CLIENT_PREFACE ->
  exists s' buf',
    Impl_onInput char_signed raw s c buf = Ret (s', c, buf') /\
    currentFrameHeader_ s' = Some (mk_FrameHeader 5263945 0x20 0x2a 0 0x20485454) /\
    forall buf2 more,
      sb_ok buf2 -> content buf2 = content buf' ++ drop k CLIENT_PREFACE ++ more -> 24 <= in_use_ buf2 ->
      Impl_onInput char_signed raw s' c buf2 = Throw (runtime_error "Invalid connection preface").
Proof.
  intros Hs Hb Hpre Hcur Hk Hcn. set (h := mk_FrameHeader 5263945 0x20 0x2a 0 0x20485454).
  assert (header_ok h) as Hh by (split; vm_compute; split; congruence).
  assert (content buf = header_wire h ++ take (k - 9) (drop 9 CLIENT_PREFACE)) as Hcn'.
  { rewrite Hcn. change (header_wire h) with (take 9 CLIENT_PREFACE). rewrite take_take_drop. f_equal. lia. }
  pose proof (zlen_content buf Hb) as Hz. rewrite Hcn in Hz. unfold zlen in Hz. rewrite length_take in Hz.
  change (length CLIENT_PREFACE) with 24%nat in Hz.
  destruct (readFrameHeader_wire char_signed buf h _ Hb Hh Hcn') as (b1 & Hrd & Hb1 & Hcn1 & Hi1).
  rewrite received_clean in Hrd by (done || right; by vm_compute).
  exists (with_current s (Some h)), b1. split; [|split; [done|]].
  - unfold Impl_onInput. rewrite Hpre. unfold receivePreface, sb_size. change (zlen CLIENT_PREFACE) with 24.
    destruct (Z.ltb_spec (in_use_ buf) 24); [|lia]. cbn [mbind outcome_bind].
    unfold receiveFrames. cbn [frames_loop]. unfold receiveFrame. rewrite Hcur. unfold receiveFrameHeader.
    rewrite bool_decide_eq_true_2 by done. cbn [c_assert mbind outcome_bind]. unfold sb_size, FrameHeader_SIZE.
    destruct (Z.ltb_spec (in_use_ buf) 9); [lia|]. rewrite Hrd.
    cbn [mbind outcome_bind currentFrameHeader_ with_current]. unfold sb_size. change (fh_length h) with 5263945.
    destruct (Z.ltb_spec (in_use_ b1) 5263945); [|lia]. done.
  - intros b2 more Hb2 Hcn2 Hi2. rewrite Hcn1 in Hcn2.
    assert (content b2 = drop 9 CLIENT_PREFACE ++ more) as Hcn3.
    { rewrite Hcn2, (assoc_L (++)). f_equal. rewrite <- (take_drop (k - 9) (drop 9 CLIENT_PREFACE)) at 2.
      rewrite drop_drop. do 2 f_equal. lia. }
    unfold Impl_onInput. cbn [prefaceReceived_ with_current]. rewrite Hpre. unfold receivePreface, sb_size.
    change (zlen CLIENT_PREFACE) with 24. destruct (Z.ltb_spec (in_use_ b2) 24); [lia|].
    pose proof (sb_in_use b2 Hb2). rewrite arr_slice_in by lia. cbn [mbind outcome_bind].
    rewrite bool_decide_eq_false_2; [done|]. change (Z.to_nat 0) with 0%nat. rewrite drop_0.
    destruct (content_rest b2 Hb2) as (tl & -> & _). rewrite Hcn3. intros Heq. apply (f_equal (fun l => l !! 1%nat)) in Heq. by rewrite lookup_take in Heq.
Qed.

(** ** At work *)

(** The payload's array before it is written to. *)
Definition raw0 : list Z := replicate 1440 0.

Lemma raw0_ok : raw_ok raw0.
Proof. split; [reflexivity|]. apply Forall_replicate. unfold octet. lia. Qed.

(** A client's settings, the request of RFC 7541 appendix C.4.1 on stream 1, an
    acknowledgement and a window update. *)
Definition example_frames : list frame :=
  [mk_frame 0 0 0 (BSettings [(3, 100)]);
   mk_frame 5 0 1 (BHeaders request_c41);
   mk_frame 1 0 0 (BSettings []);
   mk_frame 0 0 0 (BWindowUpdate 1000)].

Lemma example_frames_ok : Forall (frame_ok true) example_frames.
Proof.
  repeat apply Forall_cons_2; [..|constructor];
    (split; [split; vm_compute; split; congruence|right; vm_compute; reflexivity|apply (bool_decide_unpack _); vm_compute; exact I|]).
  - done.
  - apply request_c41_ok.
  - done.
  - cbn. lia.
Qed.

Definition example_wire : list Z := concat (map frame_wire example_frames).

Definition no_base64 (_ : list Z) : option (list Z) := None.

Lemma http2_serves_any_segmentation_witness :
  let chunks := [take 5 (drop 3 example_wire); drop 8 example_wire] in
  let input := (CLIENT_PREFACE ++ take 3 example_wire) :: chunks in
  exists s c1,
    new_Impl true (fun n => n) no_base64 None fresh_endpoint = Ret (s, c1) /\
    sent c1 = sent fresh_endpoint ++ header_wire (mk_FrameHeader 0 SETTINGS 0 0 0) /\
    match apply_frames true (with_preface s) example_frames with
    | Ret (s', replies) =>
        exists s2 c2 buf,
          feed true raw0 s c1 empty_StreamBuf input = Ret (s2, c2, buf) /\
          with_current s2 None = s' /\ sent c2 = sent c1 ++ replies /\ unread s2 buf = []
    | Throw e => feed true raw0 s c1 empty_StreamBuf input = Throw e
    | Undef u => feed true raw0 s c1 empty_StreamBuf input = Undef u
    end.
Proof.
  apply (http2_serves_any_segmentation true raw0 (fun n => n) no_base64 fresh_endpoint (take 3 example_wire)
           [take 5 (drop 3 example_wire); drop 8 example_wire] example_frames []).
  - apply raw0_ok.
  - split; [vm_compute; split; congruence|constructor].
  - apply example_frames_ok.
  - apply partial_nil.
  - apply (bool_decide_unpack _). vm_compute. exact I.
  - apply (bool_decide_unpack _). vm_compute. exact I.
  - vm_compute. reflexivity.
  - vm_compute. reflexivity.
  - vm_compute. reflexivity.
Defined.

Definition example_impl (preface : bool) : Impl :=
  mk_Impl default_Settings default_Settings new_DynamicTable ∅ None 65535 preface false.

Lemma example_impl_ok preface : impl_ok (example_impl preface).
Proof. split; cbn; try apply default_settings_ok; [apply map_Forall_empty|lia|done]. Qed.

(** A WINDOW_UPDATE of zero octets and garbage behind it. *)
Lemma http2_input_safe_witness :
  let buf := mk_StreamBuf 11 [0; 0; 0; 8; 0; 0; 0; 0; 0; 200; 1; 77] in
  Impl_onInput true raw0 (example_impl true) fresh_endpoint buf = Throw (runtime_error "WINDOW_UPDATE wrong size") /\
  match Impl_onInput true raw0 (example_impl true) fresh_endpoint buf with
  | Ret (s', c', buf') =>
      impl_ok s' /\ sender_ok c' /\ sb_ok buf' /\ in_use_ buf' <= in_use_ buf /\ sent fresh_endpoint `prefix_of` sent c'
  | Throw _ => True
  | Undef u => u = AssertionFailed
  end.
Proof.
  split; [vm_compute; reflexivity|].
  apply (http2_input_safe true raw0 (example_impl true) fresh_endpoint (mk_StreamBuf 11 [0; 0; 0; 8; 0; 0; 0; 0; 0; 200; 1; 77])).
  - apply raw0_ok.
  - apply example_impl_ok.
  - split; [vm_compute; split; congruence|constructor].
  - split; [vm_compute; split; congruence|apply (bool_decide_unpack _); vm_compute; exact I].
  - vm_compute. reflexivity.
Defined.

(** A PING and nothing behind it. *)
Lemma ping_loses_input_witness :
  let data := [1; 2; 3; 4; 5; 6; 7; 8] in
  let buf := mk_StreamBuf 17 (header_wire (mk_FrameHeader 8 PING 0 0 0) ++ data) in
  if zlen (@nil Z) <? 8
  then receiveFrame true raw0 (example_impl true) fresh_endpoint buf
       = Throw (length_error "StreamBuf::advance out of range")
  else exists c' buf',
    receiveFrame true raw0 (example_impl true) fresh_endpoint buf = Ret (true, (example_impl true, c', buf')) /\
    sent c' = sent fresh_endpoint ++ header_wire (mk_FrameHeader 8 PING 1 0 0) ++ data /\
    content buf' = drop 8 [].
Proof.
  apply (ping_loses_input true raw0 (example_impl true) fresh_endpoint
           (mk_StreamBuf 17 (header_wire (mk_FrameHeader 8 PING 0 0 0) ++ [1; 2; 3; 4; 5; 6; 7; 8])) 0 0 [1; 2; 3; 4; 5; 6; 7; 8] []).
  - apply raw0_ok.
  - apply example_impl_ok.
  - split; [vm_compute; split; congruence|constructor].
  - split; [vm_compute; split; congruence|apply (bool_decide_unpack _); vm_compute; exact I].
  - reflexivity.
  - vm_compute. reflexivity.
  - unfold octet. lia.
  - reflexivity.
  - lia.
  - apply (bool_decide_unpack _). vm_compute. exact I.
  - reflexivity.
  - vm_compute. reflexivity.
Defined.

Lemma preface_must_come_whole_witness :
  let buf := mk_StreamBuf 10 (take 10 CLIENT_PREFACE) in
  exists s' buf',
    Impl_onInput true raw0 (example_impl false) fresh_endpoint buf = Ret (s', fresh_endpoint, buf') /\
    currentFrameHeader_ s' = Some (mk_FrameHeader 5263945 0x20 0x2a 0 0x20485454) /\
    forall buf2 more,
      sb_ok buf2 -> content buf2 = content buf' ++ drop 10 CLIENT_PREFACE ++ more -> 24 <= in_use_ buf2 ->
      Impl_onInput true raw0 s' fresh_endpoint buf2 = Throw (runtime_error "Invalid connection preface").
Proof.
  apply (preface_must_come_whole true raw0 (example_impl false) fresh_endpoint (mk_StreamBuf 10 (take 10 CLIENT_PREFACE)) 10).
  - apply example_impl_ok.
  - split; [vm_compute; split; congruence|apply (bool_decide_unpack _); vm_compute; exact I].
  - reflexivity.
  - reflexivity.
  - lia.
  - reflexivity.
Defined.
