(* ===== verification/Routes.v ===== *)
(** From a request to what answers it: [Routes.cpp], [StaticResponder.cpp],
    [Responder.h], the routes of [Server.cpp], and [UnhandledRequestHandler.cpp]. *)
From S2P Require Import Prelude Headers.

(** [Response(status_code, body)], [Response(body)] *)
Definition make_Response (status_code : Z) (body : list Z) : Response :=
  mk_Response (mk_Message body new_Headers) status_code.

(** [RequestHandler]: the responses a handler sends before it returns, in order. *)
Definition RequestHandler : Type := Request -> list Response.

Section routes.
Context `{Multimap}.

(** [class StaticResponder] *)
Record StaticResponder := mk_StaticResponder { response_ : Response }.

Definition addStandardHeaders (s : StaticResponder) : StaticResponder :=
  let r := response_ s in
  let h := Headers_set (headers_ (message r)) (str "content-length") (to_string (zlen (body_ (message r)))) in
  mk_StaticResponder (mk_Response (mk_Message (body_ (message r)) h) (status_code_ r)).

Definition new_StaticResponder (r : Response) : StaticResponder := addStandardHeaders (mk_StaticResponder r).

(** [operator()] *)
Definition StaticResponder_handle (s : StaticResponder) : RequestHandler := fun _ => [response_ s].

(** Neither is installed anywhere. *)
Definition defaultHandler : RequestHandler := fun _ => [make_Response 404 (str "No handler for this path." ++ [10])].
Definition unhandled_request_handler : StaticResponder :=
  new_StaticResponder (make_Response 400 (str "No handler for request")).

(** [class Routes]: the handlers in the order they were added. *)
Record Routes := mk_Routes { handlers_ : list (list Z * RequestHandler) }.

Definition addHandler (r : Routes) (path : list Z) (handler : RequestHandler) : Routes :=
  mk_Routes (handlers_ r ++ [(path, handler)]).

(** [std::string::starts_with] *)
Fixpoint starts_with (s prefix : list Z) {struct prefix} : bool :=
  match prefix, s with
  | [], _ => true
  | p :: prefix, c :: s => (c =? p) && starts_with s prefix
  | _ :: _, [] => false
  end.

Fixpoint dispatch_loop (handlers : list (list Z * RequestHandler)) (request : Request) : list Response :=
  match handlers with
  | [] => []
  | (path, handler) :: handlers =>
      if starts_with (path_ request) path then handler request else dispatch_loop handlers request
  end.

Definition Routes_dispatch (r : Routes) (request : Request) : list Response := dispatch_loop (handlers_ r) request.

(** [Server::addRoute], with a response and with a handler. *)
Definition addRoute_static (r : Routes) (path : list Z) (response : Response) : Routes :=
  addHandler r path (StaticResponder_handle (new_StaticResponder response)).
Definition addRoute_handler (r : Routes) (path : list Z) (handler : RequestHandler) : Routes :=
  addHandler r path handler.

(** [HelloWorld.cpp] *)
Definition hello_world : Routes :=
  addRoute_static (mk_Routes []) (str "/") (make_Response 200 (str "Hello, world!" ++ [10])).

(** ** Which route *)

Lemma starts_with_spec s p : starts_with s p = true <-> p `prefix_of` s.
Proof.
  revert s. induction p as [|x p IH]; intros s; cbn; [split; [intros _; apply prefix_nil|done]|].
  destruct s as [|c s]; [split; [done|intros Hp; by apply prefix_nil_not in Hp]|].
  rewrite andb_true_iff, Z.eqb_eq, IH. split.
  - intros [-> Hp]. by apply prefix_cons.
  - intros Hp. split; [symmetry; by eapply prefix_cons_inv_1|by eapply prefix_cons_inv_2].
Qed.

Lemma dispatch_loop_none hs rest req :
  Forall (fun e => ~ fst e `prefix_of` path_ req) hs -> dispatch_loop (hs ++ rest) req = dispatch_loop rest req.
Proof.
  induction 1 as [|[p h] hs Hp _ IH]; cbn; [done|]. destruct (starts_with (path_ req) p) eqn:E; [|done].
  by apply starts_with_spec in E.
Qed.

(** C35: routing.  A request goes to the handler that was added first among those
    whose path its own begins with, whatever is added after it; when there is
    none, nothing is answered at all. *)
Theorem Routes_first_match before path handler later req :
  Forall (fun e => ~ fst e `prefix_of` path_ req) before ->
  let routes := mk_Routes before in
  Routes_dispatch routes req = [] /\
  (path `prefix_of` path_ req ->
   Routes_dispatch (foldl (fun r e => addRoute_handler r (fst e) (snd e)) (addRoute_handler routes path handler) later) req
   = handler req).
Proof.
  intros Hb routes. subst routes. unfold Routes_dispatch, addRoute_handler, addHandler. cbn [handlers_]. split.
  { rewrite <- (app_nil_r before). by rewrite dispatch_loop_none. }
  intros Hp.
  assert (forall l r, handlers_ (foldl (fun r e => mk_Routes (handlers_ r ++ [(fst e, snd e)])) r l) = handlers_ r ++ l) as ->.
  { induction l as [|[p h] l IH]; intros r; cbn; [by rewrite app_nil_r|]. rewrite IH. cbn [handlers_]. by rewrite <- (assoc_L (++)). }
  cbn [handlers_]. rewrite <- (assoc_L (++)), dispatch_loop_none by done. cbn.
  by rewrite (proj2 (starts_with_spec _ _)).
Qed.

End routes.

Lemma Routes_first_match_witness :
  let req := mk_Request new_Message (str "GET") (str "/api/x") in
  let h1 := StaticResponder_handle (new_StaticResponder (make_Response 200 (str "one"))) in
  let h2 := StaticResponder_handle (new_StaticResponder (make_Response 200 (str "two"))) in
  let routes := mk_Routes [(str "/b", h1)] in
  Routes_dispatch routes req = [] /\
  (str "/api" `prefix_of` path_ req ->
   Routes_dispatch (foldl (fun r e => addRoute_handler r (fst e) (snd e)) (addRoute_handler routes (str "/api") h2)
                      [(str "/", h1)]) req
   = h2 req).
Proof.
  apply (Routes_first_match
           [(str "/b", StaticResponder_handle (new_StaticResponder (make_Response 200 (str "one"))))] (str "/api")
           (StaticResponder_handle (new_StaticResponder (make_Response 200 (str "two"))))
           [(str "/", StaticResponder_handle (new_StaticResponder (make_Response 200 (str "one"))))]
           (mk_Request new_Message (str "GET") (str "/api/x"))).
  repeat constructor. cbn. intros [k Hk]. discriminate Hk.
Defined.
