(* ===== verification/Date.v ===== *)
(** The Date header: [Date.cpp]. *)
From S2P Require Import Prelude.

(** [struct tm], the fields that are used. *)
Record tm := mk_tm { tm_sec : Z; tm_min : Z; tm_hour : Z; tm_mday : Z; tm_mon : Z; tm_year : Z; tm_wday : Z }.

Definition daysOfWeek : list (list Z) :=
  [str "Sun"; str "Mon"; str "Tue"; str "Wed"; str "Thu"; str "Fri"; str "Sat"].

Definition months : list (list Z) :=
  [str "Jan"; str "Feb"; str "Mar"; str "Apr"; str "May"; str "Jun";
   str "Jul"; str "Aug"; str "Sep"; str "Oct"; str "Nov"; str "Dec"].

(** [str[i] = '0' + d], for a [char] *)
Definition set_digit (s : list Z) (i d : Z) : outcome (list Z) := s.[i := u8 (48 + d)].

(** [t] is what [gmtime_r] makes of the time; [None] is its failure. *)
Definition Date_now (t : option tm) : outcome (list Z) :=
  let s := str "Sun, 06 Nov 1994 08:49:37 GMT" in
  match t with
  | None => Throw (runtime_error "gmtime_r")
  | Some tm =>
      dayOfWeek ← daysOfWeek.[tm_wday tm];
      month ← months.[tm_mon tm];
      s ← arr_blit s 0 dayOfWeek;
      s ← set_digit s 5 (tm_mday tm ÷ 10);
      s ← set_digit s 6 (Z.rem (tm_mday tm) 10);
      s ← arr_blit s 8 month;
      let year := tm_year tm + 1900 in
      s ← set_digit s 12 (year ÷ 1000);
      s ← set_digit s 13 (Z.rem year 1000 ÷ 100);
      s ← set_digit s 14 (Z.rem year 100 ÷ 10);
      s ← set_digit s 15 (Z.rem year 10);
      s ← set_digit s 17 (tm_hour tm ÷ 10);
      s ← set_digit s 18 (Z.rem (tm_hour tm) 10);
      s ← set_digit s 20 (tm_min tm ÷ 10);
      s ← set_digit s 21 (Z.rem (tm_min tm) 10);
      s ← set_digit s 23 (tm_sec tm ÷ 10);
      set_digit s 24 (Z.rem (tm_sec tm) 10)
  end.

(** ** IMF-fixdate (RFC 7231, 7.1.1.1) *)

(** A number of [n] digits. *)
Fixpoint read_digits (n : nat) (s : list Z) (v : Z) : option (Z * list Z) :=
  match n, s with
  | O, _ => Some (v, s)
  | S n, c :: s => if (48 <=? c) && (c <=? 57) then read_digits n s (v * 10 + (c - 48)) else None
  | S _, [] => None
  end.

Definition read_literal (l s : list Z) : option (list Z) :=
  if bool_decide (take (length l) s = l) then Some (drop (length l) s) else None.

(** One of some names of three letters: its index. *)
Fixpoint read_name (names : list (list Z)) (s : list Z) (i : Z) : option (Z * list Z) :=
  match names with
  | [] => None
  | n :: names => match read_literal n s with Some s => Some (i, s) | None => read_name names s (i + 1) end
  end.

Definition read_date (s : list Z) : option tm :=
  '(wday, s) ← read_name daysOfWeek s 0; s ← read_literal (str ", ") s;
  '(mday, s) ← read_digits 2 s 0; s ← read_literal (str " ") s;
  '(mon, s) ← read_name months s 0; s ← read_literal (str " ") s;
  '(year, s) ← read_digits 4 s 0; s ← read_literal (str " ") s;
  '(hour, s) ← read_digits 2 s 0; s ← read_literal (str ":") s;
  '(min, s) ← read_digits 2 s 0; s ← read_literal (str ":") s;
  '(sec, s) ← read_digits 2 s 0; s ← read_literal (str " GMT") s;
  match s with [] => Some (mk_tm sec min hour mday mon (year - 1900) wday) | _ => None end.

Record tm_ok (t : tm) : Prop := mk_tm_ok {
  ok_sec : 0 <= tm_sec t <= 60;
  ok_min : 0 <= tm_min t <= 59;
  ok_hour : 0 <= tm_hour t <= 23;
  ok_mday : 1 <= tm_mday t <= 31;
  ok_mon : 0 <= tm_mon t <= 11;
  ok_year : 0 <= tm_year t + 1900 <= 9999;
  ok_wday : 0 <= tm_wday t <= 6
}.

(** The digits of a number below 100, and of one below 10000. *)
Definition two (n : Z) : list Z := [48 + n / 10; 48 + n mod 10].
Definition four (n : Z) : list Z := [48 + n / 1000; 48 + n mod 1000 / 100; 48 + n mod 100 / 10; 48 + n mod 10].

Lemma read_digits_cons n d s v :
  0 <= d <= 9 -> read_digits (S n) (48 + d :: s) v = read_digits n s (v * 10 + d).
Proof.
  intros Hd. cbn [read_digits]. destruct (Z.leb_spec 48 (48 + d)), (Z.leb_spec (48 + d) 57); try lia.
  cbn [andb]. do 2 f_equal. lia.
Qed.

Lemma read_two n s : 0 <= n < 100 -> read_digits 2 (two n ++ s) 0 = Some (n, s).
Proof.
  intros Hn. unfold two. cbn [app]. pose proof (Z.div_mod n 10). pose proof (Z.mod_pos_bound n 10).
  assert (0 <= n / 10 <= 9) by lia. rewrite !read_digits_cons by lia. cbn [read_digits]. do 2 f_equal. lia.
Qed.

Lemma read_four n s : 0 <= n < 10000 -> read_digits 4 (four n ++ s) 0 = Some (n, s).
Proof.
  intros Hn. unfold four. cbn [app].
  assert (0 <= n / 1000 <= 9 /\ 0 <= n mod 1000 / 100 <= 9 /\ 0 <= n mod 100 / 10 <= 9 /\ 0 <= n mod 10 <= 9 /\
          n = n / 1000 * 1000 + n mod 1000 / 100 * 100 + n mod 100 / 10 * 10 + n mod 10) as (?&?&?&?&Heq)
    by (Z.div_mod_to_equations; lia).
  rewrite !read_digits_cons by lia. cbn [read_digits]. do 2 f_equal. lia.
Qed.

Lemma Date_now_ok t :
  tm_ok t ->
  exists day mon, daysOfWeek !! Z.to_nat (tm_wday t) = Some day /\ months !! Z.to_nat (tm_mon t) = Some mon /\
    Date_now (Some t) = Ret (day ++ str ", " ++ two (tm_mday t) ++ str " " ++ mon ++ str " " ++ four (tm_year t + 1900)
      ++ str " " ++ two (tm_hour t) ++ str ":" ++ two (tm_min t) ++ str ":" ++ two (tm_sec t) ++ str " GMT").
Proof.
  intros []. unfold Date_now.
  destruct (arr_get_in daysOfWeek (tm_wday t)) as (day & -> & Hd); [change (zlen daysOfWeek) with 7; lia|].
  destruct (arr_get_in months (tm_mon t)) as (mon & -> & Hm); [change (zlen months) with 12; lia|].
  exists day, mon. split; [done|]. split; [done|]. cbn [mbind outcome_bind].
  assert (exists a b c, day = [a; b; c]) as (a & b & c & ->).
  { apply list_elem_of_lookup_2 in Hd. unfold daysOfWeek in Hd. repeat (apply elem_of_cons in Hd as [-> | Hd]; [by eexists _, _, _|]).
    by apply not_elem_of_nil in Hd. }
  assert (exists a b c, mon = [a; b; c]) as (d & e & f & ->).
  { apply list_elem_of_lookup_2 in Hm. unfold months in Hm. repeat (apply elem_of_cons in Hm as [-> | Hm]; [by eexists _, _, _|]).
    by apply not_elem_of_nil in Hm. }
  unfold set_digit, two, four. rewrite !Z.rem_mod_nonneg by lia.
  rewrite !Z.quot_div_nonneg by (Z.div_mod_to_equations; lia).
  rewrite !wrap_small by (Z.div_mod_to_equations; lia).
  vm_compute (str "Sun, 06 Nov 1994 08:49:37 GMT").
  reflexivity.
Qed.

(** C36: the Date header.  For the broken-down times that [gmtime_r] gives before
    the year 10000, [now] returns the IMF-fixdate that reads back as that
    time, in 29 octets. *)
Theorem date_roundtrip t :
  tm_ok t -> exists s, Date_now (Some t) = Ret s /\ zlen s = 29 /\ read_date s = Some t.
Proof.
  intros Hok. destruct (Date_now_ok t Hok) as (day & mon & Hd & Hm & ->). pose proof Hok as [].
  eexists. split; [done|].
  assert (zlen day = 3 /\ forall s, read_name daysOfWeek (day ++ s) 0 = Some (tm_wday t, s)) as [Hd3 Hrd].
  { assert (tm_wday t ∈ [0; 1; 2; 3; 4; 5; 6]) as Hin by (rewrite !elem_of_cons; lia).
    repeat (apply elem_of_cons in Hin as [Hin | Hin]; [rewrite Hin in *; injection Hd as <-; done|]).
    by apply not_elem_of_nil in Hin. }
  assert (zlen mon = 3 /\ forall s, read_name months (mon ++ s) 0 = Some (tm_mon t, s)) as [Hm3 Hrm].
  { assert (tm_mon t ∈ [0; 1; 2; 3; 4; 5; 6; 7; 8; 9; 10; 11]) as Hin by (rewrite !elem_of_cons; lia).
    repeat (apply elem_of_cons in Hin as [Hin | Hin]; [rewrite Hin in *; injection Hm as <-; done|]).
    by apply not_elem_of_nil in Hin. }
  split; [rewrite !zlen_app, Hd3, Hm3; done|]. unfold read_date.
  assert (forall l s, read_literal l (l ++ s) = Some s) as Hlit.
  { intros l s. unfold read_literal. by rewrite take_app_length, drop_app_length, bool_decide_eq_true_2. }
  rewrite Hrd. cbn [mbind option_bind]. rewrite Hlit. cbn [mbind option_bind]. rewrite read_two by lia. cbn [mbind option_bind].
  rewrite Hlit. cbn [mbind option_bind]. rewrite Hrm. cbn [mbind option_bind]. rewrite Hlit. cbn [mbind option_bind].
  rewrite read_four by lia. cbn [mbind option_bind]. rewrite Hlit. cbn [mbind option_bind].
  rewrite read_two by lia. cbn [mbind option_bind]. rewrite Hlit. cbn [mbind option_bind].
  rewrite read_two by lia. cbn [mbind option_bind]. rewrite Hlit. cbn [mbind option_bind].
  rewrite read_two by lia. cbn [mbind option_bind]. rewrite <- (app_nil_r (str " GMT")), Hlit. cbn [mbind option_bind].
  destruct t; cbn. do 2 f_equal. lia.
Qed.

(** The date of RFC 7231's example. *)
Lemma date_roundtrip_witness :
  exists s, Date_now (Some (mk_tm 37 49 8 6 10 94 0)) = Ret s /\ zlen s = 29 /\ read_date s = Some (mk_tm 37 49 8 6 10 94 0).
Proof. apply date_roundtrip. split; cbn; lia. Defined.
