(* ===== verification/StatusStrings.v ===== *)
(** The status codes as strings: [StatusStrings.cpp], and the alternatives of
    benchmarks/ArrayStatusStrings.cpp and benchmarks/status-code.cpp. *)
From stdpp Require Import gmap.
From S2P Require Import Prelude Headers.

(** ** [class StatusStrings] *)

(** The loop of the constructor from [code] on, [n] rounds. *)
Fixpoint StatusStrings_loop (n : nat) (code : Z) (strs : list (list Z)) : outcome (list (list Z)) :=
  match n with
  | O => Ret strs
  | S n =>
      let codestr := to_string code in
      s ← strs.[code - 100];
      c0 ← codestr.[0]; s ← s.[0 := c0];
      c1 ← codestr.[1]; s ← s.[1 := c1];
      c2 ← codestr.[2]; s ← s.[2 := c2];
      s ← s.[3 := 0];
      strs ← strs.[code - 100 := s];
      StatusStrings_loop n (code + 1) strs
  end.

(** Static storage starts as zeros. *)
Definition new_StatusStrings : outcome (list (list Z)) := StatusStrings_loop 500 100 (replicate 500 (replicate 4 0)).

(** What a constructor makes; the static objects of the program are evaluated. *)
Definition object {A} (m : outcome (list A)) : list A := match m with Ret strs => strs | _ => [] end.

(** The object [status_strings]. *)
Definition status_strings : list (list Z) := Eval vm_compute in object new_StatusStrings.

(** A pointer to four octets. *)
Definition StatusStrings_get (code : Z) : outcome (list Z) :=
  if (code <? 100) || (599 <? code) then Throw (range_error "invalid status code")
  else status_strings.[code - 100].

(** ** [class ArrayStatusStrings] *)

Fixpoint ArrayStatusStrings_loop (n : nat) (code : Z) (strs : list (list Z)) : outcome (list (list Z)) :=
  match n with
  | O => Ret strs
  | S n =>
      strs ← strs.[code - 100 := to_string code];
      ArrayStatusStrings_loop n (code + 1) strs
  end.

Definition new_ArrayStatusStrings : outcome (list (list Z)) := ArrayStatusStrings_loop 500 100 (replicate 500 []).

Definition array_status_strings : list (list Z) := Eval vm_compute in object new_ArrayStatusStrings.

Definition ArrayStatusStrings_get (code : Z) : outcome (list Z) :=
  if (code <? 100) || (599 <? code) then Throw (range_error "invalid status code")
  else array_status_strings.[code - 100].

(** ** [class ContinuousStatusStrings] *)

Definition continuous_digits : list Z := str "0123456789".

Fixpoint ContinuousStatusStrings_loop (n : nat) (i : Z) (strs : list Z) : outcome (list Z) :=
  match n with
  | O => Ret strs
  | S n =>
      d0 ← continuous_digits.[i / 100]; strs ← strs.[(i - 100) * 4 := d0];
      d1 ← continuous_digits.[i mod 100 / 10]; strs ← strs.[(i - 100) * 4 + 1 := d1];
      d2 ← continuous_digits.[i mod 10]; strs ← strs.[(i - 100) * 4 + 2 := d2];
      strs ← strs.[(i - 100) * 4 + 3 := 0];
      ContinuousStatusStrings_loop n (i + 1) strs
  end.

Definition new_ContinuousStatusStrings : outcome (list Z) := ContinuousStatusStrings_loop 500 100 (replicate (500 * 4) 0).

Definition continuous_status_strings : list Z := Eval vm_compute in object new_ContinuousStatusStrings.

(** A pointer into the array: the octets from it to the array's end. *)
Definition ContinuousStatusStrings_str (status_code : Z) : outcome (list Z) :=
  if (status_code <? 100) || (599 <? status_code) then Throw (runtime_error "Invalid HTTP status code")
  else Ret (drop (Z.to_nat ((status_code - 100) * 4)) continuous_status_strings).

(** ** [class UMAPStatusStrings] *)

(** [emplace] keeps what a key has. *)
Fixpoint UMAPStatusStrings_loop (n : nat) (code : Z) (strs : gmap Z (list Z)) : gmap Z (list Z) :=
  match n with
  | O => strs
  | S n =>
      UMAPStatusStrings_loop n (code + 1) (match strs !! code with Some _ => strs | None => <[code := to_string code]> strs end)
  end.

Definition umap_status_strings : gmap Z (list Z) := UMAPStatusStrings_loop 500 100 ∅.

Definition UMAPStatusStrings_at (code : Z) : outcome (list Z) :=
  match umap_status_strings !! code with Some s => Ret s | None => Throw (out_of_range "unordered_map::at") end.

(** ** They agree *)

(** The objects are what their constructors make. *)
Lemma constructed :
  new_StatusStrings = Ret status_strings /\ new_ArrayStatusStrings = Ret array_status_strings /\
  new_ContinuousStatusStrings = Ret continuous_status_strings.
Proof. split; [|split]; vm_compute; reflexivity. Qed.

Definition agree_at (code : Z) : bool :=
  let s := to_string code in
  bool_decide (status_strings !! Z.to_nat (code - 100) = Some (s ++ [0])) &&
  bool_decide (array_status_strings !! Z.to_nat (code - 100) = Some s) &&
  bool_decide (take 4 (drop (Z.to_nat ((code - 100) * 4)) continuous_status_strings) = s ++ [0]) &&
  bool_decide (umap_status_strings !! code = Some s).

Lemma agree_everywhere code : 100 <= code <= 599 -> agree_at code = true.
Proof.
  intros Hc. assert (forallb agree_at (seqZ 100 500) = true) as Hall by (vm_compute; reflexivity).
  rewrite forallb_forall in Hall. apply Hall, list_elem_of_In, elem_of_seqZ. lia.
Qed.

Lemma umap_outside code : ~ 100 <= code <= 599 -> umap_status_strings !! code = None.
Proof.
  unfold umap_status_strings. assert (forall n i m, ~ (i <= code < i + Z.of_nat n) -> m !! code = None -> UMAPStatusStrings_loop n i m !! code = None) as H.
  { induction n as [|n IH]; intros i m Hi Hm; cbn [UMAPStatusStrings_loop]; [done|]. apply IH; [lia|].
    destruct (m !! i); [done|]. rewrite lookup_insert_ne by lia. done. }
  intros Hc. apply H; [lia|done].
Qed.

(** What [statusLine] needs. *)
Lemma StatusStrings_get_ok code : 100 <= code <= 599 -> StatusStrings_get code = Ret (to_string code ++ [0]).
Proof.
  intros Hc. pose proof (agree_everywhere code Hc) as H. unfold agree_at in H. rewrite !andb_true_iff, !bool_decide_eq_true in H.
  destruct H as [[[H _] _] _]. unfold StatusStrings_get. destruct (Z.ltb_spec code 100), (Z.ltb_spec 599 code); try lia. cbn [orb].
  apply arr_get_Some; [lia|done].
Qed.

(** C19: the table of status codes and its three alternatives, as their
    constructors build them, give the same three digits for every code from 100
    to 599, the two tables of characters with a NUL behind them; for other codes
    each throws, the map with its own exception. *)
Theorem status_strings_agree code :
  (new_StatusStrings = Ret status_strings /\ new_ArrayStatusStrings = Ret array_status_strings /\
   new_ContinuousStatusStrings = Ret continuous_status_strings) /\
  let s := to_string code in
  if (100 <=? code) && (code <=? 599) then
    StatusStrings_get code = Ret (s ++ [0]) /\ ArrayStatusStrings_get code = Ret s /\
    (exists rest, ContinuousStatusStrings_str code = Ret ((s ++ [0]) ++ rest)) /\ UMAPStatusStrings_at code = Ret s
  else
    StatusStrings_get code = Throw (range_error "invalid status code") /\
    ArrayStatusStrings_get code = Throw (range_error "invalid status code") /\
    ContinuousStatusStrings_str code = Throw (runtime_error "Invalid HTTP status code") /\
    UMAPStatusStrings_at code = Throw (out_of_range "unordered_map::at").
Proof.
  split; [apply constructed|]. cbv zeta. unfold ArrayStatusStrings_get, ContinuousStatusStrings_str, UMAPStatusStrings_at.
  destruct (decide (100 <= code <= 599)) as [Hc|Hc].
  - rewrite StatusStrings_get_ok by done. pose proof (agree_everywhere code Hc) as H. unfold agree_at in H.
    rewrite !andb_true_iff, !bool_decide_eq_true in H. destruct H as [[[_ Ha] Hs] ->].
    destruct (Z.leb_spec 100 code), (Z.leb_spec code 599), (Z.ltb_spec code 100), (Z.ltb_spec 599 code); try lia. cbn [andb orb].
    split; [done|]. split; [apply arr_get_Some; [lia|done]|]. split; [|done]. rewrite <- Hs. eexists. f_equal. symmetry. apply take_drop.
  - rewrite umap_outside by done. unfold StatusStrings_get.
    destruct (Z.leb_spec 100 code), (Z.leb_spec code 599), (Z.ltb_spec code 100), (Z.ltb_spec 599 code); try lia; done.
Qed.
