(* ===== verification/Http1.v ===== *)
(** HTTP/1 syntax: [http1/HTTP1.cpp]. *)
From S2P Require Import Prelude StreamBuf Headers StatusStrings.

(** The string of some octets, for what an exception says. *)
Definition show (s : list Z) : string :=
  String.string_of_list_ascii (map (fun c => Ascii.ascii_of_N (Z.to_N c)) s).

(** ** Lines *)

Definition NL : Z := 10.
Definition CR : Z := 13.
Definition SP : Z := 32.

(** The last [c] among the first [n] octets. *)
Fixpoint memrchr (buf : list Z) (c : Z) (n : nat) : option nat :=
  match n with
  | O => None
  | S n => if nth n buf 0 =? c then Some n else memrchr buf c n
  end.

(** The end of the first line, one behind its newline. *)
Definition findEndOfLine (buf : list Z) (len : Z) : outcome (option Z) :=
  if len =? 0 then Ret None
  else
    c ← buf.[len - 1];
    let last_nl := if c =? NL then Some (Z.to_nat (len - 1)) else memrchr buf NL (Z.to_nat len) in
    match last_nl with
    | None => Ret None
    | Some _ =>
        match find_char NL buf with
        | Some i => Ret (Some (Z.of_nat i + 1))
        | None => Undef OutOfBounds
        end
    end.

Definition removeTrailingChar (s : list Z) (c : Z) : list Z :=
  let len := zlen s in
  if negb (len =? 0) && (nth (Z.to_nat (len - 1)) s 0 =? c) then str_resize s (len - 1) else s.

Definition trimNewline (s : list Z) : list Z := removeTrailingChar (removeTrailingChar s NL) CR.

Definition getLine (buf : StreamBuf) : outcome (option (list Z) * StreamBuf) :=
  end_of_line ← findEndOfLine (buf_ buf) (sb_size buf);
  match end_of_line with
  | None => Ret (None, buf)
  | Some line_len =>
      line ← arr_slice (buf_ buf) 0 line_len;
      buf ← sb_advance buf line_len;
      Ret (Some (trimNewline line), buf)
  end.

(** ** First lines *)

Record RequestLine := mk_RequestLine { rl_method : list Z; rl_path : list Z; rl_version : list Z }.
Record StatusLine := mk_StatusLine { sl_code : Z; sl_reason_phrase : list Z; sl_version : list Z }.

(** [std::string::substr] *)
Definition substr (s : list Z) (pos : nat) (n : nat) : outcome (list Z) :=
  if (length s <? pos)%nat then Throw (out_of_range "basic_string::substr")
  else Ret (take n (drop pos s)).

(** [try m catch (const std::exception&) { throw e; }] *)
Definition catch {A} (m : outcome A) (e : exn) : outcome A :=
  match m with Throw _ => Throw e | _ => m end.

Definition findNextSpaceOrThrow (s : list Z) (start : nat) : outcome nat :=
  match find_char SP (drop start s) with
  | None => Throw (protocol_error "Expected space character")
  | Some i => Ret (start + i)%nat
  end.

Definition two_spaces (s : list Z) (e : exn) : outcome (nat * nat) :=
  catch (sp1 ← findNextSpaceOrThrow s 0; sp2 ← findNextSpaceOrThrow s (sp1 + 1); Ret (sp1, sp2)) e.

Definition parseRequestLine (request_line : list Z) : outcome RequestLine :=
  '(sp1, sp2) ← two_spaces request_line (protocol_error "Malformed request line");
  method ← substr request_line 0 sp1;
  path ← substr request_line (sp1 + 1) (sp2 - sp1 - 1);
  version ← substr request_line (sp2 + 1) (length request_line);
  Ret (mk_RequestLine method path version).

Definition isdigit (c : Z) : bool := (48 <=? c) && (c <=? 57).

Definition decimalValue (c : Z) : outcome Z :=
  if negb (isdigit c) then Throw (invalid_argument "non-decimal digit") else Ret (c - 48).

Definition codeToNumber (code : list Z) : outcome Z :=
  c0 ← code.[0]; d0 ← decimalValue c0;
  c1 ← code.[1]; d1 ← decimalValue c1;
  c2 ← code.[2]; d2 ← decimalValue c2;
  Ret (d0 * 100 + d1 * 10 + d2).

Definition parseStatusLine (status_line : list Z) : outcome StatusLine :=
  '(sp1, sp2) ← two_spaces status_line (protocol_error "Malformed status line");
  let version := take sp1 status_line in
  let code := take (sp2 - sp1 - 1) (drop (sp1 + 1) status_line) in
  let reason_phrase := drop (sp2 + 1) status_line in
  if negb (zlen code =? 3) then Throw (protocol_error ("Invalid status code: " ++ show code))
  else
    numeric_code ← catch (codeToNumber code) (protocol_error ("Invalid status code: " ++ show code));
    Ret (mk_StatusLine numeric_code reason_phrase version).

Definition requestLine (req : Request) : list Z :=
  method_ req ++ [SP] ++ path_ req ++ str " HTTP/1.1".

(** "HTTP/1.1 xxx " and U+1F60E, the three letters overwritten. *)
Definition statusLine (statusCode : Z) : outcome (list Z) :=
  let status := str "HTTP/1.1 xxx " ++ [0xf0; 0x9f; 0x98; 0x8e] in
  s ← StatusStrings_get statusCode;
  s0 ← s.[0]; status ← status.[9 := s0];
  s1 ← s.[1]; status ← status.[10 := s1];
  s2 ← s.[2]; status.[11 := s2].

(** ** Headers *)

Definition CRLF : list Z := [CR; NL].

Definition render_header (h : header) : list Z := fst h ++ str ": " ++ snd h ++ CRLF.

Definition renderHeaders (headers : Headers) : list Z := concat (map render_header (kv_ headers)) ++ CRLF.

(** [std::stoul]: white space, a sign, digits; what follows them is ignored. *)
Definition isspace (c : Z) : bool := (c =? 32) || ((9 <=? c) && (c <=? 13)).

Fixpoint skip_space (s : list Z) : list Z :=
  match s with
  | [] => []
  | c :: s' => if isspace c then skip_space s' else s
  end.

(** The leading digits and their value. *)
Fixpoint digits (s : list Z) (any : bool) (n : Z) : option Z :=
  match s with
  | c :: s => if isdigit c then digits s true (n * 10 + (c - 48)) else if any then Some n else None
  | [] => if any then Some n else None
  end.

Definition stoul (s : list Z) : outcome Z :=
  let s := skip_space s in
  let negative := match s with 45 :: _ => true | _ => false end in
  let s := match s with 45 :: s' | 43 :: s' => s' | _ => s end in
  match digits s false 0 with
  | None => Throw (invalid_argument "stoul")
  | Some n =>
      if SIZE_MAX <? n then Throw (out_of_range "stoul")
      else Ret (if negative then u64 (- n) else n)
  end.

Section headers.
Context `{Multimap}.

Definition getContentLength (headers : Headers) : outcome Z :=
  match Headers_find headers (str "content-length") with
  | Some h =>
      len ← match stoul (snd h) with
            | Throw (invalid_argument _ | out_of_range _) => Throw (runtime_error "Invalid Content-Length header")
            | m => m
            end;
      if SSIZE_MAX <? len then Throw (runtime_error "Content-Length too big") else Ret len
  | None =>
      match Headers_find headers (str "transfer-encoding") with
      | Some _ => Ret (-1)
      | None => Ret 0
      end
  end.

End headers.

(** ** Searching *)

Definition absent (c : Z) (s : list Z) : Prop := Forall (fun x => x <> c) s.

#[export] Instance absent_dec c s : Decision (absent c s).
Proof. unfold absent. apply _. Defined.

Lemma find_char_app c a b : absent c a -> find_char c (a ++ c :: b) = Some (length a).
Proof.
  induction 1 as [|x a Hx _ IH]; cbn; [by rewrite Z.eqb_refl|].
  rewrite (proj2 (Z.eqb_neq _ _)) by done. by rewrite IH.
Qed.

Lemma find_char_absent c s : absent c s -> find_char c s = None.
Proof. induction 1 as [|x s Hx _ IH]; cbn; [done|]. rewrite (proj2 (Z.eqb_neq _ _)) by done. by rewrite IH. Qed.

Lemma find_char_cases c s :
  match find_char c s with
  | Some i => exists a b, s = a ++ c :: b /\ absent c a /\ length a = i
  | None => absent c s
  end.
Proof.
  induction s as [|x s IH]; cbn; [constructor|]. destruct (Z.eqb_spec x c) as [->|Hx].
  - exists [], s. by repeat constructor.
  - destruct (find_char c s) as [i|]; cbn.
    + destruct IH as (a & b & -> & Ha & Hl). exists (x :: a), b. split; [done|]. split; [by constructor|]. by simpl; f_equal.
    + by constructor.
Qed.

Lemma memrchr_absent c s rest n : absent c s -> (n <= length s)%nat -> memrchr (s ++ rest) c n = None.
Proof.
  intros Hs. induction n as [|n IH]; intros Hn; cbn; [done|]. rewrite app_nth1 by lia.
  rewrite (proj2 (Z.eqb_neq _ _)); [apply IH; lia|]. unfold absent in Hs. rewrite List.Forall_forall in Hs.
  apply Hs, nth_In. lia.
Qed.

Lemma memrchr_present c a b rest n :
  (length a < n)%nat -> exists i, memrchr ((a ++ c :: b) ++ rest) c n = Some i.
Proof.
  intros Hn. induction n as [|n IH]; [lia|]. cbn. destruct (Z.eqb_spec (nth n ((a ++ c :: b) ++ rest) 0) c) as [|Hne]; [by exists n|].
  destruct (decide (length a = n)) as [<-|]; [|apply IH; lia]. exfalso. apply Hne.
  by rewrite <- (assoc_L (++)), app_nth2, Nat.sub_diag by lia.
Qed.

Lemma removeTrailingChar_app s c : removeTrailingChar (s ++ [c]) c = s.
Proof.
  unfold removeTrailingChar. rewrite zlen_app. change (zlen [c]) with 1. pose proof (zlen_nonneg s).
  destruct (Z.eqb_spec (zlen s + 1) 0); [lia|]. cbn [negb andb].
  replace (Z.to_nat (zlen s + 1 - 1)) with (length s) by (unfold zlen; lia).
  rewrite app_nth2, Nat.sub_diag, Z.eqb_refl by lia. rewrite str_resize_take by (rewrite zlen_app; change (zlen [c]) with 1; lia).
  apply take_app_length'. unfold zlen. lia.
Qed.

Lemma removeTrailingChar_other s c : last s <> Some c -> removeTrailingChar s c = s.
Proof.
  intros Hl. unfold removeTrailingChar. destruct s as [|x s'] using rev_ind; [done|]. rewrite last_snoc in Hl.
  rewrite zlen_app. change (zlen [x]) with 1. replace (Z.to_nat (zlen s' + 1 - 1)) with (length s') by (unfold zlen; lia).
  rewrite app_nth2, Nat.sub_diag by lia. cbn [nth]. destruct (Z.eqb_spec x c) as [->|]; [done|]. by rewrite andb_false_r.
Qed.

(** ** Lines *)

(** A line without its carriage return. *)
Definition chomp (l : list Z) : list Z := if bool_decide (last l = Some CR) then removelast l else l.

Lemma trimNewline_line l : absent NL l -> trimNewline (l ++ [NL]) = chomp l.
Proof.
  intros Hl. unfold trimNewline, chomp. rewrite removeTrailingChar_app. case_bool_decide as Hc.
  - destruct l as [|x l] using rev_ind; [done|]. rewrite last_snoc in Hc. injection Hc as ->.
    by rewrite removeTrailingChar_app, removelast_last.
  - by apply removeTrailingChar_other.
Qed.

Lemma getLine_none b : sb_ok b -> absent NL (content b) -> getLine b = Ret (None, b).
Proof.
  intros Hb Ha. pose proof (zlen_content b Hb) as Hz. pose proof (sb_in_use b Hb).
  unfold getLine, findEndOfLine, sb_size. destruct (Z.eqb_spec (in_use_ b) 0); [done|].
  destruct (content_rest b Hb) as (tl & Heq & _). rewrite Heq.
  assert (exists c, (content b ++ tl).[in_use_ b - 1] = Ret c /\ c <> NL) as (c & -> & Hc).
  { destruct (arr_get_in (content b) (in_use_ b - 1)) as (c & _ & Hl); [lia|]. exists c. split.
    - apply arr_get_Some; [lia|]. by rewrite lookup_app_l by (unfold zlen in Hz; lia).
    - by apply (Forall_lookup_1 _ _ _ _ Ha Hl). }
  cbn [mbind outcome_bind]. rewrite (proj2 (Z.eqb_neq _ _)) by done.
  by rewrite memrchr_absent by (done || (unfold zlen in Hz; lia)).
Qed.

Lemma getLine_some b l rest :
  sb_ok b -> content b = l ++ NL :: rest -> absent NL l ->
  exists b', getLine b = Ret (Some (chomp l), b') /\ sb_ok b' /\ content b' = rest /\
    in_use_ b' = in_use_ b - (zlen l + 1).
Proof.
  intros Hb Hcn Ha. pose proof (zlen_content b Hb) as Hz. pose proof (sb_in_use b Hb).
  rewrite Hcn, zlen_app, zlen_cons in Hz. pose proof (zlen_nonneg l). pose proof (zlen_nonneg rest).
  unfold getLine, findEndOfLine, sb_size. destruct (Z.eqb_spec (in_use_ b) 0); [lia|].
  destruct (content_rest b Hb) as (tl & Heq & _). rewrite Hcn in Heq. rewrite Heq.
  destruct (arr_get_in ((l ++ NL :: rest) ++ tl) (in_use_ b - 1)) as (c & -> & _);
    [pose proof (zlen_nonneg tl); rewrite !zlen_app, zlen_cons; lia|]. cbn [mbind outcome_bind].
  assert (exists i, (if c =? NL then Some (Z.to_nat (in_use_ b - 1)) else memrchr ((l ++ NL :: rest) ++ tl) NL (Z.to_nat (in_use_ b))) = Some i)
    as (i & ->).
  { destruct (c =? NL); [by eexists|]. apply memrchr_present. unfold zlen in *. lia. }
  assert (find_char NL ((l ++ NL :: rest) ++ tl) = Some (length l)) as ->
    by (rewrite <- (assoc_L (++)); by apply find_char_app).
  cbn [mbind outcome_bind].
  assert (arr_slice ((l ++ NL :: rest) ++ tl) 0 (Z.of_nat (length l) + 1) = Ret (l ++ [NL])) as ->.
  { replace ((l ++ NL :: rest) ++ tl) with ((l ++ [NL]) ++ rest ++ tl) by (rewrite <- !(assoc_L (++)); done).
    replace (Z.of_nat (length l) + 1) with (zlen (l ++ [NL])) by (rewrite zlen_app; done). apply arr_slice_app. }
  cbn [mbind outcome_bind]. rewrite trimNewline_line by done.
  destruct (sb_advance_ok b (Z.of_nat (length l) + 1) Hb) as (b' & -> & Hb' & Hcn' & Hi); [unfold zlen in *; lia|].
  cbn [mbind outcome_bind]. exists b'. split; [done|]. split; [done|]. split; [|done].
  rewrite Hcn', Hcn. replace (Z.to_nat (Z.of_nat (length l) + 1)) with (S (length l)) by lia.
  rewrite cons_middle, (assoc_L (++)). apply drop_app_length'. rewrite length_app. simpl. lia.
Qed.

(** [getLine].  Without a newline in the buffer it returns nothing and leaves
    the buffer as it is, and whatever lies behind the octets in use is not
    taken for input; otherwise it takes the first line off the buffer and
    returns it without its line feed and carriage return. *)
Theorem getLine_correct b :
  sb_ok b ->
  (absent NL (content b) -> getLine b = Ret (None, b)) /\
  (forall l rest, content b = l ++ NL :: rest -> absent NL l ->
     exists b', getLine b = Ret (Some (chomp l), b') /\ sb_ok b' /\ content b' = rest).
Proof.
  intros Hb. split; [by apply getLine_none|]. intros l rest Hcn Ha.
  destruct (getLine_some b l rest Hb Hcn Ha) as (b' & ? & ? & ? & _). by exists b'.
Qed.

(** A newline left behind the octets in use by an earlier, longer line. *)
Lemma getLine_correct_witness :
  let b := mk_StreamBuf 5 (str "ab" ++ [CR; NL] ++ str "c" ++ [NL]) in
  getLine b = Ret (Some (str "ab"), mk_StreamBuf 1 (str "c" ++ [98; CR; NL; 99; NL])) /\
  (absent NL (content b) -> getLine b = Ret (None, b)) /\
  (forall l rest, content b = l ++ NL :: rest -> absent NL l ->
     exists b', getLine b = Ret (Some (chomp l), b') /\ sb_ok b' /\ content b' = rest).
Proof.
  split; [vm_compute; reflexivity|]. apply (getLine_correct (mk_StreamBuf 5 (str "ab" ++ [CR; NL] ++ str "c" ++ [NL]))).
  split; [vm_compute; split; congruence|apply (bool_decide_unpack _); vm_compute; exact I].
Defined.

(** ** First lines *)

Lemma two_spaces_ok a b v e :
  absent SP a -> absent SP b ->
  two_spaces (a ++ SP :: b ++ SP :: v) e = Ret (length a, (length a + 1 + length b)%nat).
Proof.
  intros Ha Hb. unfold two_spaces, findNextSpaceOrThrow. rewrite drop_0, find_char_app by done. cbn [mbind outcome_bind].
  replace (0 + length a + 1)%nat with (length (a ++ [SP])) by (rewrite length_app; simpl; lia).
  replace (a ++ SP :: b ++ SP :: v) with ((a ++ [SP]) ++ b ++ SP :: v) by (by rewrite <- (assoc_L (++))).
  rewrite drop_app_length, find_char_app by done. cbn. rewrite length_app. simpl. repeat f_equal; lia.
Qed.

Lemma two_spaces_none a e : absent SP a -> two_spaces a e = Throw e.
Proof. intros Ha. unfold two_spaces, findNextSpaceOrThrow. by rewrite drop_0, find_char_absent. Qed.

Lemma two_spaces_one a b e : absent SP a -> absent SP b -> two_spaces (a ++ SP :: b) e = Throw e.
Proof.
  intros Ha Hb. unfold two_spaces, findNextSpaceOrThrow. rewrite drop_0, find_char_app by done. cbn [mbind outcome_bind].
  replace (0 + length a + 1)%nat with (length (a ++ [SP])) by (rewrite length_app; simpl; lia).
  replace (a ++ SP :: b) with ((a ++ [SP]) ++ b) by (by rewrite <- (assoc_L (++))).
  by rewrite drop_app_length, find_char_absent.
Qed.

Lemma substr_ok s pos n : (pos <= length s)%nat -> substr s pos n = Ret (take n (drop pos s)).
Proof. intros. unfold substr. by rewrite (proj2 (Nat.ltb_ge _ _)). Qed.

(** The three parts of a line with two spaces. *)
Lemma three_parts a b v :
  let s := a ++ SP :: b ++ SP :: v in
  take (length a) s = a /\
  take (length a + 1 + length b - length a - 1) (drop (length a + 1) s) = b /\
  drop (length a + 1 + length b + 1) s = v.
Proof.
  intros s. subst s. split; [apply take_app_length|].
  replace (a ++ SP :: b ++ SP :: v) with ((a ++ [SP]) ++ b ++ SP :: v) by (by rewrite <- (assoc_L (++))).
  split.
  - rewrite drop_app_length' by (rewrite length_app; simpl; lia). apply take_app_length'. lia.
  - rewrite (assoc_L (++)). replace (((a ++ [SP]) ++ b) ++ SP :: v) with ((((a ++ [SP]) ++ b) ++ [SP]) ++ v) by (by rewrite <- !(assoc_L (++))).
    apply drop_app_length'. rewrite !length_app. simpl. lia.
Qed.

Lemma parseRequestLine_ok m p v :
  absent SP m -> absent SP p -> parseRequestLine (m ++ SP :: p ++ SP :: v) = Ret (mk_RequestLine m p v).
Proof.
  intros Hm Hp. unfold parseRequestLine. rewrite two_spaces_ok by done. cbn [mbind outcome_bind].
  destruct (three_parts m p v) as (H1 & H2 & H3). cbv zeta in *. set (s := m ++ SP :: p ++ SP :: v) in *.
  assert (length s = length m + 1 + length p + 1 + length v)%nat as Hl
    by (unfold s; rewrite length_app; simpl; rewrite length_app; simpl; lia).
  rewrite !substr_ok by lia. cbn [mbind outcome_bind]. rewrite drop_0, H1, H2, H3.
  rewrite take_ge by lia. done.
Qed.

(** C32: request lines.  [parseRequestLine] splits at the first two spaces -- the
    version is what is left, spaces and all -- and throws on a line with fewer;
    it reads back what [requestLine] writes for a method and a path without
    spaces. *)
Theorem request_line_correct m p v req :
  absent SP m -> absent SP p -> absent SP (method_ req) -> absent SP (path_ req) ->
  parseRequestLine (m ++ SP :: p ++ SP :: v) = Ret (mk_RequestLine m p v) /\
  parseRequestLine m = Throw (protocol_error "Malformed request line") /\
  parseRequestLine (m ++ SP :: p) = Throw (protocol_error "Malformed request line") /\
  parseRequestLine (requestLine req) = Ret (mk_RequestLine (method_ req) (path_ req) (str "HTTP/1.1")).
Proof.
  intros Hm Hp Hm' Hp'. split; [by apply parseRequestLine_ok|].
  split; [unfold parseRequestLine; by rewrite two_spaces_none|].
  split; [unfold parseRequestLine; by rewrite two_spaces_one|]. by apply parseRequestLine_ok.
Qed.

Lemma request_line_correct_witness :
  let req := mk_Request new_Message (str "POST") (str "/a?b=c") in
  parseRequestLine (str "GET / HTTP/1.1 x") = Ret (mk_RequestLine (str "GET") (str "/") (str "HTTP/1.1 x")) /\
  parseRequestLine (str "GET") = Throw (protocol_error "Malformed request line") /\
  parseRequestLine (str "GET /") = Throw (protocol_error "Malformed request line") /\
  parseRequestLine (requestLine req) = Ret (mk_RequestLine (str "POST") (str "/a?b=c") (str "HTTP/1.1")).
Proof.
  apply (request_line_correct (str "GET") (str "/") (str "HTTP/1.1 x") (mk_Request new_Message (str "POST") (str "/a?b=c")));
    apply (bool_decide_unpack _); vm_compute; exact I.
Defined.

(** What a three-digit code is worth. *)
Definition code_value (code : list Z) : option Z :=
  match code with
  | [a; b; c] =>
      if isdigit a && isdigit b && isdigit c then Some ((a - 48) * 100 + (b - 48) * 10 + (c - 48)) else None
  | _ => None
  end.

Lemma parseStatusLine_ok v code r :
  absent SP v -> absent SP code ->
  parseStatusLine (v ++ SP :: code ++ SP :: r)
  = match code_value code with
    | Some n => Ret (mk_StatusLine n r v)
    | None => Throw (protocol_error ("Invalid status code: " ++ show code))
    end.
Proof.
  intros Hv Hc. unfold parseStatusLine. rewrite two_spaces_ok by done. cbn [mbind outcome_bind].
  destruct (three_parts v code r) as (-> & -> & ->). unfold code_value.
  destruct code as [|a [|b [|c [|d code]]]]; try done.
  - cbn [negb Z.eqb]. change (zlen [a; b; c] =? 3) with true. cbn [negb]. unfold codeToNumber, decimalValue. arr_gets.
    destruct (isdigit a), (isdigit b), (isdigit c); done.
  - rewrite !zlen_cons. pose proof (zlen_nonneg code). destruct (Z.eqb_spec (1 + (1 + (1 + (1 + zlen code)))) 3); [lia|done].
Qed.

Lemma statusLine_ok code :
  100 <= code <= 599 ->
  statusLine code = Ret (str "HTTP/1.1 " ++ to_string code ++ [SP; 0xf0; 0x9f; 0x98; 0x8e]) /\
  absent SP (to_string code) /\ code_value (to_string code) = Some code.
Proof.
  intros Hc.
  assert (forallb (fun n => let code := 100 + Z.of_nat n in
            bool_decide (statusLine code = Ret (str "HTTP/1.1 " ++ to_string code ++ [SP; 0xf0; 0x9f; 0x98; 0x8e])) &&
            bool_decide (absent SP (to_string code)) && bool_decide (code_value (to_string code) = Some code))
            (seq 0 500) = true) as Hall by (vm_compute; reflexivity).
  rewrite forallb_forall in Hall. specialize (Hall (Z.to_nat (code - 100))). cbv zeta in Hall.
  rewrite Z2Nat.id in Hall by lia. replace (100 + (code - 100)) with code in Hall by lia.
  rewrite !andb_true_iff, !bool_decide_eq_true in Hall. apply and_assoc, Hall. apply in_seq. lia.
Qed.

(** C33: status lines.  [statusLine] throws for codes outside 100 to 599; for the
    others [parseStatusLine] reads the code back.  [parseStatusLine] takes any
    three digits for a code and refuses everything else. *)
Theorem status_line_correct code v c r :
  absent SP v -> absent SP c ->
  (if (100 <=? code) && (code <=? 599)
   then exists l, statusLine code = Ret l /\
          parseStatusLine l = Ret (mk_StatusLine code [0xf0; 0x9f; 0x98; 0x8e] (str "HTTP/1.1"))
   else statusLine code = Throw (range_error "invalid status code")) /\
  parseStatusLine (v ++ SP :: c ++ SP :: r)
  = match code_value c with
    | Some n => Ret (mk_StatusLine n r v)
    | None => Throw (protocol_error ("Invalid status code: " ++ show c))
    end.
Proof.
  intros Hv Hc. split; [|by apply parseStatusLine_ok].
  destruct (Z.leb_spec 100 code), (Z.leb_spec code 599); cbn [andb].
  2,3,4: unfold statusLine, StatusStrings_get; destruct (Z.ltb_spec code 100), (Z.ltb_spec 599 code); lia || done.
  destruct (statusLine_ok code) as (-> & Hab & Hval); [lia|]. eexists. split; [done|].
  assert (absent SP (str "HTTP/1.1")) as Hver by (apply (bool_decide_unpack _); vm_compute; exact I).
  pose proof (parseStatusLine_ok (str "HTTP/1.1") (to_string code) [0xf0; 0x9f; 0x98; 0x8e] Hver Hab) as Hp.
  rewrite Hval in Hp. rewrite <- Hp. f_equal.
Qed.

Lemma status_line_correct_witness :
  (if (100 <=? 404) && (404 <=? 599)
   then exists l, statusLine 404 = Ret l /\
          parseStatusLine l = Ret (mk_StatusLine 404 [0xf0; 0x9f; 0x98; 0x8e] (str "HTTP/1.1"))
   else statusLine 404 = Throw (range_error "invalid status code")) /\
  parseStatusLine (str "HTTP/1.0" ++ SP :: str "2oo" ++ SP :: str "OK")
  = match code_value (str "2oo") with
    | Some n => Ret (mk_StatusLine n (str "OK") (str "HTTP/1.0"))
    | None => Throw (protocol_error ("Invalid status code: " ++ show (str "2oo")))
    end.
Proof. apply (status_line_correct 404 (str "HTTP/1.0") (str "2oo") (str "OK")); apply (bool_decide_unpack _); vm_compute; exact I. Defined.

(** ** Content-Length *)

Abbreviation all_digits := (Forall (fun c => isdigit c = true)).

(** The number a string of digits stands for. *)
Definition decimal (ds : list Z) : Z := foldl (fun n c => n * 10 + (c - 48)) 0 ds.

Lemma digits_spec ds junk any n :
  all_digits ds -> match junk with c :: _ => isdigit c = false | [] => True end -> ds <> [] \/ any = true ->
  digits (ds ++ junk) any n = Some (foldl (fun n c => n * 10 + (c - 48)) n ds).
Proof.
  intros Hds Hj. revert any n. induction Hds as [|c ds Hc Hds IH]; intros any n Hne; cbn [app digits foldl].
  - destruct Hne as [| ->]; [done|]. destruct junk as [|c junk]; [done|]. cbn [digits]. by rewrite Hj.
  - rewrite Hc. apply IH. by right.
Qed.

Lemma decimal_loop_spec fuel n acc :
  0 <= n < 10 ^ Z.of_nat fuel -> (0 < fuel)%nat ->
  exists ds, decimal_loop fuel n acc = ds ++ acc /\ all_digits ds /\ ds <> [] /\ decimal ds = n.
Proof.
  revert n acc. induction fuel as [|fuel IH]; intros n acc Hn Hf; [lia|]. cbn [decimal_loop].
  pose proof (Z.mod_pos_bound n 10). pose proof (Z.div_mod n 10).
  assert (isdigit (48 + n mod 10) = true) as Hd.
  { unfold isdigit. destruct (Z.leb_spec 48 (48 + n mod 10)), (Z.leb_spec (48 + n mod 10) 57); lia || done. }
  destruct (Z.ltb_spec n 10).
  - exists [48 + n mod 10]. split; [done|]. split; [by repeat constructor|]. split; [done|]. unfold decimal. cbn.
    rewrite Z.mod_small; lia.
  - rewrite Nat2Z.inj_succ, Z.pow_succ_r in Hn by lia. destruct fuel as [|fuel]; [cbn in Hn; lia|].
    destruct (IH (n / 10) ((48 + n mod 10) :: acc)) as (ds & -> & Hds & Hne & Hdec).
    { split; [apply Z.div_pos; lia|apply Z.div_lt_upper_bound; lia]. } { lia. }
    exists (ds ++ [48 + n mod 10]). split; [by rewrite <- (assoc_L (++))|].
    split; [apply Forall_app_2; [done|by repeat constructor]|]. split; [by destruct ds|].
    unfold decimal. rewrite foldl_app. fold (decimal ds). rewrite Hdec. cbn. lia.
Qed.

Lemma to_string_spec n :
  0 <= n < 10 ^ 20 -> all_digits (to_string n) /\ to_string n <> [] /\ decimal (to_string n) = n.
Proof.
  intros Hn. destruct (decimal_loop_spec 20 n []) as (ds & Heq & ? & ? & ?); [done|lia|].
  unfold to_string. rewrite Heq, app_nil_r. done.
Qed.

Lemma skip_space_app ws s :
  Forall (fun c => isspace c = true) ws -> match s with c :: _ => isspace c = false | [] => True end ->
  skip_space (ws ++ s) = s.
Proof.
  intros Hws Hs. induction Hws as [|c ws Hc _ IH]; cbn; [|by rewrite Hc].
  destruct s as [|c s]; [done|]. cbn. by rewrite Hs.
Qed.

(** White space, digits and anything behind them. *)
Lemma stoul_spec ws ds junk :
  Forall (fun c => isspace c = true) ws -> all_digits ds -> ds <> [] ->
  match junk with c :: _ => isdigit c = false | [] => True end ->
  stoul (ws ++ ds ++ junk) = if SIZE_MAX <? decimal ds then Throw (out_of_range "stoul") else Ret (decimal ds).
Proof.
  intros Hws Hds Hne Hj. unfold stoul. destruct ds as [|d ds]; [done|].
  assert (isdigit d = true) as Hd by by inversion Hds.
  assert (isspace d = false /\ d <> 45 /\ d <> 43) as (Hsp & H45 & H43).
  { unfold isdigit, isspace in *. destruct (Z.leb_spec 48 d), (Z.leb_spec d 57); try done.
    destruct (Z.eqb_spec d 32), (Z.leb_spec 9 d), (Z.leb_spec d 13); try lia; cbn; split; try done; lia. }
  rewrite skip_space_app by done. cbn [app].
  assert ((match d :: ds ++ junk with 45 :: s' | 43 :: s' => s' | _ => d :: ds ++ junk end) = (d :: ds) ++ junk) as ->.
  { cbn [app]. destruct d as [|p|p]; [done| |done]. do 6 (destruct p; try done). }
  rewrite digits_spec by (done || by left). fold (decimal (d :: ds)). destruct (SIZE_MAX <? decimal (d :: ds)); [done|].
  destruct d as [|p|p]; [done| |done]. do 6 (destruct p; try done).
Qed.

Lemma find_only `{Multimap} `{!MultimapOk} h name e : named h name ≡ₚ [e] -> Headers_find h name = Some e.
Proof.
  intros Hn. pose proof (Headers_find_cases h name) as Hf. destruct (Headers_find h name) as [e'|].
  - rewrite Hn in Hf. by apply list_elem_of_singleton in Hf as ->.
  - rewrite Hf in Hn. by apply Permutation_nil_cons in Hn.
Qed.

Lemma find_absent `{Multimap} `{!MultimapOk} h name : named h name = [] -> Headers_find h name = None.
Proof.
  intros Hn. pose proof (Headers_find_cases h name) as Hf. destruct (Headers_find h name) as [e'|]; [|done].
  rewrite Hn in Hf. by apply not_elem_of_nil in Hf.
Qed.

(** The length of a body.  A Content-Length value is read as [strtoul] reads
    it: white space in front and anything behind its digits are ignored, and one
    above 2^63 - 1 is refused.  Without one, any Transfer-Encoding means chunked
    (-1), and otherwise there is no body.  What [setContentLength] writes is
    read back. *)
Theorem getContentLength_correct `{Multimap} `{!MultimapOk} h name ws ds junk n :
  Forall (fun c => isspace c = true) ws -> all_digits ds -> ds <> [] ->
  match junk with c :: _ => isdigit c = false | [] => True end -> 0 <= n <= SSIZE_MAX ->
  (named h (str "content-length") ≡ₚ [(name, ws ++ ds ++ junk)] ->
   getContentLength h =
     if SIZE_MAX <? decimal ds then Throw (runtime_error "Invalid Content-Length header")
     else if SSIZE_MAX <? decimal ds then Throw (runtime_error "Content-Length too big")
     else Ret (decimal ds)) /\
  (named h (str "content-length") = [] ->
   getContentLength h = (if bool_decide (named h (str "transfer-encoding") = []) then Ret 0 else Ret (-1)) /\
   getContentLength (setContentLength h n) = Ret n).
Proof.
  intros Hws Hds Hne Hj Hn. split; [|intros Hnone; split].
  - intros Hone. unfold getContentLength. rewrite (find_only _ _ _ Hone). cbn [snd]. rewrite stoul_spec by done.
    by destruct (SIZE_MAX <? decimal ds).
  - unfold getContentLength. rewrite find_absent by done. pose proof (Headers_find_cases h (str "transfer-encoding")) as Hf.
    destruct (Headers_find h (str "transfer-encoding")) as [e|].
    + rewrite bool_decide_eq_false_2; [done|]. intros Hnil. rewrite Hnil in Hf. by apply not_elem_of_nil in Hf.
    + by rewrite bool_decide_eq_true_2.
  - destruct (to_string_spec n) as (Hd & Hne' & Hval); [unfold SSIZE_MAX in *; lia|].
    unfold getContentLength. rewrite (find_only _ _ (str "content-length", to_string n)).
    + cbn [snd]. pose proof (stoul_spec [] (to_string n) [] ltac:(constructor) Hd Hne' I) as Hst.
      rewrite app_nil_r in Hst. cbn [app] in Hst. rewrite Hst, Hval. unfold SIZE_MAX, SSIZE_MAX in *.
      destruct (Z.ltb_spec (2 ^ 64 - 1) n); [lia|]. cbn [mbind outcome_bind].
      destruct (Z.ltb_spec (2 ^ 63 - 1) n); [lia|done].
    + unfold setContentLength. rewrite named_add_unless_present. by rewrite bool_decide_eq_true_2.
Qed.

(** " 12abc" counts as 12. *)
Lemma getContentLength_correct_witness :
  let h := mk_Headers [(str "Content-Length", str " 12abc"); (str "Host", str "a")] in
  getContentLength h = Ret 12 /\
  (named h (str "content-length") ≡ₚ [(str "Content-Length", str " " ++ str "12" ++ str "abc")] ->
   getContentLength h =
     if SIZE_MAX <? decimal (str "12") then Throw (runtime_error "Invalid Content-Length header")
     else if SSIZE_MAX <? decimal (str "12") then Throw (runtime_error "Content-Length too big")
     else Ret (decimal (str "12"))) /\
  (named h (str "content-length") = [] ->
   getContentLength h = (if bool_decide (named h (str "transfer-encoding") = []) then Ret 0 else Ret (-1)) /\
   getContentLength (setContentLength h 7) = Ret 7).
Proof.
  split; [vm_compute; reflexivity|].
  apply (getContentLength_correct (mk_Headers [(str "Content-Length", str " 12abc"); (str "Host", str "a")])
           (str "Content-Length") (str " ") (str "12") (str "abc") 7).
  - repeat constructor.
  - repeat constructor.
  - discriminate.
  - reflexivity.
  - unfold SSIZE_MAX. lia.
Defined.
