(* ===== verification/Messages.v ===== *)
(** How messages are made and taken apart: the constructors of [Headers.h],
    [Message.cpp], [Request.cpp], [Response.h] and [Response.cpp], and the parts of
    [StringUtils-inl.h] that they and the map of headers rest on. *)
From S2P Require Import Prelude Headers Routes Http1.

(** ** Strings *)

(** [split]: [substr] throws behind the end; [src] keeps what is in front. *)
Definition split (src : list Z) (pos : nat) : outcome (list Z * list Z) :=
  if (length src <? pos)%nat then Throw (out_of_range "basic_string::substr")
  else Ret (str_resize src (Z.of_nat pos), drop pos src).

Lemma split_spec src pos :
  match split src pos with
  | Ret (first, second) => src = first ++ second /\ length first = pos
  | Throw _ => (length src < pos)%nat
  | Undef _ => False
  end.
Proof.
  unfold split. destruct (Nat.ltb_spec (length src) pos) as [|Hle]; [done|].
  rewrite str_resize_take by (unfold zlen; lia). rewrite Nat2Z.id, take_drop. split; [done|]. rewrite length_take. lia.
Qed.

(** [ascii::CaseInsensitiveHash], of [std::hash<std::string>]. *)
Definition CaseInsensitiveHash (hash : list Z -> Z) (s : list Z) : Z := hash (asciiLower s).

(** What the container asks of the two: keys that are equal have the same hash. *)
Lemma CaseInsensitiveHash_equal hash a b :
  CaseInsensitiveEqual a b = true -> CaseInsensitiveHash hash a = CaseInsensitiveHash hash b.
Proof. intros Hab%CaseInsensitiveEqual_spec. unfold CaseInsensitiveHash. by rewrite Hab. Qed.

(** ** Constructors *)

Section constructors.
Context `{HM : Multimap}.

(** [Headers(std::initializer_list<Header>)]: the container takes them one after
    the other. *)
Definition Headers_of_list (headers : list header) : Headers := Headers_append new_Headers (mk_Headers headers).

(** [Message::Message], by their arguments. *)
Definition Message_of_body (body : list Z) : Message := mk_Message body new_Headers.
Definition Message_of_headers (headers : Headers) : Message := mk_Message [] headers.
Definition Message_body_strings (body : list Z) (headers : list (list Z)) : outcome Message :=
  headers ← Headers_of_strings new_Headers headers; Ret (mk_Message body headers).
Definition Message_body_list (body : list Z) (headers : list header) : Message :=
  mk_Message body (Headers_of_list headers).
Definition Message_strings_body (headers : list (list Z)) (body : list Z) : outcome Message :=
  headers ← Headers_of_strings new_Headers headers; Ret (mk_Message body headers).
Definition Message_list_body (headers : list header) (body : list Z) : Message :=
  mk_Message body (Headers_of_list headers).
Definition Message_body_headers (body : list Z) (headers : Headers) : Message := mk_Message body headers.
Definition Message_headers_octets (headers : Headers) (body : list Z) : Message := mk_Message body headers.

(** [Request::Request] *)
Definition new_Request (method path : list Z) (message : Message) : Request := mk_Request message method path.

(** [Response::Response]; those without a status leave the default. *)
Definition default_status_code : Z := 200.
Definition Response_of_body (body : list Z) : Response := mk_Response (Message_of_body body) default_status_code.
Definition Response_status_message (status_code : Z) (msg : Message) : Response := mk_Response msg status_code.
Definition Response_strings_body (headers : list (list Z)) (body : list Z) : outcome Response :=
  message ← Message_strings_body headers body; Ret (mk_Response message default_status_code).
Definition Response_list_body (headers : list header) (body : list Z) : Response :=
  mk_Response (Message_list_body headers body) default_status_code.

Definition setStatusCode (status_code : Z) (r : Response) : Response := mk_Response (message r) status_code.

(** ** What they make *)

Context `{!MultimapOk}.

(** The header a string stands for. *)
Definition header_of_string (hstr : list Z) (e : header) : Prop :=
  exists name value, hstr = name ++ 58 :: value /\ absent 58 name /\ e = (trimLWS name, trimLWS value).

Lemma emplace_line_spec h hstr :
  match Headers_emplace_line h hstr with
  | Ret h' => exists e, header_of_string hstr e /\ kv_ h' ≡ₚ e :: kv_ h
  | Throw e => e = runtime_error "Malformed string header; ':' required" /\ absent 58 hstr
  | Undef _ => False
  end.
Proof.
  unfold Headers_emplace_line. pose proof (find_char_cases 58 hstr) as Hf. destruct (find_char 58 hstr) as [i|]; [|done].
  destruct Hf as (name & value & -> & Hn & <-). exists (trimLWS name, trimLWS value). split; [by exists name, value|].
  rewrite str_resize_take by (rewrite zlen_app; unfold zlen; lia). rewrite Nat2Z.id, take_app_length.
  rewrite Nat.add_1_r, (cons_middle 58), (assoc_L (++)). rewrite drop_app_length' by (rewrite length_app; cbn; lia).
  apply place_perm.
Qed.

(** A list of strings makes the headers that they stand for, whatever their
    order in the container, or throws for one without a colon. *)
Lemma Headers_of_strings_spec headers : forall h,
  match Headers_of_strings h headers with
  | Ret h' => exists es, Forall2 header_of_string headers es /\ kv_ h' ≡ₚ es ++ kv_ h
  | Throw e => e = runtime_error "Malformed string header; ':' required" /\ Exists (absent 58) headers
  | Undef _ => False
  end.
Proof.
  induction headers as [|hstr headers IH]; intros h; cbn [Headers_of_strings]; [by exists []|].
  pose proof (emplace_line_spec h hstr) as He. destruct (Headers_emplace_line h hstr) as [h1|e|u]; cbn [mbind outcome_bind]; [|by destruct He; split; [|constructor]|done].
  destruct He as (e & He & Hkv). specialize (IH h1). destruct (Headers_of_strings h1 headers) as [h'|x|u]; [|by destruct IH; split; [|constructor]|done].
  destruct IH as (es & Hes & Hkv'). exists (e :: es). split; [by constructor|]. rewrite Hkv', Hkv. cbn. by rewrite Permutation_middle.
Qed.

Lemma Headers_append_perm l : forall h, kv_ (Headers_append h (mk_Headers l)) ≡ₚ l ++ kv_ h.
Proof.
  induction l as [|[n v] l IH]; intros h; [done|]. change (Headers_append h (mk_Headers ((n, v) :: l))) with (Headers_append (Headers_add h n v) (mk_Headers l)).
  rewrite IH. unfold Headers_add. cbn [kv_]. rewrite place_perm. cbn. by rewrite Permutation_middle.
Qed.

(** The two orders of the arguments, and the two kinds of lists, make the same
    messages of the same headers. *)
Lemma Response_strings_list headers body r :
  Response_strings_body headers body = Ret r ->
  exists es, Forall2 header_of_string headers es /\ status_code_ r = 200 /\ body_ (message r) = body /\
    kv_ (headers_ (message r)) ≡ₚ kv_ (headers_ (message (Response_list_body es body))).
Proof.
  unfold Response_strings_body, Message_strings_body. pose proof (Headers_of_strings_spec headers new_Headers) as Hs.
  destruct (Headers_of_strings new_Headers headers) as [h|e|u]; cbn [mbind outcome_bind]; [|done..]. intros [= <-].
  destruct Hs as (es & Hes & Hkv). exists es. split; [done|]. split; [done|]. split; [done|].
  cbn [message headers_ Response_list_body Message_list_body]. unfold Headers_of_list. by rewrite Headers_append_perm.
Qed.

End constructors.

(** White space behind a value takes the last octet with it (see
    [trimTrailingLWS]). *)
Example content_type :
  Response_strings_body [str "Content-Type: text/html"; str "Server:x "] (str "hi")
  = Ret (mk_Response (mk_Message (str "hi") (mk_Headers [(str "Content-Type", str "text/html"); (str "Server", [])])) 200).
Proof. vm_compute. reflexivity. Qed.
