(* ===== verification/Http1Transport.v ===== *)
(** Receiving and sending HTTP/1 messages: [http1/Transport.cpp]. *)
From S2P Require Import Prelude StreamBuf Sender Headers Http1.

(** [http1/IncomingMessage.h] *)
Record IncomingMessage := mk_IncomingMessage { first_line : list Z; in_message : Message }.

(** [class http1::Transport]; [connection_] is the world [W] of the operations. *)
Record Transport := mk_Transport {
  incoming_message_ : option IncomingMessage;
  last_header_ : list Z;
  message_headers_complete_ : bool;
  expected_body_length_ : Z
}.

Definition new_Transport : Transport := mk_Transport None [] false 0.

Definition with_message (t : Transport) (m : IncomingMessage) : Transport :=
  mk_Transport (Some m) (last_header_ t) (message_headers_complete_ t) (expected_body_length_ t).

(** What a transport asks of its subclass and of the connection: the virtual
    functions, whether [connection->getTransport() != this], and [close]. *)
Class Owner (W : Type) := {
  handleIncomingMessage : IncomingMessage -> W -> outcome W;
  onEndOfMessageHeaders : Headers -> W -> outcome W;
  replaced : W -> bool;
  close_connection : W -> W
}.

Section transport.
Context {W : Type} `{Owner W} `{Multimap}.

(** [incoming_message_->], on an optional that must hold a value. *)
Definition incoming (t : Transport) : outcome IncomingMessage :=
  match incoming_message_ t with Some m => Ret m | None => Undef NullPointer end.

Definition in_headers (m : IncomingMessage) : Headers := headers_ (in_message m).
Definition in_body (m : IncomingMessage) : list Z := body_ (in_message m).
Definition set_headers (m : IncomingMessage) (h : Headers) : IncomingMessage :=
  mk_IncomingMessage (first_line m) (mk_Message (in_body m) h).
Definition set_body (m : IncomingMessage) (b : list Z) : IncomingMessage :=
  mk_IncomingMessage (first_line m) (mk_Message b (in_headers m)).

Definition isMessageComplete (t : Transport) : bool :=
  match incoming_message_ t with
  | Some m => i64 (zlen (in_body m)) =? expected_body_length_ t
  | None => false
  end.

Definition readChunked (t : Transport) (input_buf : StreamBuf) : outcome (Transport * StreamBuf) :=
  Throw (runtime_error "Chunked input not yet supported").

Definition readContent (t : Transport) (input_buf : StreamBuf) : outcome (Transport * StreamBuf) :=
  let len := Z.max (sb_size input_buf) (u64 (expected_body_length_ t)) in
  m ← incoming t;
  s ← arr_slice (buf_ input_buf) 0 len;
  let t := with_message t (set_body m (in_body m ++ s)) in
  input_buf ← sb_advance input_buf len;
  Ret (t, input_buf).

Definition readBody (t : Transport) (input_buf : StreamBuf) : outcome (Transport * StreamBuf) :=
  if expected_body_length_ t =? -1 then readChunked t input_buf else readContent t input_buf.

Definition markHeadersComplete (t : Transport) (w : W) : outcome (Transport * W) :=
  m ← incoming t;
  n ← getContentLength (in_headers m);
  let t := mk_Transport (incoming_message_ t) (last_header_ t) true n in
  w ← onEndOfMessageHeaders (in_headers m) w;
  Ret (t, w).

Definition resetIncomingMessage (t : Transport) : Transport := mk_Transport None [] false 0.

(** When [this] has been replaced, what is returned for it is not used again. *)
Definition handleMessage (t : Transport) (w : W) : outcome (Transport * W) :=
  match incoming_message_ t with
  | None => Undef AssertionFailed
  | Some m =>
      let hasConnectionClose := bool_decide (snd (Headers_get (in_headers m) (str "connection")) = str "close") in
      w ← handleIncomingMessage m w;
      if replaced w then Ret (t, w)
      else Ret (resetIncomingMessage t, if hasConnectionClose then close_connection w else w)
  end.

Definition headerLine (t : Transport) (line : list Z) : outcome Transport :=
  match find_char 58 line with
  | None => Throw (runtime_error "Malformed header: no colon")
  | Some colon =>
      let start_of_value :=
        if (colon <? length line - 1)%nat && (nth (colon + 1) line 0 =? SP) then (colon + 1)%nat else colon in
      let value := drop start_of_value line in
      let name := asciiLower (str_resize line (Z.of_nat colon)) in
      let value := trimLWS value in
      m ← incoming t;
      Ret (mk_Transport (Some (set_headers m (Headers_add (in_headers m) name value))) name
             (message_headers_complete_ t) (expected_body_length_ t))
  end.

Definition headerContinuation (t : Transport) (line : list Z) : outcome Transport :=
  if bool_decide (last_header_ t = []) then Throw (runtime_error "Erroneous header continuation")
  else
    m ← incoming t;
    let header_map := kv_ (in_headers m) in
    match find header_map (last_header_ t) with
    | None => Throw (logic_error "Failed to find header for continuation")
    | Some it =>
        Ret (with_message t (set_headers m (mk_Headers (alter (fun e => (fst e, snd e ++ line)) it header_map))))
    end.

Definition processInput (t : Transport) (w : W) (input_buffer : StreamBuf)
    : outcome (bool * (Transport * W * StreamBuf)) :=
  if sb_isEmpty input_buffer then Ret (false, (t, w, input_buffer))
  else if bool_decide (is_Some (incoming_message_ t)) && message_headers_complete_ t && negb (isMessageComplete t)
  then
    '(t, input_buffer) ← readBody t input_buffer;
    if isMessageComplete t then
      '(t, w) ← handleMessage t w;
      Ret (true, (t, w, input_buffer))
    else Ret (false, (t, w, input_buffer))
  else
    '(oline, input_buffer) ← getLine input_buffer;
    match oline with
    | None => Ret (false, (t, w, input_buffer))
    | Some line =>
        match incoming_message_ t with
        | None =>
            let t := mk_Transport (Some (mk_IncomingMessage line new_Message)) (last_header_ t) false
                       (expected_body_length_ t) in
            Ret (true, (t, w, input_buffer))
        | Some _ =>
            match line with
            | [] =>
                '(t, w) ← markHeadersComplete t w;
                if isMessageComplete t then
                  '(t, w) ← handleMessage t w;
                  Ret (true, (t, w, input_buffer))
                else Ret (false, (t, w, input_buffer))
            | c :: _ =>
                t ← (if (c =? 32) || (c =? 9) then headerContinuation t line else headerLine t line);
                Ret (true, (t, w, input_buffer))
            end
        end
    end.

(** A transport that has been replaced is gone when the loop comes back to it. *)
Fixpoint input_loop (fuel : nat) (t : Transport) (w : W) (input_buffer : StreamBuf)
    : outcome (Transport * W * StreamBuf) :=
  match fuel with
  | O => Undef OutOfFuel
  | S fuel =>
      '(continu, (t, w, input_buffer)) ← processInput t w input_buffer;
      if continu && negb (sb_isEmpty input_buffer)
      then if replaced w then Undef UseAfterFree else input_loop fuel t w input_buffer
      else Ret (t, w, input_buffer)
  end.

(** [processInput] takes an octet or more before it asks to be called again. *)
Definition onInput (t : Transport) (w : W) (input_buffer : StreamBuf) : outcome (Transport * W * StreamBuf) :=
  input_loop (S (Z.to_nat (sb_size input_buffer))) t w input_buffer.

End transport.

(** Sending, over the connection; [now] is the date. *)
Section sending.
Context {C : Type} `{Sender C} `{Multimap} (raw now : list Z).

Definition sendHeaders (first_line : list Z) (headers : Headers) (c : C) : outcome C :=
  let headers := setGeneralServerHeaders now headers in
  send_payload raw c [first_line; CRLF; renderHeaders headers].

Definition sendMessage (first_line : list Z) (message : Message) (c : C) : outcome C :=
  let outgoingHeaders := setGeneralServerHeaders now (headers_ message) in
  let outgoingHeaders := setContentLength outgoingHeaders (zlen (body_ message)) in
  send_payload raw c [first_line; CRLF; renderHeaders outgoingHeaders; body_ message].

End sending.
