(* ===== verification/Http1Spec.v ===== *)
(** What an HTTP/1 connection is to do with its input, line by line and message
    by message, and that [http1/Transport.cpp] does it for any segmentation. *)
From S2P Require Import Prelude StreamBuf Headers Http1 Http1Transport.

(** ** Lines *)

(** The complete lines of some input, without their line feeds, and what is
    behind the last. *)
Fixpoint lines_of (s : list Z) : list (list Z) * list Z :=
  match s with
  | [] => ([], [])
  | c :: s =>
      let '(ls, p) := lines_of s in
      if c =? NL then ([] :: ls, p)
      else match ls with [] => ([], c :: p) | l :: ls => ((c :: l) :: ls, p) end
  end.

Definition unlines (ls : list (list Z)) : list Z := concat (map (fun l => l ++ [NL]) ls).

Section spec.
Context {W : Type} `{Owner W} `{Multimap}.

(** A body is awaited. *)
Definition body_pending (t : Transport) : bool :=
  bool_decide (is_Some (incoming_message_ t)) && message_headers_complete_ t && negb (isMessageComplete t).

(** One line that is not part of a body. *)
Definition line_step (t : Transport) (w : W) (line : list Z) : outcome (Transport * W) :=
  match incoming_message_ t, line with
  | None, _ =>
      Ret (mk_Transport (Some (mk_IncomingMessage line new_Message)) (last_header_ t) false (expected_body_length_ t), w)
  | Some _, [] =>
      '(t, w) ← markHeadersComplete t w;
      if isMessageComplete t then handleMessage t w else Ret (t, w)
  | Some _, c :: _ =>
      t ← (if (c =? 32) || (c =? 9) then headerContinuation t line else headerLine t line);
      Ret (t, w)
  end.

(** Lines one after the other, up to the first that makes the transport await a
    body or that has it replaced; the lines left. *)
Fixpoint run_lines (ls : list (list Z)) (t : Transport) (w : W) : outcome (list (list Z) * (Transport * W)) :=
  match ls with
  | [] => Ret ([], (t, w))
  | l :: ls =>
      '(t, w) ← line_step t w (chomp l);
      if replaced w || body_pending t then Ret (ls, (t, w)) else run_lines ls t w
  end.

(** Input in pieces, as the connection reads it, while the transport is not replaced. *)
Fixpoint feed (t : Transport) (w : W) (buf : StreamBuf) (chunks : list (list Z)) : outcome (Transport * W * StreamBuf) :=
  match chunks with
  | [] => Ret (t, w, buf)
  | d :: chunks =>
      if replaced w then Ret (t, w, buf)
      else
        buf ← sb_write buf d;
        '(t, w, buf) ← onInput t w buf;
        feed t w buf chunks
  end.

(** ** Messages *)

(** A message as its sender has it: the first line and the headers, in order. *)
Record Msg := mk_message { m_first : list Z; m_headers : list header }.

Definition render (m : Msg) : list Z := m_first m ++ CRLF ++ renderHeaders (mk_Headers (m_headers m)).

(** The headers as they are received: names in lower case. *)
Definition received_headers (m : Msg) : Headers :=
  foldl (fun h e => Headers_add h (asciiLower (fst e)) (snd e)) new_Headers (m_headers m).

Definition name_ok (n : list Z) : Prop :=
  absent 58 n /\ absent NL n /\ match n with c :: _ => isLWS c = false | [] => False end.
Definition value_ok (v : list Z) : Prop := absent NL v /\ solid v.

Record message_ok (m : Msg) : Prop := mk_message_ok {
  mo_first : absent NL (m_first m);
  mo_headers : Forall (fun e => name_ok (fst e) /\ value_ok (snd e)) (m_headers m)
}.

Definition no_body (m : Msg) : Prop := getContentLength (received_headers m) = Ret 0.

(** After the handler: the connection closed when the headers say so. *)
Definition closing (h : Headers) (w : W) : W :=
  if negb (replaced w) && bool_decide (snd (Headers_get h (str "connection")) = str "close")
  then close_connection w else w.

(** One message without a body: the hook at the end of its headers, the handler,
    and the connection closed when it says so. *)
Definition serve_one (m : Msg) (w : W) : outcome W :=
  let h := received_headers m in
  w ← onEndOfMessageHeaders h w;
  w ← handleIncomingMessage (mk_IncomingMessage (m_first m) (mk_Message [] h)) w;
  Ret (closing h w).

(** Messages in order, until one replaces the transport; whether none did. *)
Fixpoint serve (ms : list Msg) (w : W) : outcome (bool * W) :=
  match ms with
  | [] => Ret (true, w)
  | m :: ms =>
      w ← serve_one m w;
      if replaced w then Ret (false, w) else serve ms w
  end.

End spec.

(** ** Lemmas on lines *)

Lemma absent_nil c : absent c [].
Proof. constructor. Qed.

Lemma absent_cons c x s : x <> c -> absent c s -> absent c (x :: s).
Proof. by constructor. Qed.

Lemma absent_app c a b : absent c a -> absent c b -> absent c (a ++ b).
Proof. apply Forall_app_2. Qed.

Create HintDb lines.
#[local] Hint Resolve absent_nil absent_cons absent_app Forall_nil_2 Forall_cons_2 : lines.

Lemma lines_of_absent s : absent NL s -> lines_of s = ([], s).
Proof. induction 1 as [|c s Hc _ IH]; cbn; [done|]. rewrite IH. by rewrite (proj2 (Z.eqb_neq _ _)). Qed.

Lemma lines_of_line l s : absent NL l -> lines_of (l ++ NL :: s) = (let '(ls, p) := lines_of s in (l :: ls, p)).
Proof.
  induction 1 as [|c l Hc _ IH]; cbn [app lines_of].
  - destruct (lines_of s). by rewrite Z.eqb_refl.
  - rewrite IH. destruct (lines_of s). by rewrite (proj2 (Z.eqb_neq _ _)).
Qed.

Lemma lines_of_spec s :
  let '(ls, p) := lines_of s in s = unlines ls ++ p /\ Forall (absent NL) ls /\ absent NL p.
Proof.
  induction s as [|c s IH]; cbn [lines_of]; [split_and!; eauto with lines|].
  destruct (lines_of s) as [ls p]. destruct IH as (-> & Hls & Hp). unfold unlines.
  destruct (Z.eqb_spec c NL) as [->|Hc]; [split_and!; eauto with lines|].
  destruct ls as [|l ls]; cbn.
  - split_and!; eauto with lines.
  - inversion Hls; subst. split_and!; eauto with lines.
Qed.

Lemma lines_of_unlines ls p : Forall (absent NL) ls -> absent NL p -> lines_of (unlines ls ++ p) = (ls, p).
Proof.
  intros Hls Hp. unfold unlines. induction Hls as [|l ls Hl _ IH]; cbn [map concat app]; [by apply lines_of_absent|].
  rewrite <- !(assoc_L (++)). cbn [app]. rewrite lines_of_line by done. by rewrite IH.
Qed.

Lemma unlines_app a b : unlines (a ++ b) = unlines a ++ unlines b.
Proof. unfold unlines. by rewrite map_app, concat_app. Qed.

Lemma lines_of_app a b :
  lines_of (a ++ b) = (let '(ls, p) := lines_of a in let '(ls', p') := lines_of (p ++ b) in (ls ++ ls', p')).
Proof.
  pose proof (lines_of_spec a) as Ha. destruct (lines_of a) as [ls p]. destruct Ha as (-> & Hls & Hp).
  rewrite <- (assoc_L (++)). pose proof (lines_of_spec (p ++ b)) as Hb. destruct (lines_of (p ++ b)) as [ls' p'].
  destruct Hb as (-> & Hls' & Hp'). rewrite (assoc_L (++)), <- unlines_app. apply lines_of_unlines; [|done].
  by apply Forall_app_2.
Qed.

(** ** One call of [onInput] *)

Section receiving.
Context {W : Type} `{HO : Owner W} `{HM : Multimap}.
Implicit Types (t : Transport) (w : W) (b : StreamBuf).

Lemma content_nonempty b : sb_ok b -> content b <> [] -> sb_isEmpty b = false.
Proof.
  intros Hb Hne. unfold sb_isEmpty, sb_size. rewrite <- (zlen_content b Hb). destruct (content b); [done|].
  rewrite zlen_cons. pose proof (zlen_nonneg l). destruct (Z.eqb_spec (1 + zlen l) 0); [lia|done].
Qed.

Lemma content_nil b : sb_ok b -> content b = [] -> sb_isEmpty b = true.
Proof. intros Hb Hn. unfold sb_isEmpty, sb_size. by rewrite <- (zlen_content b Hb), Hn. Qed.

Lemma processInput_none t w b :
  sb_ok b -> absent NL (content b) -> body_pending t = false -> processInput t w b = Ret (false, (t, w, b)).
Proof.
  intros Hb Ha Hp. unfold processInput. destruct (sb_isEmpty b); [done|]. unfold body_pending in Hp. rewrite Hp.
  by rewrite getLine_none.
Qed.

Lemma body_pending_incomplete t : isMessageComplete t = true -> body_pending t = false.
Proof. intros Hc. unfold body_pending. rewrite Hc. apply andb_false_r. Qed.

Lemma body_pending_header t m' name :
  body_pending t = false ->
  (forall m, incoming_message_ t = Some m -> in_body m' = in_body m) -> is_Some (incoming_message_ t) ->
  body_pending (mk_Transport (Some m') name (message_headers_complete_ t) (expected_body_length_ t)) = false.
Proof.
  unfold body_pending, isMessageComplete. intros Hp Hb [m Hm]. cbn. rewrite Hm in *. by rewrite (Hb m).
Qed.

Lemma handleMessage_not_pending t w t' w' :
  isMessageComplete t = true -> handleMessage t w = Ret (t', w') -> body_pending t' = false.
Proof.
  intros Hc. unfold handleMessage. destruct (incoming_message_ t) as [m|]; [|done].
  destruct (handleIncomingMessage m w) as [w1|?|?]; cbn [mbind outcome_bind]; try done.
  destruct (replaced w1); intros [= <- <-]; [by apply body_pending_incomplete|done].
Qed.

Lemma body_pending_open t : message_headers_complete_ t = false -> body_pending t = false.
Proof. intros Hc. unfold body_pending. by rewrite Hc, andb_false_r. Qed.

(** A line is processed as one. *)
Lemma processInput_line t w b l rest :
  sb_ok b -> content b = l ++ NL :: rest -> absent NL l -> body_pending t = false ->
  exists b', sb_ok b' /\ content b' = rest /\ in_use_ b' < in_use_ b /\
    processInput t w b =
      '(t', w') ← line_step t w (chomp l); Ret (negb (body_pending t'), (t', w', b')).
Proof.
  intros Hb Hcn Ha Hp. destruct (getLine_some b l rest Hb Hcn Ha) as (b' & Hg & Hb' & Hcn' & Hi).
  exists b'. split; [done|]. split; [done|]. pose proof (zlen_nonneg l). split; [lia|].
  unfold processInput. rewrite content_nonempty by (done || rewrite Hcn; by destruct l).
  pose proof Hp as Hp'. unfold body_pending in Hp'. rewrite Hp', Hg. cbn [mbind outcome_bind]. clear Hp'.
  unfold line_step. destruct (incoming_message_ t) as [m|] eqn:Hm; [|done].
  destruct (chomp l) as [|c l'].
  - unfold markHeadersComplete, incoming. rewrite Hm. cbn [mbind outcome_bind].
    destruct (getContentLength (in_headers m)) as [n|?|?]; cbn [mbind outcome_bind]; try done.
    destruct (onEndOfMessageHeaders (in_headers m) w) as [w1|?|?]; cbn [mbind outcome_bind]; try done.
    set (t1 := mk_Transport (Some m) _ _ _). destruct (isMessageComplete t1) eqn:Hc.
    + destruct (handleMessage t1 w1) as [[t2 w2]|?|?] eqn:Hh; cbn [mbind outcome_bind]; try done.
      by rewrite (handleMessage_not_pending _ _ _ _ Hc Hh).
    + cbn [mbind outcome_bind]. assert (body_pending t1 = true) as ->; [|done].
      unfold body_pending. by rewrite Hc.
  - destruct ((c =? 32) || (c =? 9)).
    + unfold headerContinuation, incoming. destruct (bool_decide _); [done|]. rewrite Hm. cbn [mbind outcome_bind].
      destruct (find _ _) as [i|]; [|done]. cbn [mbind outcome_bind]. unfold with_message.
      rewrite body_pending_header; [done|done| |by rewrite Hm]. rewrite Hm. by intros ? [= <-].
    + unfold headerLine, incoming. destruct (find_char 58 (c :: l')) as [colon|]; [|done]. rewrite Hm. cbn [mbind outcome_bind].
      rewrite body_pending_header; [done|done| |by rewrite Hm]. rewrite Hm. by intros ? [= <-].
Qed.

(** What [onInput] makes of some lines and an incomplete one. *)
Definition takes (t : Transport) (w : W) (ls : list (list Z)) (p : list Z) (m : outcome (Transport * W * StreamBuf)) : Prop :=
  match run_lines ls t w with
  | Ret (ls', (t', w')) =>
      if replaced w' && negb (body_pending t') && negb (bool_decide (unlines ls' ++ p = [])) then m = Undef UseAfterFree
      else exists b', m = Ret (t', w', b') /\ sb_ok b' /\ content b' = unlines ls' ++ p
  | Throw e => m = Throw e
  | Undef u => m = Undef u
  end.

Lemma input_loop_ok fuel : forall t w b ls p,
  sb_ok b -> body_pending t = false -> replaced w = false -> Forall (absent NL) ls -> absent NL p ->
  content b = unlines ls ++ p -> in_use_ b < Z.of_nat fuel ->
  takes t w ls p (input_loop fuel t w b).
Proof.
  induction fuel as [|fuel IH]; intros t w b ls p Hb Hp Hr Hls Hpn Hcn Hf.
  { pose proof (sb_in_use b Hb). lia. }
  unfold takes. cbn [input_loop]. destruct ls as [|l ls].
  - cbn in Hcn. rewrite processInput_none by (done || by rewrite Hcn). cbn [run_lines mbind outcome_bind andb].
    rewrite Hr. cbn [andb]. by exists b.
  - inversion Hls as [|? ? Hl Hls']; subst. unfold unlines in Hcn. cbn [map concat] in Hcn.
    rewrite <- !(assoc_L (++)) in Hcn. fold (unlines ls) in Hcn. cbn [app] in Hcn.
    destruct (processInput_line t w b l (unlines ls ++ p) Hb Hcn Hl Hp) as (b' & Hb' & Hcn' & Hi & ->).
    cbn [run_lines]. destruct (line_step t w (chomp l)) as [[t' w']|?|?]; cbn [mbind outcome_bind]; try done.
    destruct (body_pending t') eqn:Hp'; cbn [negb andb].
    + rewrite orb_true_r, Hp', andb_false_r. by exists b'.
    + rewrite orb_false_r. destruct (sb_isEmpty b') eqn:He; cbn [negb].
      * assert (unlines ls ++ p = []) as Hnil.
        { rewrite <- Hcn'. apply nil_length_inv. unfold sb_isEmpty, sb_size in He. rewrite <- (zlen_content b' Hb') in He.
          unfold zlen in He. lia. }
        destruct (replaced w') eqn:Hr'.
        { rewrite Hr', Hp', Hnil. cbn. exists b'. by rewrite Hcn'. }
        apply app_eq_nil in Hnil as [Hu ->]. destruct ls as [|l' ls]; [|by destruct l'].
        cbn [run_lines]. rewrite Hr'. by exists b'.
      * destruct (replaced w') eqn:Hr'.
        { rewrite Hr', Hp'. cbn [negb andb]. rewrite bool_decide_eq_false_2; [done|]. rewrite <- Hcn'.
          intros Hn. by rewrite (content_nil b' Hb' Hn) in He. }
        apply (IH t' w' b' ls p); try done. lia.
Qed.

Lemma onInput_lines t w b ls p :
  sb_ok b -> body_pending t = false -> replaced w = false -> Forall (absent NL) ls -> absent NL p ->
  content b = unlines ls ++ p -> takes t w ls p (onInput t w b).
Proof. intros. apply input_loop_ok; try done. pose proof (sb_in_use b). unfold sb_size. lia. Qed.

(** ** Any segmentation *)

Lemma run_lines_app ls1 ls2 : forall t w,
  replaced w || body_pending t = false ->
  run_lines (ls1 ++ ls2) t w =
    '(ls, (t, w)) ← run_lines ls1 t w;
    if replaced w || body_pending t then Ret (ls ++ ls2, (t, w)) else run_lines ls2 t w.
Proof.
  induction ls1 as [|l ls1 IH]; intros t w Hq; cbn [app run_lines mbind outcome_bind]; [by rewrite Hq|].
  destruct (line_step t w (chomp l)) as [[t' w']|?|?]; cbn [mbind outcome_bind]; try done.
  destruct (replaced w' || body_pending t') eqn:Hq'; [cbn [mbind outcome_bind]; by rewrite Hq'|]. by apply IH.
Qed.

(** What some calls make of the input [x]: what its lines ask for, if they leave
    the transport neither replaced nor awaiting a body. *)
Definition receives (t : Transport) (w : W) (x : list Z) (m : outcome (Transport * W * StreamBuf)) : Prop :=
  let '(ls, p) := lines_of x in
  match run_lines ls t w with
  | Ret (_, (t', w')) =>
      if replaced w' || body_pending t' then True
      else exists b', m = Ret (t', w', b') /\ sb_ok b' /\ content b' = p
  | Throw e => m = Throw e
  | Undef u => m = Undef u
  end.

Lemma run_lines_complete ls : forall t w ls' t' w',
  run_lines ls t w = Ret (ls', (t', w')) -> replaced w' || body_pending t' = false -> ls' = [].
Proof.
  induction ls as [|l ls IH]; intros t w ls' t' w'; cbn [run_lines]; [by intros [= <- <- <-]|].
  destruct (line_step t w (chomp l)) as [[ta wa]|?|?]; cbn [mbind outcome_bind]; try done.
  destruct (replaced wa || body_pending ta) eqn:E; [|by apply IH]. intros [= <- <- <-]. by rewrite E.
Qed.

(** A call, and the pieces that follow. *)
Lemma onInput_then chunks t w b1 :
  (forall t w b, sb_ok b -> body_pending t = false -> replaced w = false -> absent NL (content b) ->
     zlen (content b) <= zlen (content b1) -> receives t w (content b ++ concat chunks) (feed t w b chunks)) ->
  sb_ok b1 -> body_pending t = false -> replaced w = false ->
  receives t w (content b1 ++ concat chunks) ('(t, w, b) ← onInput t w b1; feed t w b chunks).
Proof.
  intros IH Hb1 Hp Hr. unfold receives. rewrite lines_of_app. pose proof (lines_of_spec (content b1)) as Hl.
  destruct (lines_of (content b1)) as [ls1 p1]. destruct Hl as (Hcn & Hls1 & Hp1).
  pose proof (onInput_lines t w b1 ls1 p1 Hb1 Hp Hr Hls1 Hp1 Hcn) as Htk. unfold takes in Htk.
  destruct (lines_of (p1 ++ concat chunks)) as [ls2 p2] eqn:E2.
  rewrite run_lines_app by by rewrite Hr, Hp.
  destruct (run_lines ls1 t w) as [[ls' [t1 w1]]|?|?] eqn:Erun; cbn [mbind outcome_bind];
    [|by rewrite Htk|by rewrite Htk].
  destruct (replaced w1 || body_pending t1) eqn:Hq; [by rewrite Hq|].
  rewrite (run_lines_complete _ _ _ _ _ _ Erun Hq) in Htk. apply orb_false_iff in Hq as [Hr1 Hp1'].
  rewrite Hr1, Hp1' in Htk. cbn [andb] in Htk. destruct Htk as (b2 & -> & Hb2 & Hcn2). cbn [mbind outcome_bind].
  cbn in Hcn2. assert (zlen p1 <= zlen (content b1)) by (rewrite Hcn, zlen_app; pose proof (zlen_nonneg (unlines ls1)); lia).
  specialize (IH t1 w1 b2 Hb2 Hp1' Hr1). rewrite Hcn2 in IH. unfold receives in IH. rewrite E2 in IH. by apply IH.
Qed.

Lemma feed_lines chunks : forall t w b,
  sb_ok b -> body_pending t = false -> replaced w = false -> absent NL (content b) -> Forall (Forall octet) chunks ->
  zlen (content b ++ concat chunks) < 2 ^ 60 -> receives t w (content b ++ concat chunks) (feed t w b chunks).
Proof.
  induction chunks as [|d chunks IH]; intros t w b Hb Hp Hr Ha Hoct Hsz; cbn [concat feed].
  - unfold receives. rewrite app_nil_r, lines_of_absent by done. cbn [run_lines]. rewrite Hr, Hp. by exists b.
  - inversion Hoct as [|? ? Hd Hoct']; subst. cbn [concat] in Hsz. rewrite !zlen_app, (zlen_content b Hb) in Hsz.
    pose proof (zlen_nonneg (concat chunks)). rewrite Hr.
    destruct (sb_write_ok b d Hb Hd) as (b1 & -> & Hb1 & Hcn1 & Hi1); [unfold SSIZE_MAX; lia|]. cbn [mbind outcome_bind].
    rewrite (assoc_L (++)), <- Hcn1. apply onInput_then; try done. intros t' w' b' ? ? ? ? Hle. apply IH; try done.
    rewrite zlen_app. rewrite (zlen_content b1 Hb1) in Hle. lia.
Qed.

Lemma onInput_feed chunks t w b :
  sb_ok b -> body_pending t = false -> replaced w = false -> Forall (Forall octet) chunks ->
  zlen (content b ++ concat chunks) < 2 ^ 60 ->
  receives t w (content b ++ concat chunks) ('(t, w, b) ← onInput t w b; feed t w b chunks).
Proof.
  intros Hb Hp Hr Hoct Hsz. apply onInput_then; try done. intros t' w' b' ? ? ? ? Hle. apply feed_lines; try done.
  rewrite zlen_app in *. lia.
Qed.

End receiving.

(** ** Messages *)

Section messages.
Context {W : Type} `{HO : Owner W} `{HM : Multimap}.
Implicit Types (t : Transport) (w : W) (b : StreamBuf).

Definition header_line (e : header) : list Z := fst e ++ 58 :: SP :: snd e.

Definition message_lines (m : Msg) : list (list Z) :=
  (m_first m ++ [CR]) :: map (fun e => header_line e ++ [CR]) (m_headers m) ++ [[CR]].

Lemma chomp_line l : chomp (l ++ [CR]) = l.
Proof. unfold chomp. rewrite last_snoc, bool_decide_eq_true_2 by done. apply removelast_last. Qed.

Lemma render_lines m : render m = unlines (message_lines m).
Proof.
  unfold render, renderHeaders, unlines, message_lines, CRLF. cbn [kv_ map concat].
  rewrite map_app, concat_app, map_map, <- !(assoc_L (++)).
  rewrite (map_ext render_header (fun e => (header_line e ++ [CR]) ++ [NL])); [done|].
  intros [n v]. unfold render_header, header_line. cbn [fst snd]. rewrite <- !(assoc_L (++)). done.
Qed.

Lemma message_lines_ok m : message_ok m -> Forall (absent NL) (message_lines m).
Proof.
  intros [Hf Hh]. unfold message_lines. apply Forall_cons_2; [eauto with lines|].
  apply Forall_app_2; [|eauto with lines]. rewrite Forall_map. eapply Forall_impl; [exact Hh|].
  intros [n v] [(_ & Hn & _) [Hv _]]. cbn in *. unfold header_line. cbn.
  rewrite <- (assoc_L (++)). apply absent_app; [done|]. by apply absent_cons, absent_cons, absent_app; eauto with lines.
Qed.

Definition headers_so_far (m : Msg) (h : Headers) (last : list Z) : Transport :=
  mk_Transport (Some (mk_IncomingMessage (m_first m) (mk_Message [] h))) last false 0.

Lemma line_step_header m h last w e :
  name_ok (fst e) -> value_ok (snd e) ->
  line_step (headers_so_far m h last) w (header_line e)
  = Ret (headers_so_far m (Headers_add h (asciiLower (fst e)) (snd e)) (asciiLower (fst e)), w).
Proof.
  destruct e as [n v]. cbn [fst snd]. intros (H58 & _ & Hn) [_ Hsol]. unfold line_step, header_line. cbn [fst snd].
  destruct n as [|c n]; [done|]. cbn [incoming_message_ headers_so_far app]. unfold isLWS in Hn. rewrite Hn.
  pose proof (find_char_app 58 (c :: n) (SP :: v) H58) as Hfind. cbn [app] in Hfind.
  unfold headerLine. rewrite Hfind. clear Hfind.
  set (line := c :: n ++ 58 :: SP :: v).
  assert ((length (c :: n) <? length line - 1)%nat = true) as ->
    by (apply Nat.ltb_lt; unfold line; cbn; rewrite length_app; cbn; lia).
  assert (nth (length (c :: n) + 1) line 0 = SP) as ->
    by (unfold line; change (c :: n ++ 58 :: SP :: v) with ((c :: n) ++ 58 :: SP :: v); rewrite app_nth2 by lia;
        by replace (length (c :: n) + 1 - length (c :: n))%nat with 1%nat by lia).
  cbn [andb Z.eqb]. change (SP =? SP) with true. cbv iota.
  assert (drop (length (c :: n) + 1) line = [SP] ++ v ++ []) as ->.
  { unfold line. change (c :: n ++ 58 :: SP :: v) with ((c :: n) ++ 58 :: SP :: v). rewrite app_nil_r.
    rewrite cons_middle, (assoc_L (++)). apply drop_app_length'. rewrite length_app. simpl. lia. }
  rewrite trimLWS_cases by (done || by repeat constructor).
  assert (str_resize line (Z.of_nat (length (c :: n))) = c :: n) as ->.
  { unfold line. change (c :: n ++ 58 :: SP :: v) with ((c :: n) ++ 58 :: SP :: v). unfold str_resize.
    rewrite Nat2Z.id, take_app_length, length_app. replace (length (c :: n) - _)%nat with 0%nat by (simpl; lia). apply app_nil_r. }
  done.
Qed.

Lemma run_headers m hs rest w : forall h last,
  replaced w = false -> Forall (fun e => name_ok (fst e) /\ value_ok (snd e)) hs ->
  exists last',
    run_lines (map (fun e => header_line e ++ [CR]) hs ++ rest) (headers_so_far m h last) w
    = run_lines rest (headers_so_far m (foldl (fun h e => Headers_add h (asciiLower (fst e)) (snd e)) h hs) last') w.
Proof.
  intros h last Hr Hh. revert h last. induction Hh as [|e hs [Hn Hv] _ IH]; intros h last; cbn [map app foldl]; [by eexists|].
  cbn [run_lines]. rewrite chomp_line, line_step_header by done. cbn [mbind outcome_bind]. rewrite Hr. cbn [orb].
  apply IH.
Qed.

(** The header section of a message, up to its last line. *)
Lemma run_header_section m rest w :
  message_ok m -> replaced w = false ->
  exists last',
    run_lines (message_lines m ++ rest) new_Transport w
    = run_lines ([CR] :: rest) (headers_so_far m (received_headers m) last') w.
Proof.
  intros [Hf Hh] Hr. unfold message_lines. cbn [app run_lines]. rewrite chomp_line.
  cbn [line_step new_Transport incoming_message_ mbind outcome_bind last_header_ expected_body_length_].
  rewrite Hr, body_pending_open by done. cbn [orb].
  destruct (run_headers m (m_headers m) ([CR] :: rest) w new_Headers [] Hr Hh) as (last' & Hrun).
  exists last'. rewrite <- (assoc_L (++)). exact Hrun.
Qed.

Definition waiting (m : Msg) (n : Z) (last : list Z) : Transport :=
  mk_Transport (Some (mk_IncomingMessage (m_first m) (mk_Message [] (received_headers m)))) last true n.

Lemma waiting_pending m n last : n <> 0 -> body_pending (waiting m n last) = true.
Proof. unfold body_pending, isMessageComplete. cbn. by destruct n. Qed.

(** The empty line that ends it. *)
Lemma line_step_end m n last w :
  getContentLength (received_headers m) = Ret n ->
  line_step (headers_so_far m (received_headers m) last) w []
  = (w ← onEndOfMessageHeaders (received_headers m) w;
     if n =? 0 then handleMessage (waiting m 0 last) w else Ret (waiting m n last, w)).
Proof.
  intros Hn. unfold line_step, markHeadersComplete. cbn [incoming_message_ headers_so_far incoming mbind outcome_bind].
  change (in_headers (mk_IncomingMessage (m_first m) (mk_Message [] (received_headers m)))) with (received_headers m).
  rewrite Hn. cbn [mbind outcome_bind].
  destruct (onEndOfMessageHeaders (received_headers m) w) as [w1|?|?]; cbn [mbind outcome_bind]; try done.
  unfold isMessageComplete. cbn. destruct (Z.eqb_spec n 0) as [->|Hne]; [done|].
  destruct n; done.
Qed.

Lemma run_message m rest w :
  message_ok m -> no_body m -> replaced w = false ->
  match serve_one m w with
  | Ret w' =>
      exists t', (replaced w' = false -> t' = new_Transport) /\
        run_lines (message_lines m ++ rest) new_Transport w
        = if replaced w' then Ret (rest, (t', w')) else run_lines rest new_Transport w'
  | Throw e => run_lines (message_lines m ++ rest) new_Transport w = Throw e
  | Undef u => run_lines (message_lines m ++ rest) new_Transport w = Undef u
  end.
Proof.
  intros Hm Hn Hr. destruct (run_header_section m rest w Hm Hr) as (last & ->).
  unfold serve_one. cbn [run_lines]. change (chomp [CR]) with (@nil Z). rewrite (line_step_end m 0) by done.
  destruct (onEndOfMessageHeaders (received_headers m) w) as [w1|?|?]; cbn [mbind outcome_bind]; try done.
  change (0 =? 0) with true. cbv iota. unfold handleMessage, waiting. cbn [incoming_message_].
  set (im := mk_IncomingMessage _ _). change (in_headers im) with (received_headers m).
  destruct (handleIncomingMessage im w1) as [w2|?|?]; cbn [mbind outcome_bind]; try done.
  unfold closing. set (t1 := mk_Transport _ _ _ _). destruct (replaced w2) eqn:Hr2; cbn [negb andb mbind outcome_bind].
  - exists t1. split; [by rewrite Hr2|]. by rewrite Hr2.
  - exists new_Transport. split; [done|]. change (resetIncomingMessage t1) with new_Transport.
    rewrite body_pending_open, orb_false_r by done. done.
Qed.

Lemma run_messages ms : forall w,
  Forall message_ok ms -> Forall no_body ms -> replaced w = false ->
  match serve ms w with
  | Ret (true, w') => run_lines (concat (map message_lines ms)) new_Transport w = Ret ([], (new_Transport, w')) /\ replaced w' = false
  | Ret (false, w') => exists ls t', run_lines (concat (map message_lines ms)) new_Transport w = Ret (ls, (t', w')) /\ replaced w' = true
  | Throw e => run_lines (concat (map message_lines ms)) new_Transport w = Throw e
  | Undef u => run_lines (concat (map message_lines ms)) new_Transport w = Undef u
  end.
Proof.
  induction ms as [|m ms IH]; intros w Hok Hn Hr; cbn [serve map concat]; [done|].
  inversion Hok; inversion Hn; subst. pose proof (run_message m (concat (map message_lines ms)) w) as Hm.
  destruct (serve_one m w) as [w'|?|?]; cbn [mbind outcome_bind]; [|by apply Hm|by apply Hm].
  destruct Hm as (t' & Ht & ->); [done..|]. destruct (replaced w') eqn:Hr'; [by eexists _, _|]. by apply IH.
Qed.

(** ** Between two calls *)

(** After the lines [pre], which end no message, a new transport is [t]. *)
Definition midway (t : Transport) (pre : list (list Z)) : Prop :=
  body_pending t = false /\ forall w, replaced w = false -> run_lines pre new_Transport w = Ret ([], (t, w)).

Lemma midway_new : midway new_Transport [].
Proof. split; [by apply body_pending_open|done]. Qed.

(** The first lines of the headers. *)
Lemma run_headers_midway m hs : forall h last,
  Forall (fun e => name_ok (fst e) /\ value_ok (snd e)) hs ->
  exists last', forall w, replaced w = false ->
    run_lines (map (fun e => header_line e ++ [CR]) hs) (headers_so_far m h last) w
    = Ret ([], (headers_so_far m (foldl (fun h e => Headers_add h (asciiLower (fst e)) (snd e)) h hs) last', w)).
Proof.
  induction hs as [|e hs IH]; intros h last Hh; [by exists last|]. apply Forall_cons in Hh as [[Hn Hv] Hh].
  destruct (IH (Headers_add h (asciiLower (fst e)) (snd e)) (asciiLower (fst e)) Hh) as (last' & Hrun).
  exists last'. intros w Hw. cbn [map run_lines foldl]. rewrite chomp_line, line_step_header by done. cbn [mbind outcome_bind].
  rewrite Hw. cbn [orb]. rewrite body_pending_open by done. by apply Hrun.
Qed.

Lemma midway_message m pre l :
  message_ok m -> pre ++ l = message_lines m -> l <> [] -> exists t, midway t pre.
Proof.
  intros [Hf Hh] Heq Hl. unfold message_lines in Heq. destruct pre as [|f hs1]; [exists new_Transport; apply midway_new|].
  injection Heq as -> Heq. destruct (exists_last Hl) as (l' & x & ->). rewrite (assoc_L (++)) in Heq.
  apply app_inj_tail in Heq as [Heq _]. symmetry in Heq. apply map_eq_app in Heq as (hs & hs' & Hm & <- & _).
  rewrite Hm in Hh. apply Forall_app in Hh as [Hh _].
  destruct (run_headers_midway m hs new_Headers [] Hh) as (last & Hrun). eexists. split; [|intros w Hw; cbn [run_lines]].
  2: { rewrite chomp_line. cbn [line_step new_Transport incoming_message_ mbind outcome_bind last_header_ expected_body_length_].
       rewrite Hw. rewrite body_pending_open by done. cbn [orb]. by apply Hrun. }
  by apply body_pending_open.
Qed.

(** Reading on from the middle of a message. *)
Lemma run_on t pre ls w :
  midway t pre -> replaced w = false -> run_lines ls t w = run_lines (pre ++ ls) new_Transport w.
Proof.
  intros [Hp Hrun] Hw. rewrite run_lines_app by (by rewrite Hw, body_pending_open). rewrite Hrun by done.
  cbn [mbind outcome_bind]. by rewrite Hw, Hp.
Qed.

(** Lines and the beginning of a line that begin some lines. *)
Lemma unlines_prefix ls p rest all :
  Forall (absent NL) ls -> Forall (absent NL) all -> unlines ls ++ p ++ rest = unlines all ->
  exists later, ls ++ later = all /\ p ++ rest = unlines later.
Proof.
  intros Hls Hall Heq. pose proof (lines_of_spec (p ++ rest)) as Hl. destruct (lines_of (p ++ rest)) as [ls2 q] eqn:E2.
  destruct Hl as (Hpr & Hls2 & Hq). rewrite Hpr, (assoc_L (++)), <- unlines_app in Heq.
  assert (lines_of (unlines (ls ++ ls2) ++ q) = (ls ++ ls2, q)) as H1 by (apply lines_of_unlines; [by apply Forall_app|done]).
  rewrite Heq in H1. rewrite <- (app_nil_r (unlines all)), lines_of_unlines in H1 by (done || apply absent_nil).
  injection H1 as H1 H2. exists ls2. split; [done|]. by rewrite Hpr, <- H2, app_nil_r.
Qed.

(** Of two sequences of lines with something behind them that are the same
    octets, one begins with the other. *)
Lemma unlines_split ls all : forall x y,
  Forall (absent NL) ls -> Forall (absent NL) all -> unlines ls ++ x = unlines all ++ y ->
  (exists later, ls ++ later = all /\ x = unlines later ++ y) \/ (exists more, more <> [] /\ ls = all ++ more /\ unlines more ++ x = y).
Proof.
  revert ls. induction all as [|a all IH]; intros ls x y Hls Hall Heq.
  { destruct ls as [|l ls]; [left; by exists []|right; by exists (l :: ls)]. }
  destruct ls as [|l ls]; [left; by exists (a :: all)|].
  apply Forall_cons in Hls as [Hl Hls]. apply Forall_cons in Hall as [Ha Hall]. unfold unlines in Heq. cbn [map concat] in Heq.
  rewrite <- !(assoc_L (++)) in Heq. pose proof (find_char_app NL l (unlines ls ++ x) Hl) as H1.
  pose proof (find_char_app NL a (unlines all ++ y) Ha) as H2. unfold unlines in H1, H2. cbn [app] in Heq. rewrite Heq in H1.
  assert (length l = length a) as Hlen by congruence. apply app_inj_1 in Heq as [-> Heq]; [|done]. injection Heq as Heq.
  destruct (IH ls x y Hls Hall Heq) as [(later & <- & ->)|(more & Hne & -> & Hm)]; [left; by exists later|right; by exists more].
Qed.

(** A proper beginning of a message. *)
Definition unfinished (post : list Z) : Prop := exists m rest, message_ok m /\ render m = post ++ rest /\ rest <> [].

(** A transport and its buffer, when [pre] is what has come of a message. *)
Definition partway (t : Transport) (b : StreamBuf) (pre : list Z) : Prop :=
  exists ls, midway t ls /\ sb_ok b /\ pre = unlines ls ++ content b /\ Forall (absent NL) ls /\ absent NL (content b).

Lemma partway_new b : sb_ok b -> content b = [] -> partway new_Transport b [].
Proof. intros Hb Hc. exists []. rewrite Hc. split; [apply midway_new|]. split; [done|]. split; [done|]. split; [constructor|apply absent_nil]. Qed.

Lemma lines_of_messages ms post :
  Forall message_ok ms ->
  lines_of (concat (map render ms) ++ post) = (concat (map message_lines ms) ++ fst (lines_of post), snd (lines_of post)).
Proof.
  intros Hok. pose proof (lines_of_spec post) as Hp. destruct (lines_of post) as [ls p]. destruct Hp as (-> & Hls & Hp).
  assert (concat (map render ms) = unlines (concat (map message_lines ms))) as ->.
  { clear. induction ms as [|m ms IH]; [done|]. cbn [map concat]. by rewrite IH, unlines_app, render_lines. }
  rewrite (assoc_L (++)), <- unlines_app. apply lines_of_unlines; [|done]. apply Forall_app. split; [|done].
  apply Forall_concat, Forall_map. by eapply Forall_impl; [|apply message_lines_ok].
Qed.

Lemma unfinished_midway post : unfinished post -> exists t, midway t (fst (lines_of post)).
Proof.
  intros (m & rest & Hm & Heq & Hne). pose proof (lines_of_spec post) as Hp. destruct (lines_of post) as [ls p].
  destruct Hp as (-> & Hls & Hp). rewrite render_lines, <- (assoc_L (++)) in Heq.
  destruct (unlines_prefix ls p rest (message_lines m)) as (l & Hl & Hrest); [done|by apply message_lines_ok|done|].
  apply (midway_message m ls l Hm Hl). intros ->. by apply app_eq_nil in Hrest as [_ ?].
Qed.

(** One call: the messages that it completes are served, in order, and the
    transport is inside the next one. *)
Lemma onInput_partway t b pre d ms post w :
  partway t b pre -> replaced w = false -> Forall message_ok ms -> Forall no_body ms -> unfinished post ->
  pre ++ d = concat (map render ms) ++ post -> octets d -> zlen (pre ++ d) < 2 ^ 60 ->
  exists b1, sb_write b d = Ret b1 /\
    match serve ms w with
    | Ret (true, w') => exists t' b', onInput t w b1 = Ret (t', w', b') /\ partway t' b' post
    | Ret (false, w') => True
    | Throw e => onInput t w b1 = Throw e
    | Undef u => onInput t w b1 = Undef u
    end.
Proof.
  intros (ls0 & Hmid & Hb & -> & Hls0 & Hp0) Hr Hok Hn Hun Heq Hd Hsz.
  rewrite !zlen_app, (zlen_content b Hb) in Hsz. pose proof (zlen_nonneg (unlines ls0)).
  destruct (sb_write_ok b d Hb Hd) as (b1 & -> & Hb1 & Hcn1 & _); [unfold SSIZE_MAX; lia|]. exists b1. split; [done|].
  pose proof (lines_of_spec (content b1)) as Hl. destruct (lines_of (content b1)) as [ls p]. destruct Hl as (Hcn & Hls & Hp).
  rewrite <- (assoc_L (++)), <- Hcn1, Hcn, (assoc_L (++)), <- unlines_app in Heq.
  pose proof (lines_of_messages ms post Hok) as Hlines. rewrite <- Heq, lines_of_unlines in Hlines by (by try apply Forall_app).
  injection Hlines as Hls' Hp'.
  pose proof (onInput_lines t w b1 ls p Hb1 (proj1 Hmid) Hr Hls Hp Hcn) as Htk. unfold takes in Htk.
  rewrite (run_on t ls0 ls w Hmid Hr), Hls', run_lines_app in Htk by (by rewrite Hr, body_pending_open).
  pose proof (run_messages ms w Hok Hn Hr) as Hrun. destruct (serve ms w) as [[[] w']|?|?]; [|done| |].
  - destruct Hrun as [Hrun Hr']. rewrite Hrun in Htk. cbn [mbind outcome_bind] in Htk. rewrite Hr', body_pending_open in Htk by done. cbn [orb] in Htk.
    destruct (unfinished_midway post Hun) as (t' & Hmid'). destruct Hmid' as [Hbp Hmid']. rewrite (Hmid' w' Hr') in Htk.
    rewrite Hr' in Htk. destruct Htk as (b' & Hin & Hb' & Hcn'). change (unlines [] ++ p) with p in Hcn'.
    exists t', b'. split; [done|]. exists (fst (lines_of post)). split; [done|]. split; [done|].
    pose proof (lines_of_spec post) as Hpost. destruct (lines_of post) as [ls2 p2]. cbn [fst snd] in *. subst p2.
    rewrite Hcn'. by destruct Hpost as (-> & ? & ?).
  - rewrite Hrun in Htk. by cbn in Htk.
  - rewrite Hrun in Htk. by cbn in Htk.
Qed.

(** What some calls make of messages without a body. *)
Definition delivers (ms : list Msg) (w : W) (m : outcome (Transport * W * StreamBuf)) : Prop :=
  match serve ms w with
  | Ret (true, w') => exists buf, m = Ret (new_Transport, w', buf) /\ content buf = [] /\ replaced w' = false
  | Ret (false, w') => replaced w' = true
  | Throw e => m = Throw e
  | Undef u => m = Undef u
  end.

Lemma receives_messages ms w m :
  Forall message_ok ms -> Forall no_body ms -> replaced w = false ->
  receives new_Transport w (concat (map render ms)) m -> delivers ms w m.
Proof.
  intros Hok Hn Hr. assert (concat (map render ms) = unlines (concat (map message_lines ms)) ++ []) as ->.
  { rewrite app_nil_r. clear. induction ms as [|m ms IH]; [done|]. cbn [map concat]. by rewrite IH, unlines_app, render_lines. }
  unfold receives, delivers. rewrite lines_of_unlines; [| |apply absent_nil].
  2: { apply Forall_concat, Forall_map. by eapply Forall_impl; [|apply message_lines_ok]. }
  pose proof (run_messages ms w Hok Hn Hr) as Hm. destruct (serve ms w) as [[[] w']|?|?].
  - destruct Hm as [-> Hr']. rewrite Hr'. cbn. intros (b' & ? & _ & ?). by exists b'.
  - by destruct Hm as (? & ? & _ & ?).
  - by rewrite Hm.
  - by rewrite Hm.
Qed.

Lemma feed_messages ms chunks w :
  Forall message_ok ms -> Forall no_body ms -> replaced w = false ->
  Forall (Forall octet) chunks -> zlen (concat chunks) < 2 ^ 60 -> concat chunks = concat (map render ms) ->
  match serve ms w with
  | Ret (true, w') =>
      exists buf, feed new_Transport w empty_StreamBuf chunks = Ret (new_Transport, w', buf) /\ content buf = []
  | Ret (false, w') => replaced w' = true
  | Throw e => feed new_Transport w empty_StreamBuf chunks = Throw e
  | Undef u => feed new_Transport w empty_StreamBuf chunks = Undef u
  end.
Proof.
  intros Hok Hn Hr Hoct Hsz Heq.
  assert (sb_ok empty_StreamBuf) as He by (split; [vm_compute; split; congruence|constructor]).
  assert (delivers ms w (feed new_Transport w empty_StreamBuf chunks)) as Hd.
  { apply receives_messages; try done. rewrite <- Heq.
    by apply (feed_lines chunks new_Transport w empty_StreamBuf); [..|apply absent_nil|done|done]. }
  unfold delivers in Hd. destruct (serve ms w) as [[[] w']|?|?]; try done. destruct Hd as (b & ? & ? & _). by exists b.
Qed.

(** C12: HTTP/1 messages without a body arrive whole, in order and once each,
    however the stream is cut into reads: the handler is called with each
    message's first line and its headers (names in lower case), and the
    transport ends as it began with nothing left in the buffer, or it throws what
    the first failing message makes the handler throw. *)
Theorem http1_messages_any_segmentation ms chunks w :
  Forall message_ok ms -> Forall no_body ms -> replaced w = false ->
  Forall (Forall octet) chunks -> zlen (concat chunks) < 2 ^ 60 -> concat chunks = concat (map render ms) ->
  match serve ms w with
  | Ret (true, w') =>
      exists buf, feed new_Transport w empty_StreamBuf chunks = Ret (new_Transport, w', buf) /\ content buf = []
  | Ret (false, w') => replaced w' = true
  | Throw e => feed new_Transport w empty_StreamBuf chunks = Throw e
  | Undef u => feed new_Transport w empty_StreamBuf chunks = Undef u
  end.
Proof. apply feed_messages. Qed.

(** ** Bodies *)

(** More of a body than was announced. *)
Definition overrun (n : Z) (t : Transport) : Prop :=
  exists m, incoming_message_ t = Some m /\ message_headers_complete_ t = true /\ expected_body_length_ t = n /\
    n < zlen (in_body m) < 2 ^ 62.

Lemma expecting_incomplete n t m :
  incoming_message_ t = Some m -> expected_body_length_ t = n -> zlen (in_body m) < 2 ^ 62 ->
  isMessageComplete t = (zlen (in_body m) =? n).
Proof.
  intros Hm He Hsz. unfold isMessageComplete. rewrite Hm, He. pose proof (zlen_nonneg (in_body m)).
  by rewrite swrap_small by (cbn; lia).
Qed.

(** One call with a body awaited: all of the buffer, or none. *)
Lemma onInput_body n t m w b :
  incoming_message_ t = Some m -> message_headers_complete_ t = true -> expected_body_length_ t = n ->
  0 < n <= SSIZE_MAX -> zlen (in_body m) <> n -> sb_ok b -> content b <> [] ->
  zlen (in_body m) + zlen (content b) < 2 ^ 62 ->
  let t1 := with_message t (set_body m (in_body m ++ content b)) in
  if in_use_ b <? n
  then onInput t w b = Throw (length_error "StreamBuf::advance out of range") \/ onInput t w b = Undef OutOfBounds
  else if zlen (in_body m ++ content b) =? n
  then onInput t w b = ('(t', w') ← handleMessage t1 w; Ret (t', w', sb_clear b))
  else onInput t w b = Ret (t1, w, sb_clear b).
Proof.
  intros Hm Hc He Hn Hne Hb Hcn Hsz t1. rewrite zlen_content in Hsz by done. pose proof (zlen_nonneg (in_body m)).
  pose proof (sb_in_use b Hb) as [Hu Hcap]. unfold onInput. cbn [input_loop]. unfold processInput.
  rewrite content_nonempty by done.
  rewrite (expecting_incomplete n t m) by (done || lia). rewrite (proj2 (Z.eqb_neq _ _)) by done.
  rewrite Hm, Hc, bool_decide_eq_true_2 by done. cbn [andb negb].
  unfold readBody, readContent, incoming. rewrite He, Hm. destruct (Z.eqb_spec n (-1)); [lia|].
  unfold SSIZE_MAX in *. rewrite wrap_small by lia. unfold sb_size. cbn [mbind outcome_bind].
  destruct (Z.ltb_spec (in_use_ b) n) as [Hlt|Hge].
  - rewrite Z.max_r by lia. destruct (Z.leb_spec n (zlen (buf_ b))).
    + left. rewrite arr_slice_in by lia. cbn [mbind outcome_bind]. by rewrite sb_advance_over by lia.
    + right. by rewrite arr_slice_out by lia.
  - rewrite Z.max_l by lia. rewrite arr_slice_in by lia. cbn [mbind outcome_bind]. rewrite drop_0.
    fold (content b). fold t1. unfold sb_advance, sb_size. destruct (Z.ltb_spec (in_use_ b) (in_use_ b)); [lia|].
    rewrite Z.eqb_refl. cbn [mbind outcome_bind].
    rewrite (expecting_incomplete n t1 (set_body m (in_body m ++ content b))) by
      (done || (unfold in_body; cbn; rewrite zlen_app, zlen_content by done; fold (in_body m); lia)).
    change (in_body (set_body m (in_body m ++ content b))) with (in_body m ++ content b).
    destruct (zlen (in_body m ++ content b) =? n); [|done].
    destruct (handleMessage t1 w) as [[t' w']|?|?]; done.
Qed.

Lemma overrun_forever n chunks : 0 < n <= SSIZE_MAX -> forall t w b,
  overrun n t -> sb_ok b -> content b = [] -> Forall (Forall octet) chunks ->
  (forall m, incoming_message_ t = Some m -> zlen (in_body m) + zlen (concat chunks) < 2 ^ 62) ->
  match feed t w b chunks with Ret (_, w', _) => w' = w | _ => True end.
Proof.
  intros Hn. induction chunks as [|d chunks IH]; intros t w b Ho Hb Hcn Hoct Hsz; cbn [feed]; [done|].
  destruct (replaced w); [done|]. inversion Hoct as [|? ? Hd Hoct']; subst.
  destruct Ho as (m & Hm & Hc & He & Hlt). specialize (Hsz m Hm). cbn [concat] in Hsz. rewrite zlen_app in Hsz.
  pose proof (zlen_nonneg d). pose proof (zlen_nonneg (concat chunks)). pose proof (zlen_content b Hb) as Hz. rewrite Hcn in Hz. rewrite zlen_nil in Hz.
  destruct (sb_write_ok b d Hb Hd) as (b1 & -> & Hb1 & Hcn1 & Hi1); [unfold SSIZE_MAX; lia|]. cbn [mbind outcome_bind].
  rewrite Hcn in Hcn1. cbn [app] in Hcn1.
  destruct (decide (d = [])) as [->|Hd0].
  - unfold onInput. cbn [input_loop]. unfold processInput. rewrite content_nil by done. cbn [mbind outcome_bind andb].
    apply IH; [by exists m|done|done|done|]. intros m' Hm'. rewrite Hm in Hm'. injection Hm' as <-. lia.
  - pose proof (onInput_body n t m w b1 Hm Hc He Hn) as Hin. rewrite Hcn1 in Hin.
    specialize (Hin ltac:(lia) Hb1 Hd0 ltac:(lia)). cbv zeta in Hin.
    destruct (in_use_ b1 <? n); [by destruct Hin as [-> | ->]|].
    rewrite zlen_app in Hin. destruct (Z.eqb_spec (zlen (in_body m) + zlen d) n); [lia|]. rewrite Hin. cbn [mbind outcome_bind].
    apply IH; [|by apply sb_clear_ok|by apply sb_clear_ok|done|].
    + eexists. split; [done|]. split; [done|]. split; [done|]. unfold in_body. cbn. fold (in_body m). rewrite zlen_app. lia.
    + cbn. intros ? [= <-]. unfold in_body. cbn. fold (in_body m). rewrite zlen_app. lia.
Qed.

(** A header section announcing a body, and the beginning of the body. *)
Lemma onInput_headers_of_body m n early w w1 :
  message_ok m -> getContentLength (received_headers m) = Ret n -> n <> 0 ->
  onEndOfMessageHeaders (received_headers m) w = Ret w1 -> replaced w = false -> replaced w1 = false ->
  octets (render m ++ early) -> zlen (render m ++ early) < 2 ^ 60 ->
  exists last b, feed new_Transport w empty_StreamBuf [render m ++ early] = Ret (waiting m n last, w1, b) /\
    sb_ok b /\ content b = early.
Proof.
  intros Hm Hn Hn0 Hend Hr Hr1 Hoct Hsz. cbn [feed]. rewrite Hr.
  assert (sb_ok empty_StreamBuf) as He by (split; [vm_compute; split; congruence|constructor]).
  destruct (sb_write_ok empty_StreamBuf (render m ++ early) He Hoct) as (b & -> & Hb & Hcn & _);
    [change (in_use_ empty_StreamBuf) with 0; unfold SSIZE_MAX; lia|]. cbn [mbind outcome_bind].
  change (content empty_StreamBuf ++ ?x) with x in Hcn.
  pose proof (lines_of_spec early) as Hl. destruct (lines_of early) as [ls p]. destruct Hl as (Hearly & Hls & Hp).
  rewrite Hearly, render_lines, (assoc_L (++)), <- unlines_app in Hcn.
  pose proof (onInput_lines new_Transport w b (message_lines m ++ ls) p Hb eq_refl Hr) as Htk. unfold takes in Htk.
  destruct (run_header_section m ls w Hm Hr) as (last & Hrun). rewrite Hrun in Htk. clear Hrun.
  cbn [run_lines] in Htk. change (chomp [CR]) with (@nil Z) in Htk. rewrite (line_step_end m n) in Htk by done.
  rewrite Hend in Htk. cbn [mbind outcome_bind] in Htk. destruct (Z.eqb_spec n 0); [done|]. cbn [mbind outcome_bind] in Htk.
  pose proof (waiting_pending m n last Hn0) as Hpend.
  rewrite Hr1, Hpend in Htk. cbn [orb] in Htk. rewrite Hr1 in Htk. cbn [andb] in Htk.
  destruct Htk as (b' & -> & Hb' & Hcn'); [by apply Forall_app_2; [apply message_lines_ok|]|done|done|].
  cbn [mbind outcome_bind]. exists last, b'. by rewrite Hearly.
Qed.

(** C31: a message with a body, of which [early] arrives in the same read as the
    headers and [late] in the next.  Nothing is done with it before there is
    another read, even when the whole body is there.  The read that follows must
    then complete the announced length exactly: the handler is called with the
    body.  A shorter one reads beyond the buffered input, or throws; a longer one
    (the next request, say) is swallowed, and whatever arrives then, the handler
    is never called. *)
Theorem http1_body_needs_one_read m n early late chunks w w1 :
  message_ok m -> getContentLength (received_headers m) = Ret n -> 0 < n <= SSIZE_MAX ->
  onEndOfMessageHeaders (received_headers m) w = Ret w1 -> replaced w = false -> replaced w1 = false ->
  late <> [] -> octets (render m ++ early ++ late) -> Forall (Forall octet) chunks ->
  zlen (render m ++ early ++ late ++ concat chunks) < 2 ^ 60 ->
  let body := early ++ late in
  let reads := [render m ++ early; late] in
  (exists t b, feed new_Transport w empty_StreamBuf [render m ++ early] = Ret (t, w1, b) /\
     content b = early /\ body_pending t = true) /\
  (zlen body < n ->
     feed new_Transport w empty_StreamBuf reads = Throw (length_error "StreamBuf::advance out of range") \/
     feed new_Transport w empty_StreamBuf reads = Undef OutOfBounds) /\
  (zlen body = n ->
     let msg := mk_IncomingMessage (m_first m) (mk_Message body (received_headers m)) in
     match handleIncomingMessage msg w1 with
     | Ret w2 =>
         exists t b, feed new_Transport w empty_StreamBuf reads = Ret (t, closing (received_headers m) w2, b) /\
           content b = [] /\ (replaced w2 = false -> t = new_Transport)
     | Throw e => feed new_Transport w empty_StreamBuf reads = Throw e
     | Undef u => feed new_Transport w empty_StreamBuf reads = Undef u
     end) /\
  (n < zlen body ->
     match feed new_Transport w empty_StreamBuf (reads ++ chunks) with Ret (_, w', _) => w' = w1 | _ => True end).
Proof.
  intros Hm Hlen Hn Hend Hr Hr1 Hlate Hoct Hchunks Hsz body reads.
  rewrite (assoc_L (++)), Forall_app in Hoct. destruct Hoct as [Ho1 Ho2].
  rewrite (assoc_L (++)), !zlen_app in Hsz. pose proof (zlen_nonneg (concat chunks)). pose proof (zlen_nonneg late).
  pose proof (zlen_nonneg (render m)). pose proof (zlen_nonneg early).
  destruct (onInput_headers_of_body m n early w w1) as (last & b & Hfeed & Hb & Hcn); try done; [lia|rewrite zlen_app; lia|].
  assert (forall more, feed new_Transport w empty_StreamBuf (([render m ++ early; late]) ++ more)
            = (buf ← sb_write b late; '(t, w, buf) ← onInput (waiting m n last) w1 buf; feed t w buf more)) as Hreads.
  { intros more. revert Hfeed. cbn [app feed]. rewrite Hr. destruct (sb_write empty_StreamBuf (render m ++ early)) as [b0|?|?]; cbn [mbind outcome_bind]; try done.
    destruct (onInput new_Transport w b0) as [[[t0 w0] b1]|?|?]; cbn [mbind outcome_bind]; try done.
    intros [= -> -> ->]. by rewrite Hr1. }
  pose proof (Hreads []) as Hreads0. rewrite app_nil_r in Hreads0. subst reads. rewrite Hreads, Hreads0. clear Hreads Hreads0.
  pose proof (zlen_content b Hb) as Hz. rewrite Hcn in Hz.
  destruct (sb_write_ok b late Hb Ho2) as (b1 & -> & Hb1 & Hcn1 & Hi1); [unfold SSIZE_MAX; lia|]. cbn [mbind outcome_bind].
  rewrite Hcn in Hcn1. fold body in Hcn1. assert (content b1 <> []) as Hne1.
  { rewrite Hcn1. unfold body. intros Hx. apply app_eq_nil in Hx as [_ Hx]. done. }
  assert (zlen body = zlen early + zlen late) as Hzb by apply zlen_app.
  pose proof (onInput_body n (waiting m n last) (mk_IncomingMessage (m_first m) (mk_Message [] (received_headers m))) w1 b1
                eq_refl eq_refl eq_refl Hn) as Hin.
  change (in_body (mk_IncomingMessage (m_first m) (mk_Message [] (received_headers m)))) with (@nil Z) in Hin.
  rewrite Hcn1 in Hin. specialize (Hin ltac:(rewrite zlen_nil; lia) Hb1). rewrite <- Hcn1 in Hin at 1. specialize (Hin Hne1).
  rewrite zlen_nil in Hin. specialize (Hin ltac:(lia)). cbv zeta in Hin. cbn [app] in Hin.
  split; [|split; [|split]].
  - exists (waiting m n last), b. split; [done|]. split; [done|]. apply waiting_pending. lia.
  - intros Hshort. destruct (Z.ltb_spec (in_use_ b1) n); [|lia]. by destruct Hin as [-> | ->]; [left|right].
  - intros Hexact. destruct (Z.ltb_spec (in_use_ b1) n); [lia|]. destruct (Z.eqb_spec (zlen body) n); [|done]. rewrite Hin.
    unfold handleMessage, with_message, waiting, set_body. cbn [incoming_message_ first_line].
    unfold in_headers. cbn [in_message headers_].
    set (msg := mk_IncomingMessage (m_first m) (mk_Message body (received_headers m))).
    destruct (handleIncomingMessage msg w1) as [w2|?|?]; cbn [mbind outcome_bind]; try done. unfold closing.
    destruct (replaced w2) eqn:Hr2; cbn [mbind outcome_bind negb andb feed].
    + eexists _, _. split; [done|]. split; [by apply sb_clear_ok|done].
    + eexists _, _. split; [done|]. split; [by apply sb_clear_ok|done].
  - intros Hlong. destruct (Z.ltb_spec (in_use_ b1) n); [lia|]. destruct (Z.eqb_spec (zlen body) n); [lia|]. rewrite Hin.
    cbn [mbind outcome_bind]. apply (overrun_forever n); [done| |by apply sb_clear_ok|by apply sb_clear_ok|done|].
    + eexists. split; [done|]. split; [done|]. split; [done|]. unfold in_body. cbn. lia.
    + cbn. intros ? [= <-]. unfold in_body. cbn. lia.
Qed.

End messages.

(** ** At work: a server that keeps the messages it receives *)

#[export] Instance recorder : Owner (list IncomingMessage) := {
  handleIncomingMessage m w := Ret (w ++ [m]);
  onEndOfMessageHeaders _ w := Ret w;
  replaced _ := false;
  close_connection w := w
}.

#[export] Instance name_ok_dec n : Decision (name_ok n).
Proof. unfold name_ok. destruct n; apply _. Defined.
#[export] Instance solid_dec s : Decision (solid s).
Proof. unfold solid. destruct (head s), (last s); apply _. Defined.
#[export] Instance value_ok_dec v : Decision (value_ok v).
Proof. unfold value_ok. apply _. Defined.

Definition get_request : Msg := mk_message (str "GET /a HTTP/1.1") [(str "Host", str "x"); (str "Accept", str "a, b")].
Definition post_request : Msg := mk_message (str "POST /b HTTP/1.1") [(str "Host", str "x"); (str "Content-Length", str "3")].

Lemma http1_messages_any_segmentation_witness :
  exists buf,
    feed new_Transport [] empty_StreamBuf
      [str "GE"; drop 2 (render get_request) ++ take 30 (render get_request); drop 30 (render get_request)]
    = Ret (new_Transport,
           [mk_IncomingMessage (m_first get_request) (mk_Message [] (received_headers get_request));
            mk_IncomingMessage (m_first get_request) (mk_Message [] (received_headers get_request))], buf) /\
    content buf = [].
Proof.
  refine (http1_messages_any_segmentation [get_request; get_request]
            [str "GE"; drop 2 (render get_request) ++ take 30 (render get_request); drop 30 (render get_request)] []
            _ _ _ _ _ _).
  - assert (message_ok get_request) by (split; apply (bool_decide_unpack _); vm_compute; exact I). by repeat constructor.
  - by repeat constructor.
  - done.
  - apply (bool_decide_unpack _). vm_compute. exact I.
  - vm_compute. reflexivity.
  - vm_compute. reflexivity.
Defined.

(** A body of three octets, of which two come with the headers. *)
Lemma http1_body_needs_one_read_witness :
  let reads := [render post_request ++ str "ab"; str "c"] in
  (exists t b, feed new_Transport [] empty_StreamBuf [render post_request ++ str "ab"] = Ret (t, [], b) /\
     content b = str "ab" /\ body_pending t = true) /\
  (zlen (str "ab" ++ str "c") < 3 ->
     feed new_Transport [] empty_StreamBuf reads = Throw (length_error "StreamBuf::advance out of range") \/
     feed new_Transport [] empty_StreamBuf reads = Undef OutOfBounds) /\
  (zlen (str "ab" ++ str "c") = 3 ->
     let msg := mk_IncomingMessage (m_first post_request) (mk_Message (str "ab" ++ str "c") (received_headers post_request)) in
     match handleIncomingMessage msg [] with
     | Ret w2 =>
         exists t b, feed new_Transport [] empty_StreamBuf reads = Ret (t, closing (received_headers post_request) w2, b) /\
           content b = [] /\ (replaced w2 = false -> t = new_Transport)
     | Throw e => feed new_Transport [] empty_StreamBuf reads = Throw e
     | Undef u => feed new_Transport [] empty_StreamBuf reads = Undef u
     end) /\
  (3 < zlen (str "ab" ++ str "c") ->
     match feed new_Transport [] empty_StreamBuf (reads ++ []) with Ret (_, w', _) => w' = [] | _ => True end).
Proof.
  apply (http1_body_needs_one_read post_request 3 (str "ab") (str "c") [] [] []).
  - split; apply (bool_decide_unpack _); vm_compute; exact I.
  - vm_compute. reflexivity.
  - unfold SSIZE_MAX. lia.
  - done.
  - done.
  - done.
  - done.
  - apply (bool_decide_unpack _). vm_compute. exact I.
  - constructor.
  - vm_compute. reflexivity.
Defined.
