(* ===== verification/Http1Typed.v ===== *)
(** What a handler of HTTP/1 messages may rely on, whatever the client sends:
    a typing of messages that [http1/Transport.cpp] establishes. *)
From S2P Require Import Prelude StreamBuf Headers Http1 Http1Transport Http1Spec.

#[export] Instance exn_dec : EqDecision exn.
Proof. solve_decision. Defined.
#[export] Instance fault_dec : EqDecision fault.
Proof. solve_decision. Defined.
#[export] Instance outcome_dec `{EqDecision A} : EqDecision (outcome A).
Proof. solve_decision. Defined.

(** ** Types *)

(** A name in lower case, without a colon; no line feeds. *)
Definition typed_header (e : header) : Prop :=
  asciiLower (fst e) = fst e /\ absent 58 (fst e) /\ absent NL (fst e) /\ absent NL (snd e).

Definition typed_headers (h : Headers) : Prop := Forall typed_header (kv_ h).

(** The body is as long as the headers say. *)
Record typed_message `{Multimap} (m : IncomingMessage) : Prop := mk_typed_message {
  tm_first : absent NL (first_line m);
  tm_headers : typed_headers (in_headers m);
  tm_body : getContentLength (in_headers m) = Ret (i64 (zlen (in_body m)))
}.

#[export] Instance typed_headers_dec h : Decision (typed_headers h).
Proof. unfold typed_headers, typed_header. apply _. Defined.

#[export] Instance typed_message_dec `{Multimap} m : Decision (typed_message m).
Proof.
  destruct (decide (absent NL (first_line m) /\ typed_headers (in_headers m) /\
                    getContentLength (in_headers m) = Ret (i64 (zlen (in_body m))))) as [Hm|Hm]; [left|right].
  - destruct Hm as (? & ? & ?). by split.
  - intros []. by apply Hm.
Defined.

(** ** Lines and headers are well typed *)

Lemma tolower_twice c : tolower (tolower c) = tolower c.
Proof.
  unfold tolower. destruct ((65 <=? c) && (c <=? 90)) eqn:E; [|by rewrite E]. apply andb_true_iff in E as [?%Z.leb_le ?%Z.leb_le].
  destruct ((65 <=? c + 32) && (c + 32 <=? 90)) eqn:E2; [|done]. apply andb_true_iff in E2 as [_ ?%Z.leb_le]. lia.
Qed.

Lemma asciiLower_typed c s : c < 65 -> absent c s -> absent c (asciiLower s).
Proof.
  intros Hc Hs. unfold absent, asciiLower. rewrite Forall_map. eapply Forall_impl; [exact Hs|]. intros x Hx. unfold compose, tolower.
  destruct ((65 <=? x) && (x <=? 90)) eqn:E; [|done]. apply andb_true_iff in E as [?%Z.leb_le _]. lia.
Qed.

Lemma resize_absent c s n : 0 <= n <= zlen s -> absent c s -> absent c (str_resize s n).
Proof. intros Hn Hs. rewrite str_resize_take by done. by apply Forall_take. Qed.

Lemma trim_loop_le s i : (trim_loop s i <= i)%nat.
Proof. induction i as [|i IH]; cbn [trim_loop]; [done|]. destruct (isLWS _); lia. Qed.

Lemma trimLWS_absent c s : absent c s -> absent c (trimLWS s).
Proof.
  intros Hs. unfold trimLWS, trimLeadingLWS, trimTrailingLWS. apply Forall_drop. destruct (_ =? _)%nat; [done|].
  apply resize_absent; [|done]. pose proof (trim_loop_le s (length s)). unfold zlen. lia.
Qed.

Lemma removeTrailing_absent c s d : absent c s -> absent c (removeTrailingChar s d).
Proof.
  intros Hs. unfold removeTrailingChar. destruct (zlen s =? 0) eqn:E; cbn [negb andb]; [done|]. destruct (_ =? d); [|done].
  apply resize_absent; [|done]. pose proof (zlen_nonneg s). lia.
Qed.

Lemma typed_add `{Multimap} `{!MultimapOk} h name value :
  typed_headers h -> typed_header (name, value) -> typed_headers (Headers_add h name value).
Proof. intros Hh He. unfold typed_headers, Headers_add. cbn [kv_]. rewrite place_perm. by constructor. Qed.

Lemma getLine_typed b :
  sat (fun r => match fst r with Some line => absent NL line | None => True end) (fun _ => True) (fun _ => True) (getLine b).
Proof.
  unfold getLine, findEndOfLine. destruct (_ =? 0); [done|]. destruct ((buf_ b).[_]) as [c|?|?]; [|done|done].
  cbn [mbind outcome_bind]. destruct (if c =? NL then _ else _); [|done]. pose proof (find_char_cases NL (buf_ b)) as Hf.
  destruct (find_char NL (buf_ b)) as [i|]; [|done]. destruct Hf as (l & rest & -> & Hl & <-).
  cbn [mbind outcome_bind]. replace (Z.of_nat (length l) + 1) with (zlen (l ++ [NL])) by (rewrite zlen_app; done).
  rewrite (cons_middle NL l rest), (assoc_L (++) l [NL] rest), arr_slice_app. cbn [mbind outcome_bind]. destruct (sb_advance _ _); [|done|done].
  cbn. unfold trimNewline. rewrite removeTrailingChar_app. by apply removeTrailing_absent.
Qed.

Section transport.
Context {W : Type} `{HO : Owner W} `{HM : Multimap} `{!MultimapOk}.

(** Ill-typed calls are errors. *)
Definition checked : Owner W := {|
  handleIncomingMessage m w := if decide (typed_message m) then handleIncomingMessage m w else Undef AssertionFailed;
  onEndOfMessageHeaders h w := if decide (typed_headers h) then onEndOfMessageHeaders h w else Undef AssertionFailed;
  replaced := replaced;
  close_connection := close_connection
|}.

(** The same outcome, and [P] of what is returned. *)
Definition agree {A} (P : A -> Prop) (m1 m2 : outcome A) : Prop := m1 = m2 /\ sat P (fun _ => True) (fun _ => True) m2.

Lemma agree_bind {A B} (Q : A -> Prop) (P : B -> Prop) m1 m2 k1 k2 :
  agree Q m1 m2 -> (forall a, Q a -> agree P (k1 a) (k2 a)) -> agree P (m1 ≫= k1) (m2 ≫= k2).
Proof. intros [-> Hq] Hk. destruct m2 as [a|?|?]; cbn in *; [by apply Hk|done|done]. Qed.

Lemma agree_same {A} (P : A -> Prop) m : sat P (fun _ => True) (fun _ => True) m -> agree P m m.
Proof. done. Qed.

(** ** The state of a transport is well typed *)

Definition head_typed (m : IncomingMessage) : Prop := absent NL (first_line m) /\ typed_headers (in_headers m).

(** A message is empty until its headers are complete, and then not complete. *)
Definition typed_transport (t : Transport) : Prop :=
  match incoming_message_ t with
  | None => True
  | Some m =>
      head_typed m /\
      if message_headers_complete_ t
      then getContentLength (in_headers m) = Ret (expected_body_length_ t) /\ isMessageComplete t = false
      else in_body m = []
  end.

Definition fine (t : Transport) (w : W) : Prop := replaced w = true \/ typed_transport t.

Lemma headerLine_typed t m line :
  incoming_message_ t = Some m -> message_headers_complete_ t = false -> typed_transport t -> absent NL line ->
  sat typed_transport (fun _ => True) (fun _ => True) (headerLine t line).
Proof.
  intros Hm Hc Ht Hl. unfold headerLine. pose proof (find_char_cases 58 line) as Hf.
  destruct (find_char 58 line) as [i|]; [|done]. destruct Hf as (name & rest & -> & Hn & <-).
  unfold incoming. rewrite Hm. cbn [mbind outcome_bind]. unfold typed_transport in *. rewrite Hm, Hc in Ht.
  cbn [incoming_message_ message_headers_complete_ sat]. rewrite Hc. destruct Ht as [[Hf Hh] Hb]. split; [|done].
  split; [done|]. apply typed_add; [done|]. rewrite str_resize_take by (rewrite zlen_app; pose proof (zlen_nonneg (58 :: rest)); unfold zlen; lia).
  rewrite Nat2Z.id, take_app_length. apply Forall_app in Hl as [Hln Hlr].
  split; [|split; [by apply asciiLower_typed|split; [by apply asciiLower_typed|]]].
  - cbn [fst]. unfold asciiLower. rewrite map_map. apply map_ext. intros c. apply tolower_twice.
  - apply trimLWS_absent, Forall_drop, Forall_app. done.
Qed.

Lemma headerContinuation_typed t m line :
  incoming_message_ t = Some m -> message_headers_complete_ t = false -> typed_transport t -> absent NL line ->
  sat typed_transport (fun _ => True) (fun _ => True) (headerContinuation t line).
Proof.
  intros Hm Hc Ht Hl. unfold headerContinuation. case_bool_decide; [done|]. unfold incoming. rewrite Hm. cbn [mbind outcome_bind].
  destruct (find _ _) as [it|]; [|done]. unfold typed_transport in *. rewrite Hm, Hc in Ht.
  cbn [incoming_message_ with_message message_headers_complete_ sat]. rewrite Hc. destruct Ht as [[Hf Hh] Hb].
  split; [|done]. split; [done|]. unfold typed_headers, in_headers, set_headers in *. cbn [in_message headers_ kv_].
  apply Forall_alter; [done|]. intros e _ (He1 & He2 & He3 & He4). split; [done|]. split; [done|]. split; [done|].
  by apply Forall_app.
Qed.

(** ** Every step checks *)

Lemma handleMessage_agrees t m w :
  incoming_message_ t = Some m -> typed_message m ->
  agree (fun r => fine (fst r) (snd r)) (handleMessage (H := checked) t w) (handleMessage t w).
Proof.
  intros Hm Ht. unfold handleMessage. rewrite Hm. cbn [handleIncomingMessage checked]. rewrite decide_True by done.
  apply (agree_bind (fun _ => True)); [by destruct (handleIncomingMessage m w)|]. intros w' _.
  cbn [replaced close_connection checked]. destruct (replaced w') eqn:E; (split; [done|]); cbn; [by left|by right].
Qed.

Lemma markHeadersComplete_agrees t m w :
  incoming_message_ t = Some m -> head_typed m ->
  agree (fun r => incoming_message_ (fst r) = Some m /\ message_headers_complete_ (fst r) = true /\
                  getContentLength (in_headers m) = Ret (expected_body_length_ (fst r)))
    (markHeadersComplete (H := checked) t w) (markHeadersComplete t w).
Proof.
  intros Hm [_ Ht]. unfold markHeadersComplete, incoming. rewrite Hm. cbn [mbind outcome_bind].
  destruct (getContentLength (in_headers m)) as [n|?|?] eqn:En; cbn [mbind outcome_bind]; [|by split|by split].
  cbn [onEndOfMessageHeaders checked]. rewrite decide_True by done.
  apply (agree_bind (fun _ => True)); [by destruct (onEndOfMessageHeaders _ w)|]. intros w' _. by split.
Qed.

Lemma complete_typed t m :
  incoming_message_ t = Some m -> head_typed m -> getContentLength (in_headers m) = Ret (expected_body_length_ t) ->
  isMessageComplete t = true -> typed_message m.
Proof.
  intros Hm [Hf Hh] Hl Hc. unfold isMessageComplete in Hc. rewrite Hm in Hc. apply Z.eqb_eq in Hc. split; [done|done|].
  by rewrite Hl, Hc.
Qed.

Lemma readBody_typed t m b :
  incoming_message_ t = Some m ->
  sat (fun r => exists m', incoming_message_ (fst r) = Some m' /\ first_line m' = first_line m /\ in_headers m' = in_headers m /\
                  message_headers_complete_ (fst r) = message_headers_complete_ t /\ expected_body_length_ (fst r) = expected_body_length_ t)
    (fun _ => True) (fun _ => True) (readBody t b).
Proof.
  intros Hm. unfold readBody, readChunked, readContent. destruct (_ =? -1); [done|]. unfold incoming. rewrite Hm. cbn [mbind outcome_bind].
  destruct (arr_slice _ _ _); [|done|done]. cbn [mbind outcome_bind]. destruct (sb_advance _ _); [|done|done]. cbn. by eexists.
Qed.

Abbreviation fine_after := (fun r : bool * (Transport * W * StreamBuf) => fine (fst (fst (snd r))) (snd (fst (snd r)))).

Lemma processInput_agrees t w b :
  replaced w = false -> fine t w -> agree fine_after (processInput (H := checked) t w b) (processInput t w b).
Proof.
  intros Hr [Hx|Ht]; [congruence|]. unfold processInput. destruct (sb_isEmpty b); [by split; [|right]|].
  destruct (incoming_message_ t) as [m|] eqn:Hm.
  2: { rewrite bool_decide_eq_false_2 by (intros [? ?]; congruence). cbn [andb].
       eapply agree_bind; [apply agree_same, getLine_typed|]. intros [[line|] b'] Hl; cbn in Hl; [|by split; [|right]].
       split; [done|]. cbn. right. unfold typed_transport. cbn. split; [|done]. split; [done|]. constructor. }
  rewrite bool_decide_eq_true_2 by done. cbn [andb]. pose proof Ht as Ht'. unfold typed_transport in Ht. rewrite Hm in Ht.
  destruct Ht as [Hh Hrest].
  destruct (message_headers_complete_ t) eqn:Hc.
  - destruct Hrest as [Hl Hi]. rewrite Hi. cbn [negb andb]. eapply agree_bind; [apply agree_same, (readBody_typed t m b Hm)|].
    intros [t1 b1] (m' & Hm' & Hf & Hh' & Hc' & He'). cbn [fst] in *. rewrite Hc in Hc'.
    assert (head_typed m') as Hht by (unfold head_typed; by rewrite Hf, Hh'). rewrite <- Hh', <- He' in Hl.
    destruct (isMessageComplete t1) eqn:Ei.
    + eapply agree_bind; [by apply (handleMessage_agrees t1 m'); [|by eapply complete_typed]|]. intros [t2 w2] Hfine. by split.
    + split; [done|]. cbn. right. unfold typed_transport. by rewrite Hm', Hc'.
  - cbn [andb]. eapply agree_bind; [apply agree_same, getLine_typed|]. intros [[line|] b'] Hline; cbn in Hline; [|by split; [|right]].
    destruct line as [|c l].
    + eapply agree_bind; [by apply (markHeadersComplete_agrees t m)|]. intros [t1 w1] (Hm1 & Hc1 & Hl1). cbn [fst] in *.
      destruct (isMessageComplete t1) eqn:Ei.
      * eapply agree_bind; [by apply (handleMessage_agrees t1 m); [|by eapply complete_typed]|]. intros [t2 w2] Hfine. by split.
      * split; [done|]. cbn. right. unfold typed_transport. by rewrite Hm1, Hc1.
    + eapply agree_bind; [|intros t1 Ht1; split; [done|right; exact Ht1]]. apply agree_same.
      destruct (_ || _); [by apply (headerContinuation_typed t m)|by apply (headerLine_typed t m)].
Qed.

Lemma onInput_agrees t w b :
  replaced w = false -> fine t w ->
  agree (fun r => fine (fst (fst r)) (snd (fst r))) (onInput (H := checked) t w b) (onInput t w b).
Proof.
  unfold onInput. generalize (S (Z.to_nat (sb_size b))) as fuel. intros fuel. revert t w b.
  induction fuel as [|fuel IH]; intros t w b Hr Hf; cbn [input_loop]; [by split|].
  eapply agree_bind; [by apply processInput_agrees|]. intros [more [[t1 w1] b1]] Hf1. cbn [fst snd] in Hf1.
  cbn [replaced checked]. destruct (more && _); [|by split]. destruct (replaced w1) eqn:Hr1; [by split|by apply IH].
Qed.

Lemma feed_agrees chunks : forall t w b,
  fine t w -> feed (H := checked) t w b chunks = feed t w b chunks.
Proof.
  induction chunks as [|d chunks IH]; intros t w b Hf; cbn [feed]; [done|]. cbn [replaced checked].
  destruct (replaced w) eqn:Hr; [done|]. destruct (sb_write b d) as [b1|?|?]; cbn [mbind outcome_bind]; [|done|done].
  destruct (onInput_agrees t w b1 Hr Hf) as [-> Hs]. destruct (onInput t w b1) as [[[t1 w1] b2]|?|?]; cbn in *; [|done|done].
  by apply IH.
Qed.

(** C14: whatever octets a client sends, and however they are cut, what an HTTP/1
    transport hands over is well typed: first line and headers without line
    feeds, header names in lower case and without colons, and a body exactly as
    long as the headers announce; the hook at the end of the headers gets
    well-typed headers.  To check it at every call, failing when it does not
    hold, changes nothing. *)
Theorem handlers_get_typed_messages (w : W) chunks :
  feed (H := checked) new_Transport w empty_StreamBuf chunks = feed new_Transport w empty_StreamBuf chunks.
Proof. apply feed_agrees. by right. Qed.

End transport.

(** ** At work *)

(** An owner that keeps what it is given. *)
#[local] Instance keeper : Owner (list IncomingMessage) := {|
  handleIncomingMessage m w := Ret (w ++ [m]);
  onEndOfMessageHeaders h w := Ret w;
  replaced w := false;
  close_connection w := w
|}.

Definition mixed_input : list (list Z) :=
  [str "POST /a HTTP/1.1" ++ CRLF ++ str "CONTENT-length: 3" ++ CRLF ++ CRLF; str "a" ++ CRLF; str "GET / HTTP/1.1" ++ CRLF ++ CRLF].

(** A message whose body is a letter and the end of its line, and one without a body. *)
Lemma handlers_get_typed_messages_witness :
  feed (H := checked) new_Transport [] empty_StreamBuf mixed_input = feed new_Transport [] empty_StreamBuf mixed_input /\
  (exists t b, feed new_Transport [] empty_StreamBuf mixed_input =
     Ret (t, [mk_IncomingMessage (str "POST /a HTTP/1.1") (mk_Message (str "a" ++ CRLF) (mk_Headers [(str "content-length", str "3")]));
              mk_IncomingMessage (str "GET / HTTP/1.1") new_Message], b)).
Proof.
  split; [apply handlers_get_typed_messages|]. do 2 eexists. vm_compute. reflexivity.
Defined.
