(* ===== verification/Http1Server.v ===== *)
(** The HTTP/1 server connection: [http1/ServerTransport.cpp], and upgrades:
    [http1/UpgradeRegistry.cpp], [http1/HTTP2Upgrader.cpp]. *)
From stdpp Require Import gmap.
From S2P Require Import Prelude StreamBuf Sender HpackTable Headers Routes Http1 Http1Transport Http2.

(** [class UpgradeRegistry], of upgraders of any kind. *)
Section registry.
Context {U : Type}.

Definition UpgradeRegistry : Type := gmap (list Z) U.

(** [try_emplace]: a token that is there keeps its upgrader. *)
Definition UpgradeRegistry_add (r : UpgradeRegistry) (token : list Z) (u : U) : bool * UpgradeRegistry :=
  match (r : gmap (list Z) U) !! token with
  | Some _ => (false, r)
  | None => (true, <[token := u]> r)
  end.

Definition UpgradeRegistry_get (r : UpgradeRegistry) (token : list Z) : option U := (r : gmap (list Z) U) !! token.

End registry.

(** [class HTTP2Upgrader]: whether [server_] points to a server. *)
Record HTTP2Upgrader := mk_HTTP2Upgrader { server_ : bool }.
Definition new_HTTP2Upgrader : HTTP2Upgrader := mk_HTTP2Upgrader false.

Definition staticUpgrades : UpgradeRegistry := snd (UpgradeRegistry_add ∅ (str "h2c") new_HTTP2Upgrader).

(** What the transport acts on: the connection, the transport it was replaced
    with, and how many messages were sent. *)
Record World (C : Type) := mk_World { conn : C; upgraded : option Impl; messages_sent : nat }.
Arguments mk_World {C} conn upgraded messages_sent.
Arguments conn {C} w : rename.
Arguments upgraded {C} w : rename.
Arguments messages_sent {C} w : rename.

(** What the server is made of and what it is given: the routes, the upgrades,
    the dates ([Date::now()] while the n-th message is sent), what new payloads
    hold, whether [char] is signed, github.com/tedjp/fb64, and how a connection
    is closed. *)
Record Env (C : Type) := mk_Env {
  routes : Routes;
  registry : UpgradeRegistry (U := HTTP2Upgrader);
  now : nat -> list Z;
  raw : list Z;
  char_signed : bool;
  fb64_decoded_size_nopad : Z -> Z;
  fb64_decode : list Z -> option (list Z);
  connection_close : C -> C
}.
Arguments routes {C} e : rename.
Arguments registry {C} e : rename.
Arguments now {C} e n : rename.
Arguments raw {C} e : rename.
Arguments char_signed {C} e : rename.
Arguments fb64_decoded_size_nopad {C} e n : rename.
Arguments fb64_decode {C} e l : rename.
Arguments connection_close {C} e c : rename.

Section server.
Context {C : Type} `{Sender C} `{Multimap} (env : Env C).

Definition send_message (line : list Z) (m : Message) (w : World C) : outcome (World C) :=
  c ← sendMessage (raw env) (now env (messages_sent w)) line m (conn w);
  Ret (mk_World c (upgraded w) (S (messages_sent w))).

(** [ServerTransport::sendResponse] *)
Definition server_sendResponse (resp : Response) (w : World C) : outcome (World C) :=
  line ← statusLine (status_code_ resp);
  send_message line (message resp) w.

Fixpoint send_responses (resps : list Response) (w : World C) : outcome (World C) :=
  match resps with
  | [] => Ret w
  | r :: resps => w ← server_sendResponse r w; send_responses resps w
  end.

(** [Server::dispatch] *)
Definition server_dispatch (request : Request) (w : World C) : outcome (World C) :=
  send_responses (Routes_dispatch (routes env) request) w.

Definition handleExpect (value : list Z) (w : World C) : outcome (World C) :=
  if negb (bool_decide (value = str "100-continue")) then
    let response := make_Response 417 (str "Expectation Failed." ++ [NL]) in
    line ← statusLine (status_code_ response);
    send_message line (message response) w
  else server_sendResponse (mk_Response new_Message 100) w.

Definition server_onEndOfMessageHeaders (headers : Headers) (w : World C) : outcome (World C) :=
  let expectHeader := Headers_get headers (str "expect") in
  if bool_decide (expectHeader <> no_header) then handleExpect (snd expectHeader) w else Ret w.

Definition confirmUpgrade (token : list Z) (w : World C) : outcome (World C) :=
  let headers := Headers_add new_Headers (str "Connection") (str "Upgrade") in
  let headers := Headers_set headers (str "Upgrade") token in
  line ← statusLine 101;
  c ← sendHeaders (raw env) (now env (messages_sent w)) line headers (conn w);
  Ret (mk_World c (upgraded w) (S (messages_sent w))).

(** [HTTP2Upgrader::upgrade]: [*server_] of a null pointer has no meaning. *)
Definition HTTP2Upgrader_upgrade (u : HTTP2Upgrader) (request : Request) (c : C) : outcome (Impl * C) :=
  if server_ u then
    new_Impl (char_signed env) (fb64_decoded_size_nopad env) (fb64_decode env)
      (Some (snd (Headers_get (headers_ (message_ request)) (str "HTTP2-Settings")))) c
  else Undef NullPointer.

(** From here on the old transport is gone. *)
Definition upgrade (newTransport : Impl) (request : Request) (w : World C) : outcome (World C) :=
  stream ← getStream newTransport 1;
  c ← ServerStream_onRequest (raw env) stream request (conn w);
  Ret (mk_World c (Some newTransport) (messages_sent w)).

(** The world after an upgrade, if there is one. *)
Definition tryUpgrade (request : Request) (w : World C) : outcome (option (World C)) :=
  let upgradeHeader := Headers_get (headers_ (message_ request)) (str "upgrade") in
  if bool_decide (upgradeHeader = no_header) then Ret None
  else
    let token := snd upgradeHeader in
    match UpgradeRegistry_get (registry env) token with
    | None => Ret None
    | Some upgrader =>
        w ← confirmUpgrade token w;
        '(transport, c) ← HTTP2Upgrader_upgrade upgrader request (conn w);
        let headers := Headers_remove (headers_ (message_ request)) (str "Upgrade") in
        let request := mk_Request (mk_Message (body_ (message_ request)) headers) (method_ request) (path_ request) in
        w ← upgrade transport request (mk_World c (upgraded w) (messages_sent w));
        Ret (Some w)
    end.

Definition server_onRequest (request : Request) (w : World C) : outcome (World C) :=
  u ← tryUpgrade request w;
  match u with
  | Some w => Ret w
  | None => server_dispatch request w
  end.

Definition server_handleIncomingMessage (msg : IncomingMessage) (w : World C) : outcome (World C) :=
  request_line ← parseRequestLine (first_line msg);
  server_onRequest (mk_Request (in_message msg) (rl_method request_line) (rl_path request_line)) w.

#[local] Instance server_owner : Owner (World C) := {
  handleIncomingMessage := server_handleIncomingMessage;
  onEndOfMessageHeaders := server_onEndOfMessageHeaders;
  replaced w := bool_decide (is_Some (upgraded w));
  close_connection w := mk_World (connection_close env (conn w)) (upgraded w) (messages_sent w)
}.

(** [ServerTransport]'s [onInput], inherited. *)
Definition server_onInput (t : Transport) (w : World C) (buf : StreamBuf) : outcome (Transport * World C * StreamBuf) :=
  onInput t w buf.

End server.
