(* ===== verification/ServerConnection.v ===== *)
(** A connection to the server from its first octet: [SwitchTransport.cpp], and
    the transport a connection has at any time. *)
From stdpp Require Import gmap.
From S2P Require Import Prelude StreamBuf Sender Headers Routes Http1 Http1Transport Http1Spec Http1Server Http2 Http2Spec.

(** [Connection::transport_] *)
Inductive AnyTransport :=
  | Switching
  | Http1 (t : Transport)
  | Http2 (s : Impl).

Section connection.
Context {C : Type} `{Sender C} `{Multimap} (env : Env C).

(** The connection: its transport, and what the transport acts on. *)
Abbreviation state := (AnyTransport * World C)%type.

(** An input call on an HTTP/1 transport, which may have replaced itself. *)
Definition http1_input (t : Transport) (w : World C) (buf : StreamBuf) : outcome (state * StreamBuf) :=
  '(t, w, buf) ← server_onInput env t w buf;
  match upgraded w with
  | Some s => Ret (Http2 s, mk_World (conn w) None (messages_sent w), buf)
  | None => Ret (Http1 t, w, buf)
  end.

Definition http2_input (s : Impl) (w : World C) (buf : StreamBuf) : outcome (state * StreamBuf) :=
  '(s, c, buf) ← Impl_onInput (char_signed env) (raw env) s (conn w) buf;
  Ret (Http2 s, mk_World c (upgraded w) (messages_sent w), buf).

(** [SwitchTransport::onInput] *)
Definition SwitchTransport_onInput (w : World C) (buf : StreamBuf) : outcome (state * StreamBuf) :=
  '(maybeHTTP2, definitelyHTTP2) ←
    (if sb_size buf <? zlen CLIENT_PREFACE then
       data ← arr_slice (buf_ buf) 0 (sb_size buf);
       Ret (bool_decide (data = take (Z.to_nat (sb_size buf)) CLIENT_PREFACE), false)
     else
       data ← arr_slice (buf_ buf) 0 (zlen CLIENT_PREFACE);
       Ret (true, bool_decide (data = CLIENT_PREFACE)));
  if (sb_size buf <? zlen CLIENT_PREFACE) && maybeHTTP2 then Ret (Switching, w, buf)
  else if (definitelyHTTP2 : bool) then
    '(s, c) ← new_Impl (char_signed env) (fb64_decoded_size_nopad env) (fb64_decode env) None (conn w);
    http2_input s (mk_World c (upgraded w) (messages_sent w)) buf
  else http1_input new_Transport w buf.

(** [connection->getTransport()->onInput(buf)] *)
Definition transport_onInput (st : state) (buf : StreamBuf) : outcome (state * StreamBuf) :=
  let '(t, w) := st in
  match t with
  | Switching => SwitchTransport_onInput w buf
  | Http1 t => http1_input t w buf
  | Http2 s => http2_input s w buf
  end.

(** A client's octets, in the pieces they are read in. *)
Fixpoint converse (st : state) (buf : StreamBuf) (chunks : list (list Z)) : outcome (state * StreamBuf) :=
  match chunks with
  | [] => Ret (st, buf)
  | d :: chunks =>
      buf ← sb_write buf d;
      '(st, buf) ← transport_onInput st buf;
      converse st buf chunks
  end.

(** ** Choosing a protocol *)

(** Neither is the beginning of the other. *)
Definition differs (a b : list Z) : Prop := ~ a `prefix_of` b /\ ~ b `prefix_of` a.

Lemma take_prefix (k l : list Z) : k = take (length k) l <-> k `prefix_of` l.
Proof.
  split; [intros ->; apply prefix_take|]. intros [r ->]. by rewrite take_app_length.
Qed.

(** The decision, from what is in the buffer. *)
Lemma SwitchTransport_cases w b :
  sb_ok b ->
  (content b `prefix_of` CLIENT_PREFACE -> content b <> CLIENT_PREFACE -> SwitchTransport_onInput w b = Ret (Switching, w, b)) /\
  (CLIENT_PREFACE `prefix_of` content b ->
     SwitchTransport_onInput w b =
       '(s, c) ← new_Impl (char_signed env) (fb64_decoded_size_nopad env) (fb64_decode env) None (conn w);
       http2_input s (mk_World c (upgraded w) (messages_sent w)) b) /\
  (differs CLIENT_PREFACE (content b) -> SwitchTransport_onInput w b = http1_input new_Transport w b).
Proof.
  intros Hb. pose proof (zlen_content b Hb) as Hz. pose proof (sb_in_use b Hb) as [Hu Hcap].
  unfold SwitchTransport_onInput, sb_size. change (zlen CLIENT_PREFACE) with 24.
  rewrite (arr_slice_in (buf_ b) 0 (in_use_ b)) by lia. rewrite drop_0. fold (content b).
  assert (Z.to_nat (in_use_ b) = length (content b)) as Hlen by (unfold zlen in Hz; lia). rewrite Hlen.
  destruct (Z.ltb_spec (in_use_ b) 24) as [Hlt|Hge]; cbn [mbind outcome_bind andb].
  - split; [|split].
    + intros Hp%take_prefix _. by rewrite bool_decide_eq_true_2.
    + intros Hp%prefix_length. unfold zlen in Hz. change (length CLIENT_PREFACE) with 24%nat in Hp. lia.
    + intros [_ Hn]. rewrite bool_decide_eq_false_2; [done|]. by intros Hp%take_prefix.
  - rewrite arr_slice_in by lia. rewrite drop_0. cbn [mbind outcome_bind andb].
    assert (take (Z.to_nat 24) (buf_ b) = take (length CLIENT_PREFACE) (content b)) as ->.
    { unfold content. rewrite take_take. f_equal. change (length CLIENT_PREFACE) with 24%nat. lia. }
    split; [|split].
    + intros [r Hr] Hne. exfalso. apply Hne. rewrite Hr. apply (f_equal length) in Hr. rewrite length_app in Hr.
      change (length CLIENT_PREFACE) with 24%nat in Hr. unfold zlen in Hz. destruct r; [by rewrite app_nil_r|]. cbn in Hr. lia.
    + intros Hp. rewrite bool_decide_eq_true_2; [done|]. by symmetry; apply take_prefix.
    + intros [Hn _]. rewrite bool_decide_eq_false_2; [done|]. intros Heq. apply Hn, take_prefix. done.
Qed.

(** Which of the three it is. *)
Lemma preface_cases x :
  (x `prefix_of` CLIENT_PREFACE /\ x <> CLIENT_PREFACE) \/ CLIENT_PREFACE `prefix_of` x \/ differs CLIENT_PREFACE x.
Proof.
  destruct (decide (CLIENT_PREFACE `prefix_of` x)) as [|Hn]; [by right; left|].
  destruct (decide (x `prefix_of` CLIENT_PREFACE)) as [|Hn']; [left|by right; right].
  split; [done|]. intros ->. by apply Hn.
Qed.

(** While the preface may still be coming, the pieces are put together; then
    the connection goes on with all of them. *)
Lemma converse_switching chunks : forall w b,
  sb_ok b -> content b `prefix_of` CLIENT_PREFACE -> content b <> CLIENT_PREFACE -> Forall (Forall octet) chunks ->
  zlen (concat chunks) < 2 ^ 60 ->
  let all := content b ++ concat chunks in
  (all `prefix_of` CLIENT_PREFACE /\ all <> CLIENT_PREFACE /\
   exists b', converse (Switching, w) b chunks = Ret (Switching, w, b') /\ content b' = all) \/
  (exists b' rest,
     converse (Switching, w) b chunks = ('(st, buf) ← SwitchTransport_onInput w b'; converse st buf rest) /\
     sb_ok b' /\ Forall (Forall octet) rest /\ content b' ++ concat rest = all /\
     (CLIENT_PREFACE `prefix_of` content b' \/ differs CLIENT_PREFACE (content b'))).
Proof.
  induction chunks as [|d chunks IH]; intros w b Hb Hp Hne Hoct Hsz; cbn [concat converse] in *.
  - left. rewrite app_nil_r. split; [done|]. split; [done|]. by exists b.
  - inversion Hoct as [|? ? Hd Hoct']; subst. rewrite zlen_app in Hsz. pose proof (zlen_nonneg d).
    pose proof (zlen_nonneg (concat chunks)). pose proof (zlen_content b Hb) as Hz.
    assert (zlen (content b) <= 24) by (apply prefix_length in Hp; change (length CLIENT_PREFACE) with 24%nat in Hp; unfold zlen; lia).
    destruct (sb_write_ok b d Hb Hd) as (b1 & -> & Hb1 & Hcn1 & _); [unfold SSIZE_MAX; lia|].
    cbn [mbind outcome_bind transport_onInput]. rewrite (assoc_L (++)), <- Hcn1.
    destruct (preface_cases (content b1)) as [[Hp1 Hne1]|Hcase].
    + destruct (SwitchTransport_cases w b1 Hb1) as [-> _]; [|done|done]. cbn [mbind outcome_bind].
      apply IH; try done. lia.
    + right. by exists b1, chunks.
Qed.

(** ** HTTP/1 *)

(** As long as it is not replaced, an HTTP/1 transport's conversation is its own. *)
Definition conversation (m : outcome (Transport * World C * StreamBuf)) (k : outcome (state * StreamBuf)) : Prop :=
  match m with
  | Ret (t, w, b) => upgraded w = None -> k = Ret (Http1 t, w, b)
  | Throw e => k = Throw e
  | Undef u => k = Undef u
  end.

Lemma replaced_none w : @replaced (World C) (server_owner env) w = false -> upgraded w = None.
Proof. cbn. destruct (upgraded w); [by rewrite bool_decide_eq_true_2|done]. Qed.

Lemma none_replaced w : upgraded w = None -> @replaced (World C) (server_owner env) w = false.
Proof. intros Hw. cbn. by rewrite Hw. Qed.

Lemma feed_upgraded t w b chunks s :
  upgraded w = Some s -> @Http1Spec.feed _ (server_owner env) _ t w b chunks = Ret (t, w, b).
Proof. intros Hu. destruct chunks; cbn [Http1Spec.feed]; [done|]. cbn. by rewrite Hu, bool_decide_eq_true_2. Qed.

Lemma converse_http1 chunks : forall t w b,
  upgraded w = None -> conversation (@Http1Spec.feed _ (server_owner env) _ t w b chunks) (converse (Http1 t, w) b chunks).
Proof.
  induction chunks as [|d chunks IH]; intros t w b Hw; cbn [Http1Spec.feed converse]; [done|].
  rewrite none_replaced by done. destruct (sb_write b d) as [b1|?|?]; cbn [mbind outcome_bind]; try done.
  unfold transport_onInput, http1_input, server_onInput.
  destruct (@onInput _ (server_owner env) _ t w b1) as [[[t1 w1] b2]|?|?]; cbn [mbind outcome_bind]; try done.
  destruct (upgraded w1) as [s|] eqn:E.
  - rewrite (feed_upgraded _ _ _ _ s E). cbn. by rewrite E.
  - cbn [mbind outcome_bind]. by apply IH.
Qed.

Lemma http1_input_then t w b chunks :
  conversation ('(t, w, b) ← @onInput _ (server_owner env) _ t w b; @Http1Spec.feed _ (server_owner env) _ t w b chunks)
    ('(st, b) ← http1_input t w b; converse st b chunks).
Proof.
  unfold http1_input, server_onInput.
  destruct (@onInput _ (server_owner env) _ t w b) as [[[t1 w1] b1]|?|?]; cbn [mbind outcome_bind]; try done.
  destruct (upgraded w1) as [s|] eqn:E.
  - rewrite (feed_upgraded _ _ _ _ s E). cbn. by rewrite E.
  - cbn [mbind outcome_bind]. by apply converse_http1.
Qed.

(** A stream that does not begin like the preface is HTTP/1 from its first octet. *)
Lemma converse_http1_stream ms chunks w w' :
  Forall message_ok ms -> Forall no_body ms -> upgraded w = None -> Forall (Forall octet) chunks ->
  zlen (concat chunks) < 2 ^ 60 -> concat chunks = concat (map render ms) ->
  differs CLIENT_PREFACE (concat chunks) -> @serve _ (server_owner env) _ ms w = Ret (true, w') ->
  exists buf, converse (Switching, w) empty_StreamBuf chunks = Ret (Http1 new_Transport, w', buf) /\ content buf = [].
Proof.
  intros Hok Hn Hw Hoct Hsz Heq [Hd1 Hd2] Hserve.
  assert (sb_ok empty_StreamBuf) as He by (split; [vm_compute; split; congruence|constructor]).
  destruct (converse_switching chunks w empty_StreamBuf) as [(Hp & _)|(b & rest & -> & Hb & Hrest & Hall & Hcase)];
    [done|by apply prefix_nil|done|done|done|by apply Hd2 in Hp|].
  change (content empty_StreamBuf ++ concat chunks) with (concat chunks) in Hall.
  destruct Hcase as [Hp|Hdiff]; [exfalso; apply Hd1; rewrite <- Hall; by apply prefix_app_r|].
  destruct (SwitchTransport_cases w b Hb) as (_ & _ & ->); [|done].
  pose proof (none_replaced w Hw) as Hr.
  pose proof (@onInput_feed _ (server_owner env) _ rest new_Transport w b Hb eq_refl Hr Hrest) as Hrecv.
  rewrite Hall in Hrecv. specialize (Hrecv Hsz). rewrite Heq in Hrecv. apply receives_messages in Hrecv; try done.
  unfold delivers in Hrecv. rewrite Hserve in Hrecv. destruct Hrecv as (b' & Hfeed & Hcn & Hr').
  pose proof (http1_input_then new_Transport w b rest) as Hconv. rewrite Hfeed in Hconv.
  exists b'. split; [|done]. by apply Hconv, replaced_none.
Qed.

(** ** HTTP/2 *)

Lemma converse_http2 chunks : forall s w b,
  converse (Http2 s, w) b chunks
  = ('(s, c, b) ← Http2Spec.feed (char_signed env) (raw env) s (conn w) b chunks;
     Ret (Http2 s, mk_World c (upgraded w) (messages_sent w), b)).
Proof.
  induction chunks as [|d chunks IH]; intros s [c u n] b; cbn [Http2Spec.feed converse]; [done|].
  destruct (sb_write b d) as [b1|?|?]; cbn [mbind outcome_bind]; try done. unfold transport_onInput, http2_input. cbn [conn upgraded messages_sent].
  destruct (Impl_onInput (char_signed env) (raw env) s c b1) as [[[s1 c1] b2]|?|?]; cbn [mbind outcome_bind]; try done.
Qed.

End connection.
