(* ===== verification/ServerCorrect.v ===== *)
(** What a client sees of the server: the replies to its HTTP/1 requests and to
    its HTTP/2 frames, from the first octet of the connection. *)
From stdpp Require Import gmap.
From S2P Require Import Prelude StreamBuf Sender HpackHeader HpackTable HpackDecode Headers Routes HuffCode Frame Settings.
From S2P Require Import Http1 Http1Transport Http1Spec Http1Server Http2 Http2Spec Http2Correct ServerConnection.

(** ** Octets *)

Lemma tolower_octet c : octet c -> octet (tolower c).
Proof. unfold tolower, octet. destruct (_ && _) eqn:E; [|done]. apply andb_true_iff in E as [?%Z.leb_le ?%Z.leb_le]. lia. Qed.

Lemma str_octets s : octets (str s).
Proof.
  unfold str. rewrite Forall_map. apply Forall_true. intros a. unfold octet. pose proof (Ascii.N_ascii_bounded a). lia.
Qed.

Lemma digits_octets (ds : list Z) : Forall (fun c => isdigit c = true) ds -> octets ds.
Proof.
  intros Hds. eapply Forall_impl; [exact Hds|]. intros c. unfold isdigit, octet. rewrite andb_true_iff, !Z.leb_le. lia.
Qed.

Lemma to_string_octets n : 0 <= n < 10 ^ 20 -> octets (to_string n).
Proof. intros Hn. by apply digits_octets, to_string_spec. Qed.

(** ** Replies *)

Section replies.
Context `{HM : Multimap} `{!MultimapOk}.

Definition headers_octets (h : Headers) : Prop := Forall (fun e => octets (fst e) /\ octets (snd e)) (kv_ h).

(** What goes out for a response: status line, headers with Date, Server and
    Content-Length added unless they are there, and the body. *)
Definition reply_headers (date : list Z) (m : Message) : Headers :=
  setContentLength (setGeneralServerHeaders date (headers_ m)) (zlen (body_ m)).

Definition reply (date : list Z) (r : Response) : list Z :=
  str "HTTP/1.1 " ++ to_string (status_code_ r) ++ [SP; 0xf0; 0x9f; 0x98; 0x8e] ++ CRLF
  ++ renderHeaders (reply_headers date (message r)) ++ body_ (message r).

Fixpoint replies (dates : nat -> list Z) (n : nat) (rs : list Response) : list Z :=
  match rs with
  | [] => []
  | r :: rs => reply (dates n) r ++ replies dates (S n) rs
  end.

Record response_ok (r : Response) : Prop := mk_response_ok {
  ro_status : 100 <= status_code_ r <= 599;
  ro_headers : headers_octets (headers_ (message r));
  ro_body : octets (body_ (message r)) /\ zlen (body_ (message r)) < 2 ^ 60
}.

Lemma replies_app dates rs1 rs2 : forall n,
  replies dates n (rs1 ++ rs2) = replies dates n rs1 ++ replies dates (n + length rs1) rs2.
Proof.
  induction rs1 as [|r rs1 IH]; intros n; cbn [replies app length]; [by rewrite Nat.add_0_r|].
  by rewrite IH, <- (assoc_L (++)), Nat.add_succ_r.
Qed.

Lemma headers_octets_add h n v : headers_octets h -> octets n -> octets v -> headers_octets (Headers_add h n v).
Proof. intros Hh Hn Hv. unfold headers_octets, Headers_add. cbn [kv_]. rewrite place_perm. by constructor. Qed.

Lemma headers_octets_unless h n v : headers_octets h -> octets n -> octets v -> headers_octets (add_unless_present h n v).
Proof. intros. unfold add_unless_present. destruct (find _ _); [done|]. by apply headers_octets_add. Qed.

Lemma renderHeaders_octets h : headers_octets h -> octets (renderHeaders h).
Proof.
  intros Hh. unfold renderHeaders. apply Forall_app_2; [|by repeat constructor].
  apply Forall_concat, Forall_map. eapply Forall_impl; [exact Hh|]. intros [n v] [Hn Hv]. unfold render_header.
  repeat apply Forall_app_2; try done; apply str_octets || by repeat constructor.
Qed.

Lemma reply_headers_octets date m :
  octets date -> headers_octets (headers_ m) -> zlen (body_ m) < 2 ^ 60 -> headers_octets (reply_headers date m).
Proof.
  intros Hd Hh Hb. pose proof (zlen_nonneg (body_ m)).
  unfold reply_headers, setContentLength, setGeneralServerHeaders, setServerHeader, setDateHeader.
  repeat apply headers_octets_unless; try done; try apply str_octets. apply to_string_octets. lia.
Qed.

Section sends.
Context {C : Type} `{HS : SenderOk C}.

Lemma sendMessage_ok raw date line m c :
  raw_ok raw -> sender_ok c -> octets line -> line <> [] -> octets date -> headers_octets (headers_ m) ->
  octets (body_ m) -> zlen (body_ m) < 2 ^ 60 ->
  let out := line ++ CRLF ++ renderHeaders (reply_headers date m) ++ body_ m in
  zlen (sent c) + zlen out < 2 ^ 60 ->
  exists c', sendMessage raw date line m c = Ret c' /\ sender_ok c' /\ sent c' = sent c ++ out.
Proof.
  intros Hraw Hc Hl Hne Hd Hh Hb Hsz out Hout. unfold sendMessage.
  destruct (send_payload_ok raw c [line; CRLF; renderHeaders (reply_headers date m); body_ m] Hraw Hc)
    as (c' & Heq & Hc' & Hs).
  - repeat constructor; try done. by apply renderHeaders_octets, reply_headers_octets.
  - cbn. by destruct line.
  - cbn [concat]. by rewrite app_nil_r.
  - exists c'. split; [done|]. split; [done|]. rewrite Hs. cbn [concat]. by rewrite app_nil_r.
Qed.

Context (env : Env C) (Hraw : raw_ok (raw env)) (Hdates : forall n, octets (now env n)).

Lemma server_sendResponse_ok r (w : World C) :
  response_ok r -> sender_ok (conn w) -> zlen (sent (conn w)) + zlen (reply (now env (messages_sent w)) r) < 2 ^ 60 ->
  exists c', server_sendResponse env r w = Ret (mk_World c' (upgraded w) (S (messages_sent w))) /\ sender_ok c' /\
    sent c' = sent (conn w) ++ reply (now env (messages_sent w)) r.
Proof.
  intros [Hst Hh [Hb Hbl]] Hc Hsz. unfold server_sendResponse.
  destruct (statusLine_ok (status_code_ r) Hst) as (-> & _). cbn [mbind outcome_bind]. unfold send_message.
  assert (reply (now env (messages_sent w)) r =
    (str "HTTP/1.1 " ++ to_string (status_code_ r) ++ [SP; 0xf0; 0x9f; 0x98; 0x8e]) ++ CRLF
    ++ renderHeaders (reply_headers (now env (messages_sent w)) (message r)) ++ body_ (message r)) as Heq
    by (unfold reply; by rewrite <- !(assoc_L (++))).
  rewrite Heq in Hsz |- *.
  destruct (sendMessage_ok (raw env) (now env (messages_sent w))
    (str "HTTP/1.1 " ++ to_string (status_code_ r) ++ [SP; 0xf0; 0x9f; 0x98; 0x8e]) (message r) (conn w))
    as (c' & -> & Hc' & Hs); try done.
  - apply Forall_app_2; [apply str_octets|]. apply Forall_app_2; [apply to_string_octets; lia|].
    repeat constructor; unfold octet, SP; lia.
  - cbn [mbind outcome_bind]. by exists c'.
Qed.

Lemma send_responses_ok rs : forall (w : World C),
  Forall response_ok rs -> sender_ok (conn w) ->
  zlen (sent (conn w)) + zlen (replies (now env) (messages_sent w) rs) < 2 ^ 60 ->
  exists c', send_responses env rs w = Ret (mk_World c' (upgraded w) (messages_sent w + length rs)) /\ sender_ok c' /\
    sent c' = sent (conn w) ++ replies (now env) (messages_sent w) rs.
Proof.
  induction rs as [|r rs IH]; intros w Hrs Hc Hsz; cbn [send_responses replies length] in *.
  - exists (conn w). rewrite app_nil_r, Nat.add_0_r. by destruct w.
  - inversion Hrs as [|? ? Hr Hrs']; subst. rewrite zlen_app in Hsz. pose proof (zlen_nonneg (replies (now env) (S (messages_sent w)) rs)).
    destruct (server_sendResponse_ok r w Hr Hc) as (c1 & -> & Hc1 & Hs1); [lia|]. cbn [mbind outcome_bind].
    destruct (IH (mk_World c1 (upgraded w) (S (messages_sent w))) Hrs' Hc1) as (c' & -> & Hc' & Hs').
    { cbn. rewrite Hs1, zlen_app. lia. }
    exists c'. cbn [upgraded messages_sent conn] in *. rewrite Hs', Hs1, <- (assoc_L (++)).
    by rewrite Nat.add_succ_r.
Qed.

End sends.

(** ** Requests *)

(** A request as a client writes it. *)
Record request := mk_request { rq_method : list Z; rq_path : list Z; rq_headers : list header }.

(** The headers that HTTP/1 handling looks at. *)
Definition special : list (list Z) :=
  [str "content-length"; str "transfer-encoding"; str "connection"; str "upgrade"; str "expect"].

Definition wire_message (r : request) : Msg :=
  mk_message (requestLine (mk_Request new_Message (rq_method r) (rq_path r))) (rq_headers r).

Record request_ok (r : request) : Prop := mk_request_ok {
  rk_method : absent SP (rq_method r);
  rk_path : absent SP (rq_path r);
  rk_message : message_ok (wire_message r);
  rk_special : Forall (fun n => named (received_headers (wire_message r)) n = []) special
}.

(** The request the server makes of it. *)
Definition as_received (r : request) : Request :=
  mk_Request (mk_Message [] (received_headers (wire_message r))) (rq_method r) (rq_path r).

Lemma parse_own r :
  absent SP (rq_method r) -> absent SP (rq_path r) ->
  parseRequestLine (m_first (wire_message r)) = Ret (mk_RequestLine (rq_method r) (rq_path r) (str "HTTP/1.1")).
Proof. intros Hm Hp. by rewrite <- (parseRequestLine_ok (rq_method r) (rq_path r) (str "HTTP/1.1")). Qed.

Lemma special_absent r n :
  request_ok r -> n ∈ special -> Headers_get (received_headers (wire_message r)) n = no_header.
Proof.
  intros [_ _ _ Hs] Hn. rewrite Forall_forall in Hs. unfold Headers_get. by rewrite find_absent by by apply Hs.
Qed.

Lemma request_no_body r : request_ok r -> no_body (wire_message r).
Proof.
  intros Hr. pose proof (rk_special r Hr) as Hs. rewrite Forall_forall in Hs.
  unfold no_body, getContentLength. rewrite !find_absent by (apply Hs; unfold special; set_solver). done.
Qed.

Section answers.
Context {C : Type} `{HS : SenderOk C}.
Context (env : Env C) (Hraw : raw_ok (raw env)) (Hdates : forall n, octets (now env n)).

(** All the responses to some requests. *)
Definition answers (rs : list request) : list Response :=
  concat (map (fun r => Routes_dispatch (routes env) (as_received r)) rs).

Lemma serve_one_ok r (w : World C) :
  request_ok r -> Forall response_ok (answers [r]) -> upgraded w = None -> sender_ok (conn w) ->
  zlen (sent (conn w)) + zlen (replies (now env) (messages_sent w) (answers [r])) < 2 ^ 60 ->
  exists c', @serve_one _ (server_owner env) _ (wire_message r) w
      = Ret (mk_World c' None (messages_sent w + length (answers [r]))) /\ sender_ok c' /\
    sent c' = sent (conn w) ++ replies (now env) (messages_sent w) (answers [r]).
Proof.
  intros Hr Hok Hu Hc Hsz. unfold serve_one. cbn [onEndOfMessageHeaders handleIncomingMessage server_owner].
  unfold server_onEndOfMessageHeaders. rewrite (special_absent r) by (done || unfold special; set_solver).
  rewrite bool_decide_eq_false_2 by (intros Hx; by apply Hx). cbn [mbind outcome_bind].
  unfold server_handleIncomingMessage. cbn [first_line in_message].
  rewrite parse_own by apply Hr.
  cbn [mbind outcome_bind rl_method rl_path]. unfold server_onRequest, tryUpgrade. cbn [headers_ message_].
  pose proof (special_absent r) as Habs. rewrite (Habs (str "upgrade")) by (done || unfold special; set_solver).
  rewrite bool_decide_eq_true_2 by done. cbn [mbind outcome_bind]. unfold server_dispatch. fold (as_received r).
  unfold answers in *. cbn [map concat] in *. rewrite app_nil_r in *.
  destruct (send_responses_ok env Hraw Hdates _ w Hok Hc Hsz) as (c' & -> & Hc' & Hs). cbn [mbind outcome_bind].
  exists c'. unfold closing. cbn [replaced upgraded]. rewrite Hu.
  rewrite (Habs (str "connection")) by (done || unfold special; set_solver).
  rewrite (bool_decide_eq_false_2 (snd no_header = str "close")) by done. by rewrite andb_false_r.
Qed.

Lemma serve_ok rs : forall (w : World C),
  Forall request_ok rs -> Forall response_ok (answers rs) -> upgraded w = None -> sender_ok (conn w) ->
  zlen (sent (conn w)) + zlen (replies (now env) (messages_sent w) (answers rs)) < 2 ^ 60 ->
  exists c', @serve _ (server_owner env) _ (map wire_message rs) w
      = Ret (true, mk_World c' None (messages_sent w + length (answers rs))) /\ sender_ok c' /\
    sent c' = sent (conn w) ++ replies (now env) (messages_sent w) (answers rs).
Proof.
  induction rs as [|r rs IH]; intros w Hrs Hok Hu Hc Hsz; cbn [map serve].
  - exists (conn w). cbn. rewrite app_nil_r, Nat.add_0_r. by destruct w; cbn in *; subst.
  - inversion Hrs as [|? ? Hr Hrs']; subst.
    assert (answers (r :: rs) = answers [r] ++ answers rs) as Ha by (unfold answers; cbn; by rewrite app_nil_r).
    rewrite Ha in Hok, Hsz |- *. apply Forall_app in Hok as [Hok1 Hok2].
    rewrite replies_app, zlen_app in *. pose proof (zlen_nonneg (replies (now env) (messages_sent w + length (answers [r])) (answers rs))).
    destruct (serve_one_ok r w Hr Hok1 Hu Hc) as (c1 & -> & Hc1 & Hs1); [lia|]. cbn [mbind outcome_bind].
    rewrite none_replaced by done.
    destruct (IH (mk_World c1 None (messages_sent w + length (answers [r]))) Hrs' Hok2 eq_refl Hc1) as (c' & -> & Hc' & Hs').
    { cbn [conn messages_sent]. rewrite Hs1, zlen_app. lia. }
    exists c'. cbn [conn messages_sent] in *. rewrite length_app, Nat.add_assoc. split; [done|]. split; [done|].
    by rewrite Hs', Hs1, <- (assoc_L (++)).
Qed.

(** An HTTP/1 client of the server.  On a new connection, any sequence of
    requests without bodies (and without Upgrade, Expect or Connection), cut into
    reads anywhere, is answered with exactly the responses that the routes give,
    in order: each with its status line, its headers with Date, Server and
    Content-Length, and its body.  A request that no route takes is not answered
    at all. *)
Theorem server_answers_http1 c rs chunks :
  sender_ok c -> Forall request_ok rs -> Forall response_ok (answers rs) ->
  Forall (Forall octet) chunks -> zlen (concat chunks) < 2 ^ 60 ->
  concat chunks = concat (map (fun r => render (wire_message r)) rs) -> differs CLIENT_PREFACE (concat chunks) ->
  zlen (sent c) + zlen (replies (now env) 0 (answers rs)) < 2 ^ 60 ->
  exists c' n buf,
    converse env (Switching, mk_World c None 0) empty_StreamBuf chunks
    = Ret (ServerConnection.Http1 new_Transport, mk_World c' None n, buf) /\
    content buf = [] /\ sent c' = sent c ++ replies (now env) 0 (answers rs).
Proof.
  intros Hc Hrs Hok Hoct Hsz Heq Hdiff Hout.
  destruct (serve_ok rs (mk_World c None 0) Hrs Hok eq_refl Hc Hout) as (c' & Hserve & _ & Hs).
  destruct (converse_http1_stream env (map wire_message rs) chunks (mk_World c None 0) (mk_World c' None (length (answers rs))))
    as (buf & Hconv & Hcn); try done.
  - rewrite Forall_map. eapply Forall_impl; [exact Hrs|]. by intros r [].
  - rewrite Forall_map. eapply Forall_impl; [exact Hrs|]. apply request_no_body.
  - by rewrite map_map.
  - eexists c', _, buf. split; [exact Hconv|]. by split.
Qed.

End answers.
End replies.

(** ** HTTP/2 *)

Section http2.
Context `{HM : Multimap} {C : Type} `{HS : SenderOk C} (env : Env C) (Hraw : raw_ok (raw env)).

(** Input to the HTTP/2 transport, and the pieces that follow. *)
Lemma http2_input_then s (w : World C) b chunks :
  ('(st, buf) ← http2_input env s w b; converse env st buf chunks)
  = ('(s, c, b) ← ('(s, c, b) ← Impl_onInput (char_signed env) (raw env) s (conn w) b;
                   Http2Spec.feed (char_signed env) (raw env) s c b chunks);
     Ret (ServerConnection.Http2 s, mk_World c (upgraded w) (messages_sent w), b)).
Proof.
  unfold http2_input. destruct (Impl_onInput (char_signed env) (raw env) s (conn w) b) as [[[s1 c1] b1]|?|?]; cbn [mbind outcome_bind]; try done.
  by rewrite converse_http2.
Qed.

(** an HTTP/2 client of the server.  The client's preface and the frames
    behind it may arrive cut anywhere, the preface included: the connection
    sends its SETTINGS frame and then ends in the state, and has sent the replies,
    that the frames ask for one after the other ([apply_frame]), or it throws at
    the first frame that does; what is left unread is the incomplete frame at the
    end. *)
Theorem server_serves_http2 c n fs p chunks :
  sender_ok c -> Forall (frame_ok (char_signed env)) fs -> partial_frame (char_signed env) p ->
  Forall (Forall octet) chunks -> concat chunks = CLIENT_PREFACE ++ concat (map frame_wire fs) ++ p ->
  zlen (concat chunks) < 2 ^ 60 -> zlen (sent c) + 64 * (zlen fs + 2) < 2 ^ 60 ->
  let talk := converse env (Switching, mk_World c None n) empty_StreamBuf chunks in
  exists s c1,
    new_Impl (char_signed env) (fb64_decoded_size_nopad env) (fb64_decode env) None c = Ret (s, c1) /\
    sent c1 = sent c ++ header_wire (mk_FrameHeader 0 SETTINGS 0 0 0) /\
    match apply_frames (char_signed env) (with_preface s) fs with
    | Ret (s', out) =>
        exists s2 c2 buf, talk = Ret (ServerConnection.Http2 s2, mk_World c2 None n, buf) /\
          with_current s2 None = s' /\ sent c2 = sent c1 ++ out /\ unread s2 buf = p
    | Throw e => talk = Throw e
    | Undef u => talk = Undef u
    end.
Proof.
  intros Hc Hfs Hp Hoct Heq Hsz Hout talk. subst talk. pose proof (zlen_nonneg fs).
  destruct (new_Impl_ok (char_signed env) (fb64_decoded_size_nopad env) (fb64_decode env) c Hc)
    as (s & c1 & Hnew & Hs & Hc1 & Hsent & Hpre & Hcur); [lia|].
  exists s, c1. split; [done|]. split; [done|].
  assert (sb_ok empty_StreamBuf) as He by (split; [vm_compute; split; congruence|constructor]).
  destruct (converse_switching env chunks (mk_World c None n) empty_StreamBuf)
    as [(Hpp & Hne & _)|(b & rest & -> & Hb & Hrest & Hall & Hcase)]; [done|by apply prefix_nil|done|done|done| |];
    change (content empty_StreamBuf ++ concat chunks) with (concat chunks) in *.
  { exfalso. apply Hne. apply (anti_symm prefix); [done|]. rewrite Heq. by apply prefix_app_r. }
  assert (CLIENT_PREFACE `prefix_of` content b) as [d Hd].
  { destruct Hcase as [|[Hn1 Hn2]]; [done|]. exfalso.
    destruct (prefix_weak_total CLIENT_PREFACE (content b) (concat chunks)) as [Hx|Hx]; [|by eexists| |by apply Hn2].
    - rewrite Heq. by apply prefix_app_r.
    - by apply Hn1. }
  destruct (SwitchTransport_cases env (mk_World c None n) b Hb) as (_ & -> & _); [|by eexists].
  cbn [conn upgraded messages_sent]. rewrite Hnew. cbn [mbind outcome_bind].
  rewrite http2_input_then. cbn [conn upgraded messages_sent].
  assert (d ++ concat rest = concat (map frame_wire fs) ++ p) as Hdr.
  { rewrite Hd, <- (assoc_L (++)), Heq in Hall. by apply (inj (CLIENT_PREFACE ++.)) in Hall. }
  assert (serves (char_signed env) (with_preface s) c1 fs p
            ('(s, c, b) ← Impl_onInput (char_signed env) (raw env) s c1 b; Http2Spec.feed (char_signed env) (raw env) s c b rest)) as Hserves.
  { apply (preface_feed_ok (char_signed env) (raw env) Hraw fs p s c1 b d rest); try done.
    - rewrite Hdr. rewrite Heq, zlen_app in Hsz. change (zlen CLIENT_PREFACE) with 24 in Hsz. lia.
    - rewrite Hsent, zlen_app. change (zlen (header_wire _)) with 9. lia. }
  unfold serves in Hserves. rewrite with_current_none in Hserves by (cbn; done).
  destruct (apply_frames (char_signed env) (with_preface s) fs) as [[s' out]|e|u]; [|by rewrite Hserves|by rewrite Hserves].
  destruct Hserves as (s2 & c2 & buf & -> & ? & _ & _ & ? & _ & ?). by exists s2, c2, buf.
Qed.

End http2.

(** ** Upgrade and Expect *)

Section special_requests.
Context `{HM : Multimap} {C : Type} `{Sender C} (env : Env C).

(** C34: upgrades.  Without an Upgrade header, or with one that names anything but
    exactly "h2c", the request is dispatched as any other.  With "h2c" the
    server answers 101 (or throws) and then dereferences the null [server_] of its
    one upgrader: no HTTP/2 connection comes of it. *)
Theorem upgrade_dereferences_null req (w : World C) :
  registry env = staticUpgrades ->
  let header := Headers_get (headers_ (message_ req)) (str "upgrade") in
  server_onRequest env req w =
    if bool_decide (header <> no_header) && bool_decide (snd header = str "h2c")
    then _ ← confirmUpgrade env (str "h2c") w; Undef NullPointer
    else server_dispatch env req w.
Proof.
  intros Hreg header. unfold server_onRequest, tryUpgrade. fold header. rewrite Hreg.
  destruct (decide (header = no_header)) as [Hno|Hno].
  { rewrite bool_decide_eq_true_2, bool_decide_eq_false_2 by tauto. done. }
  rewrite bool_decide_eq_false_2, bool_decide_eq_true_2 by done. cbn [andb].
  unfold UpgradeRegistry_get, staticUpgrades, UpgradeRegistry_add. rewrite lookup_empty. cbn [snd].
  destruct (decide (snd header = str "h2c")) as [Heq|Hne].
  - rewrite bool_decide_eq_true_2 by done. rewrite Heq, lookup_insert_eq. cbn [mbind outcome_bind].
    destruct (confirmUpgrade env (str "h2c") w); done.
  - rewrite bool_decide_eq_false_2, lookup_insert_ne, lookup_empty by done. done.
Qed.

(** Expect.  At the end of the headers a request that expects "100-continue"
    is sent status 100; one that expects anything else is sent status 417, and
    when it has no body it is then dispatched all the same, so that it gets a
    second response. *)
Theorem expectation_failed_is_served_too m (w : World C) e :
  Headers_get (received_headers m) (str "expect") = e -> e <> no_header ->
  let interim := if bool_decide (snd e = str "100-continue") then mk_Response new_Message 100
                 else make_Response 417 (str "Expectation Failed." ++ [NL]) in
  @serve_one _ (server_owner env) _ m w =
    w ← server_sendResponse env interim w;
    w ← server_handleIncomingMessage env (mk_IncomingMessage (m_first m) (mk_Message [] (received_headers m))) w;
    Ret (@closing _ (server_owner env) _ (received_headers m) w).
Proof.
  intros <- Hne interim. unfold serve_one. cbn [onEndOfMessageHeaders handleIncomingMessage server_owner].
  unfold server_onEndOfMessageHeaders, handleExpect. rewrite bool_decide_eq_true_2 by done.
  subst interim. destruct (bool_decide (snd _ = str "100-continue")); cbn [negb]; [done|].
  unfold server_sendResponse. cbn [status_code_ make_Response message].
  destruct (statusLine 417) as [l|?|?]; cbn [mbind outcome_bind]; done.
Qed.

End special_requests.

(** ** At work: the server of [HelloWorld.cpp] *)

Definition example_date : list Z := str "Sun, 06 Nov 1994 08:49:37 GMT".

Definition hello_env : Env Endpoint :=
  mk_Env Endpoint hello_world staticUpgrades (fun _ => example_date) raw0 true (fun n => n) no_base64 id.

#[export] Instance differs_dec a b : Decision (differs a b).
Proof. unfold differs. apply _. Defined.

Definition get_hello : request := mk_request (str "GET") (str "/hello") [(str "Host", str "example.org")].

Lemma get_hello_ok : request_ok get_hello.
Proof.
  split; try (apply (bool_decide_unpack _); vm_compute; exact I). split; apply (bool_decide_unpack _); vm_compute; exact I.
Qed.

(** Two requests in three reads. *)
Lemma server_answers_http1_witness :
  let stream := render (wire_message get_hello) in
  let chunks := [str "G"; drop 1 stream ++ take 20 stream; drop 20 stream] in
  exists c' n buf,
    converse hello_env (Switching, mk_World fresh_endpoint None 0) empty_StreamBuf chunks
    = Ret (ServerConnection.Http1 new_Transport, mk_World c' None n, buf) /\
    content buf = [] /\
    sent c' = sent fresh_endpoint ++ replies (now hello_env) 0 (answers hello_env [get_hello; get_hello]).
Proof.
  apply (server_answers_http1 hello_env raw0_ok) with (rs := [get_hello; get_hello]).
  - intros n. apply (bool_decide_unpack _). vm_compute. exact I.
  - split; [vm_compute; split; congruence|constructor].
  - pose proof get_hello_ok. do 2 (constructor; [done|]). constructor.
  - assert (Forall response_ok (answers hello_env [get_hello])) as Hr.
    { constructor; [|constructor]. split; [vm_compute; split; congruence| |]; try (apply (bool_decide_unpack _); vm_compute; exact I). }
    unfold answers in *. cbn [map concat] in *. rewrite app_nil_r in Hr. apply Forall_app_2; [done|]. by rewrite app_nil_r.
  - apply (bool_decide_unpack _). vm_compute. exact I.
  - vm_compute. reflexivity.
  - vm_compute. reflexivity.
  - apply (bool_decide_unpack _). vm_compute. exact I.
  - vm_compute. reflexivity.
Defined.

(** Three frames, and the preface cut in two. *)
Lemma server_serves_http2_witness :
  let chunks := [take 10 CLIENT_PREFACE; drop 10 CLIENT_PREFACE ++ take 3 example_wire; drop 3 example_wire] in
  let talk := converse hello_env (Switching, mk_World fresh_endpoint None 0) empty_StreamBuf chunks in
  exists s c1,
    new_Impl (char_signed hello_env) (fb64_decoded_size_nopad hello_env) (fb64_decode hello_env) None fresh_endpoint = Ret (s, c1) /\
    sent c1 = sent fresh_endpoint ++ header_wire (mk_FrameHeader 0 SETTINGS 0 0 0) /\
    match apply_frames (char_signed hello_env) (with_preface s) example_frames with
    | Ret (s', out) =>
        exists s2 c2 buf, talk = Ret (ServerConnection.Http2 s2, mk_World c2 None 0, buf) /\
          with_current s2 None = s' /\ sent c2 = sent c1 ++ out /\ unread s2 buf = []
    | Throw e => talk = Throw e
    | Undef u => talk = Undef u
    end.
Proof.
  apply (server_serves_http2 hello_env raw0_ok) with (fs := example_frames) (p := []).
  - split; [vm_compute; split; congruence|constructor].
  - apply example_frames_ok.
  - apply partial_nil.
  - apply (bool_decide_unpack _). vm_compute. exact I.
  - vm_compute. reflexivity.
  - vm_compute. reflexivity.
  - vm_compute. reflexivity.
Defined.

Lemma upgrade_dereferences_null_witness :
  let req := mk_Request (mk_Message [] (mk_Headers [(str "Upgrade", str "h2c")])) (str "GET") (str "/") in
  let w := mk_World fresh_endpoint None 0 in
  let header := Headers_get (headers_ (message_ req)) (str "upgrade") in
  server_onRequest hello_env req w =
    if bool_decide (header <> no_header) && bool_decide (snd header = str "h2c")
    then _ ← confirmUpgrade hello_env (str "h2c") w; Undef NullPointer
    else server_dispatch hello_env req w.
Proof.
  apply (upgrade_dereferences_null hello_env
           (mk_Request (mk_Message [] (mk_Headers [(str "Upgrade", str "h2c")])) (str "GET") (str "/"))).
  reflexivity.
Defined.

Lemma expectation_failed_is_served_too_witness :
  let m := mk_message (str "GET / HTTP/1.1") [(str "Expect", str "tea")] in
  let w := mk_World fresh_endpoint None 0 in
  let interim := if bool_decide (str "tea" = str "100-continue") then mk_Response new_Message 100
                 else make_Response 417 (str "Expectation Failed." ++ [NL]) in
  @serve_one _ (server_owner hello_env) _ m w =
    w ← server_sendResponse hello_env interim w;
    w ← server_handleIncomingMessage hello_env (mk_IncomingMessage (m_first m) (mk_Message [] (received_headers m))) w;
    Ret (@closing _ (server_owner hello_env) _ (received_headers m) w).
Proof.
  apply (expectation_failed_is_served_too hello_env (mk_message (str "GET / HTTP/1.1") [(str "Expect", str "tea")])
           (mk_World fresh_endpoint None 0) (str "expect", str "tea")).
  - vm_compute. reflexivity.
  - discriminate.
Defined.
