(* ===== verification/Proxy.v ===== *)
(** The proxy: HTTP/1 client transports and their pool ([http1/ClientTransport.cpp],
    [http1/ClientTransportSource.cpp]), and the handlers that pass requests on and
    responses back ([ProxyHandler.cpp]). *)
From stdpp Require Import gmap.
From S2P Require Import Prelude StreamBuf Sender Headers Routes Http2 Http2Spec Http2Correct Http1 Http1Transport Http1Spec Http1Server ServerCorrect.

(** ** State *)

(** A [ClientTransport] with its connection: how many messages it has sent, and
    the handler object that [handler_] calls.  The state of its base class, an
    [http1::Transport], is beside it, as a server transport's is. *)
Record ClientTransport (C : Type) := mk_ClientTransport {
  ct_conn : C;
  ct_sent : nat;
  handler_ : option nat
}.
Arguments mk_ClientTransport {C} ct_conn ct_sent handler_.
Arguments ct_conn {C} c : rename.
Arguments ct_sent {C} c : rename.
Arguments handler_ {C} c : rename.

(** [class PerRequestProxyHandler]: the server stream behind [responder_], and
    [backendTransport_]. *)
Record PerRequestProxyHandler := mk_PerRequestProxyHandler { responder_ : nat; backendTransport_ : option nat }.

(** What [socket(2)] and [connect(2)] answer: a connection, or which of the two
    fails. *)
Inductive dial (C : Type) := Dialled (c : C) | NoSocket | NotConnected.
Arguments Dialled {C} c.
Arguments NoSocket {C}.
Arguments NotConnected {C}.

(** The objects, by address: [spare_connections_] (the top first) and
    [in_use_connections_] of the one ClientTransportSource, whose connections are
    known by their transports; the transports; the handlers; the server's streams.
    [dials]: what [socket(2)] and [connect(2)] will answer. *)
Record Proxy (C : Type) := mk_Proxy {
  spare_connections_ : list nat;
  in_use_connections_ : gset nat;
  transports : gmap nat (ClientTransport C);
  handlers : gmap nat PerRequestProxyHandler;
  streams : gmap nat (World C);
  dials : list (dial C)
}.
Arguments mk_Proxy {C} spare_connections_ in_use_connections_ transports handlers streams dials.
Arguments spare_connections_ {C} p : rename.
Arguments in_use_connections_ {C} p : rename.
Arguments transports {C} p : rename.
Arguments handlers {C} p : rename.
Arguments streams {C} p : rename.
Arguments dials {C} p : rename.

Section proxy.
Context {C : Type} `{Sender C} `{Multimap} (env : Env C).

Abbreviation proxy := (Proxy C).

Definition with_pool (p : proxy) (spare : list nat) (in_use : gset nat) : proxy :=
  mk_Proxy spare in_use (transports p) (handlers p) (streams p) (dials p).
Definition with_transports (p : proxy) (m : gmap nat (ClientTransport C)) : proxy :=
  mk_Proxy (spare_connections_ p) (in_use_connections_ p) m (handlers p) (streams p) (dials p).
Definition with_handlers (p : proxy) (m : gmap nat PerRequestProxyHandler) : proxy :=
  mk_Proxy (spare_connections_ p) (in_use_connections_ p) (transports p) m (streams p) (dials p).
Definition with_streams (p : proxy) (m : gmap nat (World C)) : proxy :=
  mk_Proxy (spare_connections_ p) (in_use_connections_ p) (transports p) (handlers p) m (dials p).

(** A call through a pointer. *)
Definition deref {A} (m : gmap nat A) (a : nat) : outcome A :=
  match m !! a with Some x => Ret x | None => Undef UseAfterFree end.

(** ** [class ClientTransport] *)

Definition setHandler (id : nat) (h : option nat) (p : proxy) : outcome proxy :=
  t ← deref (transports p) id;
  Ret (with_transports p (<[id := mk_ClientTransport (ct_conn t) (ct_sent t) h]> (transports p))).

Definition resetHandler (id : nat) (p : proxy) : outcome proxy := setHandler id None p.

Definition sendRequest (id : nat) (req : Request) (p : proxy) : outcome proxy :=
  t ← deref (transports p) id;
  match handler_ t with
  | None => Throw (invalid_argument "ClientTransport requires a non-null Handler when sending request")
  | Some _ =>
      c ← sendMessage (raw env) (now env (ct_sent t)) (requestLine req) (message_ req) (ct_conn t);
      Ret (with_transports p (<[id := mk_ClientTransport c (S (ct_sent t)) (handler_ t)]> (transports p)))
  end.

(** ** [class ClientTransportSource] *)

Definition hasSpareTransports (p : proxy) : bool := bool_decide (spare_connections_ p <> []).

Definition spareTransport (p : proxy) : outcome (nat * proxy) :=
  match spare_connections_ p with
  | [] => Undef OutOfBounds
  | transport :: spare => Ret (transport, with_pool p spare ({[transport]} ∪ in_use_connections_ p))
  end.

Definition newTransport (p : proxy) : outcome (nat * proxy) :=
  match dials p with
  | Dialled c :: dials =>
      let ct := fresh (dom (transports p)) in
      Ret (ct, mk_Proxy (spare_connections_ p) ({[ct]} ∪ in_use_connections_ p)
                 (<[ct := mk_ClientTransport c 0 None]> (transports p)) (handlers p) (streams p) dials)
  | NoSocket :: _ => Throw (runtime_error "socket")
  | _ => Throw (runtime_error "connect failed")
  end.

Definition getTransport (resp_handler : nat) (p : proxy) : outcome (nat * proxy) :=
  '(transport, p) ← (if hasSpareTransports p then spareTransport p else newTransport p);
  p ← setHandler transport (Some resp_handler) p;
  Ret (transport, p).

Definition putTransport (transport : nat) (p : proxy) : outcome proxy :=
  p ← resetHandler transport p;
  if bool_decide (transport ∈ in_use_connections_ p)
  then Ret (with_pool p (transport :: spare_connections_ p) (in_use_connections_ p ∖ {[transport]}))
  else Throw (logic_error "Tried to remove unknown transport").

(** ** [class PerRequestProxyHandler] *)

Definition acquireBackendTransport (this : nat) (p : proxy) : outcome proxy :=
  h ← deref (handlers p) this;
  '(transport, p) ← getTransport this p;
  Ret (with_handlers p (<[this := mk_PerRequestProxyHandler (responder_ h) (Some transport)]> (handlers p))).

Definition releaseBackendTransport (this : nat) (p : proxy) : outcome proxy :=
  h ← deref (handlers p) this;
  match backendTransport_ h with
  | None => Undef NullPointer
  | Some transport =>
      p ← resetHandler transport p;
      p ← putTransport transport p;
      Ret (with_handlers p (<[this := mk_PerRequestProxyHandler (responder_ h) None]> (handlers p)))
  end.

Definition sendBackendRequest (this : nat) (request : Request) (p : proxy) : outcome proxy :=
  p ← acquireBackendTransport this p;
  h ← deref (handlers p) this;
  match backendTransport_ h with
  | None => Undef NullPointer
  | Some transport => sendRequest transport request p
  end.

(** [PerRequestProxyHandler::PerRequestProxyHandler], at the address [this]. *)
Definition new_PerRequestProxyHandler (this stream : nat) (request : Request) (p : proxy) : outcome proxy :=
  sendBackendRequest this request (with_handlers p (<[this := mk_PerRequestProxyHandler stream None]> (handlers p))).

(** [MakeProxyHandler]'s function: [new PerRequestProxyHandler] for the stream. *)
Definition proxy_request (stream : nat) (request : Request) (p : proxy) : outcome proxy :=
  new_PerRequestProxyHandler (fresh (dom (handlers p))) stream request p.

(** [Responder::respond], on an HTTP/1 server stream. *)
Definition proxy_respond (this : nat) (response : Response) (p : proxy) : outcome proxy :=
  h ← deref (handlers p) this;
  w ← deref (streams p) (responder_ h);
  w ← server_sendResponse env response w;
  Ret (with_streams p (<[responder_ h := w]> (streams p))).

(** [delete this] at the end. *)
Definition onBackendResponse (this : nat) (response : Response) (p : proxy) : outcome proxy :=
  p ← releaseBackendTransport this p;
  p ← proxy_respond this response p;
  Ret (with_handlers p (delete this (handlers p))).

(** ** A client transport's input *)

(** [ClientTransport::handleIncomingMessage] and [handle]; an empty
    std::function throws. *)
Definition client_handleIncomingMessage (id : nat) (msg : IncomingMessage) (p : proxy) : outcome proxy :=
  status_line ← parseStatusLine (first_line msg);
  t ← deref (transports p) id;
  match handler_ t with
  | None => Throw bad_function_call
  | Some h => onBackendResponse h (mk_Response (in_message msg) (sl_code status_line)) p
  end.

#[local] Instance client_owner (id : nat) : Owner proxy := {
  handleIncomingMessage := client_handleIncomingMessage id;
  onEndOfMessageHeaders _ p := Ret p;
  replaced _ := false;
  close_connection p :=
    with_transports p (alter (fun t => mk_ClientTransport (connection_close env (ct_conn t)) (ct_sent t) (handler_ t)) id (transports p))
}.

(** [onInput] of the client transport [id], inherited. *)
Definition client_onInput (id : nat) (t : Transport) (p : proxy) (buf : StreamBuf) : outcome (Transport * proxy * StreamBuf) :=
  onInput (H := client_owner id) t p buf.

(** ** The pool *)

(** The transport [id] waits for the answer that handler [h] gives to stream [s]. *)
Definition asks (p : proxy) (id h s : nat) : Prop :=
  (exists t, transports p !! id = Some t /\ handler_ t = Some h) /\
  handlers p !! h = Some (mk_PerRequestProxyHandler s (Some id)).

(** Every transport is spare, without a handler, or in use by a handler of its
    own; every handler has one. *)
Record pool_ok (p : proxy) : Prop := mk_pool_ok {
  pk_spare : NoDup (spare_connections_ p);
  pk_apart : forall id, id ∈ spare_connections_ p -> id ∉ in_use_connections_ p;
  pk_all : forall id, is_Some (transports p !! id) <-> id ∈ spare_connections_ p \/ id ∈ in_use_connections_ p;
  pk_idle : forall id t, transports p !! id = Some t -> id ∈ spare_connections_ p -> handler_ t = None;
  pk_busy : forall id, id ∈ in_use_connections_ p -> exists h s, asks p id h s;
  pk_handlers : forall h x, handlers p !! h = Some x -> exists id, id ∈ in_use_connections_ p /\ asks p id h (responder_ x)
}.

(** The transport that the next request takes: the top of the spare ones, or a
    new one; and what the pool is without it. *)
Definition takes (p : proxy) (id : nat) (t : ClientTransport C) (rest : proxy) : Prop :=
  (spare_connections_ p = id :: spare_connections_ rest /\ transports p !! id = Some t /\ dials rest = dials p \/
   spare_connections_ p = [] /\ spare_connections_ rest = [] /\ id = fresh (dom (transports p)) /\
   exists c, dials p = Dialled c :: dials rest /\ t = mk_ClientTransport c 0 None) /\
  in_use_connections_ rest = in_use_connections_ p /\ transports rest = transports p /\
  handlers rest = handlers p /\ streams rest = streams p.

(** A request that was sent. *)
Definition asked (rest : proxy) (id h s : nat) (t : ClientTransport C) (c : C) : proxy :=
  mk_Proxy (spare_connections_ rest) ({[id]} ∪ in_use_connections_ rest)
    (<[id := mk_ClientTransport c (S (ct_sent t)) (Some h)]> (transports rest))
    (<[h := mk_PerRequestProxyHandler s (Some id)]> (handlers rest)) (streams rest) (dials rest).

Lemma deref_insert {A} (m : gmap nat A) i x : deref (<[i := x]> m) i = Ret x.
Proof. unfold deref. by rewrite lookup_insert_eq. Qed.

Lemma deref_Some {A} (m : gmap nat A) i x : m !! i = Some x -> deref m i = Ret x.
Proof. unfold deref. by intros ->. Qed.

Lemma proxy_request_eq p s req id t rest :
  takes p id t rest ->
  proxy_request s req p =
    c ← sendMessage (raw env) (now env (ct_sent t)) (requestLine req) (message_ req) (ct_conn t);
    Ret (asked rest id (fresh (dom (handlers p))) s t c).
Proof.
  intros [Hcase (Hu & Ht & Hh & Hs)]. unfold proxy_request, new_PerRequestProxyHandler, sendBackendRequest, acquireBackendTransport.
  cbn [handlers with_handlers]. rewrite deref_insert. cbn [mbind outcome_bind]. unfold getTransport, hasSpareTransports.
  cbn [spare_connections_ with_handlers].
  assert ((if bool_decide (spare_connections_ p <> []) then spareTransport (with_handlers p (<[fresh (dom (handlers p)) := mk_PerRequestProxyHandler s None]> (handlers p)))
           else newTransport (with_handlers p (<[fresh (dom (handlers p)) := mk_PerRequestProxyHandler s None]> (handlers p))))
          = Ret (id, mk_Proxy (spare_connections_ rest) ({[id]} ∪ in_use_connections_ rest) (<[id := t]> (transports rest))
                   (<[fresh (dom (handlers p)) := mk_PerRequestProxyHandler s None]> (handlers rest)) (streams rest) (dials rest))) as ->.
  { destruct Hcase as [(Hsp & Hl & Hd)|(Hsp & Hsp' & -> & c & Hd & ->)]; rewrite Hsp.
    - rewrite bool_decide_eq_true_2 by done. unfold spareTransport. cbn. rewrite Hsp, Hu, Ht, Hh, Hs, Hd. by rewrite (insert_id (transports p)) by done.
    - rewrite bool_decide_eq_false_2 by (intros Hn; by apply Hn). unfold newTransport. cbn. by rewrite Hd, Hsp, Hsp', Hu, Ht, Hh, Hs. }
  cbn [mbind outcome_bind]. unfold setHandler. cbn [transports with_transports]. rewrite deref_insert. cbn [mbind outcome_bind].
  cbn [handlers with_handlers with_transports]. rewrite deref_insert. cbn [mbind outcome_bind backendTransport_ responder_].
  unfold sendRequest. cbn [transports with_handlers with_transports]. rewrite deref_insert. cbn [mbind outcome_bind handler_ ct_sent ct_conn].
  destruct (sendMessage _ _ _ _ _); cbn [mbind outcome_bind]; try done. unfold asked, with_transports. cbn.
  by rewrite !insert_insert_eq.
Qed.

(** An answer that was passed on. *)
Definition answered (p : proxy) (id h s : nat) (t : ClientTransport C) (w : World C) : proxy :=
  mk_Proxy (id :: spare_connections_ p) (in_use_connections_ p ∖ {[id]})
    (<[id := mk_ClientTransport (ct_conn t) (ct_sent t) None]> (transports p))
    (delete h (handlers p)) (<[s := w]> (streams p)) (dials p).

Lemma client_message_eq p id h s t msg :
  asks p id h s -> transports p !! id = Some t -> id ∈ in_use_connections_ p ->
  client_handleIncomingMessage id msg p =
    status_line ← parseStatusLine (first_line msg);
    w ← deref (streams p) s;
    w ← server_sendResponse env (mk_Response (in_message msg) (sl_code status_line)) w;
    Ret (answered p id h s t w).
Proof.
  intros [(t' & Ht' & Hh) Hx] Ht Hin. assert (t' = t) as -> by congruence. unfold client_handleIncomingMessage.
  destruct (parseStatusLine (first_line msg)) as [sl|e|u]; cbn [mbind outcome_bind]; [|done|done].
  rewrite (deref_Some _ _ _ Ht). cbn [mbind outcome_bind]. rewrite Hh. unfold onBackendResponse, releaseBackendTransport.
  rewrite (deref_Some _ _ _ Hx). cbn [mbind outcome_bind backendTransport_ responder_].
  unfold putTransport, resetHandler, setHandler. rewrite (deref_Some _ _ _ Ht). cbn [mbind outcome_bind transports with_transports].
  rewrite deref_insert. cbn [mbind outcome_bind in_use_connections_ with_transports]. rewrite bool_decide_eq_true_2 by done.
  cbn [mbind outcome_bind]. unfold proxy_respond. cbn [handlers with_handlers]. rewrite deref_insert.
  cbn [mbind outcome_bind responder_ streams with_handlers with_pool with_transports].
  destruct (deref (streams p) s) as [w|e|u]; cbn [mbind outcome_bind]; [|done|done].
  destruct (server_sendResponse _ _ _) as [w'|e|u]; cbn [mbind outcome_bind]; [|done|done].
  unfold answered, with_handlers, with_streams, with_transports, with_pool. cbn. by rewrite insert_insert_eq, delete_insert_eq.
Qed.

(** Which transport is taken, and that nothing else is known of it. *)
Lemma takes_fresh p id t rest :
  pool_ok p -> takes p id t rest ->
  id ∉ in_use_connections_ p /\ id ∉ spare_connections_ rest /\ NoDup (spare_connections_ rest) /\
  (forall i, i ∈ spare_connections_ rest -> i ∈ spare_connections_ p) /\
  (forall i, i <> id -> is_Some (transports p !! i) <-> i ∈ spare_connections_ rest \/ i ∈ in_use_connections_ p).
Proof.
  intros [Hnd Hap Hall Hid Hbu Hha] [[(Hsp & Hl & _)|(Hsp & Hsp' & -> & _)] _].
  - rewrite Hsp in *. apply NoDup_cons in Hnd as [Hn Hnd]. split; [apply Hap; left|]. split; [done|]. split; [done|].
    split; [by right|]. intros i Hne. rewrite Hall, elem_of_cons. naive_solver.
  - rewrite Hsp, Hsp' in *. assert (forall i, i ∈ in_use_connections_ p -> i <> fresh (dom (transports p))) as Hfr.
    { intros i Hi ->. assert (is_Some (transports p !! fresh (dom (transports p)))) as Hs by (apply Hall; by right).
      apply elem_of_dom in Hs. by apply (is_fresh (dom (transports p))). }
    split; [intros Hi; by apply (Hfr _ Hi)|]. split; [apply not_elem_of_nil|]. split; [constructor|]. split; [done|].
    intros i _. apply Hall.
Qed.

(** A handler that is new. *)
Lemma new_handler_unknown p id h s : asks p id h s -> h <> fresh (dom (handlers p)).
Proof. intros [_ Hx] ->. apply elem_of_dom_2 in Hx. by apply (is_fresh (dom (handlers p))). Qed.

(** A request changes nothing of what others wait for. *)
Lemma asked_others p id t rest s c i h' s' :
  pool_ok p -> takes p id t rest -> i ∈ in_use_connections_ p -> asks p i h' s' ->
  asks (asked rest id (fresh (dom (handlers p))) s t c) i h' s'.
Proof.
  intros Hok Htk Hi Ha. destruct (takes_fresh p id t rest Hok Htk) as (Hnu & _). pose proof (new_handler_unknown _ _ _ _ Ha) as Hne.
  destruct Htk as [_ (Hu & Ht & Hh & Hs)]. destruct Ha as [(ti & Hti & Hhi) Hx]. unfold asks, asked. cbn. rewrite Ht, Hh. split.
  - exists ti. split; [|done]. rewrite lookup_insert_ne; [done|]. by intros ->.
  - by rewrite lookup_insert_ne.
Qed.

Lemma asked_ok p id t rest s c :
  pool_ok p -> takes p id t rest ->
  let p' := asked rest id (fresh (dom (handlers p))) s t c in
  pool_ok p' /\ asks p' id (fresh (dom (handlers p))) s.
Proof.
  intros Hok Htk p'. assert (asks p' id (fresh (dom (handlers p))) s) as Hask.
  { unfold asks, p', asked. cbn. rewrite !lookup_insert_eq. split; [|done]. by eexists. }
  split; [|done]. destruct (takes_fresh p id t rest Hok Htk) as (Hnu & Hns & Hnd & Hsub & Hall).
  pose proof Htk as [_ (Hu & Ht & Hh & Hs)]. split.
  - exact Hnd.
  - intros i Hi. cbn. rewrite Hu. pose proof (pk_apart p Hok i (Hsub i Hi)). set_solver.
  - intros i. cbn. rewrite Hu, Ht. destruct (decide (i = id)) as [->|Hne].
    + rewrite lookup_insert_eq. split; [set_solver|by eexists].
    + rewrite lookup_insert_ne by done. rewrite Hall by done. set_solver.
  - intros i ti Hti Hi. cbn in Hti, Hi. rewrite Ht in Hti. rewrite lookup_insert_ne in Hti by (by intros ->).
    apply (pk_idle p Hok i ti Hti). by apply Hsub.
  - intros i Hi. cbn in Hi. rewrite Hu in Hi. apply elem_of_union in Hi as [->%elem_of_singleton|Hi]; [by eexists _, _|].
    destruct (pk_busy p Hok i Hi) as (h' & s' & Ha). exists h', s'. by apply asked_others.
  - intros h x Hx. cbn in Hx. rewrite Hh in Hx. destruct (decide (h = fresh (dom (handlers p)))) as [->|Hne].
    + rewrite lookup_insert_eq in Hx. injection Hx as <-. exists id. split; [cbn; set_solver|done].
    + rewrite lookup_insert_ne in Hx by done. destruct (pk_handlers p Hok h x Hx) as (i & Hi & Ha). exists i.
      split; [cbn; rewrite Hu; set_solver|]. by apply asked_others.
Qed.

(** Two transports do not wait for one handler. *)
Lemma asks_handler p i j h s s' : asks p i h s -> asks p j h s' -> i = j.
Proof. intros [_ H1] [_ H2]. congruence. Qed.

Lemma asks_inj p i h h' s s' : asks p i h s -> asks p i h' s' -> h = h' /\ s = s'.
Proof. intros [(t & H1 & H2) H3] [(t' & H1' & H2') H3']. split; congruence. Qed.

Lemma answered_others p id h s t w i h' s' :
  i <> id -> asks p id h s -> asks p i h' s' -> asks (answered p id h s t w) i h' s'.
Proof.
  intros Hne Ha Ha'. assert (h' <> h) as Hh by (intros ->; by apply Hne, (asks_handler p i id h s' s)).
  destruct Ha' as [(ti & Hti & Hhi) Hx]. unfold asks, answered. cbn. split.
  - exists ti. by rewrite lookup_insert_ne.
  - by rewrite lookup_delete_ne.
Qed.

Lemma answered_ok p id h s t w :
  pool_ok p -> asks p id h s -> transports p !! id = Some t -> id ∈ in_use_connections_ p -> pool_ok (answered p id h s t w).
Proof.
  intros Hok Ha Ht Hin. pose proof Hok as [Hnd Hap Hall Hid Hbu Hha]. split; cbn.
  - constructor; [|done]. intros Hn. by apply (Hap id Hn).
  - intros i Hi. apply elem_of_cons in Hi as [->|Hi]; [set_solver|]. specialize (Hap i Hi). set_solver.
  - intros i. destruct (decide (i = id)) as [->|Hne].
    + rewrite lookup_insert_eq. split; [intros _; left; left|by eexists].
    + rewrite lookup_insert_ne by done. rewrite Hall, elem_of_cons. set_solver.
  - intros i ti Hti Hi. destruct (decide (i = id)) as [->|Hne]; [rewrite lookup_insert_eq in Hti; by injection Hti as <-|].
    rewrite lookup_insert_ne in Hti by done. apply (Hid i); [done|]. apply elem_of_cons in Hi as [|]; done.
  - intros i Hi. assert (i <> id /\ i ∈ in_use_connections_ p) as [Hne Hi'] by set_solver.
    destruct (Hbu i Hi') as (h' & s' & Ha'). exists h', s'. by apply answered_others.
  - intros h' x Hx. apply lookup_delete_Some in Hx as [Hne Hx]. destruct (Hha h' x Hx) as (i & Hi & Ha').
    assert (i <> id) as Hid' by (intros ->; apply Hne; symmetry; by apply (asks_inj p id h' h (responder_ x) s)).
    exists i. split; [set_solver|by apply answered_others].
Qed.

End proxy.

(** ** Requests and responses *)

Section passing.
Context `{HM : Multimap} `{!MultimapOk} {C : Type} `{HS : SenderOk C} (env : Env C).
Context (Hraw : raw_ok (raw env)) (Hdates : forall n, octets (now env n)).

Abbreviation proxy := (Proxy C).
Abbreviation client_feed id := (feed (H := client_owner env id)).
Abbreviation client_closing id := (closing (H := client_owner env id)).

(** What goes out for a request. *)
Definition request_wire (date : list Z) (req : Request) : list Z :=
  requestLine req ++ CRLF ++ renderHeaders (reply_headers date (message_ req)) ++ body_ (message_ req).

Record request_octets (req : Request) : Prop := mk_request_octets {
  ro_line : octets (requestLine req);
  ro_lines : headers_octets (headers_ (message_ req));
  ro_text : octets (body_ (message_ req)) /\ zlen (body_ (message_ req)) < 2 ^ 60
}.

(** The exception of a call of [newTransport] that makes none. *)
Definition dial_error {D} (l : list (dial D)) : exn :=
  match l with NoSocket :: _ => runtime_error "socket" | _ => runtime_error "connect failed" end.

(** A request that is given to the proxy goes out whole on a backend
    connection that nobody else waits for: the spare one that was put back last,
    or a new one, and if there is none the connection's failure is thrown.  From
    then on that backend's answer is awaited for the request's stream, and what
    others wait for is as before. *)
Lemma proxy_passes_request (p : proxy) s req :
  pool_ok p -> request_octets req ->
  (forall id t rest,
     takes p id t rest -> sender_ok (ct_conn t) ->
     zlen (sent (ct_conn t)) + zlen (request_wire (now env (ct_sent t)) req) < 2 ^ 60 ->
     exists c, let h := fresh (dom (handlers p)) in let p' := asked rest id h s t c in
       proxy_request env s req p = Ret p' /\ pool_ok p' /\ asks p' id h s /\ (id ∉ in_use_connections_ p) /\
       (forall i h' s', i ∈ in_use_connections_ p -> asks p i h' s' -> asks p' i h' s') /\
       sender_ok c /\ sent c = sent (ct_conn t) ++ request_wire (now env (ct_sent t)) req) /\
  (spare_connections_ p = [] -> (forall c l, dials p <> Dialled c :: l) ->
     proxy_request env s req p = Throw (dial_error (dials p))).
Proof.
  intros Hok [Hl Hh [Hb Hbl]]. split.
  - intros id t rest Htk Hc Hsz. rewrite (proxy_request_eq env p s req id t rest Htk).
    destruct (sendMessage_ok (raw env) (now env (ct_sent t)) (requestLine req) (message_ req) (ct_conn t))
      as (c & -> & Hc' & Hs); try done.
    { unfold requestLine. by destruct (method_ req). }
    exists c. cbn zeta. cbn [mbind outcome_bind]. destruct (asked_ok p id t rest s c Hok Htk) as [Hok' Hask].
    split; [done|]. split; [done|]. split; [done|]. split; [apply (takes_fresh p id t rest Hok Htk)|]. split; [|done].
    intros i h' s' Hi Ha. by apply asked_others.
  - intros Hsp Hd. unfold proxy_request, new_PerRequestProxyHandler, sendBackendRequest, acquireBackendTransport. cbn [handlers with_handlers].
    rewrite deref_insert. cbn [mbind outcome_bind]. unfold getTransport, hasSpareTransports. cbn [spare_connections_ with_handlers].
    rewrite Hsp, bool_decide_eq_false_2 by (intros Hn; by apply Hn). unfold newTransport. cbn [dials with_handlers].
    destruct (dials p) as [|[c| |] l]; [done| |done..]. by destruct (Hd c l).
Qed.

(** The whole of an answer without a body, in any pieces. *)
Lemma client_feed_message id p m chunks :
  message_ok m -> no_body m -> Forall (Forall octet) chunks -> zlen (concat chunks) < 2 ^ 60 -> concat chunks = render m ->
  match client_handleIncomingMessage env id (mk_IncomingMessage (m_first m) (mk_Message [] (received_headers m))) p with
  | Ret p' => exists buf, client_feed id new_Transport p empty_StreamBuf chunks
                          = Ret (new_Transport, client_closing id (received_headers m) p', buf) /\ content buf = []
  | Throw e => client_feed id new_Transport p empty_StreamBuf chunks = Throw e
  | Undef u => client_feed id new_Transport p empty_StreamBuf chunks = Undef u
  end.
Proof.
  intros Hm Hn Hoct Hsz Heq.
  assert (Forall message_ok [m]) as Hm1 by (by constructor). assert (Forall no_body [m]) as Hn1 by (by constructor).
  pose proof (feed_messages (HO := client_owner env id) [m] chunks p) as Hf. cbn [serve map concat] in Hf. rewrite app_nil_r in Hf.
  unfold serve_one in Hf. cbn [onEndOfMessageHeaders handleIncomingMessage replaced client_owner mbind outcome_bind] in Hf.
  destruct (client_handleIncomingMessage _ _ _ _) as [p'|e|u]; cbn [mbind outcome_bind] in Hf; by apply Hf.
Qed.

(** C40: Where the proxy fails.  An answer for a stream that is gone uses it after
    it was freed; an answer that nobody asked for, on a spare connection, throws
    [std::bad_function_call]; and the connection of an answer that says
    "Connection: close" is closed after it was put back, so that the next request
    is sent on it. *)
Theorem proxy_failures (p : proxy) id m chunks status_line :
  pool_ok p -> message_ok m -> no_body m -> parseStatusLine (m_first m) = Ret status_line ->
  Forall (Forall octet) chunks -> zlen (concat chunks) < 2 ^ 60 -> concat chunks = render m ->
  let answer := client_feed id new_Transport p empty_StreamBuf chunks in
  (id ∈ in_use_connections_ p -> (forall h s, asks p id h s -> streams p !! s = None) -> answer = Undef UseAfterFree) /\
  (id ∈ spare_connections_ p -> answer = Throw bad_function_call) /\
  (forall tr p' buf, snd (Headers_get (received_headers m) (str "connection")) = str "close" ->
     answer = Ret (tr, p', buf) ->
     exists t rest, transports p !! id = Some t /\
       takes p' id (mk_ClientTransport (connection_close env (ct_conn t)) (ct_sent t) None) rest).
Proof.
  intros Hok Hm Hn Hsl Hoct Hlen Heq answer.
  pose proof (client_feed_message id p m chunks Hm Hn Hoct Hlen Heq) as Hf. fold answer in Hf.
  assert (forall t, transports p !! id = Some t -> handler_ t = None -> answer = Throw bad_function_call) as Hidle.
  { intros t Ht Hh. unfold client_handleIncomingMessage in Hf. cbn [first_line] in Hf. rewrite Hsl in Hf.
    cbn [mbind outcome_bind] in Hf. rewrite (deref_Some _ _ _ Ht) in Hf. cbn [mbind outcome_bind] in Hf. by rewrite Hh in Hf. }
  assert (id ∈ spare_connections_ p -> answer = Throw bad_function_call) as Hspare.
  { intros Hin. assert (is_Some (transports p !! id)) as [t Ht] by (apply (pk_all p Hok); by left).
    apply (Hidle t Ht). by apply (pk_idle p Hok id). }
  split; [|split; [exact Hspare|]].
  - intros Hin Hgone. destruct (pk_busy p Hok id Hin) as (h & s & Ha). destruct (Ha) as [(t & Ht & _) _].
    rewrite (client_message_eq env p id h s t _ Ha Ht Hin) in Hf. cbn [first_line in_message] in Hf. rewrite Hsl in Hf.
    cbn [mbind outcome_bind] in Hf. unfold deref in Hf. by rewrite (Hgone h s Ha) in Hf.
  - intros tr p' buf Hclose Hans. destruct (transports p !! id) as [t|] eqn:Ht.
    + assert (id ∈ in_use_connections_ p) as Hin.
      { assert (is_Some (transports p !! id)) as Hs by (by eexists). apply (pk_all p Hok) in Hs as [Hs|Hs]; [|done].
        rewrite (Hspare Hs) in Hans. done. }
      destruct (pk_busy p Hok id Hin) as (h & s & Ha). rewrite (client_message_eq env p id h s t _ Ha Ht Hin) in Hf.
      cbn [first_line in_message] in Hf. rewrite Hsl in Hf. cbn [mbind outcome_bind] in Hf.
      destruct (deref (streams p) s) as [w|?|?]; cbn [mbind outcome_bind] in Hf; [|congruence|congruence].
      destruct (server_sendResponse _ _ _) as [w'|?|?]; cbn [mbind outcome_bind] in Hf; [|congruence|congruence].
      destruct Hf as (buf' & Hf & _). rewrite Hf in Hans. injection Hans as _ <- _. exists t.
      unfold closing. cbn [replaced client_owner negb]. rewrite Hclose, bool_decide_eq_true_2 by done. cbn [andb close_connection client_owner].
      exists (mk_Proxy (spare_connections_ p) (in_use_connections_ p ∖ {[id]})
                (alter (fun t => mk_ClientTransport (connection_close env (ct_conn t)) (ct_sent t) (handler_ t)) id
                   (transports (answered p id h s t w')))
                (delete h (handlers p)) (<[s := w']> (streams p)) (dials p)).
      split; [done|]. split; [|done]. left. split; [done|]. split; [|done]. cbn. rewrite lookup_alter_eq, lookup_insert_eq. done.
    + exfalso. unfold client_handleIncomingMessage in Hf. cbn [first_line] in Hf. rewrite Hsl in Hf.
      cbn [mbind outcome_bind] in Hf. unfold deref in Hf. rewrite Ht in Hf. cbn [mbind outcome_bind] in Hf. congruence.
Qed.

End passing.

(** ** At work: one spare connection, one stream *)

Definition example_transport : ClientTransport Endpoint := mk_ClientTransport fresh_endpoint 0 None.
Definition example_proxy : Proxy Endpoint :=
  mk_Proxy [3%nat] ∅ {[3%nat := example_transport]} ∅ {[5%nat := mk_World fresh_endpoint None 0]} [].
Definition example_rest : Proxy Endpoint :=
  mk_Proxy [] ∅ {[3%nat := example_transport]} ∅ {[5%nat := mk_World fresh_endpoint None 0]} [].

Lemma example_pool : pool_ok example_proxy.
Proof.
  split; cbn.
  - apply NoDup_singleton.
  - set_solver.
  - intros id. rewrite list_elem_of_singleton, lookup_singleton_is_Some. set_solver.
  - intros id t [_ <-]%lookup_singleton_Some _. done.
  - set_solver.
  - intros h x Hx. by rewrite lookup_empty in Hx.
Qed.

Lemma example_takes : takes example_proxy 3 example_transport example_rest.
Proof. split; [left; split; [done|]; split; [apply lookup_singleton_eq|done]|done]. Qed.

(** After the request. *)
Definition waiting_proxy : Proxy Endpoint := asked example_rest 3 0 5 example_transport fresh_endpoint.

Lemma waiting_ok : pool_ok waiting_proxy /\ asks waiting_proxy 3 0 5.
Proof.
  change waiting_proxy with (asked example_rest 3 (fresh (dom (handlers example_proxy))) 5 example_transport fresh_endpoint).
  apply asked_ok; [apply example_pool|apply example_takes].
Qed.

Definition example_answer (name value : string) : Msg := mk_message (str "HTTP/1.1 404 Not Found") [(str name, str value)].

Lemma example_answer_ok : message_ok (example_answer "X" "y") /\ message_ok (example_answer "Connection" "close").
Proof. split; split; apply (bool_decide_unpack _); vm_compute; exact I. Qed.

(** The stream's connection was removed while the backend was thinking; and an
    answer on a connection that is spare. *)
Lemma proxy_failures_witness :
  let m := example_answer "Connection" "close" in
  feed (H := client_owner hello_env 3) new_Transport (with_streams waiting_proxy ∅) empty_StreamBuf [render m] = Undef UseAfterFree /\
  feed (H := client_owner hello_env 3) new_Transport example_proxy empty_StreamBuf [render m] = Throw bad_function_call.
Proof.
  intros m. destruct waiting_ok as [Hok Hask].
  assert (pool_ok (with_streams waiting_proxy ∅)) as Hok' by (destruct Hok; by split).
  split.
  - apply (proxy_failures hello_env (with_streams waiting_proxy ∅) 3 m [render m] (mk_StatusLine 404 (str "Not Found") (str "HTTP/1.1"))); try done.
    + apply example_answer_ok.
    + apply (bool_decide_unpack _). vm_compute. exact I.
  - apply (proxy_failures hello_env example_proxy 3 m [render m] (mk_StatusLine 404 (str "Not Found") (str "HTTP/1.1"))); try done.
    + apply example_pool.
    + apply example_answer_ok.
    + apply (bool_decide_unpack _). vm_compute. exact I.
    + cbn. left.
Defined.
