(* ===== verification/Touches.v ===== *)
(** The transports reach their connection only through [send], the outgoing
    buffer and [close]: whatever relation these keep, a call of [onInput] keeps. *)
From stdpp Require Import gmap relations.
From S2P Require Import Prelude StreamBuf Sender HpackTable Headers Routes Frame Settings.
From S2P Require Import Http1 Http1Transport Http1Server Http2 ServerConnection.

Section touches.
Context {C : Type} `{Sender C} `{Multimap} (R : C -> C -> Prop) `{!PreOrder R}.
Context (R_send : forall c mem len c', send c mem len = Ret c' -> R c c').
Context (R_out : forall c t, R c (set_out c t)).

(** If [m] returns, the connection [f] in its result is related to [c]. *)
Definition touch {A} (f : A -> C) (c : C) (m : outcome A) : Prop :=
  match m with Ret a => R c (f a) | _ => True end.

Lemma touch_ret {A} (f : A -> C) c a : R c (f a) -> touch f c (Ret a).
Proof. done. Qed.

Lemma touch_bind {A B} (f : A -> C) (g : B -> C) c m k :
  touch f c m -> (forall a, touch g (f a) (k a)) -> touch g c (m ≫= k).
Proof.
  destruct m as [a|?|?]; cbn; try done. intros Hm Hk. specialize (Hk a). destruct (k a); try done. cbn in *. by etrans.
Qed.

(** A step that does not touch it. *)
Lemma touch_pure {A B} (g : B -> C) c (m : outcome A) k : (forall a, touch g c (k a)) -> touch g c (m ≫= k).
Proof. by destruct m; cbn. Qed.

Create HintDb touch.

Ltac touches :=
  repeat
    (cbv zeta beta; cbn [fst snd conn upgraded messages_sent compose id];
     match goal with
     | |- touch _ _ (Ret _ ≫= _) => cbn [mbind outcome_bind]
     | |- touch _ _ (Ret _) => apply touch_ret; cbn; reflexivity
     | |- touch _ _ (Throw _) => exact I
     | |- touch _ _ (Undef _) => exact I
     | |- touch _ _ (_ ≫= _) =>
         first [ eapply touch_bind; [solve [eauto with touch]|]; intros ? | apply touch_pure; intros ? ]
     | |- touch _ _ (match ?x with _ => _ end) => destruct x
     end); try solve [eauto with touch].

Lemma touch_send c mem len : touch id c (send c mem len).
Proof. unfold touch. destruct (send c mem len) eqn:E; try done. by eapply R_send. Qed.
Hint Resolve touch_send : touch.

Lemma touch_send_payload raw c ws : touch id c (send_payload raw c ws).
Proof.
  unfold send_payload. apply touch_pure. intros [p t]. destruct (send _ _ _) as [c'|?|?] eqn:E; cbn; try done.
  etrans; [apply (R_out c t)|by eapply R_send].
Qed.
Hint Resolve touch_send_payload : touch.

(** ** HTTP/2 *)

Abbreviation of_h2 := (fun r : Impl * C * StreamBuf => snd (fst r)).

Section http2.
Context (char_signed : bool) (raw : list Z).

Lemma touch_dispatch st c : touch id c (Impl_dispatch raw st c).
Proof. unfold Impl_dispatch, ServerStream_onRequest, sendResponse, writeHeadersFrame. touches. Qed.
Hint Resolve touch_dispatch : touch.

Lemma touch_receiveBody h s c b : touch of_h2 c (receiveBody char_signed raw h s c b).
Proof.
  unfold receiveBody, receiveData, receiveHeaders, receivePing, receiveResetStream, receiveSettings, receiveWindowUpdate,
    sendPingResponse, ackSettings.
  touches.
Qed.
Hint Resolve touch_receiveBody : touch.

Lemma touch_processFrameBody s c b : touch of_h2 c (processFrameBody char_signed raw s c b).
Proof. unfold processFrameBody. touches. Qed.
Hint Resolve touch_processFrameBody : touch.

Lemma touch_receiveFrame s c b :
  touch (fun r : bool * (Impl * C * StreamBuf) => of_h2 (snd r)) c (receiveFrame char_signed raw s c b).
Proof. unfold receiveFrame. touches. Qed.
Hint Resolve touch_receiveFrame : touch.

Lemma touch_frames_loop fuel : forall s c b, touch of_h2 c (frames_loop char_signed raw fuel s c b).
Proof. induction fuel as [|fuel IH]; intros s c b; cbn [frames_loop]; [exact I|]. touches. Qed.
Hint Resolve touch_frames_loop : touch.

Lemma touch_receivePreface s c b : touch of_h2 c (receivePreface char_signed raw s c b).
Proof. unfold receivePreface, receiveFrames. touches. Qed.
Hint Resolve touch_receivePreface : touch.

Lemma touch_Impl_onInput s c b : touch of_h2 c (Impl_onInput char_signed raw s c b).
Proof.
  unfold Impl_onInput, receiveFrames. destruct (prefaceReceived_ s); touches.
Qed.
Hint Resolve touch_Impl_onInput : touch.

Lemma touch_new_Impl size decode settings c :
  touch (fun r : Impl * C => snd r) c (new_Impl char_signed size decode settings c).
Proof.
  unfold new_Impl, initialize, sendPreface. touches.
Qed.
Hint Resolve touch_new_Impl : touch.

End http2.

(** ** HTTP/1 *)

Section http1.
Context (env : Env C) (R_close : forall c, R c (connection_close env c)).

Hint Resolve touch_send touch_send_payload touch_dispatch touch_new_Impl touch_Impl_onInput : touch.

Lemma touch_send_message line m w : touch conn (conn w) (send_message env line m w).
Proof. unfold send_message, sendMessage. touches. Qed.
Hint Resolve touch_send_message : touch.

Lemma touch_send_responses rs : forall w, touch conn (conn w) (send_responses env rs w).
Proof.
  induction rs as [|r rs IH]; intros w; cbn [send_responses]; [by apply touch_ret|].
  unfold server_sendResponse. eapply touch_bind; [|apply IH]. touches.
Qed.
Hint Resolve touch_send_responses : touch.

Lemma touch_onEndOfMessageHeaders h w : touch conn (conn w) (server_onEndOfMessageHeaders env h w).
Proof. unfold server_onEndOfMessageHeaders, handleExpect, server_sendResponse. touches. Qed.

Lemma touch_confirmUpgrade token w : touch conn (conn w) (confirmUpgrade env token w).
Proof. unfold confirmUpgrade, sendHeaders. touches. Qed.
Hint Resolve touch_confirmUpgrade : touch.

Lemma touch_HTTP2Upgrader u req c : touch (fun r : Impl * C => snd r) c (HTTP2Upgrader_upgrade env u req c).
Proof. unfold HTTP2Upgrader_upgrade. touches. Qed.
Hint Resolve touch_HTTP2Upgrader : touch.

Lemma touch_upgrade s req w : touch conn (conn w) (upgrade env s req w).
Proof. unfold upgrade, ServerStream_onRequest, sendResponse, writeHeadersFrame. touches. Qed.
Hint Resolve touch_upgrade : touch.

Lemma touch_tryUpgrade req w : touch (fun u => conn (default w u)) (conn w) (tryUpgrade env req w).
Proof. unfold tryUpgrade. touches. Qed.
Hint Resolve touch_tryUpgrade : touch.

Lemma touch_handleIncomingMessage m w : touch conn (conn w) (server_handleIncomingMessage env m w).
Proof.
  unfold server_handleIncomingMessage, server_onRequest, server_dispatch. apply touch_pure. intros line.
  eapply touch_bind; [apply touch_tryUpgrade|]. intros [w'|]; cbn; [done|]. touches.
Qed.

Abbreviation of_h1 := (fun r : Transport * World C * StreamBuf => conn (snd (fst r))).
Abbreviation of_h1' := (fun r : Transport * World C => conn (snd r)).

#[local] Existing Instance server_owner.

Lemma touch_handleMessage t w : touch of_h1' (conn w) (handleMessage (H := server_owner env) t w).
Proof.
  unfold handleMessage. destruct (incoming_message_ t) as [m|]; [|exact I].
  eapply touch_bind; [apply touch_handleIncomingMessage|]. intros w1. cbn.
  destruct (bool_decide _); [by apply touch_ret|]. apply touch_ret. destruct (bool_decide _); cbn; [apply R_close|reflexivity].
Qed.


Lemma touch_processInput t w b :
  touch (fun r : bool * (Transport * World C * StreamBuf) => of_h1 (snd r)) (conn w) (processInput (H := server_owner env) t w b).
Proof.
  pose proof touch_handleMessage. pose proof touch_onEndOfMessageHeaders.
  assert (forall t w, touch of_h1' (conn w) (markHeadersComplete (H := server_owner env) t w)) as Hmark.
  { intros t0 w0. unfold markHeadersComplete. touches. }
  unfold processInput. touches.
Qed.
Hint Resolve touch_processInput : touch.

Lemma touch_input_loop fuel : forall t w b, touch of_h1 (conn w) (input_loop (H := server_owner env) fuel t w b).
Proof. induction fuel as [|fuel IH]; intros t w b; cbn [input_loop]; [exact I|]. touches. Qed.

Abbreviation of_conn := (fun r : AnyTransport * World C * StreamBuf => conn (snd (fst r))).

Lemma touch_http1_input t w b : touch of_conn (conn w) (http1_input env t w b).
Proof. pose proof touch_input_loop. unfold http1_input, server_onInput, onInput. touches. Qed.
Hint Resolve touch_http1_input : touch.

Lemma touch_http2_input s w b : touch of_conn (conn w) (http2_input env s w b).
Proof. unfold http2_input. touches. Qed.
Hint Resolve touch_http2_input : touch.

(** The whole of a transport's input call. *)
Lemma touch_transport_onInput t w b : touch of_conn (conn w) (transport_onInput env (t, w) b).
Proof.
  unfold transport_onInput. destruct t as [|t|s]; [|touches|touches].
  unfold SwitchTransport_onInput. apply touch_pure. intros [maybe definitely]. touches.
Qed.

End http1.
End touches.
