(* ===== verification/ServerLoop.v ===== *)
(** The event loop: [Server::Impl] of [Server.cpp], with the connections it owns
    and the descriptors it opens and closes; [EventReceiver.cpp],
    [SignalReceiver.cpp]. *)
From stdpp Require Import gmap relations.
From S2P Require Import Prelude StreamBuf Sender Connection.

(** ** State *)

(** One answer of [accept4(2)]: a connection, with what its socket will answer
    (see [kernel]), EAGAIN, an error. *)
Inductive accept_answer :=
  NewClient (sends : list send_answer) (reads : list read_answer) (ctl : bool) | AcceptAgain | AcceptFailed.

Definition new_kernel (sends : list send_answer) (reads : list read_answer) (ctl : bool) : kernel :=
  mk_kernel [] sends reads None ctl [] [].

(** What an event's pointer points to. *)
Inductive receiver := Listener | Signals | Client (fd : Z).

(** The process as the kernel sees it: the descriptors it has open, the
    descriptors registered with epoll, those of connections and the server's own,
    what is waiting to be accepted, what reading the signal pipe returns, and the
    calls of [close(2)] on descriptors that were not open. *)
Record system := mk_system {
  open_fds : gset Z;
  watched : gset Z;
  watched_own : gmap Z receiver;
  accepts : list accept_answer;
  signal_read : Z;
  bad_closes : list Z
}.

(** A connection of the map [clients_], with the transport it owns. *)
Record client (T : Type) := mk_client { cl_transport : T; cl_conn : Connection }.
Arguments mk_client {T} cl_transport cl_conn.
Arguments cl_transport {T} c : rename.
Arguments cl_conn {T} c : rename.

Record ServerImpl (T : Type) := mk_ServerImpl {
  clients_ : gmap Z (client T);
  remove_clients_ : list Z;
  keep_running_ : bool;
  server_epfd_ : Z;
  listenfd_ : Z;
  sys : system
}.
Arguments mk_ServerImpl {T} clients_ remove_clients_ keep_running_ server_epfd_ listenfd_ sys.
Arguments clients_ {T} s : rename.
Arguments remove_clients_ {T} s : rename.
Arguments keep_running_ {T} s : rename.
Arguments server_epfd_ {T} s : rename.
Arguments listenfd_ {T} s : rename.
Arguments sys {T} s : rename.

(** EPOLLERR calls [onPollErr], which no receiver overrides. *)
Record epoll_event := mk_event { ev_target : receiver; ev_out : bool; ev_in : bool }.

Inductive wait_answer := Events (evs : list epoll_event) | Interrupted | WaitFailed.

(** What [read(2)] may be called for. *)
Fixpoint unread_octets (l : list read_answer) : nat :=
  match l with
  | [] => 0
  | Data d :: l => S (length d) + unread_octets l
  | _ :: l => S (unread_octets l)
  end.

Section server.
Context {T : Type} (new_T : T) (onInput : T -> Connection -> outcome (T * Connection)).
(** The descriptor that [accept4] gives, of those that are not open. *)
Context (pick_fd : gset Z -> Z).

Abbreviation Server := (ServerImpl T).

Definition with_sys (s : Server) (k : system) : Server :=
  mk_ServerImpl (clients_ s) (remove_clients_ s) (keep_running_ s) (server_epfd_ s) (listenfd_ s) k.
Definition with_clients (s : Server) (m : gmap Z (client T)) (q : list Z) (k : system) : Server :=
  mk_ServerImpl m q (keep_running_ s) (server_epfd_ s) (listenfd_ s) k.

Definition with_accepts (k : system) (l : list accept_answer) : system :=
  mk_system (open_fds k) (watched k) (watched_own k) l (signal_read k) (bad_closes k).
Definition with_watched (k : system) (w : gset Z) : system :=
  mk_system (open_fds k) w (watched_own k) (accepts k) (signal_read k) (bad_closes k).
Definition with_open (k : system) (fd : Z) : system :=
  mk_system ({[fd]} ∪ open_fds k) (watched k) (watched_own k) (accepts k) (signal_read k) (bad_closes k).

(** [::close(fd)] takes the descriptor out of every epoll set, too. *)
Definition sys_close (k : system) (fd : Z) : system :=
  if decide (fd ∈ open_fds k)
  then mk_system (open_fds k ∖ {[fd]}) (watched k ∖ {[fd]}) (delete fd (watched_own k)) (accepts k) (signal_read k) (bad_closes k)
  else mk_system (open_fds k) (watched k) (watched_own k) (accepts k) (signal_read k) (bad_closes k ++ [fd]).

(** ** A connection's part *)

(** What a connection did: its calls of [removeConnection] are in the queue, and
    its registration is the kernel's. *)
Definition settle (fd : Z) (cl : client T) (s : Server) : Server :=
  let c := cl_conn cl in
  let k := os c in
  let c' := with_os c (mk_kernel (wire k) (sends k) (reads k) (interest k) (ctl k) [] (closed k)) in
  let w := match interest k with Some _ => {[fd]} ∪ watched (sys s) | None => watched (sys s) ∖ {[fd]} end in
  with_clients s (<[fd := mk_client (cl_transport cl) c']> (clients_ s)) (remove_clients_ s ++ removed k)
    (with_watched (sys s) w).

(** A call through the pointer of an event. *)
Definition with_client (fd : Z) (f : client T -> outcome (client T)) (s : Server) : outcome Server :=
  match clients_ s !! fd with
  | None => Undef UseAfterFree
  | Some cl => cl ← f cl; Ret (settle fd cl s)
  end.

(** Enough for every octet that is to be read and every answer (see
    [onPollIn_safe]). *)
Definition read_fuel (c : Connection) : nat := S (unread_octets (reads (os c))).

Definition client_pollIn (cl : client T) : outcome (client T) :=
  '(t, c) ← onPollIn onInput (read_fuel (cl_conn cl)) (cl_transport cl) (cl_conn cl);
  Ret (mk_client t c).

Definition client_pollOut (cl : client T) : outcome (client T) :=
  c ← onPollOut (cl_conn cl);
  Ret (mk_client (cl_transport cl) c).

(** [~Connection] *)
Definition erase_client (fd : Z) (s : Server) : Server :=
  match clients_ s !! fd with
  | None => s
  | Some cl =>
      let c := close (cl_conn cl) in
      with_clients s (delete fd (clients_ s)) (remove_clients_ s ++ removed (os c))
        (if isOpen (cl_conn cl) then with_watched (sys s) (watched (sys s) ∖ {[fd]}) else sys s)
  end.

(** ** [Server::Impl] *)

Definition with_manager (c : Connection) : Connection := setConnectionManager c true.

Definition accept (s : Server) : outcome (bool * Server) :=
  match accepts (sys s) with
  | [] => Ret (false, s)
  | AcceptAgain :: l => Ret (false, with_sys s (with_accepts (sys s) l))
  | AcceptFailed :: l => Throw (runtime_error "accept4")
  | NewClient sends reads ctl :: l =>
      let client_fd := pick_fd (open_fds (sys s)) in
      let s := with_sys s (with_open (with_accepts (sys s) l) client_fd) in
      connection ← new_Connection (server_epfd_ s) client_fd (new_kernel sends reads ctl);
      let connection := with_manager connection in
      match clients_ s !! client_fd with
      | Some _ => Throw (logic_error "Accepted new connection with existing fd")
      | None =>
          s ← with_client client_fd client_pollIn (settle client_fd (mk_client new_T connection) s);
          Ret (true, s)
      end
  end.

(** [onPollIn]: an answer at a time. *)
Fixpoint accept_loop (fuel : nat) (s : Server) : outcome Server :=
  match fuel with
  | O => Undef OutOfFuel
  | S fuel => '(more, s) ← accept s; if (more : bool) then accept_loop fuel s else Ret s
  end.

Definition server_onPollIn (s : Server) : outcome Server := accept_loop (S (length (accepts (sys s)))) s.

(** [SignalReceiver::onPollIn] with the action of [Server::Impl]. *)
Definition signal_onPollIn (s : Server) : outcome Server :=
  let len := signal_read (sys s) in
  if len =? -1 then Throw (runtime_error "read")
  else if negb (len =? 4) then Throw (runtime_error "poll socket closed")
  else Ret (mk_ServerImpl (clients_ s) (remove_clients_ s) false (server_epfd_ s) (listenfd_ s) (sys s)).

Definition receiver_pollOut (target : receiver) (s : Server) : outcome Server :=
  match target with Client fd => with_client fd client_pollOut s | _ => Ret s end.

Definition receiver_pollIn (target : receiver) (s : Server) : outcome Server :=
  match target with
  | Client fd => with_client fd client_pollIn s
  | Listener => server_onPollIn s
  | Signals => signal_onPollIn s
  end.

Definition dispatch (s : Server) (event : epoll_event) : outcome Server :=
  s ← (if ev_out event then receiver_pollOut (ev_target event) s else Ret s);
  if ev_in event then receiver_pollIn (ev_target event) s else Ret s.

Fixpoint dispatch_all (events : list epoll_event) (s : Server) : outcome Server :=
  match events with
  | [] => Ret s
  | e :: events => s ← dispatch s e; dispatch_all events s
  end.

(** A connection that is destroyed while it is open asks to be removed. *)
Fixpoint remove_loop (fuel : nat) (s : Server) : outcome Server :=
  match remove_clients_ s with
  | [] => Ret s
  | fd :: _ =>
      match fuel with
      | O => Undef OutOfFuel
      | S fuel =>
          let s := erase_client fd (with_sys s (sys_close (sys s) fd)) in
          remove_loop fuel (with_clients s (clients_ s) (tail (remove_clients_ s)) (sys s))
      end
  end.

Definition remove_dead_clients (s : Server) : outcome Server :=
  remove_loop (length (remove_clients_ s) + size (clients_ s)) s.

Definition close_all_clients (s : Server) : Server :=
  foldl (fun s fd => erase_client fd s) s (elements (dom (clients_ s))).

Definition cleanup (s : Server) : Server :=
  let s := mk_ServerImpl (clients_ s) (remove_clients_ s) (keep_running_ s) (server_epfd_ s) (-1)
             (sys_close (sys s) (listenfd_ s)) in
  close_all_clients s.

(** The body of the loop. *)
Definition turn (events : list epoll_event) (s : Server) : outcome Server :=
  s ← dispatch_all events s;
  remove_dead_clients s.

(** Whether the loop has returned; if not, it waits for the next answer. *)
Fixpoint loop (answers : list wait_answer) (s : Server) : outcome (bool * Server) :=
  if negb (keep_running_ s) then Ret (true, cleanup s)
  else
    match answers with
    | [] => Ret (false, s)
    | Events events :: answers => s ← turn events s; loop answers s
    | Interrupted :: answers => s ← turn [] s; loop answers s
    | WaitFailed :: _ => Throw (runtime_error "epoll_wait")
    end.

End server.

(** ** The life of a connection

    Whatever is done to it, a connection keeps its descriptor until it is
    closed, once, and then tells its manager. *)

Definition core (c : Connection) : Z * bool * list Z * bool :=
  (fd_ c, manager_ c, removed (os c), bool_decide (interest (os c) = None)).

Definition unread (c : Connection) : nat := unread_octets (reads (os c)).

(** With what there is to read. *)
Definition frame (c : Connection) : Z * bool * list Z * bool * list read_answer := (core c, reads (os c)).

Definition closed_frame (c : Connection) : Z * bool * list Z * bool :=
  (-1, manager_ c, if manager_ c then removed (os c) ++ [fd_ c] else removed (os c), true).

Definition lives (c c' : Connection) : Prop :=
  (unread c' <= unread c)%nat /\ (core c' = core c \/ (isOpen c = true /\ core c' = closed_frame c)).

Lemma frame_alive c c' : frame c' = frame c -> lives c c'.
Proof. intros [= H1 H2 H3 H4 Hr]. split; [unfold unread; by rewrite Hr|left]. unfold core. congruence. Qed.

#[export] Instance lives_preorder : PreOrder lives.
Proof.
  split; [intros c; by apply frame_alive|].
  intros a b c [Hu1 Hab] [Hu2 Hbc]. split; [lia|]. revert Hab Hbc. intros [Hab|[Ho Hab]] [Hbc|[Ho' Hbc]].
  - left. congruence.
  - right. unfold isOpen, core, closed_frame in *. injection Hab as H1 H2 H3 _. rewrite H1 in Ho'. split; [done|].
    by rewrite Hbc, H1, H2, H3.
  - right. split; [done|congruence].
  - exfalso. unfold isOpen, core, closed_frame in *. injection Hab as H1 _ _ _. by rewrite H1 in Ho'.
Qed.

Lemma close_lives c : lives c (close c).
Proof.
  unfold lives, close, unread. destruct (fd_ c =? -1) eqn:E; [by split; [|left]|]. split; [done|right]. unfold isOpen. rewrite E. done.
Qed.

Lemma sys_send_frame c mem n r c' : sys_send c mem n = Ret (r, c') -> frame c' = frame c.
Proof.
  unfold sys_send. destruct (isClosed c); [by intros [= _ <-]|].
  destruct (sends (os c)) as [|[k| |] l]; try by intros [= _ <-].
  destruct (arr_slice mem 0 (Z.min n k)); try done. by intros [= _ <-].
Qed.

Lemma pollout_loop_frame fuel : forall c r c', pollout_loop fuel c = Ret (r, c') -> frame c' = frame c.
Proof.
  induction fuel as [|fuel IH]; intros c r c'; cbn [pollout_loop]; [done|]. intros H.
  apply bind_ret in H as ([r1 c1] & H1 & H). apply sys_send_frame in H1.
  destruct r1 as [n|]; [|by injection H as _ <-]. destruct (0 <? n); [|by injection H as _ <-].
  apply bind_ret in H as (b & _ & H). destruct (sb_isEmpty b); [by injection H as _ <-|].
  apply IH in H. by rewrite H.
Qed.

Lemma send_loop_frame fuel mem len : forall c total r n c',
  send_loop fuel c mem len total = Ret (r, n, c') -> frame c' = frame c.
Proof.
  induction fuel as [|fuel IH]; intros c total r n c'; cbn [send_loop]; [done|]. intros H.
  apply bind_ret in H as ([r1 c1] & H1 & H). apply sys_send_frame in H1.
  destruct r1 as [k|]; [|by injection H as _ _ <-]. destruct (0 <? k); [|by injection H as _ _ <-].
  destruct (total + k <? len); [|by injection H as _ _ <-]. apply IH in H. by rewrite H.
Qed.

Lemma updateSubscription_frame c c' : updateSubscription c = Ret c' -> frame c' = frame c.
Proof.
  unfold updateSubscription. destruct (_ || _) eqn:E; [done|]. intros [= <-]. apply orb_false_iff in E as [_ E].
  unfold frame, core. cbn. by rewrite E.
Qed.

(** Close, then nothing, or nothing that shows. *)
Lemma frame_lives c c1 c' : frame c1 = frame c -> lives c1 c' -> lives c c'.
Proof. intros Hf Hl. etrans; [by apply frame_alive|done]. Qed.

Lemma onPollOut_lives c c' : onPollOut c = Ret c' -> lives c c'.
Proof.
  unfold onPollOut. destruct (sb_isEmpty (outgoing_ c)); intros H; [by apply frame_alive, updateSubscription_frame|].
  apply bind_ret in H as ([r c1] & H1 & H). apply pollout_loop_frame in H1. apply (frame_lives c c1); [done|].
  assert ((if sb_isEmpty (outgoing_ c1) then updateSubscription c1 else Ret c1) = Ret c' -> lives c1 c') as Hrest.
  { destruct (sb_isEmpty (outgoing_ c1)); [intros Hu; by apply frame_alive, updateSubscription_frame|by intros [= <-]]. }
  destruct r as [n|[]]; [by apply Hrest|by apply Hrest|]. injection H as <-. apply close_lives.
Qed.

Lemma send_lives c mem len c' : Connection_send c mem len = Ret c' -> lives c c'.
Proof.
  unfold Connection_send. destruct (sb_isEmpty (outgoing_ c)); intros H.
  - apply bind_ret in H as ([[r n] c1] & H1 & H). apply send_loop_frame in H1. apply (frame_lives c c1); [done|].
    assert ((if n <? len then data ← arr_slice mem n (len - n); b ← sb_write (outgoing_ c1) data;
             Ret (with_outgoing c1 b) else Ret c1) = Ret c' -> lives c1 c') as Hrest.
    { destruct (n <? len); [|by intros [= <-]]. intros Hu. apply bind_ret in Hu as (d & _ & Hu).
      apply bind_ret in Hu as (b & _ & Hu). injection Hu as <-. by apply frame_alive. }
    destruct r as [[|k|k]|[]]; try (by apply Hrest); injection H as <-; apply close_lives.
  - apply bind_ret in H as (d & _ & H). apply bind_ret in H as (b & _ & H). apply onPollOut_lives in H.
    by apply (frame_lives c (with_outgoing c b)).
Qed.

Lemma sys_read_lives c n r l c' :
  sys_read c n = (r, l, c') -> lives c c' /\ (forall k, r = Count k -> 0 < k -> (unread c' < unread c)%nat).
Proof.
  assert (forall c', (unread c' <= unread c)%nat -> core c' = core c -> lives c c') as Hcore by (intros c1 H1 H2; split; [done|by left]).
  unfold sys_read. destruct (isClosed c); [intros [= <- _ <-]; by split|].
  destruct (reads (os c)) as [|[d| | |] rest] eqn:Er.
  - intros [= <- _ <-]. by split.
  - destruct (Z.leb_spec (zlen d) n); intros [= <- _ <-].
    + split; [apply Hcore; [|done]|intros k _ _]; unfold unread; cbn; rewrite Er; cbn; lia.
    + assert ((length (drop (Z.to_nat n) d) <= length d)%nat) by (rewrite length_drop; lia).
      split; [apply Hcore; [|done]|intros k [= <-] Hk]; unfold unread; cbn; rewrite Er; cbn; [lia|].
      rewrite length_drop. unfold zlen in *. lia.
  - intros [= <- _ <-]. split; [done|]. intros k [= <-]. lia.
  - intros [= <- _ <-]. split; [apply Hcore; [unfold unread; cbn; rewrite Er; cbn; lia|done]|done].
  - intros [= <- _ <-]. split; [apply Hcore; [unfold unread; cbn; rewrite Er; cbn; lia|done]|done].
Qed.

Lemma conn_step_lives c c' : conn_step c c' -> lives c c'.
Proof.
  destruct 1 as [c mem len c' H|c t|c c' H|c n r l c' H|c b|c].
  - by apply (send_lives c mem len).
  - by apply frame_alive.
  - by apply onPollOut_lives.
  - by apply (sys_read_lives c n r l).
  - by apply frame_alive.
  - apply close_lives.
Qed.

(** ** The invariant *)

(** What the server asks of a transport: that it reaches its connection through
    the connection's operations. *)
Class Tame {T} (onInput : T -> Connection -> outcome (T * Connection)) : Prop :=
  tame : forall t c t' c', onInput t c = Ret (t', c') -> rtc conn_step c c'.

Section invariant.
Context {T : Type} (onInput : T -> Connection -> outcome (T * Connection)) `{!Tame onInput}.
(** The descriptors that are not a connection's: the listener's, those of epoll
    and of the signal pipe, the standard streams. *)
Context (base : gset Z).

(** A connection of the server is open and registered, or closed and in the
    queue to be removed. *)
Definition client_ok (q : list Z) (w : gset Z) (fd : Z) (cl : client T) : Prop :=
  let c := cl_conn cl in
  manager_ c = true /\ removed (os c) = [] /\ 0 <= fd /\
  ((fd_ c = fd /\ interest (os c) <> None /\ (fd ∉ q) /\ fd ∈ w) \/
   (fd_ c = -1 /\ interest (os c) = None /\ fd ∈ q /\ (fd ∉ w))).

Record server_ok (s : ServerImpl T) : Prop := mk_server_ok {
  so_clients : map_Forall (client_ok (remove_clients_ s) (watched (sys s))) (clients_ s);
  so_queue : NoDup (remove_clients_ s) /\ (forall fd, fd ∈ remove_clients_ s -> fd ∈ dom (clients_ s));
  so_open : open_fds (sys s) = base ∪ dom (clients_ s) /\ base ## dom (clients_ s);
  so_watched : watched (sys s) ⊆ dom (clients_ s);
  so_listen : listenfd_ s ∈ base;
  so_closes : bad_closes (sys s) = []
}.

(** The exception that must not come up. *)
Definition duplicate : exn := logic_error "Accepted new connection with existing fd".

(** What the server may fail with: [duplicate], the use of a connection that is
    gone, or a loop without end, only if it is a transport that does. *)
Definition blames_e (e : exn) : Prop := e = duplicate -> exists t c, onInput t c = Throw e.
Definition blames_f (u : fault) : Prop := u = UseAfterFree \/ u = OutOfFuel -> exists t c, onInput t c = Undef u.

Abbreviation safely P := (sat P blames_e blames_f).

Lemma safely_when {A} (P : A -> Prop) (m : outcome A) :
  safely (fun _ => True) m -> (forall a, m = Ret a -> P a) -> safely P m.
Proof. destruct m; cbn; auto. Qed.

Ltac harmless :=
  repeat match goal with
  | |- sat _ _ _ (_ ≫= _) => apply sat_bind with (Q := fun _ => True); [|intros ? _]
  | |- sat _ _ _ (match ?x with _ => _ end) => destruct x
  | |- sat _ _ _ (Ret _) => exact I
  | |- sat _ _ _ (Throw _) => by intros ?
  | |- sat _ _ _ (Undef _) => by intros [?|?]
  end.

Lemma harmless_slice {A} (l : list A) i n : safely (fun _ => True) (arr_slice l i n).
Proof. unfold arr_slice. harmless. Qed.

Lemma harmless_blit {A} (l k : list A) i : safely (fun _ => True) (arr_blit l i k).
Proof. unfold arr_blit. harmless. Qed.

Lemma harmless_advance b n : safely (fun _ => True) (sb_advance b n).
Proof. unfold sb_advance. harmless; apply harmless_slice || apply harmless_blit. Qed.

Lemma harmless_grow b : safely (fun _ => True) (sb_grow b).
Proof. unfold sb_grow, sb_reserve, vector_resize. harmless. Qed.

Lemma advance_shorter b n b' : sb_advance b n = Ret b' -> 0 < n -> sb_size b' <= Z.max 0 (sb_size b - n).
Proof.
  unfold sb_advance, sb_size. destruct (_ <? n); [done|]. destruct (n =? _); [intros [= <-] _; cbn; lia|]. intros Hb _.
  apply bind_ret in Hb as (s & _ & Hb). apply bind_ret in Hb as (v & _ & Hb). injection Hb as <-. cbn. lia.
Qed.

Lemma harmless_pollOut c : safely (fun _ => True) (onPollOut c).
Proof.
  assert (forall fuel c, (Z.to_nat (sb_size (outgoing_ c)) < fuel)%nat -> safely (fun _ => True) (pollout_loop fuel c)) as Hloop.
  { induction fuel as [|fuel IH]; intros c0 Hf; cbn [pollout_loop]; [lia|].
    apply sat_bind with (Q := fun r => (forall n, fst r = Count n -> n <= sb_size (outgoing_ c0)) /\ outgoing_ (snd r) = outgoing_ c0).
    { unfold sys_send. destruct (isClosed c0); [by split|]. destruct (sends (os c0)) as [|[k| |] l]; try by split.
      apply sat_bind with (Q := fun _ => True); [apply harmless_slice|]. intros d _. split; [|done]. intros n [= <-]. lia. }
    intros [[n|e] c1] [Hn Ho]; [|done]. destruct (Z.ltb_spec 0 n); [|done]. cbn in Hn, Ho. specialize (Hn n eq_refl).
    destruct (sb_advance (outgoing_ c1) n) as [b|e|u] eqn:Hb; cbn [mbind outcome_bind].
    - apply advance_shorter in Hb; [|done]. rewrite Ho in Hb. destruct (sb_isEmpty b); [done|]. apply IH. cbn. lia.
    - pose proof (harmless_advance (outgoing_ c1) n) as Hh. by rewrite Hb in Hh.
    - pose proof (harmless_advance (outgoing_ c1) n) as Hh. by rewrite Hb in Hh. }
  unfold onPollOut, updateSubscription. harmless. apply Hloop. lia.
Qed.

Lemma onPollOut_safe c : safely (lives c) (onPollOut c).
Proof. apply safely_when; [apply harmless_pollOut|apply onPollOut_lives]. Qed.

Lemma onInput_safe t c : safely (fun r => lives c (snd r)) (onInput t c).
Proof.
  destruct (onInput t c) as [[t' c']|e|u] eqn:E; cbn.
  - apply tame in E. induction E as [|x y z Hxy _ IH]; [done|]. etrans; [by apply conn_step_lives|done].
  - intros _. by exists t, c.
  - intros _. by exists t, c.
Qed.

(** The fuel of [client_pollIn] is enough. *)
Lemma onPollIn_safe fuel : forall t c, (unread c < fuel)%nat -> safely (fun r => lives c (snd r)) (onPollIn onInput fuel t c).
Proof.
  induction fuel as [|fuel IH]; intros t c Hf; cbn [onPollIn]; [lia|].
  apply sat_bind with (Q := fun _ => True); [apply harmless_grow|]. intros b _.
  destruct (sys_read (with_incoming c b) (sb_tailroom b)) as [[r data] c1] eqn:Er. apply sys_read_lives in Er as [Hl1 Hless].
  assert (lives c c1) as Hl by (etrans; [by apply (frame_alive c (with_incoming c b))|done]). change (unread (with_incoming c b)) with (unread c) in Hless.
  assert (lives c (close c1)) as Hlc by (etrans; [exact Hl|apply close_lives]).
  destruct r as [n|[]]; [|done|exact Hlc]. destruct (Z.ltb_spec 0 n); [|exact Hlc]. clear Hlc. specialize (Hless n eq_refl ltac:(done)).
  apply sat_bind with (Q := fun _ => True); [apply harmless_blit|]. intros buf _.
  eapply sat_bind; [apply onInput_safe|]. intros [t' c'] Hl'. cbn [snd] in Hl'.
  assert (lives c1 c') as Hl1' by (etrans; [by apply (frame_alive c1 (with_incoming c1 (sb_addTailContent (mk_StreamBuf (in_use_ b) buf) n)))|done]).
  assert (lives c c') as Hlc by (by etrans). destruct (isOpen c'); [|done].
  eapply sat_mono; [apply IH|intros r Hr; by etrans|done|done]. destruct Hl1' as [? _]. lia.
Qed.

(** ** One connection's turn *)

(** What a call may do to a client of the server. *)
Lemma settle_ok fd cl cl' s :
  server_ok s -> clients_ s !! fd = Some cl -> lives (cl_conn cl) (cl_conn cl') ->
  server_ok (settle fd cl' s) /\ dom (clients_ (settle fd cl' s)) = dom (clients_ s).
Proof.
  intros [Hcl [Hnd Hq] Hop Hw Hls Hbad] Hfd Hl. unfold settle. set (c := cl_conn cl) in *. set (c' := cl_conn cl') in *.
  assert (dom (<[fd := mk_client (cl_transport cl') (with_os c' (mk_kernel (wire (os c')) (sends (os c')) (reads (os c'))
             (interest (os c')) (ctl (os c')) [] (closed (os c'))))]> (clients_ s)) = dom (clients_ s)) as Hdom.
  { rewrite dom_insert_L. apply elem_of_dom_2 in Hfd. set_solver. }
  assert (fd ∈ dom (clients_ s)) as Hind by (by eapply elem_of_dom_2).
  destruct (Hcl fd cl Hfd) as (Hm & Hr & Hpos & Hcase). fold c in Hm, Hr, Hcase.
  assert (interest (os c') = None /\ fd_ c' = -1 /\ manager_ c' = true /\
            (fd_ c = -1 /\ removed (os c') = [] \/ fd_ c = fd /\ removed (os c') = [fd]) \/
          interest (os c') <> None /\ fd_ c' = fd /\ manager_ c' = true /\ removed (os c') = [] /\ fd_ c = fd) as Hcase'.
  { destruct Hl as [_ Hl]. unfold core, closed_frame in Hl. rewrite Hm, Hr in Hl. destruct Hl as [Hl|[Ho Hl]].
    - injection Hl as H1 H2 H3 H4. rewrite H1, H2, H3. destruct Hcase as [(Hf & Hi & _)|(Hf & Hi & _)].
      + right. rewrite (bool_decide_eq_false_2 (interest (os c) = None)) in H4 by done.
        apply bool_decide_eq_false in H4. done.
      + left. rewrite (bool_decide_eq_true_2 (interest (os c) = None)) in H4 by done. apply bool_decide_eq_true in H4. by repeat (split; [done|]); left.
    - injection Hl as H1 H2 H3 H4. apply bool_decide_eq_true in H4. left. rewrite H1, H2, H3.
      unfold isOpen in Ho. destruct Hcase as [(Hf & _)|(Hf & _)]; rewrite Hf in *; [|done].
      repeat (split; [done|]). right. done. }
  clear Hl. split; [|exact Hdom].
  assert (fd_ c = fd -> (fd ∉ remove_clients_ s) /\ fd ∈ watched (sys s)) as Hopen.
  { intros Hf. destruct Hcase as [(_ & _ & ? & ?)|(Hf' & _)]; [done|lia]. }
  assert (fd_ c = -1 -> fd ∈ remove_clients_ s /\ (fd ∉ watched (sys s))) as Hclosed.
  { intros Hf. destruct Hcase as [(Hf' & _)|(_ & _ & ? & ?)]; [lia|done]. }
  split; cbn [clients_ remove_clients_ sys listenfd_ with_clients with_watched watched open_fds bad_closes]; try done.
  - intros fd2 cl2 Hl2. destruct (decide (fd2 = fd)) as [->|Hne].
    + rewrite lookup_insert_eq in Hl2. injection Hl2 as <-. unfold client_ok. cbn.
      destruct Hcase' as [(Hi & Hf & Hm' & Hrem)|(Hi & Hf & Hm' & Hrem & Hfc)].
      * split; [done|]. split; [done|]. split; [done|]. right. rewrite Hi. split; [done|]. split; [done|].
        destruct Hrem as [[Hfc ->]|[Hfc ->]]; [destruct (Hclosed Hfc); rewrite app_nil_r|]; set_solver.
      * split; [done|]. split; [done|]. split; [done|]. left. destruct (Hopen Hfc). rewrite Hrem, app_nil_r.
        destruct (interest (os c')) eqn:Ei; [|done]. set_solver.
    + rewrite lookup_insert_ne in Hl2 by done. destruct (Hcl fd2 cl2 Hl2) as (? & ? & ? & Hc2). unfold client_ok.
      split; [done|]. split; [done|]. split; [done|].
      assert (fd2 ∉ removed (os c')) as Hnr by (destruct Hcase' as [(_ & _ & _ & [[_ ->]|[_ ->]])|(_ & _ & _ & -> & _)]; set_solver).
      destruct (interest (os c')); set_solver.
  - destruct Hcase' as [(_ & _ & _ & [[_ ->]|[Hfc ->]])|(_ & _ & _ & -> & _)]; rewrite ?app_nil_r; [by rewrite Hdom| |by rewrite Hdom].
    destruct (Hopen Hfc). split; [|rewrite Hdom; set_solver]. apply NoDup_app. split; [done|].
    split; [set_solver|apply NoDup_singleton].
  - by rewrite Hdom.
  - rewrite Hdom. destruct (interest (os c')); set_solver.
Qed.

Lemma with_client_ok fd f s :
  server_ok s -> fd ∈ dom (clients_ s) ->
  (forall cl : client T, safely (fun cl' : client T => lives (cl_conn cl) (cl_conn cl')) (f cl)) ->
  safely (fun s' => server_ok s' /\ dom (clients_ s') = dom (clients_ s) /\ accepts (sys s') = accepts (sys s)) (with_client fd f s).
Proof.
  intros Hok Hfd Hf. apply elem_of_dom in Hfd as [cl Hcl]. unfold with_client. rewrite Hcl.
  eapply sat_bind; [apply Hf|]. intros cl' Hl. destruct (settle_ok fd cl cl' s Hok Hcl Hl) as [Hs Hd]. by split.
Qed.

Lemma client_pollIn_safe (cl : client T) : safely (fun cl' : client T => lives (cl_conn cl) (cl_conn cl')) (client_pollIn onInput cl).
Proof. eapply sat_bind; [apply onPollIn_safe; unfold read_fuel, unread; lia|]. by intros [t c]. Qed.

Lemma client_pollOut_safe (cl : client T) : safely (fun cl' : client T => lives (cl_conn cl) (cl_conn cl')) (client_pollOut cl).
Proof. eapply sat_bind; [apply onPollOut_safe|]. by intros c. Qed.

(** ** Accepting *)

Section accepting.
Context (new_T : T) (pick_fd : gset Z -> Z) (Hpick : forall X, (pick_fd X ∉ X) /\ 0 <= pick_fd X).

Lemma added_ok s l epfd sends reads ctl c :
  let fd := pick_fd (open_fds (sys s)) in
  server_ok s -> new_Connection epfd fd (new_kernel sends reads ctl) = Ret c ->
  let s' := settle fd (mk_client new_T (with_manager c)) (with_sys s (with_open (with_accepts (sys s) l) fd)) in
  server_ok s' /\ dom (clients_ s') = {[fd]} ∪ dom (clients_ s).
Proof.
  intros fd [Hcl [Hnd Hq] [Hop Hdis] Hw Hls Hbad] Hnew s'. unfold s', settle. clear s'.
  destruct (Hpick (open_fds (sys s))) as [Hfresh Hpos]. fold fd in Hfresh, Hpos. clear Hpick.
  unfold new_Connection in Hnew. destruct (epfd <? 0); [done|]. destruct (fd <? 0); [done|]. cbn in Hnew.
  destruct ctl; [|done]. injection Hnew as <-. cbn. rewrite app_nil_r. split; [|by rewrite dom_insert_L].
  split; cbn.
  - intros fd2 cl2 Hl2. destruct (decide (fd2 = fd)) as [->|Hne].
    + rewrite lookup_insert_eq in Hl2. injection Hl2 as <-. unfold client_ok. cbn.
      do 3 (split; [done|]). left. set_solver.
    + rewrite lookup_insert_ne in Hl2 by done. destruct (Hcl fd2 cl2 Hl2) as (? & ? & ? & Hc2). unfold client_ok.
      do 3 (split; [done|]). set_solver.
  - rewrite dom_insert_L. split; [done|]. set_solver.
  - rewrite dom_insert_L. set_solver.
  - rewrite dom_insert_L. set_solver.
  - done.
  - done.
Qed.

(** The server is well formed and has lost none of its clients. *)
Definition grows (s s' : ServerImpl T) : Prop := server_ok s' /\ dom (clients_ s) ⊆ dom (clients_ s').

Lemma grows_trans a b c : grows a b -> grows b c -> grows a c.
Proof. intros [_ Hab] [Hc Hbc]. split; [done|set_solver]. Qed.

Lemma with_client_grows fd f s :
  server_ok s -> fd ∈ dom (clients_ s) ->
  (forall cl : client T, safely (fun cl' : client T => lives (cl_conn cl) (cl_conn cl')) (f cl)) ->
  safely (grows s) (with_client fd f s).
Proof.
  intros Hok Hfd Hf. eapply sat_mono; [by apply with_client_ok| |done|done].
  intros s' [Hs' [Hd _]]. split; [done|set_solver].
Qed.

(** The descriptor of an accepted connection is never one of a client's. *)
Lemma accept_ok s :
  server_ok s ->
  safely (fun r => grows s (snd r) /\ (fst r = true -> (length (accepts (sys (snd r))) < length (accepts (sys s)))%nat))
    (accept new_T onInput pick_fd s).
Proof.
  intros Hok. pose proof Hok as [Hcl Hq [Hop Hdis] Hw Hls Hbad]. unfold accept.
  destruct (accepts (sys s)) as [|[sends reads ctl| |] l]; [by split; [split|]| |by split; [split|]|by intros ?].
  set (fd := pick_fd _). cbn [sys server_epfd_ clients_ with_sys].
  destruct (new_Connection (server_epfd_ s) fd (new_kernel sends reads ctl)) as [c|e|u] eqn:Hnew; cbn [mbind outcome_bind].
  - destruct (clients_ s !! fd) as [cl|] eqn:Hfd.
    { apply elem_of_dom_2 in Hfd. destruct (Hpick (open_fds (sys s))) as [Hn _]. unfold fd in Hfd. set_solver. }
    destruct (added_ok s l (server_epfd_ s) sends reads ctl c Hok Hnew) as [Hadd Hdom]. fold fd in Hadd, Hdom.
    set (s1 := settle _ _ _) in *. eapply sat_bind.
    { apply (with_client_ok fd); [done| |by apply client_pollIn_safe]. rewrite Hdom. set_solver. }
    intros s' (Hs' & Hd & Ha). split; [split; [done|set_solver]|]. intros _. cbn [snd]. rewrite Ha. cbn. lia.
  - unfold new_Connection in Hnew. cbn in Hnew. repeat case_match; simplify_eq; by intros ?.
  - unfold new_Connection in Hnew. cbn in Hnew. repeat case_match; simplify_eq.
Qed.

Lemma accept_loop_ok fuel : forall s,
  server_ok s -> (length (accepts (sys s)) < fuel)%nat -> safely (grows s) (accept_loop new_T onInput pick_fd fuel s).
Proof.
  induction fuel as [|fuel IH]; intros s Hok Hf; cbn [accept_loop]; [lia|].
  eapply sat_bind; [by apply accept_ok|]. intros [more s1] [Hg Hless]. cbn [fst snd] in Hg, Hless.
  destruct more; [|done]. specialize (Hless eq_refl).
  eapply sat_mono; [apply IH; [apply Hg|lia]|intros s' Hs'|done|done]. by apply (grows_trans s s1).
Qed.

(** ** Events *)

(** epoll reports a connection only while it is registered. *)
Definition live (s : ServerImpl T) (e : epoll_event) : Prop :=
  match ev_target e with Client fd => fd ∈ watched (sys s) | _ => True end.

Definition knows (s : ServerImpl T) (e : epoll_event) : Prop :=
  match ev_target e with Client fd => fd ∈ dom (clients_ s) | _ => True end.

Lemma live_knows s e : server_ok s -> live s e -> knows s e.
Proof. intros Hok. unfold live, knows. destruct (ev_target e); try done. apply (so_watched s Hok). Qed.

Lemma grows_knows s s' e : grows s s' -> knows s e -> knows s' e.
Proof. intros [_ H]. unfold knows. destruct (ev_target e); try done. set_solver. Qed.

Lemma signal_ok s : server_ok s -> safely (grows s) (signal_onPollIn s).
Proof.
  intros Hok. unfold signal_onPollIn. destruct (_ =? -1); [by intros ?|]. destruct (negb _); [by intros ?|].
  split; [|done]. destruct Hok. by split.
Qed.

Lemma dispatch_event_ok s e : server_ok s -> knows s e -> safely (grows s) (dispatch new_T onInput pick_fd s e).
Proof.
  intros Hok Hk. unfold dispatch. apply sat_bind with (Q := grows s).
  - destruct (ev_out e); [|by split]. unfold knows in Hk. destruct (ev_target e); [by split|by split|].
    apply with_client_grows; [done|done|apply client_pollOut_safe].
  - intros s1 Hg. destruct (ev_in e); [|done]. pose proof (grows_knows _ _ _ Hg Hk) as Hk1.
    apply (sat_mono (grows s1)) with (E := blames_e) (F := blames_f); [|intros s2; by apply grows_trans|done|done].
    destruct Hg as [Hs1 _]. unfold knows in Hk1. destruct (ev_target e).
    + apply accept_loop_ok; [done|lia].
    + by apply signal_ok.
    + apply with_client_grows; [done|done|apply client_pollIn_safe].
Qed.

Lemma dispatch_all_ok events : forall s,
  server_ok s -> Forall (knows s) events -> safely (grows s) (dispatch_all new_T onInput pick_fd events s).
Proof.
  induction events as [|e events IH]; intros s Hok Hk; [by split|].
  apply Forall_cons in Hk as [He Hk]. cbn [dispatch_all]. eapply sat_bind; [by apply dispatch_event_ok|].
  intros s1 Hg. eapply sat_mono; [apply IH|intros s2; by apply grows_trans|done|done]; [apply Hg|].
  eapply Forall_impl; [done|]. intros e'. by apply grows_knows.
Qed.

End accepting.

(** ** Removing *)

Definition remove_one (fd : Z) (s : ServerImpl T) : ServerImpl T :=
  let s := erase_client fd (with_sys s (sys_close (sys s) fd)) in
  with_clients s (clients_ s) (tail (remove_clients_ s)) (sys s).

(** A connection in the queue is closed already: to destroy it changes nothing else. *)
Lemma remove_one_ok s fd q :
  server_ok s -> remove_clients_ s = fd :: q ->
  let s' := remove_one fd s in
  server_ok s' /\ remove_clients_ s' = q /\ clients_ s' = delete fd (clients_ s) /\ keep_running_ s' = keep_running_ s.
Proof.
  intros [Hcl [Hnd Hq] [Hop Hdis] Hw Hls Hbad] Eq s'. rewrite Eq in *.
  apply NoDup_cons in Hnd as [Hnin Hnd]. assert (fd ∈ dom (clients_ s)) as Hfd by (apply Hq; left).
  pose proof Hfd as Hfd'. apply elem_of_dom in Hfd' as [cl Hl]. destruct (Hcl fd cl Hl) as (Hm & Hr & Hpos & Hc).
  destruct Hc as [(_ & _ & Hn & _)|(Hf & Hi & _ & Hnw)]; [exfalso; apply Hn; left|].
  unfold s', remove_one, erase_client, sys_close. rewrite decide_True by set_solver. cbn. rewrite Hl, Eq.
  unfold close, isOpen. rewrite Hf. cbn. rewrite Hr, app_nil_r. split; [|done].
  split; cbn.
  - intros fd2 cl2 Hl2. apply lookup_delete_Some in Hl2 as [Hne Hl2]. destruct (Hcl fd2 cl2 Hl2) as (? & ? & ? & Hc2).
    unfold client_ok. do 3 (split; [done|]). set_solver.
  - split; [done|]. intros fd2 H2. rewrite dom_delete_L. set_solver.
  - rewrite dom_delete_L, Hop. split; [|set_solver]. rewrite difference_union_distr_l_L. f_equal. set_solver.
  - rewrite dom_delete_L. set_solver.
  - done.
  - done.
Qed.

Lemma remove_loop_ok fuel : forall s,
  server_ok s -> (length (remove_clients_ s) <= fuel)%nat ->
  exists s', remove_loop fuel s = Ret s' /\ server_ok s' /\ remove_clients_ s' = [] /\
             clients_ s' = filter (fun p => fst p ∉ remove_clients_ s) (clients_ s) /\
             keep_running_ s' = keep_running_ s.
Proof.
  induction fuel as [|fuel IH]; intros s Hok Hlen;
    (destruct (remove_clients_ s) as [|fd q] eqn:Eq; cbn in Hlen; [|try lia]).
  1,2: exists s; cbn [remove_loop]; rewrite Eq; do 3 (split; [done|]); split; [|done];
    symmetry; apply map_filter_id; intros; apply not_elem_of_nil.
  destruct (remove_one_ok s fd q Hok Eq) as (Hok1 & Eq1 & Ec1 & Hk1).
  destruct (IH (remove_one fd s) Hok1) as (s' & Hrun & Hok' & Hq' & Hc' & Hk'); [rewrite Eq1; lia|].
  exists s'. cbn [remove_loop]. rewrite Eq. split; [exact Hrun|]. do 2 (split; [done|]). split; [|by rewrite Hk', Hk1].
  rewrite Hc', Ec1, Eq1. apply map_eq. intros i. apply option_eq. intros x.
  rewrite !map_lookup_filter_Some, lookup_delete_Some. cbn. rewrite not_elem_of_cons. naive_solver.
Qed.

Lemma remove_dead_clients_ok s :
  server_ok s ->
  exists s', remove_dead_clients s = Ret s' /\ server_ok s' /\ remove_clients_ s' = [] /\
             clients_ s' = filter (fun p => fst p ∉ remove_clients_ s) (clients_ s) /\
             keep_running_ s' = keep_running_ s.
Proof. intros Hok. apply remove_loop_ok; [done|lia]. Qed.

(** ** Turns *)

(** A server whose loop starts: it has its own descriptors, and no client. *)
Definition started (s : ServerImpl T) : Prop :=
  clients_ s = ∅ /\ remove_clients_ s = [] /\ watched (sys s) = ∅ /\ bad_closes (sys s) = [] /\
  open_fds (sys s) = base /\ listenfd_ s ∈ base.

(** Every client is open under the descriptor the map knows it by, which epoll
    watches; nothing waits to be removed; the descriptors that are open are the
    server's own and its clients'; none was closed twice. *)
Definition tidy (s : ServerImpl T) : Prop :=
  map_Forall (fun fd cl => fd_ (cl_conn cl) = fd /\ fd ∈ watched (sys s)) (clients_ s) /\
  remove_clients_ s = [] /\ bad_closes (sys s) = [] /\ watched (sys s) = dom (clients_ s) /\
  open_fds (sys s) = base ∪ dom (clients_ s) /\ base ## dom (clients_ s).

Lemma started_ok s : started s -> server_ok s /\ remove_clients_ s = [].
Proof.
  intros (Hc & Hq & Hw & Hb & Ho & Hl). split; [|done]. split; rewrite ?Hc, ?Hq, ?Hw, ?Ho; try done.
  - split; [constructor|]. intros fd H. by apply elem_of_nil in H.
  - set_solver.
Qed.

Lemma server_ok_tidy s : server_ok s -> remove_clients_ s = [] -> tidy s.
Proof.
  intros [Hcl Hq [Hop Hdis] Hw Hls Hbad] Eq. assert (map_Forall (fun fd cl => fd_ (cl_conn cl) = fd /\ fd ∈ watched (sys s)) (clients_ s)) as Hall.
  { intros fd cl Hl. destruct (Hcl fd cl Hl) as (_ & _ & _ & [(? & _ & _ & ?)|(_ & _ & Hin & _)]); [done|].
    rewrite Eq in Hin. by apply elem_of_nil in Hin. }
  do 3 (split; [done|]). split; [|done]. apply set_eq. intros fd. split; [apply Hw|].
  intros [cl Hl]%elem_of_dom. by apply (Hall fd cl).
Qed.

Section turns.
Context (new_T : T) (pick_fd : gset Z -> Z) (Hpick : forall X, (pick_fd X ∉ X) /\ 0 <= pick_fd X).

Inductive reachable : ServerImpl T -> Prop :=
  | reach_start s : started s -> reachable s
  | reach_turn s events s' :
      reachable s -> Forall (live s) events -> turn new_T onInput pick_fd events s = Ret s' -> reachable s'.

Lemma turn_ok s events :
  server_ok s -> Forall (live s) events ->
  safely (fun s' => server_ok s' /\ remove_clients_ s' = []) (turn new_T onInput pick_fd events s).
Proof.
  intros Hok Hl. unfold turn. eapply sat_bind; [apply dispatch_all_ok; [done|done|]|].
  - eapply Forall_impl; [exact Hl|]. intros e. by apply live_knows.
  - intros s1 [Hok1 _]. by destruct (remove_dead_clients_ok s1 Hok1) as (s' & -> & ? & ? & _).
Qed.

Lemma reachable_ok s : reachable s -> server_ok s /\ remove_clients_ s = [].
Proof.
  induction 1 as [s Hs|s events s' _ [Hok _] Hl Hturn]; [by apply started_ok|].
  pose proof (turn_ok s events Hok Hl) as H. by rewrite Hturn in H.
Qed.

End turns.

End invariant.

(** ** What only some steps change *)

Section keeping.
Context {T B : Type} (new_T : T) (onInput : T -> Connection -> outcome (T * Connection)) (pick_fd : gset Z -> Z).

(** Something of the server that the clients, the queue and the descriptors are
    no part of. *)
Context (f : ServerImpl T -> B)
  (Hf : forall s m q k, signal_read k = signal_read (sys s) -> f (with_clients s m q k) = f s).

Abbreviation keeps s m := (sat (fun s' : ServerImpl T => f s' = f s) (fun _ => True) (fun _ => True) m).

Lemma with_sys_keeps (s : ServerImpl T) k : signal_read k = signal_read (sys s) -> f (with_sys s k) = f s.
Proof. apply (Hf s (clients_ s) (remove_clients_ s)). Qed.

Lemma with_client_keeps fd g (s : ServerImpl T) : keeps s (with_client fd g s).
Proof. unfold with_client. destruct (clients_ s !! fd); [|done]. destruct (g c); [|done..]. by apply Hf. Qed.

Lemma accept_loop_keeps fuel : forall s : ServerImpl T, keeps s (accept_loop new_T onInput pick_fd fuel s).
Proof.
  induction fuel as [|fuel IH]; intros s; cbn [accept_loop]; [done|].
  apply sat_bind with (Q := fun r => f (snd r) = f s).
  - unfold accept. destruct (accepts (sys s)) as [|[sends reads ctl| |] l]; try done; [|by apply with_sys_keeps].
    destruct (new_Connection _ _ _); cbn [mbind outcome_bind]; try done. cbn [clients_ with_sys].
    destruct (clients_ s !! _); [done|]. eapply sat_bind; [apply with_client_keeps|]. intros s' Hs'. cbn.
    rewrite Hs'. unfold settle. rewrite Hf by done. by apply with_sys_keeps.
  - intros [more s'] Hr. cbn in Hr. destruct more; [|done]. rewrite <- Hr. apply IH.
Qed.

Lemma sys_close_signal k fd : signal_read (sys_close k fd) = signal_read k.
Proof. unfold sys_close. by destruct (decide _). Qed.

Lemma erase_client_keeps fd (s : ServerImpl T) : f (erase_client fd s) = f s.
Proof. unfold erase_client. destruct (clients_ s !! fd); [|done]. apply Hf. by destruct (isOpen _). Qed.

Lemma remove_loop_keeps fuel : forall s : ServerImpl T, keeps s (remove_loop fuel s).
Proof.
  induction fuel as [|fuel IH]; intros s; cbn [remove_loop]; destruct (remove_clients_ s); try done.
  eapply sat_mono; [apply IH| |done|done]. cbn. intros s' ->. rewrite Hf by done.
  rewrite erase_client_keeps. apply with_sys_keeps, sys_close_signal.
Qed.

Context (Hsignal : forall s : ServerImpl T, keeps s (signal_onPollIn s)).

Lemma dispatch_keeps e (s : ServerImpl T) : keeps s (dispatch new_T onInput pick_fd s e).
Proof.
  unfold dispatch. apply sat_bind with (Q := fun s' => f s' = f s).
  - destruct (ev_out e); [|done]. destruct (ev_target e); try done. apply with_client_keeps.
  - intros s1 <-. destruct (ev_in e); [|done]. destruct (ev_target e);
      [apply accept_loop_keeps|apply Hsignal|apply with_client_keeps].
Qed.

Lemma dispatch_all_keeps events : forall s : ServerImpl T, keeps s (dispatch_all new_T onInput pick_fd events s).
Proof.
  induction events as [|e events IH]; intros s; [done|]. cbn [dispatch_all].
  eapply sat_bind; [apply dispatch_keeps|]. cbn. intros s1 <-. apply IH.
Qed.

Lemma turn_keeps events (s : ServerImpl T) : keeps s (turn new_T onInput pick_fd events s).
Proof. eapply sat_bind; [apply dispatch_all_keeps|]. cbn. intros s1 <-. apply remove_loop_keeps. Qed.

Lemma loop_keeps answers : forall s s' : ServerImpl T,
  loop new_T onInput pick_fd answers s = Ret (false, s') -> f s' = f s /\ keep_running_ s' = true.
Proof.
  induction answers as [|a answers IH]; intros s s'; cbn [loop]; destruct (keep_running_ s) eqn:Hk; cbn [negb]; try done.
  - intros [= <-]. done.
  - assert (forall events, (s1 ← turn new_T onInput pick_fd events s; loop new_T onInput pick_fd answers s1) = Ret (false, s') ->
              f s' = f s /\ keep_running_ s' = true) as Hturn.
    { intros events Hrun. apply bind_ret in Hrun as (s1 & H1 & H2). pose proof (turn_keeps events s) as Hs1. rewrite H1 in Hs1.
      cbn in Hs1. rewrite <- Hs1. by apply IH. }
    destruct a; [by apply Hturn|by apply Hturn|done].
Qed.

End keeping.

Lemma remove_none {T} (s : ServerImpl T) : remove_clients_ s = [] -> remove_dead_clients s = Ret s.
Proof.
  intros Hq. unfold remove_dead_clients. generalize (length (remove_clients_ s) + size (clients_ s))%nat as fuel.
  intros fuel. destruct fuel; cbn [remove_loop]; by rewrite Hq.
Qed.

(** The server's own descriptors, and what reading the signal pipe returns. *)
Definition fixed {T} (s : ServerImpl T) : Z * Z * Z := (server_epfd_ s, listenfd_ s, signal_read (sys s)).

Lemma fixed_clients {T} (s : ServerImpl T) m q k :
  signal_read k = signal_read (sys s) -> fixed (with_clients s m q k) = fixed s.
Proof. intros Hk. unfold fixed. cbn. by rewrite Hk. Qed.

Lemma fixed_signal {T} (s : ServerImpl T) :
  sat (fun s' : ServerImpl T => fixed s' = fixed s) (fun _ => True) (fun _ => True) (signal_onPollIn s).
Proof. unfold signal_onPollIn. destruct (_ =? -1); [done|]. by destruct (negb _). Qed.

(** The answers of epoll one after the other. *)
Lemma loop_app {T} new_T onInput pick_fd answers rest : forall s s' : ServerImpl T,
  loop new_T onInput pick_fd answers s = Ret (false, s') ->
  loop new_T onInput pick_fd (answers ++ rest) s = loop new_T onInput pick_fd rest s'.
Proof.
  induction answers as [|a answers IH]; intros s s'; cbn [loop app]; destruct (keep_running_ s) eqn:Hk; cbn [negb]; try done.
  - by intros [= <-].
  - destruct a; [| |done]; intros Hrun; apply bind_ret in Hrun as (s1 & -> & Hrun); by apply IH.
Qed.

(** ** Stopping *)

Section stopping.
Context {T : Type} (new_T : T) (onInput : T -> Connection -> outcome (T * Connection)) (pick_fd : gset Z -> Z).

Abbreviation keeps_stopped m := (sat (fun s' : ServerImpl T => keep_running_ s' = false) (fun _ => True) (fun _ => True) m).

Lemma stays (s : ServerImpl T) m :
  keep_running_ s = false ->
  sat (fun s' => keep_running_ s' = keep_running_ s) (fun _ => True) (fun _ => True) m -> keeps_stopped m.
Proof. intros Hs Hm. eapply sat_mono; [exact Hm|cbn; congruence|done|done]. Qed.

(** Nothing sets the server running again. *)
Lemma dispatch_stopped e s : keep_running_ s = false -> keeps_stopped (dispatch new_T onInput pick_fd s e).
Proof.
  intros Hs. unfold dispatch. apply sat_bind with (Q := fun s' => keep_running_ s' = false).
  - destruct (ev_out e); [|done]. destruct (ev_target e); try done. apply (stays s); [done|by apply with_client_keeps].
  - intros s1 H1. destruct (ev_in e); [|done]. destruct (ev_target e).
    + apply (stays s1); [done|by apply accept_loop_keeps].
    + cbn. unfold signal_onPollIn. destruct (_ =? -1); [done|]. by destruct (negb _).
    + apply (stays s1); [done|by apply with_client_keeps].
Qed.

Lemma dispatch_all_stopped events : forall s,
  keep_running_ s = false -> keeps_stopped (dispatch_all new_T onInput pick_fd events s).
Proof.
  induction events as [|e events IH]; intros s Hs; [done|]. cbn [dispatch_all].
  eapply sat_bind; [by apply dispatch_stopped|]. apply IH.
Qed.

(** The signal's event among the others. *)
Lemma dispatch_all_signal events : forall s,
  mk_event Signals false true ∈ events -> keeps_stopped (dispatch_all new_T onInput pick_fd events s).
Proof.
  induction events as [|e events IH]; intros s Hin; [by apply elem_of_nil in Hin|]. cbn [dispatch_all].
  apply elem_of_cons in Hin as [<-|Hin].
  - apply sat_bind with (Q := fun s' => keep_running_ s' = false); [|by apply dispatch_all_stopped].
    cbn. unfold signal_onPollIn. destruct (_ =? -1); [done|]. by destruct (negb _).
  - apply sat_bind with (Q := fun _ => True); [by destruct (dispatch _ _ _ _ _)|]. intros s1 _. by apply IH.
Qed.

End stopping.

(** ** Cleaning up *)

Section cleaning.
Context {T : Type} (base : gset Z).

Lemma close_all_fold l : NoDup l -> forall s : ServerImpl T,
  (forall fd, fd ∈ l -> exists cl, clients_ s !! fd = Some cl /\ fd_ (cl_conn cl) = fd /\ 0 <= fd /\
     manager_ (cl_conn cl) = true /\ removed (os (cl_conn cl)) = []) ->
  let s' := foldl (fun s fd => erase_client fd s) s l in
  dom (clients_ s') = dom (clients_ s) ∖ list_to_set l /\ remove_clients_ s' = remove_clients_ s ++ l /\
  open_fds (sys s') = open_fds (sys s) /\ bad_closes (sys s') = bad_closes (sys s) /\ fixed s' = fixed s.
Proof.
  induction 1 as [|fd l Hn Hnd IH]; intros s Hall; cbn [foldl].
  - rewrite app_nil_r. split; [set_solver|done].
  - destruct (Hall fd) as (cl & Hl & Hf & Hpos & Hm & Hr); [left|].
    assert (fd_ (cl_conn cl) =? -1 = false) as Hne by lia.
    assert (clients_ (erase_client fd s) = delete fd (clients_ s) /\ remove_clients_ (erase_client fd s) = remove_clients_ s ++ [fd] /\
            open_fds (sys (erase_client fd s)) = open_fds (sys s) /\ bad_closes (sys (erase_client fd s)) = bad_closes (sys s))
      as (Hc & Hq & Ho & Hbad).
    { unfold erase_client, isOpen, close. rewrite Hl, Hne. cbn. by rewrite Hm, Hr, Hf. }
    pose proof (erase_client_keeps fixed fixed_clients fd s) as Hfix.
    destruct (IH (erase_client fd s)) as (Hd & Hq' & Ho' & Hbad' & Hfix').
    + intros fd2 H2. destruct (Hall fd2) as (cl2 & Hl2 & Hrest); [by right|]. exists cl2. split; [|done].
      rewrite Hc, lookup_delete_ne; [done|]. by intros ->.
    + rewrite Hd, Hq', Ho', Hbad', Hfix', Hc, Hq, Ho, Hbad, Hfix, dom_delete_L, <- (assoc_L (++)). split; [set_solver|done].
Qed.

(** What [cleanup] leaves of a tidy server. *)
Lemma cleanup_ok (s : ServerImpl T) :
  server_ok base s -> remove_clients_ s = [] ->
  let s' := cleanup s in
  clients_ s' = ∅ /\ remove_clients_ s' ≡ₚ elements (dom (clients_ s)) /\
  open_fds (sys s') = (base ∖ {[listenfd_ s]}) ∪ dom (clients_ s) /\ bad_closes (sys s') = [] /\
  fixed s' = (server_epfd_ s, -1, signal_read (sys s)).
Proof.
  intros [Hcl Hq [Hop Hdis] Hw Hls Hbad] Eq. unfold cleanup, close_all_clients. set (s1 := mk_ServerImpl _ _ _ _ _ _).
  destruct (close_all_fold (elements (dom (clients_ s1)))) with (s := s1) as (Hd & Hq' & Ho & Hb & Hfix).
  - apply NoDup_elements.
  - intros fd [cl Hfd]%elem_of_elements%elem_of_dom. exists cl. split; [done|]. cbn in Hfd.
    destruct (Hcl fd cl Hfd) as (Hm & Hr & Hpos & [(Hf & _)|(_ & _ & Hin & _)]); [done|].
    rewrite Eq in Hin. by apply elem_of_nil in Hin.
  - cbn zeta. rewrite Hq', Ho, Hb, Hfix. split; [|split; [|split; [|split]]].
    + apply (dom_empty_iff_L (D := gset Z)). rewrite Hd, list_to_set_elements_L. set_solver.
    + cbn. by rewrite Eq.
    + cbn. unfold sys_close. rewrite decide_True by set_solver. cbn. rewrite Hop. set_solver.
    + cbn. unfold sys_close. by rewrite decide_True by set_solver.
    + unfold fixed. cbn. by rewrite sys_close_signal.
Qed.

End cleaning.

(** ** A choice of descriptors *)

(** A descriptor above those that are open. *)
Definition next_fd (X : gset Z) : Z := foldr Z.max 0 (elements X) + 1.

Lemma next_fd_fresh X : (next_fd X ∉ X) /\ 0 <= next_fd X.
Proof.
  unfold next_fd. assert (forall l (x : Z), x ∈ l -> x <= foldr Z.max 0 l) as Hmax.
  { induction l as [|y l IH]; intros x Hx; [by apply elem_of_nil in Hx|]. cbn [foldr].
    apply elem_of_cons in Hx as [->|Hx]; [lia|]. pose proof (IH x Hx). lia. }
  split.
  - intros Hin%elem_of_elements%Hmax. lia.
  - induction (elements X); cbn [foldr] in *; lia.
Qed.
