(* ===== verification/Descriptors.v ===== *)
(** Owners of descriptors: [safefd.h] and [SignalSource.cpp]. *)
From stdpp Require Import gmap.
From S2P Require Import Prelude StreamBuf Sender Connection ServerLoop.

(** ** [class SafeFD] *)

(** The objects that are alive, by address, with their [fd_]; the descriptors
    that are open and in no object yet, or that [release] gave away. *)
Record holders := mk_holders { objects : gmap nat Z; released : list Z; kernel_ : system }.

Inductive safefd_op :=
  | Open                               (* open(2), socket(2), ...: a descriptor in a variable *)
  | Construct (x : nat) (fd : Z)       (* from whatever number it is given *)
  | MoveConstruct (x y : nat)
  | MoveAssign (x y : nat)
  | Swap (x y : nat)
  | Release (x : nat)
  | Reset (x : nat)
  | Destroy (x : nat).

Section safefd.
Context (pick_fd : gset Z -> Z).
(** Whether [close(2)] of an open descriptor reports an error (EIO, EINTR); it
    is closed all the same. *)
Context (close_error : Z -> bool).

Definition this (h : holders) (x : nat) : outcome Z :=
  match objects h !! x with Some fd => Ret fd | None => Undef UseAfterFree end.

Definition with_objects (h : holders) (m : gmap nat Z) : holders := mk_holders m (released h) (kernel_ h).

(** [SafeFD::close]: the exception, if any, and what holds then. *)
Definition SafeFD_close (x : nat) (fd : Z) (h : holders) : option exn * holders :=
  if fd =? -1 then (None, h)
  else
    let failed := negb (bool_decide (fd ∈ open_fds (kernel_ h))) || close_error fd in
    let h := mk_holders (objects h) (released h) (sys_close (kernel_ h) fd) in
    if failed then (Some (runtime_error "close"), h)
    else (None, with_objects h (<[x := -1]> (objects h))).

Definition SafeFD_swap (x y : nat) (h : holders) : outcome holders :=
  a ← this h x; b ← this h y; Ret (with_objects h (<[y := a]> (<[x := b]> (objects h)))).

(** The descriptors without one that is put into an object. *)
Fixpoint take_out (fd : Z) (l : list Z) : list Z :=
  match l with
  | [] => []
  | x :: l => if x =? fd then l else x :: take_out fd l
  end.

(** The exception a destructor swallows. *)
Definition safefd_step (op : safefd_op) (h : holders) : outcome holders :=
  match op with
  | Open =>
      let fd := pick_fd (open_fds (kernel_ h)) in
      Ret (mk_holders (objects h) (released h ++ [fd]) (with_open (kernel_ h) fd))
  | Construct x fd => Ret (mk_holders (<[x := fd]> (objects h)) (take_out fd (released h)) (kernel_ h))
  | MoveConstruct x y => fd ← this h y; Ret (with_objects h (<[y := -1]> (<[x := fd]> (objects h))))
  | MoveAssign x y | Swap x y => SafeFD_swap x y h
  | Release x => fd ← this h x; Ret (mk_holders (<[x := -1]> (objects h)) (released h ++ [fd]) (kernel_ h))
  | Reset x =>
      fd ← this h x;
      let '(e, h) := SafeFD_close x fd h in
      match e with Some e => Throw e | None => Ret h end
  | Destroy x =>
      fd ← this h x;
      let h := snd (SafeFD_close x fd h) in
      Ret (with_objects h (delete x (objects h)))
  end.

Fixpoint safefd_run (ops : list safefd_op) (h : holders) : outcome holders :=
  match ops with
  | [] => Ret h
  | op :: ops => h ← safefd_step op h; safefd_run ops h
  end.

(** A constructor makes a new object; what it is given is -1 (the default) or a
    descriptor that is in no object. *)
Definition fresh_op (op : safefd_op) (h : holders) : Prop :=
  match op with
  | Construct x fd => objects h !! x = None /\ (fd = -1 \/ fd ∈ released h)
  | MoveConstruct x y => objects h !! x = None /\ x <> y
  | _ => True
  end.

(** ** Sole ownership *)

(** The descriptors that objects and callers of [release] hold. *)
Definition vals (m : gmap nat Z) : list Z := (map_to_list m).*2.
Definition held (h : holders) : list Z := filter (fun fd => fd <> -1) (released h ++ vals (objects h)).

(** What is open is what was open before and what is held, each of it once. *)
Record holders_ok (base : list Z) (h : holders) : Prop := mk_holders_ok {
  ho_open : elements (open_fds (kernel_ h)) ≡ₚ base ++ held h;
  ho_closes : bad_closes (kernel_ h) = []
}.

Lemma vals_new m x fd : m !! x = None -> vals (<[x := fd]> m) ≡ₚ fd :: vals m.
Proof. intros Hx. unfold vals. by rewrite (map_to_list_insert m x fd Hx). Qed.

Lemma vals_delete m x fd : m !! x = Some fd -> vals m ≡ₚ fd :: vals (delete x m).
Proof. intros Hx. rewrite <- (insert_delete_id m x fd Hx) at 1. apply vals_new, lookup_delete_eq. Qed.

Lemma vals_insert m x a b : m !! x = Some a -> a :: vals (<[x := b]> m) ≡ₚ b :: vals m.
Proof.
  intros Hx. rewrite (vals_delete m x a Hx), <- (insert_delete_eq m x b), vals_new by apply lookup_delete_eq.
  constructor.
Qed.

Lemma held_perm h h' : released h ++ vals (objects h) ≡ₚ released h' ++ vals (objects h') -> held h ≡ₚ held h'.
Proof. intros Hp. unfold held. by rewrite Hp. Qed.

(** Whoever holds a descriptor, it is the only one. *)
Lemma holders_open base h fd : holders_ok base h -> fd ∈ held h -> fd ∈ open_fds (kernel_ h).
Proof. intros [Ho _] Hin. apply elem_of_elements. rewrite Ho. apply elem_of_app. by right. Qed.

Lemma swap_held x y h a b :
  objects h !! x = Some a -> objects h !! y = Some b ->
  held (with_objects h (<[y := a]> (<[x := b]> (objects h)))) ≡ₚ held h.
Proof.
  intros Hx Hy. apply held_perm. cbn. apply Permutation_app_head.
  pose proof (vals_insert (objects h) x a b Hx) as H1. destruct (decide (x = y)) as [->|Hne].
  - assert (a = b) as -> by congruence. by rewrite insert_insert_eq, insert_id.
  - assert ((<[x := b]> (objects h)) !! y = Some b) as Hy' by (by rewrite lookup_insert_ne).
    pose proof (vals_insert _ y b a Hy') as H2. rewrite H1 in H2. by apply Permutation_cons_inv in H2.
Qed.

Lemma held_empty_slot h x fd released' :
  objects h !! x = Some fd -> released' ≡ₚ fd :: released h ->
  held (mk_holders (<[x := -1]> (objects h)) released' (kernel_ h)) ≡ₚ held h.
Proof.
  intros Hx Hr. pose proof (vals_insert (objects h) x fd (-1) Hx) as Hv. unfold held. cbn [released objects].
  rewrite Hr, <- app_comm_cons, Permutation_middle, Hv, <- Permutation_middle. by rewrite filter_cons_False by lia.
Qed.

Lemma take_out_perm fd l : fd ∈ l -> l ≡ₚ fd :: take_out fd l.
Proof.
  induction l as [|x l IH]; [by intros ?%elem_of_nil|]. intros Hin. cbn [take_out]. destruct (Z.eqb_spec x fd) as [->|Hne]; [done|].
  apply elem_of_cons in Hin as [->|Hin]; [done|]. rewrite (IH Hin) at 1. constructor.
Qed.

Lemma take_out_absent fd l : (fd ∉ l) -> take_out fd l = l.
Proof.
  induction l as [|x l IH]; [done|]. intros Hin. cbn [take_out]. destruct (Z.eqb_spec x fd) as [->|Hne]; [set_solver|].
  f_equal. apply IH. set_solver.
Qed.

(** Putting a descriptor that no object has into a new one. *)
Lemma construct_held h x fd :
  objects h !! x = None -> fd = -1 \/ fd ∈ released h ->
  held (mk_holders (<[x := fd]> (objects h)) (take_out fd (released h)) (kernel_ h)) ≡ₚ held h.
Proof.
  intros Hx Hfd. unfold held. cbn [released objects]. rewrite (vals_new _ x fd Hx), <- Permutation_middle.
  destruct (decide (fd ∈ released h)) as [Hin|Hout].
  - rewrite (take_out_perm fd (released h) Hin) at 2. done.
  - destruct Hfd as [->|]; [|done]. rewrite take_out_absent by done. by rewrite filter_cons_False by lia.
Qed.

Lemma close_held base h x fd :
  holders_ok base h -> objects h !! x = Some fd -> close_error fd = false ->
  exists h', SafeFD_close x fd h = (None, h') /\ holders_ok base h' /\ objects h' = <[x := -1]> (objects h).
Proof.
  intros Hok Hx He. unfold SafeFD_close. destruct (Z.eqb_spec fd (-1)) as [->|Hne].
  - exists h. by rewrite insert_id.
  - assert (held h ≡ₚ fd :: held (mk_holders (<[x := -1]> (objects h)) (released h) (kernel_ h))) as Hh.
    { unfold held. cbn [released objects]. pose proof (vals_insert (objects h) x fd (-1) Hx) as Hv.
      rewrite <- (filter_cons_True (fun fd => fd <> -1) fd) by done. rewrite Permutation_middle, Hv, <- Permutation_middle.
      by rewrite filter_cons_False by lia. }
    assert (fd ∈ open_fds (kernel_ h)) as Hin by (apply (holders_open base); [done|]; rewrite Hh; left).
    rewrite bool_decide_eq_true_2, He by done. cbn. eexists. split; [reflexivity|]. split; [|done].
    unfold sys_close. rewrite decide_True by done. split; cbn; [|apply Hok].
    destruct Hok as [Ho _]. rewrite Hh in Ho. rewrite (union_difference_singleton_L fd (open_fds (kernel_ h))) in Ho by done.
    rewrite elements_disj_union, elements_singleton in Ho by set_solver. cbn in Ho.
    rewrite <- Permutation_middle in Ho. by apply Permutation_cons_inv in Ho.
Qed.

Context (Hpick : forall X, (pick_fd X ∉ X) /\ 0 <= pick_fd X).

Lemma with_objects_ok base h m :
  holders_ok base h -> held (with_objects h m) ≡ₚ held h -> holders_ok base (with_objects h m).
Proof. intros [Ho Hc] Hp. split; cbn; [|done]. by rewrite Hp. Qed.

Lemma held_with_empty h x : objects h !! x = None -> held (with_objects h (<[x := -1]> (objects h))) ≡ₚ held h.
Proof.
  intros Hx. unfold held. cbn [released objects with_objects]. rewrite (vals_new _ x (-1) Hx), <- Permutation_middle.
  by rewrite filter_cons_False by lia.
Qed.

Lemma this_sat (P : Z -> Prop) h x E :
  (forall fd, objects h !! x = Some fd -> P fd) -> sat P E (fun u => u = UseAfterFree) (this h x).
Proof. unfold this. intros H. destruct (objects h !! x); [by apply H|done]. Qed.

Abbreviation owns base m := (sat (holders_ok base) (fun _ => False) (fun u => u = UseAfterFree) m).

Lemma swap_ok base x y h : holders_ok base h -> owns base (SafeFD_swap x y h).
Proof.
  intros Hok. unfold SafeFD_swap. eapply sat_bind; [apply this_sat; intros a Ha; exact Ha|]. intros a Ha. cbn in Ha.
  eapply sat_bind; [apply this_sat; intros b Hb; exact Hb|]. intros b Hb. cbn in Hb.
  apply with_objects_ok; [done|by apply swap_held].
Qed.

Lemma safefd_step_ok base op h :
  (forall fd, close_error fd = false) -> fresh_op op h -> holders_ok base h -> owns base (safefd_step op h).
Proof.
  intros Hce Hf Hok. destruct op as [|x fd|x y|x y|x y|x|x|x]; cbn [safefd_step fresh_op] in *.
  - destruct (Hpick (open_fds (kernel_ h))) as [Hfr Hpos]. set (fd := pick_fd _) in *. destruct Hok as [Ho Hc]. split; [|done].
    cbn [kernel_ open_fds with_open]. rewrite elements_union_singleton by done. rewrite Ho, Permutation_middle.
    apply Permutation_app_head. unfold held. cbn [released objects]. rewrite <- (assoc_L (++)). cbn [app].
    rewrite <- Permutation_middle. by rewrite filter_cons_True by lia.
  - destruct Hok as [Ho Hc]. destruct Hf as [Hx Hfd]. split; [|done]. cbn [kernel_]. rewrite Ho. apply Permutation_app_head. symmetry.
    by apply construct_held.
  - destruct Hf as [Hx Hxy]. eapply sat_bind; [apply this_sat; intros a Ha; exact Ha|]. intros a Ha. cbn in Ha.
    set (h1 := with_objects h (<[x := -1]> (objects h))).
    assert (holders_ok base h1) as Hok1 by (apply with_objects_ok; [done|by apply held_with_empty]).
    change (owns base (Ret (with_objects h1 (<[y := -1]> (<[x := a]> (objects h)))))).
    assert (<[x := a]> (<[x := -1]> (objects h)) = <[x := a]> (objects h)) as <- by apply insert_insert_eq. apply with_objects_ok; [done|].
    apply (swap_held x y h1 (-1) a); cbn; [apply lookup_insert_eq|by rewrite lookup_insert_ne].
  - by apply swap_ok.
  - by apply swap_ok.
  - eapply sat_bind; [apply this_sat; intros a Ha; exact Ha|]. intros a Ha. cbn in Ha. destruct Hok as [Ho Hc].
    split; [|done]. cbn [kernel_]. rewrite Ho. apply Permutation_app_head. symmetry.
    apply (held_empty_slot h x a); [done|]. by rewrite Permutation_app_comm.
  - eapply sat_bind; [apply this_sat; intros a Ha; exact Ha|]. intros a Ha. cbn in Ha.
    destruct (close_held base h x a Hok Ha (Hce a)) as (h' & -> & Hok' & _). exact Hok'.
  - eapply sat_bind; [apply this_sat; intros a Ha; exact Ha|]. intros a Ha. cbn in Ha.
    destruct (close_held base h x a Hok Ha (Hce a)) as (h' & -> & Hok' & Hobj). apply with_objects_ok; [exact Hok'|].
    unfold held. cbn [released objects with_objects snd]. rewrite Hobj, delete_insert_eq.
    pose proof (vals_delete (<[x := -1]> (objects h)) x (-1) (lookup_insert_eq _ _ _)) as Hv. rewrite delete_insert_eq in Hv.
    rewrite Hv, <- Permutation_middle. by rewrite filter_cons_False by lia.
Qed.

Lemma sys_close_in k fd :
  fd ∈ open_fds k ->
  sys_close k fd = mk_system (open_fds k ∖ {[fd]}) (watched k ∖ {[fd]}) (delete fd (watched_own k)) (accepts k)
                     (signal_read k) (bad_closes k).
Proof. intros Hin. unfold sys_close. by rewrite decide_True. Qed.

Lemma sys_close_out k fd :
  (fd ∉ open_fds k) ->
  sys_close k fd = mk_system (open_fds k) (watched k) (watched_own k) (accepts k) (signal_read k) (bad_closes k ++ [fd]).
Proof. intros Hin. unfold sys_close. by rewrite decide_False. Qed.

Lemma sys_close_twice k fd :
  fd ∈ open_fds k -> bad_closes (sys_close (sys_close k fd) fd) = bad_closes k ++ [fd].
Proof. intros Hin. unfold sys_close. rewrite (decide_True _ _ Hin). rewrite decide_False; cbn; [done|set_solver]. Qed.

(** C38: As long as close(2) reports no error, SafeFD objects own what they hold:
    whatever is opened, constructed (from -1 or from a descriptor that is in no
    object), moved, swapped, released, reset and destroyed, the open descriptors
    are those that were open before and those that an object, or code that has
    opened or released one, holds, each held once; nothing is closed twice, and
    nothing throws.  When close(2) reports an error, the object keeps the
    descriptor that is closed by then, and its destructor closes it again. *)
Theorem safefd_sole_owner base op h :
  holders_ok base h -> fresh_op op h ->
  ((forall fd, close_error fd = false) ->
     sat (holders_ok base) (fun _ => False) (fun u => u = UseAfterFree) (safefd_step op h)) /\
  (forall x fd, objects h !! x = Some fd -> fd <> -1 -> close_error fd = true ->
     exists h1 h2, SafeFD_close x fd h = (Some (runtime_error "close"), h1) /\ objects h1 !! x = Some fd /\
       safefd_step (Destroy x) h1 = Ret h2 /\ bad_closes (kernel_ h2) = [fd]).
Proof.
  intros Hok Hf. split; [intros Hce; by apply safefd_step_ok|]. intros x fd Hx Hne He.
  assert (fd ∈ held h) as Hin.
  { unfold held. apply list_elem_of_filter. split; [done|]. apply elem_of_app. right.
    rewrite (vals_delete _ _ _ Hx). left. }
  apply (holders_open base) in Hin; [|done]. eexists _, _. split.
  { unfold SafeFD_close. apply Z.eqb_neq in Hne. by rewrite Hne, He, orb_true_r. }
  split; [done|]. cbn [safefd_step]. unfold this. cbn [objects]. rewrite Hx. cbn [mbind outcome_bind]. split; [reflexivity|].
  unfold SafeFD_close. apply Z.eqb_neq in Hne. rewrite Hne, He, orb_true_r. cbn. rewrite sys_close_twice by done.
  by rewrite (ho_closes base h Hok).
Qed.

End safefd.

(** ** [class SignalSource] and [SignalReceiver] *)

Inductive sighandler := SIG_DFL | SIG_IGN | Handle.

(** What signals act on: the variable [write_fd] of [SignalSource.cpp], the
    handler of each signal, and the octets in the pipe behind each write end. *)
Record signals := mk_signals {
  write_fd : Z;
  disposition : Z -> sighandler;
  pipes : gmap Z (list Z)
}.

Record process := mk_process { kern : system; sigs : signals }.

Record SignalSource := mk_SignalSource {
  signum_ : Z;
  prev_handler_ : sighandler;
  read_pipe_ : Z;
  write_pipe_ : Z
}.

Definition set_write_fd (g : signals) (fd : Z) : signals := mk_signals fd (disposition g) (pipes g).

(** [::signal(signum, handler)] *)
Definition set_disposition (g : signals) (signum : Z) (h : sighandler) : signals :=
  mk_signals (write_fd g) (fun n => if n =? signum then h else disposition g n) (pipes g).

(** The octets of an [int], as a little-endian machine stores them. *)
Definition int_octets (n : Z) : list Z :=
  let u := u32 n in [u mod 256; u / 256 mod 256; u / 65536 mod 256; u / 16777216 mod 256].
Definition int_of_octets (l : list Z) : Z :=
  i32 (nth 0 l 0 + 256 * nth 1 l 0 + 65536 * nth 2 l 0 + 16777216 * nth 3 l 0).

(** A call that may block for ever: [None]. *)
Definition unblocked {A B} (m : option (outcome A)) (f : A -> option (outcome B)) : option (outcome B) :=
  match m with
  | None => None
  | Some (Ret a) => f a
  | Some (Throw e) => Some (Throw e)
  | Some (Undef u) => Some (Undef u)
  end.

Section signals.
Context (pick_fd : gset Z -> Z).
(** How many octets a pipe holds (65536 on Linux). *)
Context (pipe_size : Z).

(** [pipe(2)] and [::signal] do not fail here.  What an exception leaves of the
    process is in the second component. *)
Definition new_SignalSource (signum : Z) (p : process) : outcome SignalSource * process :=
  let r := pick_fd (open_fds (kern p)) in
  let k := with_open (kern p) r in
  let w := pick_fd (open_fds k) in
  let k := with_open k w in
  let g := mk_signals (write_fd (sigs p)) (disposition (sigs p)) (<[w := []]> (pipes (sigs p))) in
  if negb (write_fd g =? -1) && negb (w =? -1)
  then (Throw (runtime_error "Only one SignalSource is supported right now"), mk_process k g)
  else
    let g := set_write_fd g w in
    (Ret (mk_SignalSource signum (disposition g signum) r w), mk_process k (set_disposition g signum Handle)).

Definition closePipe (s : SignalSource) (p : process) : process :=
  let k := sys_close (kern p) (write_pipe_ s) in
  mk_process (sys_close k (read_pipe_ s)) (set_write_fd (sigs p) (-1)).

(** [~SignalSource] *)
Definition delete_SignalSource (s : SignalSource) (p : process) : process :=
  closePipe s (mk_process (kern p) (set_disposition (sigs p) (signum_ s) (prev_handler_ s))).

(** [handle(sig)]: the pipe's write end is blocking, and four octets are written
    at once or not at all; a write that fails aborts. *)
Definition handle (sig : Z) (p : process) : option (outcome process) :=
  match pipes (sigs p) !! write_fd (sigs p) with
  | Some q =>
      if zlen q + 4 <=? pipe_size then
        Some (Ret (mk_process (kern p) (mk_signals (write_fd (sigs p)) (disposition (sigs p))
                     (<[write_fd (sigs p) := q ++ int_octets sig]> (pipes (sigs p))))))
      else None
  | None => Some (Undef AssertionFailed)
  end.

(** A signal arrives; what the default does with the process is not modelled. *)
Definition deliver (sig : Z) (p : process) : option (outcome process) :=
  match disposition (sigs p) sig with
  | Handle => handle sig p
  | _ => Some (Ret p)
  end.

(** [SignalReceiver::onPollIn]: the number its action is called with; [None] is
    a [read] that blocks, since the pipe is empty and its write end open. *)
Definition receive_signal (s : SignalSource) (p : process) : option (outcome (Z * process)) :=
  let q := default [] (pipes (sigs p) !! write_pipe_ s) in
  let len := Z.min 4 (zlen q) in
  if (len =? 0) && bool_decide (write_pipe_ s ∈ open_fds (kern p)) then None
  else if negb (len =? 4) then Some (Throw (runtime_error "poll socket closed"))
  else Some (Ret (int_of_octets (take 4 q),
               mk_process (kern p) (mk_signals (write_fd (sigs p)) (disposition (sigs p))
                 (<[write_pipe_ s := drop 4 q]> (pipes (sigs p)))))).

(** Signals that arrive, and calls of [onPollIn], in any order. *)
Inductive signal_event := Arrives (sig : Z) | PollIn.

(** The numbers the action was called with. *)
Fixpoint signal_run (s : SignalSource) (evs : list signal_event) (p : process) : option (outcome (list Z * process)) :=
  match evs with
  | [] => Some (Ret ([], p))
  | Arrives sig :: evs => unblocked (deliver sig p) (fun p => signal_run s evs p)
  | PollIn :: evs =>
      unblocked (receive_signal s p) (fun '(sig, p) =>
      unblocked (signal_run s evs p) (fun '(l, p) => Some (Ret (sig :: l, p))))
  end.

(** ** What a source promises *)

(** A counter of the signals that wait: [None] where there is no room for one
    more, or none to be read. *)
Fixpoint waiting (signum : Z) (evs : list signal_event) (n : nat) : option nat :=
  match evs with
  | [] => Some n
  | Arrives sig :: evs =>
      if sig =? signum then if 4 * (Z.of_nat n + 1) <=? pipe_size then waiting signum evs (S n) else None
      else waiting signum evs n
  | PollIn :: evs => match n with O => None | S n => waiting signum evs n end
  end.

Definition polls (evs : list signal_event) : nat :=
  length (List.filter (fun e => match e with PollIn => true | _ => false end) evs).

(** The source is installed, and [n] of its signals wait to be read. *)
Record installed (s : SignalSource) (n : nat) (p : process) : Prop := mk_installed {
  in_handler : forall sig, disposition (sigs p) sig = Handle <-> sig = signum_ s;
  in_fd : write_fd (sigs p) = write_pipe_ s;
  in_pipe : pipes (sigs p) !! write_pipe_ s = Some (concat (replicate n (int_octets (signum_ s))));
  in_open : write_pipe_ s ∈ open_fds (kern p)
}.

Lemma four_octets u :
  0 <= u < 2 ^ 32 ->
  u mod 256 + 256 * (u / 256 mod 256) + 65536 * (u / 65536 mod 256) + 16777216 * (u / 16777216 mod 256) = u.
Proof.
  intros Hu. assert (u / 65536 = u / 256 / 256) as -> by (by rewrite Z.div_div).
  assert (u / 16777216 = u / 256 / 256 / 256) as -> by (by rewrite !Z.div_div).
  rewrite (Z.mod_small (u / 256 / 256 / 256)).
  - pose proof (Z.div_mod u 256). pose proof (Z.div_mod (u / 256) 256). pose proof (Z.div_mod (u / 256 / 256) 256). lia.
  - rewrite !Z.div_div by lia. split; [apply Z.div_pos; lia|apply Z.div_lt_upper_bound; lia].
Qed.

Lemma int_octets_roundtrip n l : -2 ^ 31 <= n < 2 ^ 31 -> int_of_octets (take 4 (int_octets n ++ l)) = n.
Proof.
  intros Hn. unfold int_of_octets, int_octets. cbn [app take nth]. rewrite four_octets by (apply wrap_bound; lia).
  unfold swrap, wrap. rewrite Zplus_mod_idemp_l, Z.mod_small; lia.
Qed.

Lemma pending_octets s n : zlen (concat (replicate n (int_octets (signum_ s)))) = 4 * Z.of_nat n.
Proof.
  induction n as [|n IH]; [done|]. cbn [replicate concat]. rewrite zlen_app, IH. change (zlen (int_octets _)) with 4. lia.
Qed.

Lemma deliver_ok s n p :
  installed s n p ->
  if 4 * (Z.of_nat n + 1) <=? pipe_size
  then exists p', deliver (signum_ s) p = Some (Ret p') /\ installed s (S n) p'
  else deliver (signum_ s) p = None.
Proof.
  intros [Hh Hf Hp Ho]. unfold deliver, handle. rewrite (proj2 (Hh _) eq_refl), Hf, Hp, pending_octets.
  replace (4 * Z.of_nat n + 4) with (4 * (Z.of_nat n + 1)) by lia. destruct (_ <=? _); [|done].
  eexists. split; [reflexivity|]. split; cbn [sigs kern disposition write_fd pipes]; [done|done| |done]. rewrite lookup_insert_eq.
  by rewrite replicate_S_end, concat_app; cbn [concat]; rewrite app_nil_r.
Qed.

Lemma deliver_other s n p sig : installed s n p -> sig <> signum_ s -> deliver sig p = Some (Ret p).
Proof. intros [Hh _ _ _] Hne. unfold deliver. destruct (disposition (sigs p) sig) eqn:E; [done|done|]. by apply Hh in E. Qed.

Lemma receive_none s p : installed s 0 p -> receive_signal s p = None.
Proof. intros [_ _ Hp Ho]. unfold receive_signal. rewrite Hp. by rewrite bool_decide_eq_true_2. Qed.

Lemma receive_ok s n p :
  installed s (S n) p -> -2 ^ 31 <= signum_ s < 2 ^ 31 ->
  exists p', receive_signal s p = Some (Ret (signum_ s, p')) /\ installed s n p'.
Proof.
  intros [Hh Hf Hp Ho] Hn. unfold receive_signal. rewrite Hp. cbn [from_option id]. rewrite pending_octets.
  rewrite Z.min_l by lia. cbn [Z.eqb andb negb replicate concat]. rewrite int_octets_roundtrip by done.
  eexists. split; [reflexivity|]. split; cbn; [done|done|by rewrite lookup_insert_eq|done].
Qed.

(** A source does what the counter does. *)
Lemma signal_run_ok s evs : forall n p,
  installed s n p -> -2 ^ 31 <= signum_ s < 2 ^ 31 ->
  match waiting (signum_ s) evs n with
  | Some k => exists p', signal_run s evs p = Some (Ret (repeat (signum_ s) (polls evs), p')) /\ installed s k p'
  | None => signal_run s evs p = None
  end.
Proof.
  induction evs as [|[sig|] evs IH]; intros n p Hp Hs; cbn [waiting signal_run].
  - by exists p.
  - destruct (Z.eqb_spec sig (signum_ s)) as [->|Hne].
    + pose proof (deliver_ok s n p Hp) as Hd. destruct (_ <=? _); [|by rewrite Hd].
      destruct Hd as (p1 & -> & Hp1). by apply (IH (S n)).
    + rewrite (deliver_other s n p sig Hp Hne). by apply IH.
  - destruct n as [|n]; [by rewrite receive_none|]. destruct (receive_ok s n p Hp Hs) as (p1 & -> & Hp1). cbn [unblocked].
    specialize (IH n p1 Hp1 Hs). destruct (waiting _ _ _) as [k|]; [|by rewrite IH].
    destruct IH as (p2 & -> & Hp2). by exists p2.
Qed.

Context (Hpick : forall X, (pick_fd X ∉ X) /\ 0 <= pick_fd X).

(** The two descriptors of a pipe. *)
Lemma pipe_fds X :
  exists r w, pick_fd X = r /\ pick_fd ({[r]} ∪ X) = w /\ (r ∉ X) /\ (w ∉ X) /\ r <> w /\ 0 <= r /\ 0 <= w.
Proof. exists (pick_fd X), (pick_fd ({[pick_fd X]} ∪ X)). destruct (Hpick X), (Hpick ({[pick_fd X]} ∪ X)). set_solver. Qed.

(** What [new_SignalSource] does while there is no source. *)
Lemma new_source_ok signum p :
  write_fd (sigs p) = -1 -> (forall sig, disposition (sigs p) sig <> Handle) ->
  exists s p1, new_SignalSource signum p = (Ret s, p1) /\ signum_ s = signum /\ installed s 0 p1 /\
    write_fd (sigs p1) <> -1 /\
    let p4 := delete_SignalSource s p1 in
    open_fds (kern p4) = open_fds (kern p) /\ bad_closes (kern p4) = bad_closes (kern p) /\
    write_fd (sigs p4) = -1 /\ forall n, disposition (sigs p4) n = disposition (sigs p) n.
Proof.
  intros Hw Hdis. destruct (pipe_fds (open_fds (kern p))) as (r & w & Er & Ew & Hr & Hw' & Hne & Hr0 & Hw0).
  unfold new_SignalSource. cbn [write_fd]. rewrite Hw, Er. cbn [open_fds with_open]. rewrite Ew. cbn [Z.eqb negb andb].
  eexists _, _. split; [reflexivity|]. split; [done|]. split; [|split; [cbn; lia|]].
  - split; cbn; [|done|apply lookup_insert_eq|set_solver].
    intros sig. destruct (Z.eqb_spec sig signum) as [->|Hn]; [done|]. split; [by intros ?%Hdis|done].
  - unfold delete_SignalSource, closePipe. cbn [kern write_pipe_ read_pipe_].
    rewrite (sys_close_in _ w), sys_close_in by (cbn; set_solver). cbn. split; [set_solver|]. split; [done|]. split; [done|]. intros n.
    destruct (Z.eqb_spec n signum) as [->|]; [|done]. done.
Qed.

(** C37: A signal source, from its constructor to its destructor.  While signals
    arrive and the receiver is polled, in any order, it is a counter of the signals
    that wait, bounded by the size of its pipe: each that arrived is received once,
    as the signal it is, and signals that are not the source's leave it alone.
    Where the pipe has no room the handler does not return; where nothing waits, a
    read does not.  A second source cannot be made meanwhile: its constructor
    throws and leaves the two descriptors of its pipe open; the destructor gives
    back the handler that was there before, the descriptors, and the right to make
    another source. *)
Theorem signal_source_works signum p :
  write_fd (sigs p) = -1 -> (forall sig, disposition (sigs p) sig <> Handle) -> -2 ^ 31 <= signum < 2 ^ 31 ->
  exists s p1, new_SignalSource signum p = (Ret s, p1) /\
    (forall evs,
       match waiting signum evs 0 with
       | Some k => exists p2, signal_run s evs p1 = Some (Ret (repeat signum (polls evs), p2)) /\ installed s k p2
       | None => signal_run s evs p1 = None
       end) /\
    (forall signum', exists p2, new_SignalSource signum' p1 = (Throw (runtime_error "Only one SignalSource is supported right now"), p2) /\
       size (open_fds (kern p2)) = (size (open_fds (kern p1)) + 2)%nat) /\
    (let p4 := delete_SignalSource s p1 in
     open_fds (kern p4) = open_fds (kern p) /\ bad_closes (kern p4) = bad_closes (kern p) /\
     write_fd (sigs p4) = -1 /\ forall n, disposition (sigs p4) n = disposition (sigs p) n).
Proof.
  intros Hw Hdis Hs. destruct (new_source_ok signum p Hw Hdis) as (s & p1 & Hnew & Hsig & Hin & Hw1 & Hdel). exists s, p1.
  split; [done|]. split; [|split; [|done]].
  - intros evs. rewrite <- Hsig in *. by apply signal_run_ok.
  - intros signum'. destruct (pipe_fds (open_fds (kern p1))) as (r & w & Er & Ew & Hr & Hw' & Hne & Hr0 & Hw0).
    unfold new_SignalSource. cbn [write_fd]. apply Z.eqb_neq in Hw1. rewrite Hw1, Er. cbn [open_fds with_open]. rewrite Ew.
    assert (w =? -1 = false) as -> by (apply Z.eqb_neq; lia).
    eexists. split; [reflexivity|]. cbn. rewrite !size_union by set_solver. rewrite !size_singleton. lia.
Qed.
End signals.

(** ** At work *)

Definition example_kernel : system := mk_system {[0; 1; 2; 6]} ∅ ∅ [] (-1) [].

Lemma safefd_sole_owner_witness :
  exists h1 h2, SafeFD_close (fun _ => true) 8 6 (mk_holders {[8%nat := 6]} [] example_kernel) = (Some (runtime_error "close"), h1) /\
    objects h1 !! 8%nat = Some 6 /\ safefd_step next_fd (fun _ => true) (Destroy 8) h1 = Ret h2 /\
    bad_closes (kernel_ h2) = [6].
Proof.
  apply (safefd_sole_owner next_fd (fun _ => true) next_fd_fresh [0; 1; 2] (Destroy 8)); try done.
  split; [|done]. apply (bool_decide_unpack _). vm_compute. exact I.
Defined.

(** Two objects made from one descriptor: it is closed twice. *)
Example two_owners :
  match safefd_run next_fd (fun _ => false) [Open; Construct 1 7; Construct 2 7; Destroy 1; Destroy 2] (mk_holders ∅ [] example_kernel) with
  | Ret h => bad_closes (kernel_ h) = [7]
  | _ => False
  end.
Proof. vm_compute. reflexivity. Qed.

Definition example_process : process := mk_process example_kernel (mk_signals (-1) (fun _ => SIG_DFL) ∅).

(** A pipe with room for two: three signals, one of another number, are received;
    with a third that waits, the handler blocks. *)
Lemma signal_source_works_witness :
  exists s p1, new_SignalSource next_fd 2 example_process = (Ret s, p1) /\
    (exists p2, signal_run 8 s [Arrives 2; Arrives 15; Arrives 2; PollIn; Arrives 2; PollIn] p1 = Some (Ret ([2; 2], p2)) /\ installed s 1 p2) /\
    signal_run 8 s [Arrives 2; Arrives 2; Arrives 2] p1 = None.
Proof.
  destruct (signal_source_works next_fd 8 next_fd_fresh 2 example_process) as (s & p1 & Hnew & Hrun & _);
    [reflexivity|done|lia|].
  exists s, p1. split; [done|]. split.
  - exact (Hrun [Arrives 2; Arrives 15; Arrives 2; PollIn; Arrives 2; PollIn]).
  - exact (Hrun [Arrives 2; Arrives 2; Arrives 2]).
Defined.
