(* ===== verification/ServerSetup.v ===== *)
(** Starting the server: [ServerConfig.h], the constructor, [setup] and [bind] of
    [Server::Impl], and [Server::run]. *)
From stdpp Require Import gmap.
From S2P Require Import Prelude StreamBuf Sender Connection ServerLoop Descriptors.

(** ** [class ServerConfig] *)

Record ServerConfig := mk_ServerConfig { bind_ports_ : list Z }.

Definition default_ports_ : list Z := [80; 8080].
Definition new_ServerConfig : ServerConfig := mk_ServerConfig default_ports_.
Definition setBindPort (port : Z) (c : ServerConfig) : ServerConfig := mk_ServerConfig [port].
Definition setBindPorts (ports : list Z) (c : ServerConfig) : ServerConfig := mk_ServerConfig ports.
Definition viewBindPorts (c : ServerConfig) : list Z := bind_ports_ c.

(** What the kernel answers while the server starts: whether the calls succeed,
    and for [bind(2)] with which ports. *)
Record boot := mk_boot {
  epoll_create_ok : bool;
  epoll_add_ok : bool;
  socket_ok : bool;
  bind_ok : Z -> bool;
  listen_ok : bool
}.

Section setup.
Context {T : Type} (pick_fd : gset Z -> Z) (b : boot).

Abbreviation Server := (ServerImpl T).

Definition addEventReceiver (fd : Z) (r : receiver) (s : Server) : outcome Server :=
  let k := sys s in
  if epoll_add_ok b
  then Ret (with_sys s (mk_system (open_fds k) (watched k) (<[fd := r]> (watched_own k)) (accepts k) (signal_read k) (bad_closes k)))
  else Throw (runtime_error "EPOLL_CTL_ADD").

(** [Server::Impl::Impl], with the signal source its receiver has. *)
Definition new_ServerImpl (p : process) : outcome (SignalSource * Server) * process :=
  let '(source, p) := new_SignalSource pick_fd 2 p in
  match source with
  | Ret source =>
      if epoll_create_ok b then
        let epfd := pick_fd (open_fds (kern p)) in
        let s := mk_ServerImpl ∅ [] true epfd (-1) (with_open (kern p) epfd) in
        match addEventReceiver (read_pipe_ source) Signals s with
        | Ret s => (Ret (source, s), mk_process (sys s) (sigs p))
        | Throw e => (Throw e, delete_SignalSource source (mk_process (sys s) (sigs p)))
        | Undef u => (Undef u, p)
        end
      else (Throw (runtime_error "epoll_create1 failed"), delete_SignalSource source p)
  | Throw e => (Throw e, p)
  | Undef u => (Undef u, p)
  end.

(** The port that is bound. *)
Fixpoint bind_loop (try_ports : list Z) : outcome Z :=
  match try_ports with
  | [] => Throw (runtime_error "bind: no ports available")
  | port :: try_ports => if bind_ok b port then Ret port else bind_loop try_ports
  end.

Definition bind (config : ServerConfig) : outcome Z :=
  let try_ports := viewBindPorts config in
  bind_loop (match try_ports with [] => [0] | _ => try_ports end).

(** TCP_DEFER_ACCEPT may fail; nothing comes of it. *)
Definition setup (config : ServerConfig) (s : Server) : outcome (Z * Server) :=
  if socket_ok b then
    let fd := pick_fd (open_fds (sys s)) in
    let s := mk_ServerImpl (clients_ s) (remove_clients_ s) (keep_running_ s) (server_epfd_ s) fd (with_open (sys s) fd) in
    port ← bind config;
    if listen_ok b then s ← addEventReceiver fd Listener s; Ret (port, s)
    else Throw (runtime_error "listen")
  else Throw (runtime_error "socket").

(** [Server::run] *)
Definition run (new_T : T) (onInput : T -> Connection -> outcome (T * Connection)) (config : ServerConfig)
    (answers : list wait_answer) (s : Server) : outcome (bool * Server) :=
  '(port, s) ← setup config s;
  loop new_T onInput pick_fd answers s.

(** [Server::Impl::~Impl], without its members' destructors. *)
Definition delete_ServerImpl (s : Server) : Server :=
  let s := close_all_clients s in
  with_sys s (sys_close (sys_close (sys s) (server_epfd_ s)) (listenfd_ s)).

(** ** The first port that is free *)

(** [bind] gives the first of the ports to which the kernel binds; port 0 stands
    for any when there are none. *)
Lemma bind_loop_spec ports :
  match bind_loop ports with
  | Ret port => exists before after, ports = before ++ port :: after /\ bind_ok b port = true /\ Forall (fun p => bind_ok b p = false) before
  | Throw e => e = runtime_error "bind: no ports available" /\ Forall (fun p => bind_ok b p = false) ports
  | Undef _ => False
  end.
Proof.
  induction ports as [|p ports IH]; cbn [bind_loop]; [by split|]. destruct (bind_ok b p) eqn:E.
  - by exists [], ports.
  - destruct (bind_loop ports); [|by destruct IH; split; [|constructor]|done].
    destruct IH as (before & after & -> & Hok & Hb). exists (p :: before), after. by repeat constructor.
Qed.

Context (Hpick : forall X, (pick_fd X ∉ X) /\ 0 <= pick_fd X).

(** The descriptors that [new_SignalSource] opens. *)
Lemma new_source_fds signum p :
  write_fd (sigs p) = -1 ->
  exists s p1 r w, new_SignalSource pick_fd signum p = (Ret s, p1) /\ read_pipe_ s = r /\ write_pipe_ s = w /\
    kern p1 = with_open (with_open (kern p) r) w /\ signum_ s = signum /\ prev_handler_ s = disposition (sigs p) signum /\
    (r ∉ open_fds (kern p)) /\ (w ∉ open_fds (kern p)) /\ r <> w /\ 0 <= r /\ 0 <= w.
Proof.
  intros Hw. destruct (pipe_fds pick_fd Hpick (open_fds (kern p))) as (r & w & Er & Ew & Hr & Hw' & Hne & Hpr & Hpw).
  unfold new_SignalSource. cbn [write_fd]. rewrite Hw, Er. cbn [open_fds with_open]. rewrite Ew. cbn [Z.eqb negb andb].
  eexists _, _, r, w. split; [reflexivity|]. done.
Qed.

Lemma own_fds_four (X : gset Z) r w e l :
  r <> w -> e ∉ ({[w]} ∪ ({[r]} ∪ X)) -> l ∉ ({[e]} ∪ ({[w]} ∪ ({[r]} ∪ X))) ->
  {[l]} ∪ ({[e]} ∪ ({[w]} ∪ ({[r]} ∪ X))) = X ∪ list_to_set [r; w; e; l] /\ NoDup [r; w; e; l].
Proof.
  clear. intros Hrw He Hl. split; [apply set_eq; intros x; set_unfold; clear; tauto|].
  set_unfold. repeat constructor; rewrite ?elem_of_cons, ?elem_of_nil; naive_solver.
Qed.

(** A server that is made and set up binds to the first port of its
    configuration that the kernel gives it (80 and 8080 by default; any port for
    an empty list), or throws because there is none, a call failed, or there is a
    signal source already.  Its loop then starts without clients, with the
    descriptors that were open before and five of its own: both ends of the
    signal pipe, epoll, and the listener, the last and the pipe's read end
    registered with epoll.  What waits to be accepted, waits still. *)
Lemma server_starts config p :
  write_fd (sigs p) = -1 -> epoll_create_ok b = true -> epoll_add_ok b = true -> socket_ok b = true -> listen_ok b = true ->
  watched (kern p) = ∅ -> bad_closes (kern p) = [] ->
  exists source s p1, new_ServerImpl p = (Ret (source, s), p1) /\ signum_ source = 2 /\
    prev_handler_ source = disposition (sigs p) 2 /\
    match setup config s with
    | Ret (port, s1) =>
        let ports := match bind_ports_ config with [] => [0] | l => l end in
        let own := [read_pipe_ source; write_pipe_ source; server_epfd_ s; listenfd_ s1] in
        (exists before after, ports = before ++ port :: after /\ bind_ok b port = true /\ Forall (fun q => bind_ok b q = false) before) /\
        started (open_fds (kern p) ∪ list_to_set own) s1 /\
        NoDup own /\ Forall (fun fd => 0 <= fd /\ (fd ∉ open_fds (kern p))) own /\
        watched_own (sys s1) !! listenfd_ s1 = Some Listener /\ watched_own (sys s1) !! read_pipe_ source = Some Signals /\
        keep_running_ s1 = true /\ accepts (sys s1) = accepts (kern p) /\
        fixed s1 = (server_epfd_ s, listenfd_ s1, signal_read (kern p))
    | Throw e => e = runtime_error "bind: no ports available" /\ Forall (fun q => bind_ok b q = false) (bind_ports_ config)
    | Undef _ => False
    end.
Proof.
  intros Hw Hce Hca Hs Hl Hwa Hbc. destruct (new_source_fds 2 p Hw) as (source & p1 & r & w & Hnew & Hr & Hwr & Hk & Hsig & Hprev & Hfr & Hfw & Hne & Hpr & Hpw).
  unfold new_ServerImpl. rewrite Hnew, Hce. unfold addEventReceiver. rewrite Hca, Hk. cbn [sys].
  set (k2 := with_open (with_open (kern p) r) w). destruct (Hpick (open_fds k2)) as [Hfe Hpe]. set (e := pick_fd (open_fds k2)) in *.
  eexists source, _, _. split; [reflexivity|]. split; [exact Hsig|]. split; [exact Hprev|].
  unfold setup, bind. rewrite Hs. cbn [sys clients_ remove_clients_ keep_running_ server_epfd_].
  set (k3 := mk_system _ _ _ _ _ _). destruct (Hpick (open_fds k3)) as [Hfl Hpl]. set (l := pick_fd (open_fds k3)) in *.
  unfold viewBindPorts. set (ports := match bind_ports_ config with [] => [0] | _ => _ end).
  assert (ports = match bind_ports_ config with [] => [0] | l => l end) as Hports by (by destruct (bind_ports_ config)).
  pose proof (bind_loop_spec ports) as Hb. destruct (bind_loop ports) as [port|ex|u]; cbn [mbind outcome_bind].
  - rewrite Hl. unfold addEventReceiver. rewrite Hca. cbn [mbind outcome_bind]. split; [by rewrite <- Hports|].
    change (open_fds k3) with ({[e]} ∪ ({[w]} ∪ ({[r]} ∪ open_fds (kern p)))) in Hfl.
    change (open_fds k2) with ({[w]} ∪ ({[r]} ∪ open_fds (kern p))) in Hfe.
    destruct (own_fds_four _ r w e l Hne Hfe Hfl) as [Heq Hnd].
    assert (l ∈ open_fds (kern p) ∪ list_to_set [r; w; e; l]) as Hin by set_solver.
    assert (l <> r) as Hlr by set_solver.
    unfold started. cbn [clients_ remove_clients_ sys watched watched_own bad_closes open_fds listenfd_ server_epfd_ with_sys with_open k3 k2].
    rewrite Hr, Hwr. split; [|split; [done|split; [|split]]].
    + do 4 (split; [done|]). split; [exact Heq|]. exact Hin.
    + repeat constructor; try done; set_solver.
    + apply lookup_insert_eq.
    + split; [|done]. rewrite lookup_insert_ne; [apply lookup_insert_eq|exact Hlr].
  - destruct Hb as [-> Hb]. split; [done|]. rewrite Hports in Hb. destruct (bind_ports_ config); [constructor|exact Hb].
  - done.
Qed.

End setup.

(** Port 80 is taken. *)
Definition example_boot : boot := mk_boot true true true (fun port => negb (port =? 80)) true.

Lemma server_starts_witness :
  exists source s p1 s1, new_ServerImpl (T := unit) next_fd example_boot example_process = (Ret (source, s), p1) /\
    setup next_fd example_boot new_ServerConfig s = Ret (8080, s1) /\
    started ({[0; 1; 2; 6]} ∪ list_to_set [read_pipe_ source; write_pipe_ source; server_epfd_ s; listenfd_ s1]) s1.
Proof.
  destruct (server_starts (T := unit) next_fd example_boot next_fd_fresh new_ServerConfig example_process)
    as (source & s & p1 & Hnew & Hsetup); try reflexivity.
  assert (match fst (new_ServerImpl (T := unit) next_fd example_boot example_process) with
          | Ret (_, s) => match setup next_fd example_boot new_ServerConfig s with Ret (port, _) => port = 8080 | _ => False end
          | _ => False end) as Hport by (vm_compute; reflexivity).
  rewrite Hnew in Hport. cbn [fst] in Hport. destruct (setup next_fd example_boot new_ServerConfig s) as [[port s1]|e|u] eqn:Hs;
    [|destruct Hport|destruct Hport].
  exists source, s, p1, s1. split; [exact Hnew|]. split; [by rewrite <- Hport|]. exact (proj1 (proj2 (proj2 (proj2 Hsetup)))).
Defined.
