(* ===== verification/WholeServer.v ===== *)
(** The whole server: the event loop of [Server.cpp] over connections whose
    transports are those of [SwitchTransport.cpp], [http1] and [http2]. *)
From stdpp Require Import gmap relations.
From S2P Require Import Prelude StreamBuf Sender Connection HpackTable Headers Routes Http1 Http1Transport Http1Spec Http1Server Http2 Http2Spec Http2Correct ServerConnection Touches ServerLoop ServerCorrect.

Section whole.
Context `{Multimap} (env : Env Connection).

(** A connection's transport, and how many messages it has sent. *)
Definition Served : Type := AnyTransport * nat.

Definition accepted : Served := (Switching, 0%nat).

(** [transport_->onInput(incoming_)], which acts on the connection as well. *)
Definition serve_input (t : Served) (c : Connection) : outcome (Served * Connection) :=
  '(transport, w, buf) ← transport_onInput env (fst t, mk_World c None (snd t)) (incoming_ c);
  Ret ((transport, messages_sent w), with_incoming (conn w) buf).

Context (Hclose : connection_close env = close).

#[export] Instance serve_input_tame : Tame serve_input.
Proof.
  intros t c t' c'. unfold serve_input. intros Hin.
  pose proof (touch_transport_onInput (rtc conn_step)) as Ht.
  assert (touch (rtc conn_step) (fun r => conn (snd (fst r))) c
            (transport_onInput env (fst t, mk_World c None (snd t)) (incoming_ c))) as Hc.
  { apply Ht.
    - intros c1 mem len c2 Hs. apply rtc_once. by apply (StepSend c1 mem len).
    - intros c1 b. apply rtc_once, StepOverflow.
    - intros c1. rewrite Hclose. apply rtc_once, StepClose. }
  apply bind_ret in Hin as ([[tr w] buf] & Heq & Hin). rewrite Heq in Hc. injection Hin as _ <-. cbn in Hc.
  eapply rtc_r; [exact Hc|apply StepInput].
Qed.


Context (pick_fd : gset Z -> Z) (Hpick : forall X, (pick_fd X ∉ X) /\ 0 <= pick_fd X) (base : gset Z).

(** The states of the server between two waits. *)
Abbreviation runs := (reachable serve_input base accepted pick_fd).

(** C5: Whatever its clients send and however their sockets fail, a turn of the
    event loop leaves every client open under its own descriptor and watched,
    the descriptors that are open exactly the server's own and its clients', and
    none closed twice; it fails neither with the exception for a descriptor that
    is a client's already, nor by using a connection that was removed, nor by a
    loop that does not end, unless a transport does so. *)
Theorem server_loop_safe s events :
  runs s -> Forall (live s) events ->
  sat (tidy base) (blames_e serve_input) (blames_f serve_input) (turn accepted serve_input pick_fd events s).
Proof.
  intros Hs Hl. destruct (reachable_ok serve_input base accepted pick_fd Hpick s Hs) as [Hok _].
  eapply sat_mono; [by apply (turn_ok serve_input base accepted pick_fd Hpick)| |done|done].
  intros s' [? ?]. by apply server_ok_tidy.
Qed.

(** A turn with the signal alone. *)
Lemma signal_turn (s : ServerImpl Served) :
  remove_clients_ s = [] -> signal_read (sys s) = 4 ->
  exists s1, turn accepted serve_input pick_fd [mk_event Signals false true] s = Ret s1 /\ clients_ s1 = clients_ s /\
    keep_running_ s1 = false /\ fixed s1 = fixed s.
Proof.
  intros Hq Hr. exists (mk_ServerImpl (clients_ s) (remove_clients_ s) false (server_epfd_ s) (listenfd_ s) (sys s)). split; [|done].
  unfold turn. cbn. unfold signal_onPollIn. rewrite Hr. by apply remove_none.
Qed.

(** C21: If a turn in which the signal came returns, the loop returns, too, with no
    clients and no listener; the descriptors of the clients it had are all open
    still, and in the queue of those to be closed, which is not read again.  A
    turn with the signal alone returns. *)
Theorem server_stops s events rest :
  runs s -> keep_running_ s = true -> Forall (live s) events -> mk_event Signals false true ∈ events ->
  (forall s1, turn accepted serve_input pick_fd events s = Ret s1 ->
     exists s', loop accepted serve_input pick_fd (Events events :: rest) s = Ret (true, s') /\
       clients_ s' = ∅ /\ listenfd_ s' = -1 /\ remove_clients_ s' ≡ₚ elements (dom (clients_ s1)) /\
       open_fds (sys s') = (base ∖ {[listenfd_ s1]}) ∪ dom (clients_ s1)) /\
  (events = [mk_event Signals false true] -> signal_read (sys s) = 4 ->
     exists s1, turn accepted serve_input pick_fd events s = Ret s1 /\ clients_ s1 = clients_ s).
Proof.
  intros Hs Hk Hl Hin. pose proof (reachable_ok serve_input base accepted pick_fd Hpick s Hs) as [Hok Hq]. split.
  - intros s1 Hturn. exists (cleanup s1).
    pose proof (turn_ok serve_input base accepted pick_fd Hpick s events Hok Hl) as Hok1. rewrite Hturn in Hok1.
    destruct Hok1 as [Hok1 Hq1]. split.
    2: { destruct (cleanup_ok base s1 Hok1 Hq1) as (? & ? & ? & _ & [= _ ? _]). done. }
    cbn [loop]. rewrite Hk, Hturn. cbn [negb mbind outcome_bind].
    assert (keep_running_ s1 = false) as Hk1.
    { unfold turn in Hturn. apply bind_ret in Hturn as (s0 & H0 & H1).
      pose proof (dispatch_all_signal accepted serve_input pick_fd events s Hin) as Hd. rewrite H0 in Hd. cbn in Hd.
      pose proof (dispatch_all_ok serve_input base accepted pick_fd Hpick events s Hok) as Hd0. rewrite H0 in Hd0.
      destruct Hd0 as [Hok0 _]; [eapply Forall_impl; [exact Hl|]; intros e; by apply live_knows with (base := base)|].
      destruct (remove_dead_clients_ok serve_input base s0 Hok0) as (s2 & H2 & _ & _ & _ & Hk2). congruence. }
    destruct rest; cbn [loop]; by rewrite Hk1.
  - intros -> Hr. destruct (signal_turn s Hq Hr) as (s1 & Hturn & Hc & _). by exists s1.
Qed.

End whole.

(** ** At work *)

Definition connection_env : Env Connection :=
  mk_Env Connection hello_world staticUpgrades (fun _ => example_date) raw0 true (fun n => n) no_base64 close.

(** Two clients are waiting; the first asks, and later hangs up. *)
Definition own_fds : gset Z := {[0; 1; 2; 3; 4; 5]}.
Definition example_server : ServerImpl Served :=
  let ask := render (wire_message get_hello) in
  mk_ServerImpl ∅ [] true 4 5
    (mk_system own_fds ∅ {[2 := Signals; 5 := Listener]} [NewClient [Accept 1000] [Data ask; NotYet; Eof] true; NewClient [] [NotYet] true; AcceptAgain] 4 []).

Definition listener_ready : list epoll_event := [mk_event Listener false true].
Abbreviation example_turn := (turn accepted (serve_input connection_env) next_fd).
Definition serving : ServerImpl Served := default example_server (match example_turn listener_ready example_server with Ret s => Some s | _ => None end).

Lemma serving_turn : example_turn listener_ready example_server = Ret serving.
Proof. vm_compute. reflexivity. Qed.

Lemma example_runs : reachable (serve_input connection_env) own_fds accepted next_fd serving.
Proof.
  apply (reach_turn _ _ _ _ example_server listener_ready); [|by repeat constructor|apply serving_turn].
  apply reach_start. by repeat split.
Qed.

(** The first client is answered and, when it hangs up, removed. *)
Lemma server_loop_safe_witness :
  let hang_up := [mk_event (Client 6) false true] in
  dom (clients_ serving) = {[6; 7]} /\
  sat (fun s' => tidy own_fds s' /\ dom (clients_ s') = {[7]}) (blames_e (serve_input connection_env))
    (blames_f (serve_input connection_env)) (example_turn hang_up serving).
Proof.
  intros hang_up. split; [vm_compute; reflexivity|].
  pose proof (server_loop_safe connection_env eq_refl next_fd next_fd_fresh own_fds serving hang_up example_runs) as H.
  assert (exists s', example_turn hang_up serving = Ret s' /\ dom (clients_ s') = {[7]}) as (s' & Heq & Hd)
    by (eexists; split; [vm_compute; reflexivity|vm_compute; reflexivity]).
  rewrite Heq in H |- *. change (tidy own_fds s' /\ dom (clients_ s') = {[7]}). split; [|exact Hd].
  apply H. constructor; [|constructor]. change (6 ∈ watched (sys serving)). apply (bool_decide_unpack _). vm_compute. exact I.
Defined.

Lemma server_stops_witness :
  exists s', loop accepted (serve_input connection_env) next_fd [Events [mk_event Signals false true]] serving = Ret (true, s') /\
    clients_ s' = ∅ /\ open_fds (sys s') = {[0; 1; 2; 3; 4; 6; 7]}.
Proof.
  destruct (server_stops connection_env eq_refl next_fd next_fd_fresh own_fds serving [mk_event Signals false true] [])
    as [Hloop Halone].
  - apply example_runs.
  - vm_compute. reflexivity.
  - by repeat constructor.
  - left.
  - destruct Halone as (s1 & Heq & Hc); [done|vm_compute; reflexivity|].
    destruct (Hloop s1 Heq) as (s' & Hrun & Hempty & _ & _ & Hopen). exists s'. split; [exact Hrun|]. split; [done|].
    assert (listenfd_ s1 = 5) as Hl by (vm_compute in Heq; injection Heq as <-; vm_compute; reflexivity).
    rewrite Hopen, Hl, Hc. vm_compute. reflexivity.
Defined.
