(* ===== verification/Conversation.v ===== *)
(** A conversation: from the octets that a client's socket delivers to the octets
    that its connection sends or queues for it, through [Connection.cpp] and the loop of
    [Server.cpp], for any transport that answers as a protocol says. *)
From stdpp Require Import gmap relations.
From S2P Require Import Prelude StreamBuf Sender Connection Headers Http1Transport Http1Server Http2 ServerConnection Touches ServerLoop WholeServer.

(** ** Input does not grow the buffer *)

(** The buffer that is left is valid, has at most the capacity of [b], and holds
    at most as much. *)
Definition no_larger {A} (f : A -> StreamBuf) (b : StreamBuf) (m : outcome A) : Prop :=
  sat (fun a => fits b (f a)) (fun _ => True) (fun _ => True) m.

Lemma no_larger_bind {A B} (f : A -> StreamBuf) (g : B -> StreamBuf) b m k :
  no_larger f b m -> (forall a, no_larger g (f a) (k a)) -> no_larger g b (m ≫= k).
Proof.
  intros Hm Hk. eapply sat_bind; [exact Hm|]. intros a Ha. cbn in Ha.
  eapply sat_mono; [apply Hk|cbn; intros; by etrans|done|done].
Qed.

Lemma no_larger_pure {A B} (g : B -> StreamBuf) b (m : outcome A) k :
  (forall a, no_larger g b (k a)) -> no_larger g b (m ≫= k).
Proof. intros Hk. by destruct m; cbn. Qed.

Lemma no_larger_ret {A} (f : A -> StreamBuf) b a : f a = b -> no_larger f b (Ret a).
Proof. intros <-. unfold no_larger. cbn. reflexivity. Qed.

Lemma blit_octets (l : list Z) k l' :
  arr_blit l 0 k = Ret l' -> zlen l' = zlen l /\ zlen k <= zlen l /\ (octets l -> octets k -> octets l').
Proof.
  unfold arr_blit. destruct (_ && _) eqn:E; [|done]. intros [= <-]. apply andb_true_iff in E as [E1%Z.leb_le E2%Z.leb_le].
  split; [|split; [lia|]].
  - change (Z.to_nat 0) with 0%nat. cbn [take app Nat.add]. unfold zlen in *. rewrite length_app, length_drop. lia.
  - intros Hl Hk. change (take (Z.to_nat 0) l) with (@nil Z). by apply Forall_app_2, Forall_drop.
Qed.

Lemma advance_no_larger b n : no_larger id b (sb_advance b n).
Proof.
  unfold sb_advance, sb_size. destruct (Z.ltb_spec (in_use_ b) n) as [|Hn]; [done|]. destruct (n =? in_use_ b) eqn:En.
  { split; cbn; [lia|]. intros Hb. split; [by apply sb_clear_ok|apply Hb]. }
  destruct (arr_slice (buf_ b) n (in_use_ b - n)) as [s| |] eqn:Es; [|done|done]. cbn [mbind outcome_bind].
  destruct (arr_blit (buf_ b) 0 s) as [v|?|?] eqn:E; [|done|done]. apply blit_octets in E as (Hz & Hs & Ho).
  unfold no_larger. cbn. unfold arr_slice in Es. destruct (_ && _) eqn:Ec; [|done].
  apply andb_true_iff in Ec as [[E1%Z.leb_le E2%Z.leb_le]%andb_true_iff E3%Z.leb_le].
  split; cbn; [lia|]. intros [Hin Hoct]. split; [|lia]. split; cbn; [lia|]. apply Ho; [done|]. injection Es as <-.
  by apply Forall_take, Forall_drop.
Qed.

(** ** Sending leaves what is to be read *)

Lemma pollOut_reads c c' : onPollOut c = Ret c' -> reads (os c') = reads (os c).
Proof.
  assert (forall c c', updateSubscription c = Ret c' -> reads (os c') = reads (os c)) as Hsub.
  { intros c0 c1 Hu. by apply updateSubscription_frame in Hu as [=]. }
  unfold onPollOut. destruct (sb_isEmpty (outgoing_ c)); [apply Hsub|]. intros H.
  apply bind_ret in H as ([r c1] & H1 & H). apply pollout_loop_frame in H1 as [= _ _ _ _ Hr]. rewrite <- Hr.
  assert ((if sb_isEmpty (outgoing_ c1) then updateSubscription c1 else Ret c1) = Ret c' -> reads (os c') = reads (os c1)) as Hrest.
  { destruct (sb_isEmpty (outgoing_ c1)); [apply Hsub|by intros [= <-]]. }
  destruct r as [n|[]]; [by apply Hrest|by apply Hrest|]. injection H as <-. unfold close. by destruct (fd_ c1 =? -1).
Qed.

Lemma send_reads c mem len c' : Connection_send c mem len = Ret c' -> reads (os c') = reads (os c).
Proof.
  unfold Connection_send. destruct (sb_isEmpty (outgoing_ c)); intros H.
  - apply bind_ret in H as ([[r n] c1] & H1 & H). apply send_loop_frame in H1 as [= _ _ _ _ Hr]. rewrite <- Hr.
    assert ((if n <? len then data ← arr_slice mem n (len - n); b ← sb_write (outgoing_ c1) data;
             Ret (with_outgoing c1 b) else Ret c1) = Ret c' -> reads (os c') = reads (os c1)) as Hrest.
    { destruct (n <? len); [|by intros [= <-]]. intros Hu. apply bind_ret in Hu as (d & _ & Hu).
      apply bind_ret in Hu as (b & _ & Hu). by injection Hu as <-. }
    destruct r as [[|k|k]|[]]; try (by apply Hrest); injection H as <-; unfold close; by destruct (fd_ c1 =? -1).
  - apply bind_ret in H as (d & _ & H). apply bind_ret in H as (b & _ & H). by apply pollOut_reads in H.
Qed.

(** ** What reading leaves *)

(** What only the kernel's reads and the input buffer differ in. *)
Lemma sender_ok_reads `{Roomy} c b l :
  sender_ok c -> let c' := with_incoming (with_os c (mk_kernel (wire (os c)) (sends (os c)) l (interest (os c)) (ctl (os c)) (removed (os c)) (closed (os c)))) b in
  sender_ok c' /\ sent c' = sent c.
Proof. intros [[[Ho Hb Hc Hi] Hcalm] Hroomy]. by split. Qed.

Lemma sys_read_sender `{Roomy} c n r l c' : sys_read c n = (r, l, c') -> sender_ok c -> sender_ok c' /\ sent c' = sent c.
Proof.
  unfold sys_read. destruct (isClosed c); [by intros [= _ _ <-]|].
  destruct (reads (os c)) as [|[d| | |] rest]; try (by intros [= _ _ <-]);
    try (intros [= _ _ <-] Hc; by apply (sender_ok_reads c (incoming_ c))).
  destruct (zlen d <=? n); intros [= _ _ <-] Hc; by apply (sender_ok_reads c (incoming_ c)).
Qed.

Lemma sender_open `{Roomy} c : sender_ok c -> isOpen c = true.
Proof. intros [[[Ho _ _ _] _] _]. exact Ho. Qed.

Lemma sender_incoming `{Roomy} c b : sender_ok c -> sender_ok (with_incoming c b) /\ sent (with_incoming c b) = sent c.
Proof. intros [[[Ho Hb Hc Hi] Hcalm] Hroomy]. by split. Qed.

(** What is assumed of a client's socket. *)
Definition obliging `{Roomy} (sends : list send_answer) : Prop := calm sends /\ (roomy = true -> Forall ample sends).


(** The octets [out] were sent on [c]: its socket has taken the beginning of them,
    and what it has not is queued; which is nothing, if it takes everything it is
    offered ([sends], all its answers) and has not stopped answering. *)
Definition answered_with (sends : list send_answer) (c : Connection) (out : list Z) : Prop :=
  wire (os c) ++ content (outgoing_ c) = out /\
  (Forall ample sends -> Connection.sends (os c) <> [] -> content (outgoing_ c) = [] /\ wire (os c) = out).

Lemma bool_obliging sends (HR := bool_decide (Forall ample sends) : Roomy) : calm sends -> obliging sends.
Proof. intros Hc. split; [done|]. by intros Hr%bool_decide_eq_true. Qed.

Lemma flushed_answered sends c out (HR := bool_decide (Forall ample sends) : Roomy) :
  wire (os c) ++ content (outgoing_ c) = out -> (roomy = true -> flushed c) -> answered_with sends c out.
Proof.
  intros Hw Hf. split; [done|]. intros Ha Hs. destruct (flushed_wire c) as [Hnone Heq]; [by apply Hf, bool_decide_eq_true|done|].
  split; [done|]. by rewrite Heq.
Qed.

(** ** Protocols *)

(** What a client is still to be sent: octets, or the failure that its input ends
    the server with. *)
Definition prepend (out : list Z) (g : outcome (list Z)) : outcome (list Z) := rest ← g; Ret (out ++ rest).

Definition same_failure {A B} (g : outcome A) (m : outcome B) : Prop :=
  match g with Ret _ => False | Throw e => m = Throw e | Undef u => m = Undef u end.

Lemma prepend_nil g : prepend [] g = g.
Proof. by destruct g. Qed.

Lemma prepend_app out1 out2 g : prepend out1 (prepend out2 g) = prepend (out1 ++ out2) g.
Proof. destruct g; [|done|done]. unfold prepend. cbn. by rewrite (assoc_L (++)). Qed.

Lemma same_failure_prepend {B} out g (m : outcome B) : same_failure g m -> same_failure (prepend out g) m.
Proof. by destruct g. Qed.

Lemma same_failure_bind {A B D} (g : outcome A) (m : outcome B) (k : B -> outcome D) :
  same_failure g m -> same_failure g (m ≫= k).
Proof. destruct g; cbn; [done|by intros ->|by intros ->]. Qed.

(** Where a transport is between two reads: [state t n sent b rest g] for the
    transport [t] of a connection that has sent [n] messages and been given [sent]
    octets, with [b] as input buffer; [rest] is still to come, and [g] is owed. *)
Definition protocol_state : Type := AnyTransport -> nat -> Z -> StreamBuf -> list Z -> outcome (list Z) -> Prop.

Section protocol.
Context `{HM : Multimap} {HR : Roomy} (env : Env Connection).

(** A call that read the piece in front of [rest]: it paid a part of what was
    owed, or failed as it had to. *)
Definition moves (state : protocol_state) (rest : list Z) (c : Connection) (b : StreamBuf) (g : outcome (list Z))
    (m : outcome (AnyTransport * World Connection * StreamBuf)) : Prop :=
  (exists t' n' c' b' out g', m = Ret (t', mk_World c' None n', b') /\ g = prepend out g' /\
     state t' n' (zlen (sent c')) b' rest g' /\ zlen (buf_ b') <= zlen (buf_ b) /\
     sender_ok c' /\ sent c' = sent c ++ out) \/ same_failure g m.

Class Protocol (state : protocol_state) : Prop := {
  protocol_buf t n z b rest g : state t n z b rest g -> sb_ok b /\ in_use_ b + zlen rest <= 2 ^ 57;
  protocol_content t n z b b' rest g : state t n z b rest g -> sb_ok b' -> content b' = content b -> state t n z b' rest g;
  protocol_end t n z b g : state t n z b [] g -> g = Ret [];
  protocol_input t n b b1 d rest g c :
    state t n (zlen (sent c)) b (d ++ rest) g -> sb_ok b1 -> content b1 = content b ++ d -> sender_ok c ->
    moves state rest c b1 g (transport_onInput env (t, mk_World c None n) b1)
}.

(** Two protocols side by side. *)
Definition either (state1 state2 : protocol_state) : protocol_state := fun t n z b rest g =>
  state1 t n z b rest g \/ state2 t n z b rest g.

Lemma moves_mono (state state' : protocol_state) rest c b g m :
  (forall t n z b rest g, state t n z b rest g -> state' t n z b rest g) -> moves state rest c b g m -> moves state' rest c b g m.
Proof.
  intros Hs [(t' & n' & c' & b' & out & g' & Hm & Hg & Hst & Hrest)|Hf]; [left|by right].
  exists t', n', c', b', out, g'. split; [done|]. split; [done|]. by split; [apply Hs|].
Qed.

#[export] Instance either_protocol state1 state2 `{H1 : !Protocol state1} `{H2 : !Protocol state2} : Protocol (either state1 state2).
Proof.
  split.
  - intros t n z b rest g [Hst|Hst]; [exact (protocol_buf (Protocol := H1) _ _ _ _ _ _ Hst)|exact (protocol_buf (Protocol := H2) _ _ _ _ _ _ Hst)].
  - intros t n z b b' rest g [Hst|Hst] Hb Hc; [left; exact (protocol_content (Protocol := H1) _ _ _ _ _ _ _ Hst Hb Hc)|].
    right. exact (protocol_content (Protocol := H2) _ _ _ _ _ _ _ Hst Hb Hc).
  - intros t n z b g [Hst|Hst]; [exact (protocol_end (Protocol := H1) _ _ _ _ _ Hst)|exact (protocol_end (Protocol := H2) _ _ _ _ _ Hst)].
  - intros t n b b1 d rest g c [Hst|Hst] Hb1 Hc1 Hc.
    + apply (moves_mono state1); [by left|]. exact (protocol_input (Protocol := H1) t n b b1 d rest g c Hst Hb1 Hc1 Hc).
    + apply (moves_mono state2); [by right|]. exact (protocol_input (Protocol := H2) t n b b1 d rest g c Hst Hb1 Hc1 Hc).
Qed.

Context (Hclose : connection_close env = close).

Lemma transport_reads t w b t' w' b' :
  transport_onInput env (t, w) b = Ret (t', w', b') -> reads (os (conn w')) = reads (os (conn w)).
Proof.
  intros Heq. assert (touch (fun c c' => reads (os c') = reads (os c)) (fun r : AnyTransport * World Connection * StreamBuf => conn (snd (fst r)))
            (conn w) (transport_onInput env (t, w) b)) as Hw.
  { pose proof (@touch_transport_onInput _ _ _ (fun c c' => reads (os c') = reads (os c))) as Ht. apply Ht.
    - split; [done|]. intros x y z Hxy Hyz. congruence.
    - apply send_reads.
    - done.
    - intros c. rewrite Hclose. unfold close. by destruct (fd_ c =? -1). }
  by rewrite Heq in Hw.
Qed.

(** ** One connection *)

Context (state : protocol_state) `{!Protocol state}.

(** What there is to read is read, and what can be answered is. *)
Lemma poll_conversation fuel : forall t n c chunks rest later g,
  state t n (zlen (sent c)) (incoming_ c) (concat chunks ++ rest) g -> sender_ok c -> zlen (buf_ (incoming_ c)) <= 2 ^ 60 ->
  reads (os c) = map Data chunks ++ NotYet :: later -> Forall (fun l => l <> [] /\ octets l) chunks ->
  zlen (concat chunks) < Z.of_nat fuel ->
  let m := onPollIn (serve_input env) fuel (t, n) c in
  (exists t' n' c' out g', m = Ret ((t', n'), c') /\ g = prepend out g' /\
     state t' n' (zlen (sent c')) (incoming_ c') rest g' /\ zlen (buf_ (incoming_ c')) <= 2 ^ 60 /\
     sender_ok c' /\ sent c' = sent c ++ out /\ reads (os c') = later) \/ same_failure g m.
Proof.
  induction fuel as [|fuel IH]; intros t n c chunks rest later g Hst Hc Hcap Hr Hch Hf.
  { pose proof (zlen_nonneg (concat chunks)). lia. }
  destruct (protocol_buf _ _ _ _ _ _ Hst) as [Hb Hsz]. rewrite zlen_app in Hsz. pose proof (zlen_nonneg rest).
  cbn [onPollIn]. pose proof (zlen_nonneg (concat chunks)).
  destruct (sb_grow_ok (incoming_ c) Hb Hcap) as (b & Hg & Hb' & Hcn & Hu & Htail). rewrite Hg. cbn [mbind outcome_bind].
  pose proof (sb_grow_capacity _ _ Hb Hcap ltac:(lia) Hg) as Hcap'. destruct (sender_incoming c b Hc) as [Hcb Hsb].
  destruct chunks as [|l chunks].
  - left. destruct (sys_read (with_incoming c b) (sb_tailroom b)) as [[r d] c1] eqn:Hread.
    destruct (sys_read_sender _ _ _ _ _ Hread Hcb) as [Hc1 Hs1].
    assert (r = Errno true /\ incoming_ c1 = b /\ reads (os c1) = later) as (-> & Hi & Hr1).
    { revert Hread. unfold sys_read. pose proof (sender_open c Hc) as Ho. unfold isOpen, isClosed in *. cbn.
      destruct (fd_ c =? -1); [done|]. rewrite Hr. cbn. by intros [= <- _ <-]. }
    exists t, n, c1, [], g. rewrite prepend_nil, app_nil_r, Hi, Hs1, Hsb. split; [done|]. split; [done|].
    split; [|done]. by apply (protocol_content _ _ _ (incoming_ c)).
  - destruct (sys_read_chunk (with_incoming c b) (sb_tailroom b) l chunks (NotYet :: later))
      as (d & chunks' & c1 & Hread & Hd & Ho1 & Hi1 & Hr1 & Hcat & Hall); [by apply sender_open|lia|by inversion Hch as [|? ? []]|done|].
    destruct (sys_read_sender _ _ _ _ _ Hread Hcb) as [Hc1 Hs1]. rewrite Hread.
    destruct (Hall Hch) as [Hoct Hch']. destruct (Z.ltb_spec 0 (zlen d)); [|lia].
    destruct (read_appends b d Hb' Hoct ltac:(lia) Hcap') as (buf & -> & Hzb & Hb2 & Hc2 & Hu2). cbn [mbind outcome_bind].
    set (b1 := sb_addTailContent (mk_StreamBuf (in_use_ b) buf) (zlen d)) in *.
    assert (zlen (buf_ b1) = zlen (buf_ b)) as Hzb1 by exact Hzb. destruct (sender_incoming c1 b1 Hc1) as [Hc1b Hs1b].
    rewrite Hcat in Hst, Hf. rewrite zlen_app in Hf. rewrite Hcn in Hc2. rewrite <- (assoc_L (++)) in Hst.
    assert (sent (with_incoming c1 b1) = sent c) as Hsame by (by rewrite Hs1b, Hs1, Hsb). rewrite <- Hsame in Hst.
    pose proof (protocol_input t n (incoming_ c) b1 d _ g _ Hst Hb2 Hc2 Hc1b) as [Hmove|Hfail].
    2: { right. apply same_failure_bind. unfold serve_input. cbn [fst snd].
         change (incoming_ (with_incoming c1 b1)) with b1. by apply same_failure_bind. }
    destruct Hmove as (t' & n' & c' & b' & out & g' & Hstep & -> & Hst' & Hcap3 & Hc' & Hs').
    assert (serve_input env (t, n) (with_incoming c1 b1) = Ret ((t', n'), with_incoming c' b')) as ->
      by (unfold serve_input; cbn [fst snd]; change (incoming_ (with_incoming c1 b1)) with b1; by rewrite Hstep).
    cbn [mbind outcome_bind]. destruct (sender_incoming c' b' Hc') as [Hc'b Hs'b]. rewrite (sender_open _ Hc'b).
    apply transport_reads in Hstep. rewrite <- Hs'b in Hst'.
    destruct (IH t' n' (with_incoming c' b') chunks' rest later g' Hst' Hc'b) as [Hrec|Hfail]; try done.
    + cbn [incoming_ with_incoming]. lia.
    + cbn [conn os with_incoming] in *. by rewrite Hstep.
    + lia.
    + left. destruct Hrec as (t2 & n2 & c2 & out2 & g2 & Hrun & -> & Hst2 & Hcap2 & Hc2' & Hs2 & Hr2).
      exists t2, n2, c2, (out ++ out2), g2. rewrite prepend_app. split; [done|]. split; [done|]. split; [done|]. split; [done|].
      split; [done|]. split; [|done]. by rewrite Hs2, Hs'b, Hs', Hsame, <- (assoc_L (++)).
    + right. by apply same_failure_prepend.
Qed.

(** ** One connection of the server *)

(** The reads of a client that comes back with a batch of pieces at a time. *)
Definition arrivals (batches : list (list (list Z))) : list read_answer :=
  concat (map (fun chunks => map Data chunks ++ [NotYet]) batches).

Definition octets_of (batches : list (list (list Z))) : list Z := concat (concat batches).

Definition pieces_ok (batches : list (list (list Z))) : Prop := Forall (Forall (fun l => l <> [] /\ octets l)) batches.

(** A client that is to send [batches], and to which [g] is owed. *)
Record talking (cl : client Served) (batches : list (list (list Z))) (g : outcome (list Z)) : Prop := mk_talking {
  tk_sender : sender_ok (cl_conn cl) /\ removed (os (cl_conn cl)) = [];
  tk_state : state (fst (cl_transport cl)) (snd (cl_transport cl)) (zlen (sent (cl_conn cl))) (incoming_ (cl_conn cl))
               (octets_of batches) g;
  tk_reads : reads (os (cl_conn cl)) = arrivals batches;
  tk_chunks : pieces_ok batches;
  tk_buf : zlen (buf_ (incoming_ (cl_conn cl))) <= 2 ^ 60
}.

Lemma unread_arrivals chunks l : zlen (concat chunks) <= Z.of_nat (unread_octets (map Data chunks ++ l)).
Proof.
  induction chunks as [|d chunks IH]; cbn [map concat app unread_octets]; [unfold zlen; cbn; lia|].
  rewrite zlen_app. unfold zlen in *. lia.
Qed.

Lemma octets_of_cons b batches : octets_of (b :: batches) = concat b ++ octets_of batches.
Proof. unfold octets_of. cbn. by rewrite concat_app. Qed.

#[local] Instance served_tame : Tame (serve_input env) := serve_input_tame env Hclose.

(** What is owed after a step of a client: [out] less, or the failure. *)
Definition pays {A} (g : outcome (list Z)) (m : outcome A) (P : A -> list Z -> outcome (list Z) -> Prop) : Prop :=
  (exists a out g', m = Ret a /\ g = prepend out g' /\ P a out g') \/ same_failure g m.

Lemma client_talks cl b batches g :
  talking cl (b :: batches) g ->
  pays g (client_pollIn (serve_input env) cl) (fun cl' out g' =>
    talking cl' batches g' /\ sent (cl_conn cl') = sent (cl_conn cl) ++ out).
Proof.
  destruct cl as [[t n] c]. intros [[Hc Hrem] Hst Hr Hch Hcap]. cbn [fst snd cl_transport cl_conn] in *.
  apply Forall_cons in Hch as [Hb Hch]. rewrite octets_of_cons in Hst.
  unfold arrivals in Hr. cbn [map concat] in Hr. rewrite <- (assoc_L (++)) in Hr.
  change (reads (os c) = map Data b ++ NotYet :: arrivals batches) in Hr.
  pose proof (client_pollIn_safe (serve_input env) (mk_client (t, n) c)) as Hl. unfold client_pollIn in *. cbn [cl_conn cl_transport] in *.
  destruct (poll_conversation (read_fuel c) t n c b (octets_of batches) (arrivals batches) g Hst Hc Hcap Hr Hb) as [Hrun|Hfail].
  - unfold read_fuel. rewrite Hr. pose proof (unread_arrivals b (NotYet :: arrivals batches)). lia.
  - left. destruct Hrun as (t' & n' & c' & out & g' & Heq & -> & Hst' & Hcap' & Hc' & Hs & Hr').
    exists (mk_client (t', n') c'), out, g'. rewrite Heq in Hl |- *. cbn in Hl. split; [done|]. split; [done|]. split; [|done].
    split; cbn [cl_transport cl_conn fst snd]; try done. split; [done|].
    destruct Hl as [_ [Hl|[_ Hl]]]; [injection Hl; congruence|]. exfalso. apply sender_open in Hc'. unfold isOpen in Hc'.
    unfold core, closed_frame in Hl. injection Hl as Hf _ _ _. by rewrite Hf in Hc'.
  - right. by apply same_failure_bind.
Qed.

(** What settling leaves of a client that has not closed. *)
Lemma settle_talking fd cl batches g (s : ServerImpl Served) :
  talking cl batches g ->
  exists cl', clients_ (settle fd cl s) = <[fd := cl']> (clients_ s) /\ remove_clients_ (settle fd cl s) = remove_clients_ s /\
    talking cl' batches g /\ sent (cl_conn cl') = sent (cl_conn cl) /\ keep_running_ (settle fd cl s) = keep_running_ s /\
    accepts (sys (settle fd cl s)) = accepts (sys s).
Proof.
  intros [[[[[Ho Hb Hct Hi] Hcalm] Hroomy] Hrem] Hst Hr Hch Hbuf]. unfold settle. eexists. split; [done|].
  cbn [remove_clients_ with_clients]. rewrite Hrem, app_nil_r. split; [done|]. split; [|done]. by split.
Qed.

Context (pick_fd : gset Z -> Z) (Hpick : forall X, (pick_fd X ∉ X) /\ 0 <= pick_fd X) (base : gset Z).
Abbreviation runs := (reachable (serve_input env) base accepted pick_fd).

(** A state after a turn, in which epoll reported a client that is there. *)
Lemma client_turn fd (s s' : ServerImpl Served) cl :
  runs s -> clients_ s !! fd = Some cl ->
  turn accepted (serve_input env) pick_fd [mk_event (Client fd) false true] s = Ret s' -> runs s'.
Proof.
  intros Hs Hl Hturn. apply (reach_turn _ _ _ _ s [mk_event (Client fd) false true]); [done| |done].
  apply Forall_singleton. destruct (reachable_ok (serve_input env) base accepted pick_fd Hpick s Hs) as [Hok Hq].
  destruct (server_ok_tidy base s Hok Hq) as (_ & _ & _ & Hw & _). unfold live. cbn [ev_target]. rewrite Hw. by apply elem_of_dom.
Qed.

Abbreviation polled fd := (Events [mk_event (Client fd) false true]).

(** A turn in which a batch is read. *)
Lemma polled_turn fd (s : ServerImpl Served) cl b batches g :
  clients_ s !! fd = Some cl -> remove_clients_ s = [] -> talking cl (b :: batches) g ->
  pays g (turn accepted (serve_input env) pick_fd [mk_event (Client fd) false true] s) (fun s' out g' =>
    remove_clients_ s' = [] /\ keep_running_ s' = keep_running_ s /\
    exists cl', clients_ s' = <[fd := cl']> (clients_ s) /\ talking cl' batches g' /\ sent (cl_conn cl') = sent (cl_conn cl) ++ out).
Proof.
  intros Hl Hq Ht. unfold turn. cbn [dispatch_all dispatch ev_out ev_in ev_target receiver_pollIn mbind outcome_bind].
  unfold with_client. rewrite Hl. destruct (client_talks cl b batches g Ht) as [(cl1 & out & g1 & -> & -> & Ht1 & Hs1)|Hfail].
  2: { right. repeat first [exact Hfail|apply same_failure_bind]. }
  cbn [mbind outcome_bind]. destruct (settle_talking fd cl1 _ _ s Ht1) as (cl2 & Hc2 & Hq2 & Ht2 & Hs2 & Hk2 & _).
  rewrite remove_none by by rewrite Hq2. left. exists (settle fd cl1 s), out, g1. split; [done|]. split; [done|].
  split; [congruence|]. split; [done|]. exists cl2. split; [done|]. split; [done|]. by rewrite Hs2, Hs1.
Qed.

(** The turns in which the other batches are read. *)
Lemma loop_talks fd batches : forall (s : ServerImpl Served) cl g,
  runs s -> clients_ s !! fd = Some cl -> remove_clients_ s = [] -> keep_running_ s = true -> talking cl batches g ->
  pays g (loop accepted (serve_input env) pick_fd (map (fun _ => polled fd) batches) s) (fun r out g' =>
    g' = Ret [] /\ fst r = false /\ runs (snd r) /\ exists cl', clients_ (snd r) = <[fd := cl']> (clients_ s) /\
      sender_ok (cl_conn cl') /\ sent (cl_conn cl') = sent (cl_conn cl) ++ out).
Proof.
  induction batches as [|b batches IH]; intros s cl g Hruns Hl Hq Hk Ht; cbn [map loop]; rewrite Hk; cbn [negb].
  - left. exists (false, s), [], g. rewrite prepend_nil. split; [done|]. split; [done|]. pose proof Ht as [[Hc _] Hst _ _ _].
    split; [by eapply protocol_end|]. split; [done|]. split; [done|]. exists cl. split; [by rewrite insert_id|].
    split; [done|by rewrite app_nil_r].
  - destruct (polled_turn fd s cl b batches g Hl Hq Ht) as [(s1 & out & g1 & Hturn & -> & Hq1 & Hk1 & cl1 & Hc1 & Ht1 & Hs1)|Hfail];
      [|right; by apply same_failure_bind].
    apply client_turn with (cl := cl) in Hturn as Hruns1; [|done|done]. rewrite Hturn. cbn [mbind outcome_bind].
    destruct (IH s1 cl1 g1) as [([stop s'] & out2 & g2 & -> & -> & -> & Hstop & Hruns' & cl' & Hc' & Ho' & Hs')|Hfail]; try congruence.
    { by rewrite Hc1, lookup_insert_eq. }
    + left. exists (stop, s'), (out ++ out2), (Ret []). rewrite prepend_app. split; [done|]. split; [done|]. split; [done|].
      split; [done|]. split; [done|]. exists cl'. cbn [snd] in *. split; [by rewrite Hc', Hc1, insert_insert_eq|]. split; [done|].
      by rewrite Hs', Hs1, (assoc_L (++)).
    + right. by apply same_failure_prepend.
Qed.

(** ** From accepting the client on *)

(** A connection that has just been accepted. *)
Lemma new_talking fd epfd sends batches g c :
  0 <= fd -> obliging sends -> pieces_ok batches -> state Switching 0%nat 0 empty_StreamBuf (octets_of batches) g ->
  new_Connection epfd fd (new_kernel sends (arrivals batches) true) = Ret c ->
  talking (mk_client accepted (with_manager c)) batches g /\ sent (cl_conn (mk_client accepted (with_manager c))) = [].
Proof.
  intros Hfd [Hcalm Hample] Hch Hst. unfold new_Connection. destruct (epfd <? 0); [done|].
  destruct (Z.ltb_spec fd 0); [done|]. cbn. intros [= <-]. split; [|done].
  split; cbn [cl_transport cl_conn accepted fst snd with_manager incoming_ os reads removed]; try done.
  split; [|done]. split; [|intros Hr; split; [by apply Hample|done]]. split; [|done]. split; try done. unfold isOpen. cbn. lia.
Qed.

(** A call of [accept] that finds a client. *)
Lemma accept_one (s : ServerImpl Served) sends b batches l g :
  let fd := pick_fd (open_fds (sys s)) in
  clients_ s !! fd = None -> 0 <= server_epfd_ s ->
  accepts (sys s) = NewClient sends (arrivals (b :: batches)) true :: l ->
  obliging sends -> pieces_ok (b :: batches) -> state Switching 0%nat 0 empty_StreamBuf (octets_of (b :: batches)) g ->
  pays g (accept accepted (serve_input env) pick_fd s) (fun r out g' =>
    fst r = true /\ remove_clients_ (snd r) = remove_clients_ s /\ keep_running_ (snd r) = keep_running_ s /\
    server_epfd_ (snd r) = server_epfd_ s /\ accepts (sys (snd r)) = l /\
    exists cl, clients_ (snd r) = <[fd := cl]> (clients_ s) /\ talking cl batches g' /\ sent (cl_conn cl) = out).
Proof.
  intros fd Hnone Hep Hacc Hcalm Hch Hst. set (k := new_kernel sends (arrivals (b :: batches)) true).
  destruct (Hpick (open_fds (sys s))) as [_ Hpos]. fold fd in Hpos.
  assert (exists c, new_Connection (server_epfd_ s) fd k = Ret c) as [c Hc].
  { unfold new_Connection. destruct (Z.ltb_spec (server_epfd_ s) 0); [lia|]. destruct (Z.ltb_spec fd 0); [lia|]. by eexists. }
  destruct (new_talking fd (server_epfd_ s) sends (b :: batches) g c Hpos Hcalm Hch Hst Hc) as [Ht Hs].
  set (s0 := with_sys s (with_open (with_accepts (sys s) l) fd)).
  destruct (settle_talking fd _ _ _ s0 Ht) as (cl1 & Hc1 & Hq1 & Ht1 & Hs1 & Hk1 & Ha1). set (s1 := settle fd _ s0) in *.
  assert (accept accepted (serve_input env) pick_fd s
          = s2 ← (cl ← client_pollIn (serve_input env) cl1; Ret (settle fd cl s1)); Ret (true, s2)) as ->.
  { unfold accept. rewrite Hacc. fold fd. cbn [server_epfd_ with_sys clients_]. fold k. rewrite Hc. cbn [mbind outcome_bind].
    rewrite Hnone. fold s0. fold s1. unfold with_client. by rewrite Hc1, lookup_insert_eq. }
  destruct (client_talks cl1 b batches g Ht1) as [(cl2 & out & g1 & -> & -> & Ht2 & Hs2)|Hfail].
  2: { right. repeat first [exact Hfail|apply same_failure_bind]. }
  destruct (settle_talking fd cl2 _ _ s1 Ht2) as (cl3 & Hc3 & Hq3 & Ht3 & Hs3 & Hk3 & Ha3).
  left. exists (true, settle fd cl2 s1), out, g1. cbn [fst snd]. rewrite Hc3, Hc1, insert_insert_eq, Hq3, Hq1, Hk3, Hk1, Ha3, Ha1.
  do 7 (split; [done|]). exists cl3. split; [done|]. split; [done|]. by rewrite Hs3, Hs2, Hs1, Hs.
Qed.

Lemma accept_talks (s : ServerImpl Served) sends b batches l g :
  let fd := pick_fd (open_fds (sys s)) in
  clients_ s !! fd = None -> remove_clients_ s = [] -> 0 <= server_epfd_ s ->
  accepts (sys s) = NewClient sends (arrivals (b :: batches)) true :: AcceptAgain :: l ->
  obliging sends -> pieces_ok (b :: batches) -> state Switching 0%nat 0 empty_StreamBuf (octets_of (b :: batches)) g ->
  pays g (turn accepted (serve_input env) pick_fd [mk_event Listener false true] s) (fun s' out g' =>
    remove_clients_ s' = [] /\ keep_running_ s' = keep_running_ s /\
    exists cl, clients_ s' = <[fd := cl]> (clients_ s) /\ talking cl batches g' /\ sent (cl_conn cl) = out).
Proof.
  intros fd Hnone Hq Hep Hacc Hcalm Hch Hst.
  unfold turn. cbn [dispatch_all dispatch ev_out ev_in ev_target receiver_pollIn mbind outcome_bind].
  unfold server_onPollIn. rewrite Hacc. cbn [length accept_loop].
  destruct (accept_one s sends b batches _ g Hnone Hep Hacc Hcalm Hch Hst)
    as [([more s2] & out & g1 & -> & -> & Hm & Hq2 & Hk2 & _ & Ha2 & cl & Hc2 & Ht2 & Hs2)|Hfail].
  2: { right. repeat first [exact Hfail|apply same_failure_bind]. }
  cbn [fst snd] in *. subst more. cbn [mbind outcome_bind accept_loop]. left.
  exists (with_sys s2 (with_accepts (sys s2) l)), out, g1. split; [|split; [done|]].
  - unfold accept. rewrite Ha2. cbn [mbind outcome_bind]. apply remove_none. cbn [remove_clients_ with_sys]. by rewrite Hq2.
  - cbn [clients_ remove_clients_ keep_running_ with_sys]. rewrite Hq2. split; [done|]. split; [done|]. by exists cl.
Qed.

(** A client of the running server, from [accept4] on, in a turn for each batch:
    it is given what it is owed, or its input ends the server. *)
Lemma client_served (s : ServerImpl Served) sends b batches l g :
  runs s -> keep_running_ s = true -> 0 <= server_epfd_ s ->
  accepts (sys s) = NewClient sends (arrivals (b :: batches)) true :: AcceptAgain :: l -> obliging sends ->
  pieces_ok (b :: batches) -> state Switching 0%nat 0 empty_StreamBuf (octets_of (b :: batches)) g ->
  let fd := pick_fd (open_fds (sys s)) in
  let run := loop accepted (serve_input env) pick_fd
               (Events [mk_event Listener false true] :: map (fun _ => polled fd) batches) s in
  match g with
  | Ret out => exists s' cl, run = Ret (false, s') /\ runs s' /\ clients_ s !! fd = None /\ clients_ s' = <[fd := cl]> (clients_ s) /\
      isOpen (cl_conn cl) = true /\ wire (os (cl_conn cl)) ++ content (outgoing_ (cl_conn cl)) = out /\
      (roomy = true -> flushed (cl_conn cl))
  | Throw e => run = Throw e
  | Undef u => run = Undef u
  end.
Proof.
  intros Hruns Hk Hep Hacc Hcalm Hch Hst fd run.
  destruct (reachable_ok (serve_input env) base accepted pick_fd Hpick s Hruns) as [Hok Hq].
  assert (clients_ s !! fd = None) as Hnone.
  { destruct (Hpick (open_fds (sys s))) as [Hfresh _]. fold fd in Hfresh. apply not_elem_of_dom. intros Hin. apply Hfresh.
    rewrite (proj1 (so_open base s Hok)). apply elem_of_union. by right. }
  assert (pays g run (fun r out g' => g' = Ret [] /\ fst r = false /\ runs (snd r) /\
            exists cl, clients_ (snd r) = <[fd := cl]> (clients_ s) /\ sender_ok (cl_conn cl) /\ sent (cl_conn cl) = out)) as Hpays.
  { unfold run. cbn [loop]. rewrite Hk. cbn [negb].
    destruct (accept_talks s sends b batches l g Hnone Hq Hep Hacc Hcalm Hch Hst)
      as [(s1 & out1 & g1 & Hturn & -> & Hq1 & Hk1 & cl1 & Hc1 & Ht1 & Hs1)|Hfail]; [|right; by apply same_failure_bind].
    assert (runs s1) as Hruns1 by (apply (reach_turn _ _ _ _ s [mk_event Listener false true]); [done|by apply Forall_singleton|done]).
    rewrite Hturn. cbn [mbind outcome_bind]. fold fd in Hc1.
    destruct (loop_talks fd batches s1 cl1 g1) as [(r & out2 & g2 & -> & -> & -> & Hr & Hruns' & cl & Hc & Ho & Hs)|Hfail];
      [done|by rewrite Hc1, lookup_insert_eq|done|congruence|done| |right; by apply same_failure_prepend].
    left. exists r, (out1 ++ out2), (Ret []). rewrite prepend_app. split; [done|]. split; [done|]. split; [done|]. split; [done|].
    split; [done|]. exists cl. split; [by rewrite Hc, Hc1, insert_insert_eq|]. split; [done|]. by rewrite Hs, Hs1. }
  destruct Hpays as [([stop s'] & out & g' & Hrun & -> & -> & Hstop & Hruns' & cl & Hc & Ho & Hs)|Hfail].
  - cbn [fst snd] in *. subst stop. cbn. rewrite app_nil_r. exists s', cl. do 4 (split; [done|]).
    split; [by apply sender_open|]. split; [exact Hs|apply Ho].
  - destruct g; [done|exact Hfail|exact Hfail].
Qed.

End protocol.
