(* ===== verification/Http1Refusals.v ===== *)
(** Messages that [http1/Transport.cpp] and [http1/ServerTransport.cpp] refuse: the
    lines that end with an exception, whatever came before. *)
From stdpp Require Import gmap relations.
From S2P Require Import Prelude StreamBuf Sender Headers Routes Http1 Http1Transport Http1Spec Http1Server ServerCorrect ServerConnection Conversation.

Section refusals.
Context {W : Type} `{HO : Owner W} `{HM : Multimap}.

(** The lines [bad] fail as [g], at the last one and not before. *)
Record refused (bad : list (list Z)) (g : outcome (list Z)) : Prop := mk_refused {
  rf_lines : Forall (absent NL) bad;
  rf_some : bad <> [];
  rf_begin : forall k l, k ++ l = bad -> l <> [] -> exists t, midway t k;
  rf_fails : forall w, replaced w = false -> same_failure g (run_lines bad new_Transport w)
}.

(** [bad] and anything may follow the messages of a client, or nothing. *)
Definition ending (bad : list (list Z)) (junk : list Z) (g : outcome (list Z)) : Prop :=
  (bad = [] /\ junk = [] /\ g = Ret []) \/ refused bad g.

Lemma ending_lines bad junk g : ending bad junk g -> Forall (absent NL) bad.
Proof. intros [(-> & _)|[]]; [constructor|done]. Qed.

(** ** In the headers *)

(** The lines of a message that is cut off in its headers by [line]. *)
Definition cut_off (m : Msg) (line : list Z) : list (list Z) :=
  (m_first m ++ [CR]) :: map (fun e => header_line e ++ [CR]) (m_headers m) ++ [line ++ [CR]].

Lemma run_cut_off m line w :
  message_ok m -> replaced w = false ->
  exists last', (m_headers m = [] -> last' = []) /\
    run_lines (cut_off m line) new_Transport w = run_lines [line ++ [CR]] (headers_so_far m (received_headers m) last') w.
Proof.
  intros [Hf Hh] Hr. unfold cut_off. cbn [run_lines]. rewrite chomp_line.
  cbn [line_step new_Transport incoming_message_ mbind outcome_bind last_header_ expected_body_length_].
  rewrite Hr, body_pending_open by done. cbn [orb].
  destruct (decide (m_headers m = [])) as [Hn|Hn].
  - exists []. split; [done|]. unfold received_headers. by rewrite Hn.
  - destruct (run_headers m (m_headers m) [line ++ [CR]] w new_Headers [] Hr Hh) as (last' & Hrun). by exists last'.
Qed.

Lemma cut_off_begins m line k l : message_ok m -> k ++ l = cut_off m line -> l <> [] -> exists t, midway t k.
Proof.
  intros Hm Heq Hl. destruct (exists_last Hl) as (l' & x & ->). unfold cut_off in Heq.
  rewrite app_comm_cons, (assoc_L (++)) in Heq. apply app_inj_tail in Heq as [Heq _].
  apply (midway_message m k (l' ++ [[CR]]) Hm); [|by destruct l']. unfold message_lines.
  by rewrite app_comm_cons, <- Heq, (assoc_L (++)).
Qed.

(** A header line that fails, after whatever headers. *)
Lemma refused_cut_off m line g :
  message_ok m -> absent NL line ->
  (forall last' w, (m_headers m = [] -> last' = []) -> replaced w = false ->
     same_failure g (line_step (headers_so_far m (received_headers m) last') w line)) ->
  refused (cut_off m line) g.
Proof.
  intros Hm Hl Hfails. split.
  - unfold cut_off. apply Forall_cons_2; [apply absent_app; [apply Hm|by apply absent_cons, absent_nil]|].
    pose proof (message_lines_ok m Hm) as Hls. unfold message_lines in Hls. apply Forall_cons in Hls as [_ Hls].
    apply Forall_app in Hls as [Hls _]. apply Forall_app_2; [done|]. apply Forall_singleton, absent_app; [done|by apply absent_cons, absent_nil].
  - done.
  - intros k l. by apply cut_off_begins.
  - intros w Hr. destruct (run_cut_off m line w Hm Hr) as (last' & Hlast & ->). cbn [run_lines]. rewrite chomp_line.
    apply same_failure_bind. by apply Hfails.
Qed.

(** A line without a colon. *)
Lemma no_colon_refused m c line :
  message_ok m -> absent NL (c :: line) -> absent 58 (c :: line) -> c <> 32 -> c <> 9 ->
  refused (cut_off m (c :: line)) (Throw (runtime_error "Malformed header: no colon")).
Proof.
  intros Hm Hl H58 Hc1 Hc2. apply refused_cut_off; [done|done|]. intros last' w _ _. unfold line_step. cbn [incoming_message_ headers_so_far].
  destruct (Z.eqb_spec c 32), (Z.eqb_spec c 9); try done. cbn [orb]. unfold headerLine. pose proof (find_char_cases 58 (c :: line)) as Hf.
  destruct (find_char 58 (c :: line)) as [i|]; [|done]. exfalso. destruct Hf as (l1 & rest & Heq & _ & _). rewrite Heq in H58.
  apply Forall_app in H58 as [_ H58]. by apply Forall_cons in H58 as [? _].
Qed.

(** A continuation of no header. *)
Lemma continuation_refused first c line :
  absent NL first -> absent NL (c :: line) -> c = 32 \/ c = 9 ->
  refused (cut_off (mk_message first []) (c :: line)) (Throw (runtime_error "Erroneous header continuation")).
Proof.
  intros Hf Hl Hc. apply refused_cut_off; [by split|done|]. intros last' w Hlast _. rewrite (Hlast eq_refl).
  unfold line_step. cbn [incoming_message_ headers_so_far].
  assert ((c =? 32) || (c =? 9) = true) as -> by (by destruct Hc as [-> | ->]). done.
Qed.

(** ** Whole messages *)

(** A message that its handler fails for. *)
Lemma refused_message m g :
  message_ok m -> no_body m -> (forall w, replaced w = false -> same_failure g (serve_one m w)) -> refused (message_lines m) g.
Proof.
  intros Hm Hn Hfails. split; [by apply message_lines_ok|done|intros k l; by apply midway_message|]. intros w Hr.
  pose proof (run_message m [] w Hm Hn Hr) as Hrun. specialize (Hfails w Hr). rewrite app_nil_r in Hrun.
  destruct (serve_one m w); destruct g; cbn in *; try done; congruence.
Qed.

(** A message whose length cannot be read. *)
Lemma refused_length m g :
  message_ok m -> same_failure g (getContentLength (received_headers m)) -> refused (message_lines m) g.
Proof.
  intros Hm Hg. split; [by apply message_lines_ok|done|intros k l; by apply midway_message|]. intros w Hr.
  destruct (run_header_section m [] w Hm Hr) as (last' & Hrun). rewrite app_nil_r in Hrun. rewrite Hrun.
  cbn [run_lines]. change (chomp [CR]) with (@nil Z). apply same_failure_bind. unfold line_step, markHeadersComplete.
  cbn [incoming_message_ headers_so_far incoming mbind outcome_bind].
  change (in_headers _) with (received_headers m). repeat apply same_failure_bind. exact Hg.
Qed.

End refusals.

(** A request line that cannot be split. *)
Lemma request_line_refused {C} `{Sender C} `{HM : Multimap} `{!MultimapOk} (env : Env C) m g :
  message_ok m -> no_body m -> named (received_headers m) (str "expect") = [] ->
  same_failure g (parseRequestLine (m_first m)) -> refused (HO := server_owner env) (message_lines m) g.
Proof.
  intros Hm Hn Hexp Hg. apply refused_message; [done|done|]. intros w Hr. unfold serve_one.
  cbn [onEndOfMessageHeaders handleIncomingMessage server_owner]. unfold server_onEndOfMessageHeaders, Headers_get.
  rewrite find_absent by done. rewrite bool_decide_eq_false_2 by (intros Hx; by apply Hx). cbn [mbind outcome_bind].
  unfold server_handleIncomingMessage. cbn [first_line]. by do 2 apply same_failure_bind.
Qed.
