(* ===== verification/Http1Conversation.v ===== *)
(** HTTP/1 as a protocol of [Conversation]: requests without bodies, the replies
    of the routes, and the message that is refused. *)
From stdpp Require Import gmap relations.
From S2P Require Import Prelude StreamBuf Sender Connection HpackTable Headers Routes Http1 Http1Transport Http1Spec Http1Server Http2 Http2Correct ServerConnection ServerCorrect Touches ServerLoop WholeServer Conversation Http1Refusals.

(** ** Input does not grow the buffer *)

Section capacity.
Context {W : Type} `{Owner W} `{Multimap}.

Lemma getLine_no_larger b : no_larger snd b (getLine b).
Proof.
  unfold getLine. apply no_larger_pure. intros [n|]; [|by apply no_larger_ret]. apply no_larger_pure. intros line.
  apply (no_larger_bind id); [apply advance_no_larger|]. intros b'. by apply no_larger_ret.
Qed.

Lemma readBody_no_larger t b : no_larger snd b (readBody t b).
Proof.
  unfold readBody, readChunked, readContent. destruct (_ =? _); [done|]. apply no_larger_pure. intros m.
  apply no_larger_pure. intros s. apply (no_larger_bind id); [apply advance_no_larger|]. intros b'. by apply no_larger_ret.
Qed.

Abbreviation left := (fun r : bool * (Transport * W * StreamBuf) => snd (snd r)).

Lemma processInput_no_larger t w b : no_larger left b (processInput t w b).
Proof.
  unfold processInput. destruct (sb_isEmpty b); [by apply no_larger_ret|]. destruct (_ && _).
  - apply (no_larger_bind snd); [apply readBody_no_larger|]. intros [t1 b1]. destruct (isMessageComplete t1); [|by apply no_larger_ret].
    apply no_larger_pure. intros [t2 w2]. by apply no_larger_ret.
  - apply (no_larger_bind snd); [apply getLine_no_larger|]. intros [[line|] b1]; [|by apply no_larger_ret].
    destruct (incoming_message_ t); [|by apply no_larger_ret]. destruct line as [|c l].
    + apply no_larger_pure. intros [t2 w2]. destruct (isMessageComplete t2); [|by apply no_larger_ret].
      apply no_larger_pure. intros [t3 w3]. by apply no_larger_ret.
    + apply no_larger_pure. intros t2. by apply no_larger_ret.
Qed.

Lemma onInput_no_larger t w b : no_larger snd b (onInput t w b).
Proof.
  unfold onInput. generalize (S (Z.to_nat (sb_size b))) as fuel. intros fuel. revert t w b.
  induction fuel as [|fuel IH]; intros t w b; cbn [input_loop]; [done|].
  apply (no_larger_bind left); [apply processInput_no_larger|]. intros [continu [[t1 w1] b1]]. cbn [snd].
  destruct (continu && negb (sb_isEmpty b1)); [|by apply no_larger_ret]. destruct (replaced w1); [done|apply IH].
Qed.

End capacity.
(** ** Lines of requests *)

Section requests.
Context `{HM : Multimap} `{!MultimapOk} {HR : Roomy} (env : Env Connection).
Context (Hraw : raw_ok (raw env)) (Hdates : forall n, octets (now env n)).

#[local] Existing Instance server_owner.
Abbreviation runs ls t w := (run_lines (H := server_owner env) ls t w).

Definition request_lines (rs : list request) : list (list Z) := concat (map (fun r => message_lines (wire_message r)) rs).

Abbreviation midway := (Http1Spec.midway (HO := server_owner env)).

(** How the client's input ends: after its requests, or with lines that are
    refused, and anything behind them. *)
Context (bad : list (list Z)) (junk : list Z) (g0 : outcome (list Z)) (Hend : ending (HO := server_owner env) bad junk g0).

Definition all_lines (rs : list request) : list (list Z) := request_lines rs ++ bad.
Definition stream (rs : list request) : list Z := unlines (all_lines rs) ++ junk.

(** What the client is to be sent for the rest of its input. *)
Definition owed (n : nat) (rs : list request) : outcome (list Z) := prepend (replies (now env) n (answers env rs)) g0.

(** The lines [pre] begin [all], and are not the whole of it. *)
Definition begins (pre all : list (list Z)) : Prop := pre = [] \/ exists later, later <> [] /\ pre ++ later = all.

Lemma wire_no_body r : request_ok r -> message_ok (wire_message r) /\ no_body (wire_message r).
Proof. intros Hr. split; [apply Hr|by apply request_no_body]. Qed.

Lemma all_lines_cons r rs : all_lines (r :: rs) = message_lines (wire_message r) ++ all_lines rs.
Proof. unfold all_lines, request_lines. cbn [map concat]. by rewrite (assoc_L (++)). Qed.

Lemma answers_cons r rs : answers env (r :: rs) = answers env [r] ++ answers env rs.
Proof. unfold answers. cbn. by rewrite app_nil_r. Qed.

Lemma answers_app rs1 rs2 : answers env (rs1 ++ rs2) = answers env rs1 ++ answers env rs2.
Proof. unfold answers. by rewrite map_app, concat_app. Qed.

Lemma owed_requests n rs1 rs2 :
  owed n (rs1 ++ rs2) = prepend (replies (now env) n (answers env rs1)) (owed (n + length (answers env rs1)) rs2).
Proof. unfold owed. by rewrite answers_app, replies_app, prepend_app. Qed.

(** What a connection has been given to send for [rs], from the [n]-th message on. *)
Definition replied (c : Connection) (n : nat) (rs : list request) (c' : Connection) : Prop :=
  sender_ok c' /\ sent c' = sent c ++ replies (now env) n (answers env rs).

Definition room (z : Z) (n : nat) (rs : list request) : Prop := z + zlen (replies (now env) n (answers env rs)) < 2 ^ 60.

(** Lines that have been read: the requests that are complete are answered, and
    the transport is inside the next. *)
Definition reads_on (ls later : list (list Z)) (rs : list request) (w : World Connection) : Prop :=
  exists tr pre rs1 rs2 c', rs = rs1 ++ rs2 /\ midway tr pre /\ begins pre (all_lines rs2) /\ pre ++ later = all_lines rs2 /\
    runs ls new_Transport w = Ret ([], (tr, mk_World c' None (messages_sent w + length (answers env rs1)))) /\
    replied (conn w) (messages_sent w) rs1 c'.

Lemma reads_on_nothing ls later rs tr (w : World Connection) :
  midway tr ls -> begins ls (all_lines rs) -> ls ++ later = all_lines rs -> upgraded w = None -> sender_ok (conn w) ->
  reads_on ls later rs w.
Proof.
  intros [Hbp Hmid] Hbeg Heq Hu Hc. exists tr, ls, [], rs, (conn w). split; [done|]. split; [by split|]. split; [done|]. split; [done|].
  cbn. rewrite Nat.add_0_r. rewrite Hmid by by apply none_replaced. split; [by destruct w; cbn in *; subst|].
  split; [done|by rewrite app_nil_r].
Qed.

(** Some of the lines: or the refused one is among them. *)
Lemma run_prefix rs : forall ls later (w : World Connection),
  Forall request_ok rs -> Forall response_ok (answers env rs) -> ls ++ later = all_lines rs ->
  upgraded w = None -> sender_ok (conn w) -> room (zlen (sent (conn w))) (messages_sent w) rs ->
  reads_on ls later rs w \/ later = [] /\ same_failure g0 (runs ls new_Transport w).
Proof.
  induction rs as [|r rs IH]; intros ls later w Hrs Hans Heq Hu Hc Hsz.
  - destruct (decide (ls = [])) as [->|Hls].
    { left. apply (reads_on_nothing _ _ _ new_Transport); try done; by apply midway_new || left. }
    change (ls ++ later = bad) in Heq. destruct Hend as [(Hbad & _)|Href].
    { rewrite Hbad in Heq. by apply app_eq_nil in Heq as [? _]. }
    destruct (decide (later = [])) as [->|Hl].
    + right. split; [done|]. rewrite app_nil_r in Heq. rewrite Heq. apply (rf_fails _ _ Href). by apply none_replaced.
    + left. destruct (rf_begin _ _ Href ls later Heq Hl) as (tr & Hmid). apply (reads_on_nothing _ _ _ tr); try done.
      right. by exists later.
  - apply Forall_cons in Hrs as [Hr Hrs]. rewrite all_lines_cons in Heq. destruct (wire_no_body r Hr) as [Hm Hn].
    unfold room in *. rewrite answers_cons in Hans, Hsz. apply Forall_app in Hans as [Hans1 Hans]. rewrite replies_app, zlen_app in Hsz.
    pose proof (zlen_nonneg (replies (now env) (messages_sent w + length (answers env [r])) (answers env rs))).
    assert ((exists l, message_lines (wire_message r) = ls ++ l /\ later = l ++ all_lines rs /\ l <> []) \/
            (exists l, ls = message_lines (wire_message r) ++ l /\ l ++ later = all_lines rs)) as [(l & Hml & -> & Hl)|(l & -> & Hl)].
    { apply app_eq_inv in Heq as [(k & -> & Hk)|(k & Hk & Hlater)].
      - right. by exists k.
      - destruct k as [|x k]; [right; exists []|left; by exists (x :: k)]. rewrite app_nil_r in Hk. rewrite app_nil_r. by split. }
    + left. destruct (midway_message (HO := server_owner env) _ ls l Hm (eq_sym Hml) Hl) as (tr & Hmid).
      assert (ls ++ l ++ all_lines rs = all_lines (r :: rs)) as Hall by (by rewrite all_lines_cons, Hml, (assoc_L (++))).
      apply (reads_on_nothing _ _ _ tr); try done. right. exists (l ++ all_lines rs). split; [by destruct l|done].
    + destruct (serve_one_ok env Hraw Hdates r w Hr Hans1 Hu Hc) as (c1 & Hserve & Hc1 & Hs1); [lia|].
      pose proof (run_message (HO := server_owner env) (wire_message r) l w Hm Hn (none_replaced env w Hu)) as Hrun.
      rewrite Hserve in Hrun. destruct Hrun as (t' & _ & Hrun). rewrite none_replaced in Hrun by done.
      destruct (IH l later (mk_World c1 None (messages_sent w + length (answers env [r])))) as [Hon|[-> Hfail]]; try done.
      { cbn [conn messages_sent]. rewrite Hs1, zlen_app. lia. }
      * left. destruct Hon as (tr & pre & rs1 & rs2 & c' & -> & Hmid & Hbeg & Hpre & Hrun' & Hc' & Hs').
        exists tr, pre, (r :: rs1), rs2, c'. split; [done|]. split; [done|]. split; [done|]. split; [done|].
        rewrite Hrun, Hrun', (answers_cons r rs1), length_app, Nat.add_assoc. split; [done|].
        unfold replied. rewrite (answers_cons r rs1). split; [done|].
        cbn [conn messages_sent] in Hs'. by rewrite Hs', Hs1, <- (assoc_L (++)), replies_app.
      * right. split; [done|]. by rewrite Hrun.
Qed.

Lemma all_lines_ok rs : Forall request_ok rs -> Forall (absent NL) (all_lines rs).
Proof.
  intros Hrs. apply Forall_app_2; [|exact (ending_lines _ _ _ Hend)].
  apply Forall_concat, Forall_map. eapply Forall_impl; [exact Hrs|]. intros r Hr. by apply message_lines_ok, wire_no_body.
Qed.

Lemma begins_ok pre rs : begins pre (all_lines rs) -> Forall request_ok rs -> Forall (absent NL) pre.
Proof.
  intros [->|(l & _ & Heq)] Hrs; [constructor|]. apply all_lines_ok in Hrs. rewrite <- Heq in Hrs. by apply Forall_app in Hrs as [? _].
Qed.

(** With nothing behind it, what begins all the lines is none. *)
Lemma begins_end pre more rs : begins pre (all_lines rs) -> pre = all_lines rs ++ more -> rs = [] /\ g0 = Ret [].
Proof.
  intros Hbeg ->. destruct Hbeg as [Hnil|(l & Hl & Heq)].
  - apply app_eq_nil in Hnil as [Hnil _]. apply app_eq_nil in Hnil as [Hrs Hbad]. split; [by destruct rs|].
    destruct Hend as [(_ & _ & Hg)|[]]; done.
  - exfalso. apply (f_equal length) in Heq. rewrite !length_app in Heq. destruct l; [done|]. cbn in Heq. lia.
Qed.

(** Lines beyond the last one that counts are behind the refused one. *)
Lemma run_beyond rs more (w : World Connection) :
  Forall request_ok rs -> Forall response_ok (answers env rs) -> upgraded w = None -> sender_ok (conn w) ->
  room (zlen (sent (conn w))) (messages_sent w) rs -> bad <> [] ->
  same_failure g0 (runs (all_lines rs ++ more) new_Transport w).
Proof.
  intros Hrs Hans Hu Hc Hsz Hbad. rewrite run_lines_app by (by rewrite none_replaced, body_pending_open). apply same_failure_bind.
  destruct (run_prefix rs (all_lines rs) [] w Hrs Hans) as [Hon|[_ Hfail]]; try done; [by rewrite app_nil_r|].
  exfalso. destruct Hon as (tr & pre & rs1 & rs2 & c' & -> & _ & Hbeg & Hpre & _). rewrite app_nil_r in Hpre.
  destruct (begins_end pre [] rs2 Hbeg) as [-> Hg]; [by rewrite app_nil_r|].
  destruct Hend as [(Hb & _)|Href]; [done|]. pose proof (rf_fails _ _ Href w (none_replaced env w Hu)) as Hf. by rewrite Hg in Hf.
Qed.

(** ** One call of the HTTP/1 transport *)

(** The transport [tr] is inside the first of the requests [rs]: what it has read
    of it, with what the buffer holds and what is still to come, is [rs] and the
    end of the input. *)
Record inside (tr : Transport) (b : StreamBuf) (rest : list Z) (rs : list request) : Prop := mk_inside {
  ins_requests : Forall request_ok rs;
  ins_answers : Forall response_ok (answers env rs);
  ins_buf : sb_ok b;
  ins_lines : exists pre, midway tr pre /\ begins pre (all_lines rs) /\ unlines pre ++ content b ++ rest = stream rs
}.

Lemma http1_step tr b rest rs c n :
  inside tr b rest rs -> sender_ok c -> room (zlen (sent c)) n rs ->
  (exists tr' rs1 rs2 c' b', rs = rs1 ++ rs2 /\
    http1_input env tr (mk_World c None n) b
      = Ret (ServerConnection.Http1 tr', mk_World c' None (n + length (answers env rs1)), b') /\
    inside tr' b' rest rs2 /\ absent NL (content b') /\ zlen (buf_ b') <= zlen (buf_ b) /\
    replied c n rs1 c' /\ room (zlen (sent c')) (n + length (answers env rs1)) rs2) \/
  same_failure g0 (http1_input env tr (mk_World c None n) b).
Proof.
  intros [Hrs Hans Hb (pre & Hmid & Hbeg & Heq)] Hc Hroom. pose proof (lines_of_spec (content b)) as Hl.
  destruct (lines_of (content b)) as [ls p]. destruct Hl as (Hcn & Hls & Hp).
  pose proof (begins_ok pre rs Hbeg Hrs) as Hpre. unfold stream in Heq. rewrite Hcn, <- (assoc_L (++)), (assoc_L (++)), <- unlines_app in Heq.
  pose proof (onInput_lines (HO := server_owner env) tr (mk_World c None n) b ls p Hb (proj1 Hmid) (none_replaced env (mk_World c None n) eq_refl) Hls Hp Hcn) as Htk.
  unfold takes in Htk. rewrite (run_on tr pre ls) in Htk by (done || by apply none_replaced).
  assert (same_failure g0 (runs (pre ++ ls) new_Transport (mk_World c None n)) -> same_failure g0 (http1_input env tr (mk_World c None n) b)) as Hfails.
  { intros Hf. apply same_failure_bind. unfold server_onInput. destruct g0; [done|by rewrite Hf in Htk|by rewrite Hf in Htk]. }
  destruct (unlines_split (pre ++ ls) (all_lines rs) (p ++ rest) junk) as [(later & Hlater & Hrest)|(more & Hmore & Hall & Hjunk)];
    [by apply Forall_app|by apply all_lines_ok|done| |].
  2: { right. apply Hfails. rewrite Hall. apply run_beyond; try done. intros Hbad.
       assert (junk = []) as Hj by (destruct Hend as [(_ & Hj & _)|[]]; done). rewrite Hj in Hjunk. apply app_eq_nil in Hjunk as [Hjunk _].
       destruct more as [|x more]; [done|]. by destruct x. }
  destruct (run_prefix rs (pre ++ ls) later (mk_World c None n) Hrs Hans Hlater eq_refl Hc Hroom) as [Hon|[_ Hf]]; [left|by right; apply Hfails].
  destruct Hon as (tr' & pre' & rs1 & rs2 & c' & -> & Hmid' & Hbeg' & Hpre' & Hrun & Hc' & Hs'). cbn [conn messages_sent] in Hrun, Hs'.
  rewrite Hrun in Htk. rewrite none_replaced in Htk by done. cbn [andb] in Htk.
  destruct Htk as (b' & Hin & Hb' & Hcn'). change (unlines [] ++ p) with p in Hcn'.
  assert (http1_input env tr (mk_World c None n) b
          = Ret (ServerConnection.Http1 tr', mk_World c' None (n + length (answers env rs1)), b')) as Hstep
    by (unfold http1_input, server_onInput; by rewrite Hin).
  pose proof (onInput_no_larger (H := server_owner env) tr (mk_World c None n) b) as Hcap. rewrite Hin in Hcap. destruct Hcap as [Hcap _]. cbn in Hcap.
  rewrite answers_app in Hans. apply Forall_app in Hans as [_ Hans].
  exists tr', rs1, rs2, c', b'. split; [done|]. split; [done|]. split; [|split; [by rewrite Hcn'|split; [done|split]]].
  - split; [by apply Forall_app in Hrs as [_ ?]|done|done|]. exists pre'. split; [done|]. split; [done|].
    unfold stream. by rewrite Hcn', Hrest, (assoc_L (++)), <- unlines_app, Hpre'.
  - by split.
  - unfold room in *. rewrite Hs', zlen_app. rewrite answers_app, replies_app, zlen_app in Hroom. lia.
Qed.

(** ** One call of any transport *)

(** Where a connection is between two reads: it has an HTTP/1 transport and an
    incomplete line, or it may still become HTTP/2. *)
Inductive stage : AnyTransport -> StreamBuf -> list Z -> list request -> Prop :=
  | InHttp1 tr b rest rs : inside tr b rest rs -> absent NL (content b) -> stage (ServerConnection.Http1 tr) b rest rs
  | InSwitch b rest rs :
      Forall request_ok rs -> Forall response_ok (answers env rs) -> sb_ok b ->
      content b ++ rest = stream rs -> content b `prefix_of` CLIENT_PREFACE -> content b <> CLIENT_PREFACE ->
      differs CLIENT_PREFACE (content b ++ rest) -> stage Switching b rest rs.

Lemma inside_content tr b b' rest rs : inside tr b rest rs -> sb_ok b' -> content b' = content b -> inside tr b' rest rs.
Proof. intros [Hr Ha _ Hl] Hb Hc. split; [done|done|done|]. by rewrite Hc. Qed.

Lemma stage_content t b b' rest rs : stage t b rest rs -> sb_ok b' -> content b' = content b -> stage t b' rest rs.
Proof.
  intros [tr b0 r0 rs0 Hin Ha|b0 r0 rs0 Hr Ha Hb0 Heq Hp Hn Hd] Hb Hc.
  - constructor; [by apply (inside_content tr b0)|by rewrite Hc].
  - constructor; rewrite ?Hc; done.
Qed.

(** At the end of the octets, the requests are at their end, and nothing was
    refused. *)
Lemma stage_end t b rs : stage t b [] rs -> rs = [] /\ g0 = Ret [].
Proof.
  intros Hst. inversion Hst as [tr b0 r0 rs0 [Hrs _ _ (pre & _ & Hbeg & Heq)] Ha|b0 r0 rs0 Hr _ _ Heq Hp _ [_ Hd]]; subst.
  - rewrite app_nil_r in Heq.
    destruct (unlines_split pre (all_lines rs) (content b) junk) as [(later & Hl & Hc)|(more & _ & Hl & _)];
      [by apply (begins_ok pre rs)|by apply all_lines_ok|done| |by apply (begins_end pre more)].
    destruct later as [|x later]; [rewrite app_nil_r in Hl; apply (begins_end pre []); [done|by rewrite app_nil_r]|].
    exfalso. rewrite Hc in Ha. unfold unlines in Ha. cbn [map concat] in Ha. unfold absent in Ha.
    do 2 apply Forall_app in Ha as [Ha _]. apply Forall_app in Ha as [_ Ha]. by apply Forall_cons in Ha as [Ha _].
  - exfalso. rewrite app_nil_r in Hd. by apply Hd.
Qed.

(** ** The protocol *)

Definition http1_state : protocol_state := fun t n z b rest g =>
  exists rs, stage t b rest rs /\ g = owed n rs /\ room z n rs /\ zlen (stream rs) <= 2 ^ 57.

Lemma unlines_requests rs : unlines (request_lines rs) = concat (map (fun r => render (wire_message r)) rs).
Proof.
  induction rs as [|r rs IH]; [done|]. unfold request_lines in *. cbn [map concat]. by rewrite unlines_app, IH, render_lines.
Qed.

Lemma stream_eq rs : stream rs = concat (map (fun r => render (wire_message r)) rs) ++ unlines bad ++ junk.
Proof. unfold stream, all_lines. by rewrite unlines_app, unlines_requests, <- (assoc_L (++)). Qed.

Lemma http1_moves t tr b1 rest rs c n :
  inside tr b1 rest rs -> sender_ok c -> room (zlen (sent c)) n rs -> zlen (stream rs) <= 2 ^ 57 ->
  transport_onInput env (t, mk_World c None n) b1 = http1_input env tr (mk_World c None n) b1 ->
  moves http1_state rest c b1 (owed n rs) (transport_onInput env (t, mk_World c None n) b1).
Proof.
  intros Hin Hc Hroom Hsz ->. destruct (http1_step tr b1 rest rs c n Hin Hc Hroom) as [Hstep|Hfail];
    [left|right; by apply same_failure_prepend].
  destruct Hstep as (tr' & rs1 & rs2 & c' & b' & -> & Hstep & Hin' & Ha & Hcap & (Hc' & Hs') & Hroom').
  exists (ServerConnection.Http1 tr'), (n + length (answers env rs1))%nat, c', b', (replies (now env) n (answers env rs1)).
  eexists. split; [exact Hstep|]. split; [apply owed_requests|]. split; [|done].
  exists rs2. split; [by constructor|]. split; [done|]. split; [done|].
  rewrite stream_eq, map_app, concat_app, <- (assoc_L (++)), <- stream_eq, zlen_app in Hsz.
  pose proof (zlen_nonneg (concat (map (fun r => render (wire_message r)) rs1))). lia.
Qed.

#[export] Instance http1_protocol : Protocol env http1_state.
Proof.
  split.
  - intros t n z b rest g (rs & Hst & _ & _ & Hsz). assert (sb_ok b) as Hb by (destruct Hst as [tr b r0 rs0 []|]; done).
    split; [done|]. rewrite <- (zlen_content b Hb).
    destruct Hst as [tr b r0 rs0 [_ _ _ (pre & _ & _ & Heq)] _|b r0 rs0 _ _ _ Heq]; rewrite <- Heq in Hsz; rewrite !zlen_app in Hsz;
      [|lia]. pose proof (zlen_nonneg (unlines pre)). lia.
  - intros t n z b b' rest g (rs & Hst & Hrest) Hb Hcn. exists rs. split; [by apply (stage_content t b)|done].
  - intros t n z b g (rs & Hst & -> & _). destruct (stage_end _ _ _ Hst) as [-> Hg]. unfold owed. by rewrite Hg.
  - intros t n b b1 d rest g c (rs & Hst & -> & Hroom & Hsz) Hb1 Hc1 Hc.
    inversion Hst as [tr b0 r0 rs0 [Hrs Ha Hb (pre & Hmid & Hbeg & Heq)] _|b0 r0 rs0 Hrs Ha Hb Heq Hp Hne Hd]; subst.
    + apply (http1_moves _ tr); [|done|done|done|done]. split; [done|done|done|]. exists pre. split; [done|]. split; [done|].
      by rewrite Hc1, <- (assoc_L (++)).
    + rewrite (assoc_L (++)), <- Hc1 in Heq, Hd.
      destruct (preface_cases (content b1)) as [[Hp1 Hne1]|[Hp1|Hd1]].
      * left. exists Switching, n, c, b1, []. eexists. cbn [transport_onInput].
        destruct (SwitchTransport_cases env (mk_World c None n) b1 Hb1) as [-> _]; [|done|done].
        split; [done|]. split; [by rewrite prepend_nil|]. split; [|by rewrite app_nil_r]. exists rs. split; [by constructor|done].
      * destruct Hd as [Hd _]. exfalso. apply Hd. by apply prefix_app_r.
      * apply (http1_moves _ new_Transport); [|done|done|done|].
        -- split; [done|done|done|]. exists []. split; [apply midway_new|]. split; [by left|done].
        -- cbn [transport_onInput]. by destruct (SwitchTransport_cases env (mk_World c None n) b1 Hb1) as (_ & _ & ->).
Qed.

(** A client that has just connected. *)
Lemma http1_start rs octets :
  Forall request_ok rs -> Forall response_ok (answers env rs) -> zlen octets <= 2 ^ 57 ->
  octets = concat (map (fun r => render (wire_message r)) rs) ++ unlines bad ++ junk -> differs CLIENT_PREFACE octets ->
  room 0 0 rs -> http1_state Switching 0%nat 0 empty_StreamBuf octets (owed 0 rs).
Proof.
  intros Hrs Hans Hsz Heq Hd Hroom. rewrite <- stream_eq in Heq. exists rs. rewrite <- Heq. split; [|done].
  constructor; try done. by apply prefix_nil.
Qed.

(** What the octets that are owed are, if nothing is refused. *)
Lemma owed_cases n rs :
  match g0 with
  | Ret _ => owed n rs = Ret (replies (now env) n (answers env rs))
  | Throw e => owed n rs = Throw e
  | Undef u => owed n rs = Undef u
  end.
Proof.
  unfold owed. destruct g0 as [out|e|u] eqn:Hg; [|done..].
  destruct Hend as [(_ & _ & Hnil)|Href]; [injection Hnil as ->; cbn; by rewrite app_nil_r|]. exfalso.
  by apply (rf_fails _ _ Href (mk_World (mk_Connection 0 0 empty_StreamBuf empty_StreamBuf true (new_kernel [] [] true)) None 0%nat)).
Qed.

End requests.

(** ** A client of the server *)

Section client.
Context `{HM : Multimap} `{!MultimapOk} (env : Env Connection).
Context (Hraw : raw_ok (raw env)) (Hdates : forall n, octets (now env n)).
Context (bad : list (list Z)) (junk : list Z) (g0 : outcome (list Z)) (Hend : ending (HO := server_owner env) bad junk g0).
Context (Hclose : connection_close env = close).
Context (pick_fd : gset Z -> Z) (Hpick : forall X, (pick_fd X ∉ X) /\ 0 <= pick_fd X) (base : gset Z).

(** C3: a client of the running server, from [accept4] to the octets of its
    replies.  In any state that the event loop reaches, a client is accepted and
    sends requests without bodies (and without Upgrade, Expect or Connection); they
    arrive in batches, cut anywhere, with a turn of the loop for each batch; its
    socket is [calm]: it may take less of the output than it is offered, but then
    EAGAIN comes next, and no call fails.  If that is all it sends, then after
    these turns the client is still connected, and what its socket has taken,
    followed by what is queued in [outgoing_], is exactly the responses of the
    routes, in order; nothing is queued if the socket takes everything it is
    offered and has not stopped answering; no other client has been touched.  If a
    message that is refused comes behind the requests, with anything behind it, its
    exception leaves the loop, and with it ends the server for all its clients. *)
Theorem server_answers_client (s : ServerImpl Served) sends b batches l rs :
  reachable (serve_input env) base accepted pick_fd s -> keep_running_ s = true -> 0 <= server_epfd_ s ->
  accepts (sys s) = NewClient sends (arrivals (b :: batches)) true :: AcceptAgain :: l -> calm sends ->
  Forall request_ok rs -> Forall response_ok (answers env rs) ->
  pieces_ok (b :: batches) -> zlen (octets_of (b :: batches)) <= 2 ^ 57 ->
  octets_of (b :: batches) = concat (map (fun r => render (wire_message r)) rs) ++ unlines bad ++ junk ->
  differs CLIENT_PREFACE (octets_of (b :: batches)) -> zlen (replies (now env) 0 (answers env rs)) < 2 ^ 60 ->
  let fd := pick_fd (open_fds (sys s)) in
  let run := loop accepted (serve_input env) pick_fd
               (Events [mk_event Listener false true] :: map (fun _ => Events [mk_event (Client fd) false true]) batches) s in
  match g0 with
  | Ret _ =>
      exists s' cl, run = Ret (false, s') /\
        clients_ s !! fd = None /\ clients_ s' = <[fd := cl]> (clients_ s) /\ isOpen (cl_conn cl) = true /\
        answered_with sends (cl_conn cl) (replies (now env) 0 (answers env rs))
  | Throw e => run = Throw e
  | Undef u => run = Undef u
  end.
Proof.
  intros Hruns Hk Hep Hacc Hcalm Hrs Hans Hch Hsz Heq Hd Hroom fd run.
  set (HR := bool_decide (Forall ample sends) : Roomy).
  pose proof (client_served env Hclose (http1_state env bad junk g0) (Protocol0 := http1_protocol env Hraw Hdates bad junk g0 Hend)
    pick_fd Hpick base s sends b batches l _ Hruns Hk Hep Hacc (bool_obliging sends Hcalm) Hch
    (http1_start env bad junk g0 rs _ Hrs Hans Hsz Heq Hd Hroom)) as Hrun.
  pose proof (owed_cases env bad junk g0 Hend 0 rs) as Ho. destruct g0; rewrite Ho in Hrun; [|exact Hrun..].
  destruct Hrun as (s' & cl & Hrun & _ & Hnone & Hc & Hopen & Hw & Hf). exists s', cl. do 4 (split; [done|]). by apply flushed_answered.
Qed.

End client.

(** ** At work *)

(** Two requests in two batches; the second cuts a request in two.  The socket
    takes ten octets of the first answer. *)
Definition asking_batches : list (list (list Z)) :=
  let ask := render (wire_message get_hello) in
  [[take 10 ask; drop 10 ask ++ take 5 ask]; [drop 5 ask]].

Definition asked_server : ServerImpl Served :=
  mk_ServerImpl ∅ [] true 4 5
    (mk_system own_fds ∅ {[2 := Signals; 5 := Listener]}
       [NewClient [Accept 10; Again; Accept (2 ^ 63)] (arrivals asking_batches) true; AcceptAgain] 4 []).

(** A request, and then one with a header without a colon, and more behind it. *)
Definition broken_lines : list (list Z) := cut_off (mk_message (str "GET / HTTP/1.1") []) (str "oops").
Definition broken_octets : list Z := unlines broken_lines ++ str "more".

Definition broken_batches : list (list (list Z)) :=
  [[render (wire_message get_hello); take 8 broken_octets]; [drop 8 broken_octets]].

Definition broken_server : ServerImpl Served :=
  mk_ServerImpl ∅ [] true 4 5
    (mk_system own_fds ∅ {[2 := Signals; 5 := Listener]} [NewClient [Accept (2 ^ 63)] (arrivals broken_batches) true; AcceptAgain] 4 []).

Lemma broken_refused :
  refused (HO := server_owner connection_env) broken_lines (Throw (runtime_error "Malformed header: no colon")).
Proof. apply no_colon_refused; try (apply (bool_decide_unpack _); vm_compute; exact I). split; apply (bool_decide_unpack _); vm_compute; exact I. Qed.

Lemma hello_answered n : Forall response_ok (answers connection_env (repeat get_hello n)).
Proof.
  induction n as [|n IH]; [constructor|]. cbn [repeat]. rewrite answers_cons. apply Forall_app_2; [|done].
  constructor; [|constructor]. split; [vm_compute; split; congruence| |]; apply (bool_decide_unpack _); vm_compute; exact I.
Qed.

Lemma connection_dates n : octets (now connection_env n).
Proof. apply (bool_decide_unpack _). vm_compute. exact I. Qed.

Lemma server_answers_client_witness :
  (exists s' cl,
    loop accepted (serve_input connection_env) next_fd
      [Events [mk_event Listener false true]; Events [mk_event (Client 6) false true]] asked_server = Ret (false, s') /\
    clients_ s' = {[6 := cl]} /\ isOpen (cl_conn cl) = true /\
    wire (os (cl_conn cl)) ++ content (outgoing_ (cl_conn cl))
      = replies (now connection_env) 0 (answers connection_env [get_hello; get_hello])) /\
  loop accepted (serve_input connection_env) next_fd
    [Events [mk_event Listener false true]; Events [mk_event (Client 6) false true]] broken_server
  = Throw (runtime_error "Malformed header: no colon").
Proof.
  pose proof get_hello_ok as Hok. split.
  - destruct (server_answers_client connection_env raw0_ok connection_dates [] [] (Ret []) (or_introl (conj eq_refl (conj eq_refl eq_refl)))
      eq_refl next_fd next_fd_fresh own_fds asked_server [Accept 10; Again; Accept (2 ^ 63)]
      [take 10 (render (wire_message get_hello)); drop 10 (render (wire_message get_hello)) ++ take 5 (render (wire_message get_hello))]
      [[drop 5 (render (wire_message get_hello))]] [] (repeat get_hello 2))
      as (s' & cl & Hloop & Hnone & Hc & Ho & Hw).
    + apply reach_start. by repeat split.
    + done.
    + by vm_compute.
    + done.
    + cbn. repeat split; lia || (right; exact I) || (left; lia).
    + do 2 (constructor; [done|]). constructor.
    + apply hello_answered.
    + apply (bool_decide_unpack _). vm_compute. exact I.
    + by vm_compute.
    + vm_compute. reflexivity.
    + apply (bool_decide_unpack _). vm_compute. exact I.
    + by vm_compute.
    + assert (next_fd (open_fds (sys asked_server)) = 6) as H6 by (vm_compute; reflexivity).
      rewrite H6 in Hloop, Hc. exists s', cl. split; [exact Hloop|]. split; [exact Hc|]. split; [exact Ho|exact (proj1 Hw)].
  - pose proof (server_answers_client connection_env raw0_ok connection_dates broken_lines (str "more") _ (or_intror broken_refused)
      eq_refl next_fd next_fd_fresh own_fds broken_server [Accept (2 ^ 63)] [render (wire_message get_hello); take 8 broken_octets]
      [[drop 8 broken_octets]] [] (repeat get_hello 1)) as Hrun.
    assert (next_fd (open_fds (sys broken_server)) = 6) as H6 by (vm_compute; reflexivity). rewrite H6 in Hrun. apply Hrun.
    + apply reach_start. by repeat split.
    + done.
    + by vm_compute.
    + done.
    + cbn. repeat split; lia || (right; exact I) || (left; lia).
    + by constructor.
    + apply hello_answered.
    + apply (bool_decide_unpack _). vm_compute. exact I.
    + by vm_compute.
    + vm_compute. reflexivity.
    + apply (bool_decide_unpack _). vm_compute. exact I.
    + by vm_compute.
Defined.
