(* ===== verification/Http2Conversation.v ===== *)
(** HTTP/2 as a protocol of [Conversation]: the client's preface, its frames, and
    what [Http2Spec] says of each. *)
From stdpp Require Import gmap relations.
From S2P Require Import Prelude StreamBuf Sender Connection HpackTable Headers Routes Frame Settings Http1Transport Http1Server ServerConnection ServerCorrect Touches ServerLoop WholeServer Conversation Http2 Http2Spec Http2Correct.

(** ** Input does not grow the buffer *)

Section capacity.
Context {C : Type} `{Sender C} `{Multimap} (char_signed : bool) (raw : list Z).

Abbreviation left := (fun r : Impl * C * StreamBuf => snd r).

Ltac steps :=
  repeat
    (cbv zeta beta; cbn [mbind outcome_bind];
     match goal with
     | |- no_larger _ _ (Ret _) => by apply no_larger_ret
     | |- no_larger _ _ (Throw _) => exact I
     | |- no_larger _ _ (Undef _) => exact I
     | |- no_larger _ _ (sb_advance _ _ ≫= _) => apply (no_larger_bind id); [apply advance_no_larger|intros ?]
     | |- no_larger _ _ (_ ≫= _) => first [eapply no_larger_bind; [solve [eauto]|intros ?] | apply no_larger_pure; intros ?]
     | |- no_larger _ _ (match ?x with _ => _ end) => destruct x
     end).

Lemma receiveBody_no_larger h s c b : no_larger left b (receiveBody char_signed raw h s c b).
Proof.
  unfold receiveBody, receiveHeaders, receivePing, receiveResetStream, receiveSettings, receiveWindowUpdate. steps.
  unfold receiveData. destruct (_ =? 0); [done|]. apply no_larger_pure. intros st. destruct (_ && _); [done|].
  apply no_larger_pure. intros st'. apply (no_larger_bind snd); [|intros [len b']; steps]. steps.
Qed.
Hint Resolve receiveBody_no_larger : core.

Lemma readFrameHeader_no_larger b : no_larger snd b (readFrameHeader char_signed b).
Proof. unfold readFrameHeader. steps. Qed.
Hint Resolve readFrameHeader_no_larger : core.

Lemma processFrameBody_no_larger s c b : no_larger left b (processFrameBody char_signed raw s c b).
Proof. unfold processFrameBody. steps. Qed.
Hint Resolve processFrameBody_no_larger : core.

Lemma receiveFrameHeader_no_larger s b : no_larger snd b (receiveFrameHeader char_signed s b).
Proof. unfold receiveFrameHeader. steps. Qed.
Hint Resolve receiveFrameHeader_no_larger : core.

Lemma receiveFrame_no_larger s c b :
  no_larger (fun r : bool * (Impl * C * StreamBuf) => left (snd r)) b (receiveFrame char_signed raw s c b).
Proof.
  unfold receiveFrame. apply (no_larger_bind snd); [steps; eauto|]. intros [s' b']. cbn [snd]. steps.
Qed.
Hint Resolve receiveFrame_no_larger : core.

Lemma frames_loop_no_larger fuel : forall s c b, no_larger left b (frames_loop char_signed raw fuel s c b).
Proof. induction fuel as [|fuel IH]; intros s c b; cbn [frames_loop]; [done|]. steps. apply IH. Qed.
Hint Resolve frames_loop_no_larger : core.

Lemma Impl_onInput_no_larger s c b : no_larger left b (Impl_onInput char_signed raw s c b).
Proof.
  unfold Impl_onInput, receivePreface, receiveFrames. apply (no_larger_bind left); [steps; eauto|].
  intros [[s' c'] b']. apply frames_loop_no_larger.
Qed.

End capacity.

(** ** The protocol *)

Section frames.
Context `{HM : Multimap} {HR : Roomy} (env : Env Connection) (Hraw : raw_ok (raw env)).

Abbreviation cs := (char_signed env).
Abbreviation wires fs := (concat (map frame_wire fs)).

(** What the connection is to send for the frames [fs], or what it throws at the
    first that it does not accept. *)
Definition owed (s : Impl) (fs : list frame) : outcome (list Z) := r ← apply_frames cs s fs; Ret (snd r).

Definition greeting : list Z := header_wire (mk_FrameHeader 0 SETTINGS 0 0 0).

Inductive http2_state : protocol_state :=
  | InPreface n z b rest fs p :
      Forall (frame_ok cs) fs -> partial_frame cs p -> sb_ok b ->
      content b ++ rest = CLIENT_PREFACE ++ wires fs ++ p -> content b `prefix_of` CLIENT_PREFACE -> content b <> CLIENT_PREFACE ->
      zlen (content b ++ rest) <= 2 ^ 57 -> z + 64 * (zlen fs + 2) < 2 ^ 60 ->
      http2_state Switching n z b rest (prepend greeting (owed (with_preface initial_impl) fs))
  | InFrames s n z b rest fs p :
      impl_ok s -> prefaceReceived_ s = true -> Forall (frame_ok cs) fs -> partial_frame cs p -> sb_ok b ->
      partial_frame cs (unread s b) -> unread s b ++ rest = wires fs ++ p ->
      zlen (unread s b ++ rest) <= 2 ^ 57 -> z + 64 * (zlen fs + 1) < 2 ^ 60 ->
      http2_state (ServerConnection.Http2 s) n z b rest (owed (with_current s None) fs).

Lemma owed_app s fs1 fs2 :
  owed s (fs1 ++ fs2) = match apply_frames cs s fs1 with
                        | Ret (s', out) => prepend out (owed s' fs2)
                        | Throw e => Throw e
                        | Undef u => Undef u
                        end.
Proof.
  unfold owed. rewrite apply_frames_app. destruct (apply_frames cs s fs1) as [[s1 out1]|e|u]; cbn [mbind outcome_bind]; [|done|done].
  by destruct (apply_frames cs s1 fs2) as [[s2 out2]|e|u].
Qed.

(** A call of the HTTP/2 transport that serves the frames that are complete. *)
Lemma http2_moves s s0 c b n z rest fs1 fs2 p1 p :
  serves cs s0 c fs1 p1 (Impl_onInput cs (raw env) s c b) ->
  impl_ok s0 -> prefaceReceived_ s0 = true -> Forall (frame_ok cs) fs2 -> partial_frame cs p -> partial_frame cs p1 ->
  p1 ++ rest = wires fs2 ++ p -> zlen (p1 ++ rest) <= 2 ^ 57 -> z = zlen (sent c) ->
  z + 64 * (zlen (fs1 ++ fs2) + 1) < 2 ^ 60 ->
  moves http2_state rest c b (owed (with_current s0 None) (fs1 ++ fs2)) (http2_input env s (mk_World c None n) b).
Proof.
  intros Hserves Hs0 Hpre Hfs2 Hp Hp1 Heq Hsz -> Hroom. rewrite owed_app. unfold serves in Hserves.
  pose proof (Impl_onInput_no_larger cs (raw env) s c b) as Hcap.
  assert (impl_ok (with_current s0 None)) as Hs0' by (destruct Hs0; by split).
  unfold http2_input. cbn [conn upgraded messages_sent].
  destruct (apply_frames cs (with_current s0 None) fs1) as [[s1 out]|e|u] eqn:Happ; [|right; by rewrite Hserves|right; by rewrite Hserves].
  destruct Hserves as (s2 & c' & b' & Hin & Hcur & Hs2 & Hc' & Hsent & Hb' & Hu). rewrite Hin in Hcap |- *. destruct Hcap as [Hcap _]. cbn in Hcap.
  destruct (apply_frames_ok cs fs1 _ s1 out Hs0' Happ) as [_ Hout]. apply apply_frames_preface in Happ.
  left. exists (ServerConnection.Http2 s2), n, c', b', out, (owed s1 fs2). rewrite <- Hcur, <- Hu in *.
  split; [done|]. split; [done|]. split; [|done]. apply (InFrames s2 n _ b' rest fs2 p); try done.
  - exact (eq_trans Happ Hpre).
  - rewrite Hsent, zlen_app. rewrite zlen_app in Hroom. pose proof (zlen_nonneg fs1). lia.
Qed.

Lemma in_use_content b : sb_ok b -> in_use_ b = zlen (content b).
Proof. intros Hb. by rewrite zlen_content. Qed.

(** The read that completes the preface. *)
Lemma preface_moves n b rest fs p c :
  Forall (frame_ok cs) fs -> partial_frame cs p -> sb_ok b -> sender_ok c ->
  content b ++ rest = CLIENT_PREFACE ++ wires fs ++ p -> CLIENT_PREFACE `prefix_of` content b ->
  zlen (content b ++ rest) <= 2 ^ 57 -> zlen (sent c) + 64 * (zlen fs + 2) < 2 ^ 60 ->
  moves http2_state rest c b (prepend greeting (owed (with_preface initial_impl) fs))
    (transport_onInput env (Switching, mk_World c None n) b).
Proof.
  intros Hfs Hp Hb Hc Heq [d Hd] Hsz Hr. pose proof (zlen_nonneg fs).
  cbn [transport_onInput]. destruct (SwitchTransport_cases env (mk_World c None n) b Hb) as (_ & -> & _); [|by exists d].
  cbn [conn upgraded messages_sent].
  destruct (new_Impl_initial cs (fb64_decoded_size_nopad env) (fb64_decode env) c Hc) as (c1 & -> & Hc1 & Hsent); [lia|].
  cbn [mbind outcome_bind].
  rewrite Hd, <- (assoc_L (++)) in Heq. apply (inj (CLIENT_PREFACE ++.)) in Heq.
  destruct (cut_frames cs fs p _ _ Hfs Hp Heq) as (fs1 & fs2 & p1 & -> & Hx & Hp1 & Hy).
  apply Forall_app in Hfs as [Hfs1 Hfs2]. pose proof (zlen_nonneg fs1). pose proof (zlen_nonneg fs2).
  assert (zlen (p1 ++ rest) <= 2 ^ 57).
  { rewrite Hd, Hx, !zlen_app in Hsz. rewrite zlen_app. pose proof (zlen_nonneg (wires fs1)).
    pose proof (zlen_nonneg CLIENT_PREFACE). lia. }
  rewrite zlen_app in Hr. assert (zlen (sent c1) = zlen (sent c) + 9) as Hz1 by (rewrite Hsent, zlen_app; done).
  assert (impl_ok (with_preface initial_impl)) as Hs0 by (destruct initial_impl_ok; by split).
  pose proof (onInput_ok cs (raw env) Hraw fs1 p1 initial_impl c1 b initial_impl_ok Hc1 Hb Hfs1 Hp1 (or_intror eq_refl)) as Hin.
  unfold expected_preface, unread in Hin. cbn [prefaceReceived_ currentFrameHeader_ initial_impl app] in Hin.
  destruct (http2_moves initial_impl (with_preface initial_impl) c1 b n (zlen (sent c1)) rest fs1 fs2 p1 p) as [Hm|Hf];
    try done; [apply Hin; [by rewrite Hd, Hx|lia]|rewrite zlen_app; lia| |].
  - left. destruct Hm as (t' & n' & c' & b' & out & g' & -> & Ho & Hst & Hcap & Hc' & Hs').
    exists t', n', c', b', (greeting ++ out), g'. split; [done|]. rewrite <- prepend_app. split; [f_equal; exact Ho|].
    do 3 (split; [done|]). by rewrite Hs', Hsent, (assoc_L (++)).
  - right. by apply same_failure_prepend.
Qed.

#[export] Instance http2_protocol : Protocol env http2_state.
Proof.
  split.
  - intros t n z b rest g [n' z' b' rest' fs p _ _ Hb _ _ _ Hsz _|s n' z' b' rest' fs p _ _ _ _ Hb _ _ Hsz _];
      (split; [done|]); rewrite zlen_app in Hsz; pose proof (in_use_content b' Hb); [lia|].
    pose proof (in_use_unread s b' Hb). lia.
  - intros t n z b b2 rest g [n' z' b' rest' fs p Hfs Hp Hb Heq Hpre Hne Hsz Hr|s n' z' b' rest' fs p Hs Hpr Hfs Hp Hb Hpart Heq Hsz Hr] Hb2 Hcn.
    + apply (InPreface n' z' b2 rest' fs p); rewrite ?Hcn; done.
    + assert (unread s b2 = unread s b') as Hu by (unfold unread; by rewrite Hcn). apply (InFrames s n' z' b2 rest' fs p); rewrite ?Hu; done.
  - intros t n z b g Hst. inversion Hst as [n' z' b' rest' fs p Hfs Hp Hb Heq Hpre Hne Hsz Hr|s n' z' b' rest' fs p Hs Hpr Hfs Hp Hb Hpart Heq Hsz Hr]; subst.
    + exfalso. rewrite app_nil_r in Heq. apply Hne, (anti_symm prefix); [done|]. rewrite Heq. by apply prefix_app_r.
    + rewrite app_nil_r in Heq. destruct Hfs as [|f fs Hf Hfs]; [done|]. exfalso. rewrite Heq in Hpart. cbn [map concat] in Hpart.
      rewrite <- (assoc_L (++)) in Hpart. by apply partial_no_frame in Hpart.
  - intros t n b b1 d rest g c Hst Hb1 Hc1 Hc.
    inversion Hst as [n' z' b' rest' fs p Hfs Hp Hb Heq Hpre Hne Hsz Hr|s n' z' b' rest' fs p Hs Hpr Hfs Hp Hb Hpart Heq Hsz Hr]; subst.
    + rewrite (assoc_L (++)), <- Hc1 in Heq, Hsz. pose proof (zlen_nonneg fs).
      assert (content b1 `prefix_of` CLIENT_PREFACE \/ CLIENT_PREFACE `prefix_of` content b1) as Hcase.
      { apply (prefix_weak_total _ _ (content b1 ++ rest)); [by apply prefix_app_r|]. rewrite Heq. by apply prefix_app_r. }
      destruct (decide (CLIENT_PREFACE `prefix_of` content b1)) as [Hall|Hpart].
      * by apply (preface_moves n b1 rest fs p c).
      * left. destruct Hcase as [Hcase|]; [|done]. assert (content b1 <> CLIENT_PREFACE) as Hne1 by (intros E; apply Hpart; by rewrite E).
        cbn [transport_onInput]. destruct (SwitchTransport_cases env (mk_World c None n) b1 Hb1) as [-> _]; [|done|done].
        eexists _, _, _, _, [], _. split; [done|]. split; [by rewrite prepend_nil|]. split; [|by rewrite app_nil_r].
        by apply (InPreface n _ b1 rest fs p).
    + rewrite (assoc_L (++)) in Heq, Hsz. assert (unread s b1 = unread s b ++ d) as Hu by (unfold unread; by rewrite Hc1, (assoc_L (++))).
      rewrite <- Hu in Heq, Hsz. destruct (cut_frames cs fs p _ _ Hfs Hp Heq) as (fs1 & fs2 & p1 & -> & Hx & Hp1 & Hy).
      apply Forall_app in Hfs as [Hfs1 Hfs2]. pose proof (zlen_nonneg fs2).
      assert (zlen (p1 ++ rest) <= 2 ^ 57).
      { rewrite Hx, <- (assoc_L (++)), zlen_app in Hsz. pose proof (zlen_nonneg (wires fs1)). lia. }
      apply (http2_moves s s c b1 n (zlen (sent c)) rest fs1 fs2 p1 p); try done.
      pose proof (onInput_ok cs (raw env) Hraw fs1 p1 s c b1 Hs Hc Hb1 Hfs1 Hp1 (or_introl Hpr)) as Hin.
      unfold expected_preface in Hin. rewrite Hpr, with_preface_id in Hin by done. apply Hin; [done|].
      rewrite zlen_app in Hr. lia.
Qed.

(** A client that has just connected. *)
Lemma http2_start fs p octets :
  Forall (frame_ok cs) fs -> partial_frame cs p -> zlen octets <= 2 ^ 57 -> octets = CLIENT_PREFACE ++ wires fs ++ p ->
  http2_state Switching 0%nat 0 empty_StreamBuf octets (prepend greeting (owed (with_preface initial_impl) fs)).
Proof.
  intros Hfs Hp Hsz Heq. pose proof (zlen_wires fs) as Hz. apply (InPreface 0%nat 0 empty_StreamBuf _ fs p); try done; [by apply prefix_nil|].
  rewrite Heq, !zlen_app in Hsz. pose proof (zlen_nonneg p). pose proof (zlen_nonneg CLIENT_PREFACE). lia.
Qed.

End frames.

(** ** A client of the server *)

Section client.
Context `{HM : Multimap} (env : Env Connection) (Hraw : raw_ok (raw env)).

Abbreviation cs := (char_signed env).
Abbreviation wires fs := (concat (map frame_wire fs)).

Context (Hclose : connection_close env = close).
Context (pick_fd : gset Z -> Z) (Hpick : forall X, (pick_fd X ∉ X) /\ 0 <= pick_fd X) (base : gset Z).

(** C4: an HTTP/2 client of the running server, from [accept4] on.  The client's
    preface and the frames behind it arrive in batches, cut anywhere, with a turn
    of the loop for each batch; the frames have a header that is read as it was
    sent ([clean], where [char] is signed), HEADERS that are HPACK representations,
    and PING only with ACK ([frame_ok]); the socket is [calm]: it may take less
    than it is offered, but then EAGAIN comes next, and no call fails.  If the
    server accepts the frames, then after these turns the client is still
    connected, and what its socket has taken, followed by what is queued in
    [outgoing_], is the server's SETTINGS frame and then what the frames ask for,
    one after the other; nothing is queued if the socket takes everything it is
    offered and has not stopped answering; no other client has been touched.  If it
    does not, the exception of the first frame that is refused leaves the loop, and
    with it ends the server for all its clients. *)
Theorem server_serves_http2_client (s : ServerImpl Served) sends b batches l fs p :
  reachable (serve_input env) base accepted pick_fd s -> keep_running_ s = true -> 0 <= server_epfd_ s ->
  accepts (sys s) = NewClient sends (arrivals (b :: batches)) true :: AcceptAgain :: l -> calm sends ->
  Forall (frame_ok cs) fs -> partial_frame cs p ->
  pieces_ok (b :: batches) -> zlen (octets_of (b :: batches)) <= 2 ^ 57 ->
  octets_of (b :: batches) = CLIENT_PREFACE ++ wires fs ++ p ->
  let fd := pick_fd (open_fds (sys s)) in
  let run := loop accepted (serve_input env) pick_fd
               (Events [mk_event Listener false true] :: map (fun _ => Events [mk_event (Client fd) false true]) batches) s in
  match apply_frames cs (with_preface initial_impl) fs with
  | Ret (_, out) =>
      exists s' cl, run = Ret (false, s') /\
        clients_ s !! fd = None /\ clients_ s' = <[fd := cl]> (clients_ s) /\ isOpen (cl_conn cl) = true /\
        answered_with sends (cl_conn cl) (greeting ++ out)
  | Throw e => run = Throw e
  | Undef u => run = Undef u
  end.
Proof.
  intros Hruns Hk Hep Hacc Hcalm Hfs Hp Hch Hsz Heq fd run. set (HR := bool_decide (Forall ample sends) : Roomy).
  pose proof (client_served env Hclose (http2_state env) (Protocol0 := http2_protocol env Hraw) pick_fd Hpick base s sends b batches l _
    Hruns Hk Hep Hacc (bool_obliging sends Hcalm) Hch (http2_start env fs p _ Hfs Hp Hsz Heq)) as Hrun.
  unfold owed in Hrun. destruct (apply_frames cs (with_preface initial_impl) fs) as [[s1 out]|e|u]; [|exact Hrun..].
  destruct Hrun as (s' & cl & Hrun & _ & Hnone & Hc & Hopen & Hw & Hf). exists s', cl. do 4 (split; [done|]). by apply flushed_answered.
Qed.

End client.

(** ** At work *)

(** The preface in two pieces, the second with the beginning of the frames, and
    the rest later.  The socket takes four octets of the greeting. *)
Definition framed_batches : list (list (list Z)) :=
  [[take 10 CLIENT_PREFACE; drop 10 CLIENT_PREFACE ++ take 3 example_wire]; [drop 3 example_wire]].

Definition framed_server : ServerImpl Served :=
  mk_ServerImpl ∅ [] true 4 5
    (mk_system own_fds ∅ {[2 := Signals; 5 := Listener]}
       [NewClient [Accept 4; Again; Accept (2 ^ 63)] (arrivals framed_batches) true; AcceptAgain] 4 []).

Lemma server_serves_http2_client_witness :
  exists s' cl,
    loop accepted (serve_input connection_env) next_fd
      [Events [mk_event Listener false true]; Events [mk_event (Client 6) false true]] framed_server = Ret (false, s') /\
    clients_ s' = {[6 := cl]} /\ isOpen (cl_conn cl) = true /\
    wire (os (cl_conn cl)) ++ content (outgoing_ (cl_conn cl)) = greeting ++ settings_ack ++ response_200 1.
Proof.
  pose proof (server_serves_http2_client connection_env raw0_ok eq_refl next_fd next_fd_fresh own_fds framed_server
    [Accept 4; Again; Accept (2 ^ 63)] [take 10 CLIENT_PREFACE; drop 10 CLIENT_PREFACE ++ take 3 example_wire]
    [[drop 3 example_wire]] [] example_frames []) as H.
  assert (exists s1, apply_frames (char_signed connection_env) (with_preface initial_impl) example_frames
                     = Ret (s1, settings_ack ++ response_200 1)) as [s1 Ha] by (eexists; vm_compute; reflexivity).
  rewrite Ha in H. destruct H as (s' & cl & Hloop & _ & Hc & Ho & Hw).
  - apply reach_start. by repeat split.
  - done.
  - by vm_compute.
  - done.
  - cbn. repeat split; lia || (right; exact I) || (left; lia).
  - apply example_frames_ok.
  - apply partial_nil.
  - apply (bool_decide_unpack _). vm_compute. exact I.
  - by vm_compute.
  - vm_compute. reflexivity.
  - assert (next_fd (open_fds (sys framed_server)) = 6) as H6 by (vm_compute; reflexivity).
    rewrite H6 in Hloop, Hc. exists s', cl. split; [exact Hloop|]. split; [exact Hc|]. split; [exact Ho|exact (proj1 Hw)].
Defined.
