(* ===== verification/Polling.v ===== *)
(** The edge-triggered read of a connection of the server: [Connection::onPollIn]
    with the transports of [SwitchTransport.cpp], [http1] and [http2]. *)
From stdpp Require Import gmap relations.
From S2P Require Import Prelude StreamBuf Sender Connection Headers Http1 Http1Transport Http1Spec Http1Server Http2 ServerConnection ServerCorrect ServerLoop WholeServer Conversation Http1Conversation Http2Conversation.

Section polling.
Context `{HM : Multimap} (env : Env Connection) (Hclose : connection_close env = close).

(** ** What the transports leave of their input *)

Lemma http1_input_no_larger t w b : no_larger snd b (http1_input env t w b).
Proof.
  unfold http1_input, server_onInput. eapply no_larger_bind; [apply (onInput_no_larger (H := server_owner env))|].
  intros [[t1 w1] b1]. destruct (upgraded w1); by apply no_larger_ret.
Qed.

Lemma http2_input_no_larger s w b : no_larger snd b (http2_input env s w b).
Proof.
  unfold http2_input. eapply no_larger_bind; [apply Impl_onInput_no_larger|]. intros [[s1 c1] b1]. by apply no_larger_ret.
Qed.

Lemma transport_no_larger t w b : no_larger snd b (transport_onInput env (t, w) b).
Proof.
  destruct t as [|t|s]; cbn [transport_onInput]; [|apply http1_input_no_larger|apply http2_input_no_larger].
  unfold SwitchTransport_onInput. apply no_larger_pure. intros [maybe definitely].
  destruct (_ && _); [by apply no_larger_ret|]. destruct definitely; [|apply http1_input_no_larger].
  apply no_larger_pure. intros [s c]. apply http2_input_no_larger.
Qed.

(** The server's transports are what [onPollIn] asks for. *)
#[export] Instance serve_input_reader : Reader (serve_input env).
Proof.
  intros [t n] c t' c' Hin. unfold serve_input in Hin. cbn [fst snd] in Hin.
  apply bind_ret in Hin as ([[t1 w1] b1] & Heq & Hin). injection Hin as _ <-. split.
  - apply (transport_reads env Hclose) in Heq. exact Heq.
  - pose proof (transport_no_larger t (mk_World c None n) (incoming_ c)) as Hfit. rewrite Heq in Hfit. exact Hfit.
Qed.

Lemma arrived_unread l : zlen (arrived l) <= Z.of_nat (unread_octets l).
Proof.
  induction l as [|[d| | |] l IH]; cbn [arrived unread_octets]; try (unfold zlen; cbn; lia).
  rewrite zlen_app. unfold zlen in *. lia.
Qed.

(** C27: The edge-triggered read, with the server's transports and whatever a client
    sends.  One call of [onPollIn] ends, for any sequence of answers of the kernel.
    If it returns, then every octet in front of the first answer without data was
    read into the buffer, in order, and after each piece the transport was called;
    then, at EAGAIN, the connection is left as it is, with what comes later
    unread, and at an end of input or an error it is closed; or the transport has
    closed the connection before, and then no more was read.  If it throws or
    fails, that is what a call of the transport did with a piece so read: the
    read itself grows the buffer as it needs and never writes past its end. *)
Theorem onPollIn_reads_everything (t : Served) c :
  isOpen c = true -> sb_ok (incoming_ c) -> zlen (buf_ (incoming_ c)) <= 2 ^ 60 -> Forall read_answer_ok (reads (os c)) ->
  in_use_ (incoming_ c) + zlen (arrived (reads (os c))) <= 2 ^ 57 ->
  let m := onPollIn (serve_input env) (read_fuel c) t c in
  match m with
  | Ret (t', c') => read_out (serve_input env) t c t' c'
  | _ => given_up_to (serve_input env) t c m
  end.
Proof.
  intros Ho Hb Hcap Hok Hsz. apply (onPollIn_ok (serve_input env)); [done..|].
  unfold read_fuel. pose proof (arrived_unread (reads (os c))). lia.
Qed.

End polling.

(** ** At work *)

(** A request in two reads, with octets that come later behind EAGAIN; the socket
    takes everything. *)
Definition polled_connection (stop : list read_answer) : Connection :=
  let ask := render (wire_message get_hello) in
  mk_Connection 7 3 empty_StreamBuf empty_StreamBuf true
    (mk_kernel [] (replicate 8 (Accept (2 ^ 63))) ([Data (take 10 ask); Data (drop 10 ask)] ++ stop) (Some false) true [] []).

Lemma onPollIn_reads_everything_witness :
  let c := polled_connection [NotYet; Data [71]] in
  exists t' c', onPollIn (serve_input connection_env) (read_fuel c) accepted c = Ret (t', c') /\
    read_out (serve_input connection_env) accepted c t' c' /\ isOpen c' = true /\ reads (os c') = [Data [71]] /\
    content (incoming_ c') = [] /\ wire (os c') = replies (now connection_env) 0 (answers connection_env [get_hello]).
Proof.
  intros c. pose proof (onPollIn_reads_everything connection_env eq_refl accepted c) as H. cbv zeta in H.
  destruct (onPollIn (serve_input connection_env) (read_fuel c) accepted c) as [[t' c']|e|u] eqn:E;
    [|vm_compute in E; discriminate E..].
  exists t', c'. split; [done|]. split; [|vm_compute in E; by injection E as <- <-].
  apply H; [reflexivity|split; [vm_compute; split; congruence|constructor]|vm_compute; congruence| |vm_compute; congruence].
  apply (bool_decide_unpack _). vm_compute. exact I.
Defined.
