(* ===== verification/Crowd.v ===== *)
(** Many clients of the loop at once: they are accepted in groups, and their octets
    arrive in any order, several clients' in a turn.  What the loop does is the
    run of a plan over the clients that are still outside and those inside. *)
From stdpp Require Import gmap relations.
From S2P Require Import Prelude StreamBuf Sender Connection Headers Routes Frame Http1 Http1Transport Http1Spec Http1Server Http2 Http2Spec Http2Correct ServerConnection ServerCorrect ServerLoop WholeServer Conversation Http1Refusals Http2Conversation Http1Conversation.

(** ** The plan *)

(** A client to come: what its socket takes, the batches in which its octets
    arrive, and what it is to be sent. *)
Record guest := mk_guest {
  g_sends : list send_answer;
  g_batches : list (list (list Z));
  g_reply : list Z
}.

(** Of a client that is connected: the batches that are still to come, and all
    that it is to be sent. *)
Abbreviation seat := (list (list (list Z)) * list Z)%type.

(** The groups of clients that wait for an event of the listener each, and the
    clients by their descriptors. *)
Record crowd := mk_crowd { outside : list (list guest); inside : gmap Z seat }.

(** What [accept4] answers. *)
Definition arriving (groups : list (list guest)) : list accept_answer :=
  concat (map (fun group => map (fun g => NewClient (g_sends g) (arrivals (g_batches g)) true) group ++ [AcceptAgain]) groups).

Section plan.
Context (pick_fd : gset Z -> Z) (base : gset Z).

(** A new client has the descriptor that is picked, and its first batch is read. *)
Definition enter (seats : gmap Z seat) (g : guest) : gmap Z seat :=
  <[pick_fd (base ∪ dom seats) := (tail (g_batches g), g_reply g)]> seats.

(** An event: all of a group enter, or a client has a batch read. *)
Definition crowd_event (c : crowd) (e : epoll_event) : option crowd :=
  if ev_out e || negb (ev_in e) then None
  else
    match ev_target e with
    | Listener => match outside c with [] => None | group :: groups => Some (mk_crowd groups (foldl enter (inside c) group)) end
    | Client fd =>
        match inside c !! fd with
        | Some (_ :: batches, reply) => Some (mk_crowd (outside c) (<[fd := (batches, reply)]> (inside c)))
        | _ => None
        end
    | Signals => None
    end.

Fixpoint crowd_events (c : crowd) (events : list epoll_event) : option crowd :=
  match events with
  | [] => Some c
  | e :: events => c ← crowd_event c e; crowd_events c events
  end.

(** The events of some turns. *)
Fixpoint crowd_run (c : crowd) (turns : list (list epoll_event)) : option crowd :=
  match turns with
  | [] => Some c
  | events :: turns => c ← crowd_events c events; crowd_run c turns
  end.

End plan.

Section crowd.
Context `{HM : Multimap} {HR : Roomy} (env : Env Connection) (Hclose : connection_close env = close).
Context (state : protocol_state) `{!Protocol env state}.
Context (pick_fd : gset Z -> Z) (Hpick : forall X, (pick_fd X ∉ X) /\ 0 <= pick_fd X) (base : gset Z).

#[local] Instance crowd_tame : Tame (serve_input env) := serve_input_tame env Hclose.

(** A client of the protocol, which nothing of what it sends is refused of. *)
Record welcome (g : guest) : Prop := mk_welcome {
  wc_sends : obliging (g_sends g);
  wc_some : g_batches g <> [];
  wc_pieces : pieces_ok (g_batches g);
  wc_state : state Switching 0%nat 0 empty_StreamBuf (octets_of (g_batches g)) (Ret (g_reply g))
}.

Definition served (st : seat) (cl : client Served) : Prop :=
  exists rest, talking state cl (fst st) (Ret rest) /\ sent (cl_conn cl) ++ rest = snd st.

Record seated (s : ServerImpl Served) (seats : gmap Z seat) : Prop := mk_seated {
  se_ok : server_ok base s;
  se_queue : remove_clients_ s = [];
  se_run : keep_running_ s = true;
  se_epfd : 0 <= server_epfd_ s;
  se_clients : forall fd, option_Forall2 served (seats !! fd) (clients_ s !! fd)
}.

Record hosts (s : ServerImpl Served) (c : crowd) : Prop := mk_hosts {
  ho_seated : seated s (inside c);
  ho_accepts : accepts (sys s) = arriving (outside c);
  ho_welcome : Forall (Forall welcome) (outside c)
}.

Lemma seated_dom s seats : seated s seats -> dom (clients_ s) = dom seats.
Proof.
  intros [_ _ _ _ Hc]. apply set_eq. intros fd. rewrite !elem_of_dom. specialize (Hc fd). by destruct Hc.
Qed.

Lemma seated_insert (s s' : ServerImpl Served) seats fd st cl :
  seated s seats -> server_ok base s' -> remove_clients_ s' = remove_clients_ s -> keep_running_ s' = keep_running_ s ->
  server_epfd_ s' = server_epfd_ s -> clients_ s' = <[fd := cl]> (clients_ s) -> served st cl ->
  seated s' (<[fd := st]> seats).
Proof.
  intros [Hok Hq Hk He Hc] Hok' Hq' Hk' He' Hc' Hst. split; [done|congruence..|]. intros fd'. rewrite Hc'.
  destruct (decide (fd' = fd)) as [->|Hne]; [rewrite !lookup_insert_eq; by constructor|by rewrite !lookup_insert_ne].
Qed.

(** What is owed is octets: nothing fails. *)
Lemma pays_octets {A} reply (m : outcome A) P :
  pays (Ret reply) m P -> exists a out rest, m = Ret a /\ reply = out ++ rest /\ P a out (Ret rest).
Proof. intros [(a & out & [rest|e|u] & -> & [= ->] & HP)|[]]. by exists a, out, rest. Qed.

Abbreviation dispatched := (dispatch accepted (serve_input env) pick_fd).

(** ** An event *)

(** A client has a batch read. *)
Lemma client_event s seats fd b batches reply :
  seated s seats -> seats !! fd = Some (b :: batches, reply) ->
  exists s', dispatched s (mk_event (Client fd) false true) = Ret s' /\ seated s' (<[fd := (batches, reply)]> seats) /\
    accepts (sys s') = accepts (sys s).
Proof.
  intros Hs Hfd. pose proof (se_clients s seats Hs fd) as Hcl. rewrite Hfd in Hcl. inversion Hcl as [? cl (rest & Ht & Hsent) Heq Hl|]; subst.
  symmetry in Hl. cbn [fst snd] in *.
  destruct (pays_octets _ _ _ (client_talks env Hclose state cl b batches _ Ht)) as (cl1 & out & rest1 & Hpoll & -> & Ht1 & Hs1).
  destruct (settle_talking state fd cl1 _ _ s Ht1) as (cl2 & Hc2 & Hq2 & Ht2 & Hs2 & Hk2 & Ha2).
  assert (dispatched s (mk_event (Client fd) false true) = Ret (settle fd cl1 s)) as Hd.
  { unfold dispatch. cbn [ev_out ev_in ev_target receiver_pollIn mbind outcome_bind]. unfold with_client. by rewrite Hl, Hpoll. }
  exists (settle fd cl1 s). split; [done|]. split; [|done].
  apply (seated_insert s _ _ fd _ cl2 Hs); try done.
  - pose proof (dispatch_event_ok (serve_input env) base accepted pick_fd Hpick s (mk_event (Client fd) false true) (se_ok s seats Hs)) as Hok.
    rewrite Hd in Hok. apply Hok. unfold knows. cbn [ev_target]. by apply elem_of_dom.
  - exists rest1. split; [done|]. cbn [snd]. by rewrite Hs2, Hs1, <- (assoc_L (++)).
Qed.

(** A client enters. *)
Lemma guest_enters s seats g l :
  seated s seats -> welcome g -> accepts (sys s) = NewClient (g_sends g) (arrivals (g_batches g)) true :: l ->
  exists s', accept accepted (serve_input env) pick_fd s = Ret (true, s') /\ seated s' (enter pick_fd base seats g) /\
    accepts (sys s') = l.
Proof.
  intros Hs [Hcalm Hsome Hch Hst] Hacc. unfold enter. rewrite <- (seated_dom s seats Hs), <- (proj1 (so_open base s (se_ok s seats Hs))).
  destruct (g_batches g) as [|b batches]; [done|]. cbn [tail]. set (fd := pick_fd (open_fds (sys s))).
  assert (clients_ s !! fd = None) as Hnone.
  { destruct (Hpick (open_fds (sys s))) as [Hfresh _]. fold fd in Hfresh. apply not_elem_of_dom. intros Hin. apply Hfresh.
    rewrite (proj1 (so_open base s (se_ok s seats Hs))). by apply elem_of_union_r. }
  destruct (pays_octets _ _ _ (accept_one env Hclose state pick_fd Hpick s (g_sends g) b batches l _ Hnone (se_epfd s seats Hs) Hacc Hcalm Hch Hst))
    as ([more s'] & out & rest & Ha & Hr & Hm & Hq & Hk & He & Hl & cl & Hc & Ht & Hsent). cbn [fst snd] in *. subst more.
  exists s'. split; [done|]. split; [|done]. apply (seated_insert s s' seats fd _ cl Hs); try done.
  - pose proof (accept_ok (serve_input env) base accepted pick_fd Hpick s (se_ok s seats Hs)) as Hok. rewrite Ha in Hok. apply Hok.
  - exists rest. split; [done|]. cbn [snd]. by rewrite Hsent.
Qed.

(** A group enters. *)
Lemma group_enters group l : forall s seats fuel,
  seated s seats -> Forall welcome group -> (length group < fuel)%nat ->
  accepts (sys s) = map (fun g => NewClient (g_sends g) (arrivals (g_batches g)) true) group ++ AcceptAgain :: l ->
  exists s', accept_loop accepted (serve_input env) pick_fd fuel s = Ret s' /\
    seated s' (foldl (enter pick_fd base) seats group) /\ accepts (sys s') = l.
Proof.
  induction group as [|g group IH]; intros s seats [|fuel] Hs Hw Hf Hacc; cbn [length] in Hf; try lia; cbn [accept_loop map app foldl] in *.
  - pose proof (accept_ok (serve_input env) base accepted pick_fd Hpick s (se_ok s seats Hs)) as Hok.
    unfold accept in *. rewrite Hacc in Hok |- *. cbn [mbind outcome_bind]. eexists. split; [done|]. split; [|done].
    destruct Hok as [[Hok _] _], Hs as [_ Hq Hk He Hc]. by split.
  - apply Forall_cons in Hw as [Hg Hw]. destruct (guest_enters s seats g _ Hs Hg Hacc) as (s1 & -> & Hs1 & Ha1).
    cbn [mbind outcome_bind]. apply IH; [done|done|lia|done].
Qed.

Lemma crowd_event_ok s c e c' :
  hosts s c -> crowd_event pick_fd base c e = Some c' -> exists s', dispatched s e = Ret s' /\ hosts s' c'.
Proof.
  intros [Hs Ha Hw]. destruct e as [target out in_]. unfold crowd_event. cbn [ev_out ev_in ev_target].
  destruct out, in_; try done. cbn [orb negb]. destruct target as [| |fd]; [|done|].
  - destruct (outside c) as [|group groups] eqn:Hout; [done|]. intros [= <-]. apply Forall_cons in Hw as [Hg Hw].
    unfold arriving in Ha. cbn [map concat] in Ha. rewrite <- (assoc_L (++)) in Ha.
    destruct (group_enters group (arriving groups) s (inside c) (S (length (accepts (sys s)))) Hs Hg) as (s' & Hd & Hs' & Ha').
    + rewrite Ha, length_app, length_map. lia.
    + exact Ha.
    + by exists s'.
  - destruct (inside c !! fd) as [[[|b batches] reply]|] eqn:Hfd; try done. intros [= <-].
    destruct (client_event s _ fd b batches reply Hs Hfd) as (s' & Hd & Hs' & Ha'). exists s'. split; [done|]. split; [done|by rewrite Ha'|done].
Qed.

(** ** Turns *)

Lemma crowd_events_ok events : forall s c c',
  hosts s c -> crowd_events pick_fd base c events = Some c' ->
  exists s', dispatch_all accepted (serve_input env) pick_fd events s = Ret s' /\ hosts s' c'.
Proof.
  induction events as [|e events IH]; intros s c c' Hs; cbn [crowd_events dispatch_all]; [intros [= <-]; by exists s|].
  intros (c1 & He & Hrest)%bind_Some. destruct (crowd_event_ok s c e c1 Hs He) as (s1 & -> & Hs1). by apply (IH s1 c1).
Qed.

Lemma crowd_run_ok turns : forall s c c',
  hosts s c -> crowd_run pick_fd base c turns = Some c' ->
  exists s', loop accepted (serve_input env) pick_fd (map Events turns) s = Ret (false, s') /\ hosts s' c'.
Proof.
  induction turns as [|events turns IH]; intros s c c' Hs; cbn [crowd_run map loop]; rewrite (se_run s _ (ho_seated s c Hs)); cbn [negb].
  - intros [= <-]. by exists s.
  - intros (c1 & He & Hrest)%bind_Some. destruct (crowd_events_ok events s c c1 Hs He) as (s1 & Hd & Hs1).
    unfold turn. rewrite Hd. cbn [mbind outcome_bind]. rewrite remove_none by apply Hs1. cbn [mbind outcome_bind]. by apply (IH s1 c1).
Qed.

(** A client whose batches have all been read is owed nothing. *)
Lemma served_rest st cl :
  served st cl -> exists rest, sender_ok (cl_conn cl) /\ sent (cl_conn cl) ++ rest = snd st /\ (fst st = [] -> rest = []).
Proof.
  intros (rest & [[Hc _] Hst _ _ _] & Heq). exists rest. split; [done|]. split; [done|]. intros E. rewrite E in Hst.
  pose proof (protocol_end env _ _ _ _ _ Hst) as Hg. by injection Hg.
Qed.

End crowd.

(** ** HTTP/1 and HTTP/2 clients together *)

Section everyone.
Context `{HM : Multimap} `{!MultimapOk} (env : Env Connection) (Hclose : connection_close env = close).
Context (Hraw : raw_ok (raw env)) (Hdates : forall n, octets (now env n)).
Context (pick_fd : gset Z -> Z) (Hpick : forall X, (pick_fd X ∉ X) /\ 0 <= pick_fd X) (base : gset Z).

(** What a client sends, and what it is to be sent for it: requests and the
    responses of the routes, or a preface with frames and what [Http2Spec] says. *)
Inductive converses (octets reply : list Z) : Prop :=
  | InHttp1 rs :
      Forall request_ok rs -> Forall response_ok (answers env rs) ->
      octets = concat (map (fun r => render (wire_message r)) rs) -> differs CLIENT_PREFACE octets ->
      reply = replies (now env) 0 (answers env rs) -> zlen reply < 2 ^ 60 -> converses octets reply
  | InHttp2 fs p s' out :
      Forall (frame_ok (char_signed env)) fs -> partial_frame (char_signed env) p ->
      octets = CLIENT_PREFACE ++ concat (map frame_wire fs) ++ p ->
      apply_frames (char_signed env) (with_preface initial_impl) fs = Ret (s', out) -> reply = greeting ++ out ->
      converses octets reply.

Record invited (g : guest) : Prop := mk_invited {
  iv_sends : calm (g_sends g);
  iv_some : g_batches g <> [];
  iv_pieces : pieces_ok (g_batches g);
  iv_size : zlen (octets_of (g_batches g)) <= 2 ^ 57;
  iv_converses : converses (octets_of (g_batches g)) (g_reply g)
}.

Abbreviation anything := (either (http1_state env [] [] (Ret [])) (http2_state env)).

Lemma nothing_refused : ending (HO := server_owner env) [] [] (Ret []).
Proof. by left. Qed.

#[local] Instance anything_protocol {HR : Roomy} : Protocol env anything :=
  either_protocol env _ _ (H1 := http1_protocol env Hraw Hdates [] [] (Ret []) nothing_refused) (H2 := http2_protocol env Hraw).

(** Its socket takes everything it is offered. *)
Definition takes_all (g : guest) : Prop := Forall ample (g_sends g).

Lemma invited_welcome {HR : Roomy} g : invited g -> (roomy = true -> takes_all g) -> welcome anything g.
Proof.
  intros [Hs Hb Hp Hsz Hc] Ha. split; [by split|done..|]. destruct Hc as [rs Hrs Hans Heq Hd Hr Hrz|fs p s' out Hfs Hp' Heq Hap Hr].
  - left. rewrite Hr. pose proof (owed_cases env [] [] (Ret []) nothing_refused 0 rs) as Ho. rewrite <- Ho.
    apply http1_start; try done; [by rewrite Heq, app_nil_r|]. unfold room. by rewrite <- Hr.
  - right. pose proof (http2_start env fs p _ Hfs Hp' Hsz Heq) as Hst. unfold Http2Conversation.owed in Hst.
    rewrite Hap in Hst. change (http2_state env Switching 0%nat 0 empty_StreamBuf (octets_of (g_batches g)) (Ret (greeting ++ out))) in Hst.
    by rewrite Hr.
Qed.

(** At the end of a plan: exactly the clients that were accepted are connected;
    what the socket of each has taken and what is queued for it are together the
    beginning of what it is owed, and all of it if all of its batches have been
    read. *)
Definition serves_crowd (s : ServerImpl Served) (c : crowd) : Prop :=
  dom (clients_ s) = dom (inside c) /\
  forall fd batches reply, inside c !! fd = Some (batches, reply) ->
    exists cl rest, clients_ s !! fd = Some cl /\ isOpen (cl_conn cl) = true /\
      (wire (os (cl_conn cl)) ++ content (outgoing_ (cl_conn cl))) ++ rest = reply /\ (batches = [] -> rest = []).

(** Nothing is queued for a client whose socket has not stopped answering. *)
Definition nothing_queued (s : ServerImpl Served) : Prop :=
  forall fd cl, clients_ s !! fd = Some cl -> sends (os (cl_conn cl)) <> [] -> content (outgoing_ (cl_conn cl)) = [].

Lemma crowd_served (s : ServerImpl Served) groups turns c :
  started base s -> keep_running_ s = true -> 0 <= server_epfd_ s ->
  accepts (sys s) = arriving groups -> Forall (Forall invited) groups ->
  crowd_run pick_fd base (mk_crowd groups ∅) turns = Some c ->
  exists s', loop accepted (serve_input env) pick_fd (map Events turns) s = Ret (false, s') /\
    server_ok base s' /\ remove_clients_ s' = [] /\ serves_crowd s' c /\ (Forall (Forall takes_all) groups -> nothing_queued s').
Proof.
  intros Hst Hk He Ha Hg Hrun. destruct (started_ok (serve_input env) (Tame0 := serve_input_tame env Hclose) base s Hst) as [Hok Hq].
  set (HR := bool_decide (Forall (Forall takes_all) groups) : Roomy).
  assert (Forall (Forall (welcome anything)) groups) as Hw.
  { apply Forall_forall. intros group Hin. apply Forall_forall. intros g Hin'. apply invited_welcome.
    - rewrite Forall_forall in Hg. specialize (Hg group Hin). by eapply Forall_forall in Hg.
    - intros Hr%bool_decide_eq_true. rewrite Forall_forall in Hr. specialize (Hr group Hin). by eapply Forall_forall in Hr. }
  assert (hosts anything base s (mk_crowd groups ∅)) as Hs.
  { split; [|done|done]. split; try done. intros fd. destruct Hst as (-> & _). by rewrite !lookup_empty; constructor. }
  destruct (crowd_run_ok env Hclose anything pick_fd Hpick base turns s _ c Hs Hrun) as (s' & Hloop & [Hs' _ _]).
  exists s'. split; [done|]. split; [apply Hs'|]. split; [apply Hs'|]. split; [split; [by eapply seated_dom|]|].
  - intros fd batches reply Hfd.
    pose proof (se_clients _ _ _ _ Hs' fd) as Hcl. rewrite Hfd in Hcl. inversion Hcl as [? cl Hserved Heq Hl|]; subst.
    destruct (served_rest env _ _ _ Hserved) as (rest & Ho & Hsent & Hnil). exists cl, rest.
    split; [done|]. split; [by apply sender_open|]. by split.
  - intros Hall fd cl Hl Hsend. pose proof (se_clients _ _ _ _ Hs' fd) as Hcl. rewrite Hl in Hcl. inversion Hcl as [st ? Hserved Heq Hl'|]; subst.
    destruct (served_rest env _ _ _ Hserved) as (rest & [_ Hf] & _). apply (flushed_wire (cl_conn cl)); [|done].
    by apply Hf, bool_decide_eq_true.
Qed.

(** C1: Any number of clients.  They are accepted in any groups.  Each sends, in
    batches of any pieces (of no more than 2^57 octets), either HTTP/1 requests
    ([request_ok]: without a body and without Upgrade, Expect or Connection) or the
    HTTP/2 preface and frames ([frame_ok]: headers that are read as they were sent,
    PING only with ACK), of which none is refused ([invited]); the batches of
    different clients arrive in any order, any number of them in a turn of the
    loop; each socket is [calm]: it may take less than it is offered, but then EAGAIN comes
    next, and no call fails.  Whatever the plan of this is, at its end exactly the
    clients that were accepted are connected; what the socket of each has taken,
    followed by what is queued in its [outgoing_], is the beginning of what its own
    octets ask for, and all of it if all of its batches have been read.  Nothing is
    queued if the sockets take everything they are offered, where they have not
    stopped answering. *)
Theorem server_serves_everyone (s : ServerImpl Served) groups turns c :
  started base s -> keep_running_ s = true -> 0 <= server_epfd_ s ->
  accepts (sys s) = arriving groups -> Forall (Forall invited) groups ->
  crowd_run pick_fd base (mk_crowd groups ∅) turns = Some c ->
  exists s', loop accepted (serve_input env) pick_fd (map Events turns) s = Ret (false, s') /\ serves_crowd s' c /\
    (Forall (Forall takes_all) groups -> nothing_queued s').
Proof.
  intros Hst Hk He Ha Hg Hrun. destruct (crowd_served s groups turns c Hst Hk He Ha Hg Hrun) as (s' & Hloop & _ & _ & Hserves).
  by exists s'.
Qed.

End everyone.

(** ** At work *)

(** Two clients in the first group, one of HTTP/1 and one of HTTP/2, and one in
    the second, which enters before the first has sent everything. *)
Definition hello_replies (n : nat) : list Z := replies (now connection_env) 0 (answers connection_env (repeat get_hello n)).
Definition asking_guest : guest := mk_guest [Accept 10; Again; Accept (2 ^ 63)] asking_batches (hello_replies 2).
Definition framing_guest : guest :=
  mk_guest [Accept 4; Again; Accept (2 ^ 63)] framed_batches (greeting ++ settings_ack ++ response_200 1).
Definition short_guest : guest := mk_guest [] [[render (wire_message get_hello)]] (hello_replies 1).

Definition crowd_groups : list (list guest) := [[asking_guest; framing_guest]; [short_guest]].

Definition crowd_server : ServerImpl Served :=
  mk_ServerImpl ∅ [] true 4 5 (mk_system own_fds ∅ {[2 := Signals; 5 := Listener]} (arriving crowd_groups) 4 []).

Definition crowd_turns : list (list epoll_event) :=
  [[mk_event Listener false true]; [mk_event (Client 7) false true]; [mk_event Listener false true; mk_event (Client 6) false true]].

Lemma asking_converses n batches :
  pieces_ok batches -> octets_of batches = concat (map (fun r => render (wire_message r)) (repeat get_hello n)) ->
  differs CLIENT_PREFACE (octets_of batches) -> zlen (hello_replies n) < 2 ^ 60 ->
  converses connection_env (octets_of batches) (hello_replies n).
Proof.
  intros Hp Heq Hd Hz. apply (InHttp1 connection_env _ _ (repeat get_hello n)); try done; [|apply hello_answered].
  pose proof get_hello_ok. clear. induction n; constructor; [apply get_hello_ok|done].
Qed.

Ltac computed := apply (bool_decide_unpack _); vm_compute; exact I.

Ltac invite := split; [cbn; repeat split; lia || (right; exact I) || (left; lia) | done | computed | by vm_compute |].

Lemma asking_invited : invited connection_env asking_guest.
Proof.
  invite. apply asking_converses; [computed|vm_compute; reflexivity|computed|by vm_compute].
Qed.

Lemma short_invited : invited connection_env short_guest.
Proof.
  invite. apply asking_converses; [computed|vm_compute; reflexivity|computed|by vm_compute].
Qed.

Lemma framing_invited : invited connection_env framing_guest.
Proof.
  invite. assert (exists s1, apply_frames (char_signed connection_env) (with_preface initial_impl) example_frames
                             = Ret (s1, settings_ack ++ response_200 1)) as [s1 Ha] by (eexists; vm_compute; reflexivity).
  apply (InHttp2 connection_env _ _ example_frames [] s1 (settings_ack ++ response_200 1));
    [apply example_frames_ok|apply partial_nil|vm_compute; reflexivity|exact Ha|done].
Qed.

Lemma crowd_invited : Forall (Forall (invited connection_env)) crowd_groups.
Proof.
  apply Forall_cons_2; [apply Forall_cons_2; [apply asking_invited|apply Forall_singleton, framing_invited]|].
  apply Forall_singleton, Forall_singleton, short_invited.
Qed.

Lemma server_serves_everyone_witness :
  exists s' asking framing short,
    loop accepted (serve_input connection_env) next_fd (map Events crowd_turns) crowd_server = Ret (false, s') /\
    clients_ s' !! 6 = Some asking /\ wire (os (cl_conn asking)) ++ content (outgoing_ (cl_conn asking)) = hello_replies 2 /\
    clients_ s' !! 7 = Some framing /\
    wire (os (cl_conn framing)) ++ content (outgoing_ (cl_conn framing)) = greeting ++ settings_ack ++ response_200 1 /\
    clients_ s' !! 8 = Some short /\ wire (os (cl_conn short)) ++ content (outgoing_ (cl_conn short)) = hello_replies 1.
Proof.
  set (c := mk_crowd [] (<[6 := ([], hello_replies 2)]> (<[7 := ([], greeting ++ settings_ack ++ response_200 1)]>
              {[8 := ([], hello_replies 1)]}))).
  destruct (server_serves_everyone connection_env eq_refl raw0_ok connection_dates next_fd next_fd_fresh own_fds crowd_server
    crowd_groups crowd_turns c) as (s' & Hloop & [_ Hserved] & _).
  - by repeat split.
  - done.
  - by vm_compute.
  - done.
  - apply crowd_invited.
  - vm_compute. reflexivity.
  - destruct (Hserved 6 [] (hello_replies 2)) as (asking & r1 & H1 & _ & Hw1 & Hr1); [vm_compute; reflexivity|].
    destruct (Hserved 7 [] (greeting ++ settings_ack ++ response_200 1)) as (framing & r2 & H2 & _ & Hw2 & Hr2); [vm_compute; reflexivity|].
    destruct (Hserved 8 [] (hello_replies 1)) as (short & r3 & H3 & _ & Hw3 & Hr3); [vm_compute; reflexivity|].
    rewrite Hr1, app_nil_r in Hw1 by done. rewrite Hr2, app_nil_r in Hw2 by done. rewrite Hr3, app_nil_r in Hw3 by done.
    exists s', asking, framing, short. by repeat (split; [done|]).
Defined.
