(* ===== verification/HelloWorld.v ===== *)
(** The program of [HelloWorld.cpp], from its [main] to its exit: a server is made,
    a route added, the loop run, and the server destroyed. *)
From stdpp Require Import gmap relations.
From S2P Require Import Prelude StreamBuf Sender Connection Headers Routes Http1 Http1Server Http1Spec Http2 Http2Correct ServerConnection ServerCorrect ServerLoop Descriptors ServerSetup WholeServer Conversation Http1Refusals Http2Spec Http2Conversation Http1Conversation Crowd.

(** Where the program is: in [epoll_wait], or at its end. *)
Inductive status := Serving (s : ServerImpl Served) | Exited (code : Z) (p : process).

Section program.
Context `{HM : Multimap}.
(** The library and the machine. *)
Context (env : Env Connection) (pick_fd : gset Z -> Z) (b : boot).

(** [Response("Hello, world!\n")] *)
Definition hello : Response := make_Response 200 (str "Hello, world!" ++ [10]).

(** [Server().addRoute("/", ...)], as its transports see it. *)
Definition hello_server : Env Connection :=
  mk_Env Connection hello_world staticUpgrades (now env) (raw env) (char_signed env)
    (fb64_decoded_size_nopad env) (fb64_decode env) close.

(** [Server::~Server]: [~Impl], then the members, of which [signal_receiver_] has
    a destructor that does something. *)
Definition delete_Server (source : SignalSource) (g : signals) (s : ServerImpl Served) : process :=
  delete_SignalSource source (mk_process (sys (delete_ServerImpl s)) g).

(** [main]; an exception leaves it and ends the process. *)
Definition main (answers : list wait_answer) (p : process) : outcome status :=
  let '(made, p) := new_ServerImpl pick_fd b p in
  '(source, s) ← made;
  '(stopped, s) ← run pick_fd b accepted (serve_input hello_server) new_ServerConfig answers s;
  Ret (if (stopped : bool) then Exited 0 (delete_Server source (sigs p) s) else Serving s).

(** ** The end of a server *)

(** Closing the server's own descriptors; the listener's is -1 by then. *)
Lemma close_own (X : gset Z) (r w e : Z) (k : system) :
  open_fds k = X ∪ list_to_set [r; w; e] -> (-1 ∉ X) -> NoDup [r; w; e] -> Forall (fun fd => 0 <= fd /\ (fd ∉ X)) [r; w; e] ->
  bad_closes k = [] ->
  let k' := sys_close (sys_close (sys_close (sys_close k e) (-1)) w) r in
  open_fds k' = X /\ bad_closes k' = [-1].
Proof.
  intros Ho H1 Hnd Hown Hbad. rewrite !Forall_cons in Hown. destruct Hown as ([Hr Hrx] & [Hw Hwx] & [He Hex] & _).
  rewrite !NoDup_cons in Hnd. destruct Hnd as (Hr' & Hw' & _). set_unfold in Hr'. set_unfold in Hw'.
  rewrite (sys_close_in k e) by (rewrite Ho; set_solver).
  rewrite (sys_close_out _ (-1)) by (cbn; rewrite Ho; set_unfold; clear -H1 Hr Hw He; intuition lia).
  rewrite (sys_close_in _ w) by (cbn; rewrite Ho; set_solver). rewrite (sys_close_in _ r) by (cbn; rewrite Ho; set_solver).
  cbn. rewrite Ho, Hbad. split; [set_solver|done].
Qed.

Context (Hpick : forall X, (pick_fd X ∉ X) /\ 0 <= pick_fd X).

#[local] Instance hello_tame : Tame (serve_input hello_server) := serve_input_tame hello_server eq_refl.
Abbreviation runs base := (reachable (serve_input hello_server) base accepted pick_fd).

(** The loop after the signal. *)
Lemma signal_loop base (s : ServerImpl Served) :
  server_ok base s -> remove_clients_ s = [] -> keep_running_ s = true -> signal_read (sys s) = 4 ->
  exists s2, loop accepted (serve_input hello_server) pick_fd [Events [mk_event Signals false true]] s = Ret (true, s2) /\
    clients_ s2 = ∅ /\ bad_closes (sys s2) = [] /\ server_epfd_ s2 = server_epfd_ s /\ listenfd_ s2 = -1 /\
    open_fds (sys s2) = (base ∖ {[listenfd_ s]}) ∪ dom (clients_ s) /\
    base ## dom (clients_ s) /\ (forall fd, fd ∈ dom (clients_ s) -> 0 <= fd).
Proof.
  intros Hok Hq Hk Hsig. destruct (signal_turn hello_server pick_fd s Hq Hsig) as (s1 & Hturn & Hc & Hk1 & Hfix).
  pose proof (turn_ok (serve_input hello_server) base accepted pick_fd Hpick s [mk_event Signals false true] Hok) as Hok1.
  rewrite Hturn in Hok1. destruct Hok1 as [Hok1 Hq1]; [by apply Forall_singleton|].
  exists (cleanup s1). split; [cbn [loop]; rewrite Hk, Hturn; cbn; by rewrite Hk1|].
  destruct (cleanup_ok base s1 Hok1 Hq1) as (Hnone & _ & Hopen & Hbad & Hfix2).
  injection Hfix2 as He2 Hl2 _. injection Hfix as He1 Hl1 _. rewrite Hc, Hl1 in Hopen.
  split; [done|]. split; [done|]. split; [congruence|]. split; [done|]. split; [done|]. split; [apply (so_open _ s Hok)|].
  intros fd [cl Hfd]%elem_of_dom. by destruct (so_clients _ s Hok fd cl Hfd) as (_ & _ & ? & _).
Qed.

(** What [main] leaves when the signal ends the loop: the descriptors of its
    clients. *)
Lemma server_destroyed (X : gset Z) (source : SignalSource) g (s : ServerImpl Served) e l :
  let own := [read_pipe_ source; write_pipe_ source; e; l] in
  server_ok (X ∪ list_to_set own) s -> remove_clients_ s = [] -> keep_running_ s = true -> fixed s = (e, l, 4) ->
  (-1 ∉ X) -> NoDup own -> Forall (fun fd => 0 <= fd /\ (fd ∉ X)) own ->
  exists s2, loop accepted (serve_input hello_server) pick_fd [Events [mk_event Signals false true]] s = Ret (true, s2) /\
    let p' := delete_Server source g s2 in
    open_fds (kern p') = X ∪ dom (clients_ s) /\ bad_closes (kern p') = [-1] /\
    write_fd (sigs p') = -1 /\ disposition (sigs p') (signum_ source) = prev_handler_ source.
Proof.
  intros own Hok Hq Hk Hfix H1 Hnd Hown. injection Hfix as He Hl Hsig.
  destruct (signal_loop _ s Hok Hq Hk Hsig) as (s2 & Hloop & Hnone & Hbad & He2 & Hl2 & Hopen & Hdis & Hpos).
  exists s2. split; [done|]. unfold delete_Server, delete_SignalSource, closePipe, delete_ServerImpl, close_all_clients.
  rewrite Hnone, dom_empty_L, elements_empty. cbn [foldl kern sys with_sys]. rewrite He2, Hl2, He. rewrite Hl in Hopen.
  unfold own in *. set (D := dom (clients_ s)) in *.
  apply (NoDup_app [_; _; _] [l]) in Hnd as (Hnd & Hnl & _). apply (Forall_app _ [_; _; _] [l]) in Hown as [Hown Hol].
  destruct (close_own (X ∪ D) (read_pipe_ source) (write_pipe_ source) e (sys s2)) as [Ho Hb]; try done.
  - rewrite Hopen. apply Forall_singleton in Hol as [_ Hlx]. clear -Hnl Hlx. set_solver.
  - intros [?|Hd]%elem_of_union; [done|]. apply Hpos in Hd. lia.
  - rewrite !Forall_cons in *. clear -Hown Hdis. set_solver.
  - split; [exact Ho|]. split; [exact Hb|]. split; [done|]. cbn. by rewrite Z.eqb_refl.
Qed.

(** ** One client, and the end *)

(** A process that has no signal source, and whose calls succeed. *)
Record ready (p : process) : Prop := mk_ready {
  rd_source : write_fd (sigs p) = -1;
  rd_epoll : epoll_create_ok b = true /\ epoll_add_ok b = true;
  rd_listen : socket_ok b = true /\ listen_ok b = true;
  rd_port : bind_ok b 80 || bind_ok b 8080 = true;
  rd_fds : watched (kern p) = ∅ /\ bad_closes (kern p) = [] /\ (-1 ∉ open_fds (kern p));
  rd_signal : signal_read (kern p) = 4
}.

(** The signal comes after [conversation]: [main] returns 0, and the descriptors
    [fds] stay open. *)
Definition stops (p : process) (fds : gset Z) (conversation : list wait_answer) : Prop :=
  exists p', main (conversation ++ [Events [mk_event Signals false true]]) p = Ret (Exited 0 p') /\
    open_fds (kern p') = open_fds (kern p) ∪ fds /\ bad_closes (kern p') = [-1] /\
    write_fd (sigs p') = -1 /\ disposition (sigs p') 2 = disposition (sigs p) 2.

(** [main] has come to the loop, with the state [s1] and the descriptors [own] of
    its own. *)
Record starts (p : process) (own : gset Z) (s1 : ServerImpl Served) : Prop := mk_starts {
  sa_started : started (open_fds (kern p) ∪ own) s1;
  sa_run : keep_running_ s1 = true;
  sa_epfd : 0 <= server_epfd_ s1;
  sa_accepts : accepts (sys s1) = accepts (kern p);
  sa_fails answers e : loop accepted (serve_input hello_server) pick_fd answers s1 = Throw e -> main answers p = Throw e;
  sa_faults answers u : loop accepted (serve_input hello_server) pick_fd answers s1 = Undef u -> main answers p = Undef u;
  sa_waits answers s' :
    loop accepted (serve_input hello_server) pick_fd answers s1 = Ret (false, s') ->
    server_ok (open_fds (kern p) ∪ own) s' -> remove_clients_ s' = [] ->
    main answers p = Ret (Serving s') /\ stops p (dom (clients_ s')) answers
}.

Lemma main_starts p : ready p -> exists own s1, starts p own s1.
Proof.
  intros [Hw [Hce Hca] [Hso Hli] Hport (Hwa & Hbc & H1) Hsig].
  destruct (server_starts (T := Served) pick_fd b Hpick new_ServerConfig p) as (source & s & p1 & Hnew & Hsn & Hprev & Hsetup); try done.
  destruct (setup pick_fd b new_ServerConfig s) as [[port s1]|e|u] eqn:Hs; [| |done].
  2: { exfalso. destruct Hsetup as [_ Hb]. apply Forall_cons in Hb as [H80 Hb]. apply Forall_cons in Hb as [H8080 _]. by rewrite H80, H8080 in Hport. }
  destruct Hsetup as (_ & Hst & Hnd & Hown & _ & _ & Hk & Haccs & Hfix). cbn zeta in *. rewrite Hsig in Hfix.
  assert (forall answers, main answers p =
    '(stopped, s) ← loop accepted (serve_input hello_server) pick_fd answers s1;
    Ret (if (stopped : bool) then Exited 0 (delete_Server source (sigs p1) s) else Serving s)) as Hmain.
  { intros answers. unfold main, run. rewrite Hnew. cbn [mbind outcome_bind]. by rewrite Hs. }
  eexists _, s1. split; [exact Hst|done| |done| | |].
  - pose proof Hown as Hown'. rewrite !Forall_cons in Hown'. injection Hfix as Hep _. rewrite Hep. apply Hown'.
  - intros answers e Hrun. by rewrite Hmain, Hrun.
  - intros answers u Hrun. by rewrite Hmain, Hrun.
  - intros answers s' Hrun Hok Hq. split; [by rewrite Hmain, Hrun|]. unfold stops.
    apply loop_keeps with (f := fixed) in Hrun as Hkeeps; [|apply fixed_clients|apply fixed_signal]. destruct Hkeeps as [Hfix' Hk'].
    rewrite Hfix in Hfix'.
    destruct (server_destroyed (open_fds (kern p)) source (sigs p1) s' _ _ Hok Hq Hk' Hfix' H1 Hnd Hown) as (s2 & Hstop & Hend).
    rewrite Hsn, Hprev in Hend. exists (delete_Server source (sigs p1) s2). split; [|exact Hend].
    by rewrite Hmain, (loop_app _ _ _ _ _ _ _ Hrun), Hstop.
Qed.

(** A client's octets are read, and it is sent [out] (see [answered_with]); then the
    signal may come. *)
Definition serves_and_stops (p : process) (fd : Z) (sends : list send_answer) (conversation : list wait_answer) (out : list Z) : Prop :=
  exists s cl, main conversation p = Ret (Serving s) /\ clients_ s = {[fd := cl]} /\ isOpen (cl_conn cl) = true /\
    answered_with sends (cl_conn cl) out /\ stops p {[fd]} conversation.

(** A listener event, and one event of the client for each batch. *)
Definition client_events (fd : Z) (batches : list (list (list Z))) : list wait_answer :=
  Events [mk_event Listener false true] :: map (fun _ => Events [mk_event (Client fd) false true]) batches.

(** Any protocol. *)
Lemma main_serves (state : protocol_state) p sends batch batches l g (HR := bool_decide (Forall ample sends) : Roomy)
    `{!Protocol hello_server state} :
  ready p -> accepts (kern p) = NewClient sends (arrivals (batch :: batches)) true :: AcceptAgain :: l -> calm sends ->
  pieces_ok (batch :: batches) -> state Switching 0%nat 0 empty_StreamBuf (octets_of (batch :: batches)) g ->
  exists fd, (fd ∉ open_fds (kern p)) /\
    match g with
    | Ret out => serves_and_stops p fd sends (client_events fd batches) out
    | Throw e => main (client_events fd batches) p = Throw e
    | Undef u => main (client_events fd batches) p = Undef u
    end.
Proof.
  intros Hp Hacc Hcalm Hch Hstate. destruct (main_starts p Hp) as (own & s1 & [Hst Hk Hep Haccs Hfails Hfaults Hwaits]).
  rewrite <- Haccs in Hacc.
  pose proof (client_served hello_server eq_refl state pick_fd Hpick _ s1 sends batch batches l g
    (reach_start _ _ _ _ s1 Hst) Hk Hep Hacc (bool_obliging sends Hcalm) Hch Hstate) as Hserved. cbn zeta in Hserved.
  destruct Hst as (Hc0 & _ & _ & _ & Hopen & _). destruct (Hpick (open_fds (sys s1))) as [Hfresh _].
  set (fd := pick_fd (open_fds (sys s1))) in *. exists fd. split; [intros Hin; apply Hfresh; rewrite Hopen; by apply elem_of_union_l|].
  destruct g as [out|e|u]; [|by apply Hfails|by apply Hfaults].
  destruct Hserved as (s' & cl & Hrun & Hruns' & _ & Hc & Ho & Hwire & Hflushed). rewrite Hc0, insert_empty in Hc.
  destruct (reachable_ok (serve_input hello_server) _ accepted pick_fd Hpick s' Hruns') as [Hok Hq].
  destruct (Hwaits _ s' Hrun Hok Hq) as [Hmain Hstops]. rewrite Hc, dom_singleton_L in Hstops. exists s', cl.
  do 3 (split; [done|]). by split; [apply flushed_answered|].
Qed.

(** ** The page *)

Definition hello_page : Response := response_ (new_StaticResponder hello).

(** Every path is answered with the page. *)
Lemma hello_answers rs :
  Forall (fun r => starts_with (rq_path r) (str "/") = true) rs -> answers hello_server rs = repeat hello_page (length rs).
Proof.
  induction 1 as [|r rs Hr _ IH]; [done|]. unfold answers in *. cbn [map concat length repeat]. rewrite IH.
  unfold Routes_dispatch. cbn [hello_server routes hello_world addRoute_static addHandler handlers_ app dispatch_loop].
  change (path_ (as_received r)) with (rq_path r). by rewrite Hr.
Qed.

Context `{!MultimapOk}.

Lemma hello_page_ok : response_ok hello_page.
Proof.
  split; [cbn; lia| |split; [apply (bool_decide_unpack _); vm_compute; exact I|vm_compute; reflexivity]].
  apply headers_octets_add; [constructor| |]; apply (bool_decide_unpack _); vm_compute; exact I.
Qed.

Lemma hello_pages_ok n : Forall response_ok (repeat hello_page n).
Proof. induction n; constructor; [apply hello_page_ok|done]. Qed.

Context (Hraw : raw_ok (raw env)).

(** An HTTP/2 client of the program is served by the frame-by-frame specification:
    the routes have no part in it. *)
Lemma main_serves_http2 p sends batch batches l fs q :
  ready p -> accepts (kern p) = NewClient sends (arrivals (batch :: batches)) true :: AcceptAgain :: l -> calm sends ->
  Forall (frame_ok (char_signed env)) fs -> partial_frame (char_signed env) q ->
  pieces_ok (batch :: batches) -> zlen (octets_of (batch :: batches)) <= 2 ^ 57 ->
  octets_of (batch :: batches) = CLIENT_PREFACE ++ concat (map frame_wire fs) ++ q ->
  exists fd, (fd ∉ open_fds (kern p)) /\
    match apply_frames (char_signed env) (with_preface initial_impl) fs with
    | Ret (_, out) => serves_and_stops p fd sends (client_events fd batches) (greeting ++ out)
    | Throw e => main (client_events fd batches) p = Throw e
    | Undef u => main (client_events fd batches) p = Undef u
    end.
Proof.
  intros Hp Hacc Hcalm Hfs Hq Hch Hsz Heq.
  destruct (main_serves (http2_state hello_server) p sends batch batches l _ (Protocol0 := http2_protocol hello_server Hraw)
    Hp Hacc Hcalm Hch (http2_start hello_server fs q _ Hfs Hq Hsz Heq)) as (fd & Hfd & Hmain).
  exists fd. split; [done|]. unfold Http2Conversation.owed in Hmain. change (char_signed hello_server) with (char_signed env) in Hmain.
  by destruct (apply_frames _ _ _) as [[s1 out]|e|u].
Qed.

Context (Hdates : forall n, octets (now env n)).

(** Any number of clients of the program, of both protocols, in any order (see
    [server_serves_everyone]); and its end with all of them connected. *)
Lemma main_serves_everyone p groups :
  ready p -> accepts (kern p) = arriving groups -> Forall (Forall (invited hello_server)) groups ->
  exists own, forall turns c, crowd_run pick_fd (open_fds (kern p) ∪ own) (mk_crowd groups ∅) turns = Some c ->
    exists s, main (map Events turns) p = Ret (Serving s) /\ serves_crowd s c /\
      (Forall (Forall takes_all) groups -> nothing_queued s) /\ stops p (dom (inside c)) (map Events turns).
Proof.
  intros Hp Hacc Hg. destruct (main_starts p Hp) as (own & s1 & [Hst Hk Hep Haccs _ _ Hwaits]). rewrite <- Haccs in Hacc.
  exists own. intros turns c Hplan.
  destruct (crowd_served hello_server eq_refl Hraw Hdates pick_fd Hpick _ s1 groups turns c Hst Hk Hep Hacc Hg Hplan)
    as (s & Hloop & Hok & Hq & Hserves & Hqueued).
  destruct (Hwaits _ s Hloop Hok Hq) as [Hmain Hstops]. rewrite (proj1 Hserves) in Hstops. by exists s.
Qed.

Context (bad : list (list Z)) (junk : list Z) (g0 : outcome (list Z)).
Context (Hend : ending (HO := server_owner hello_server) bad junk g0).

(** C2: The program of HelloWorld.cpp, from its start to its end, in a process whose
    calls succeed and that has no signal source ([ready]).  It binds port 80 or
    8080.  A client that it accepts sends requests without bodies (and without
    Upgrade, Expect or Connection) for paths that begin with a slash, cut into
    pieces anywhere, in batches with a turn of the loop for each; its socket is [calm]: it may take less than it is offered, but
    then EAGAIN comes next, and no call fails.  Then what the socket has taken,
    followed by what is queued in [outgoing_], is the page once for each request
    and nothing else; nothing is queued if the socket takes everything it is
    offered and has not stopped answering.  When SIGINT comes then, [main] returns
    0; it has closed its own descriptors, and -1 (the listener's, a second time),
    but not the client's, and it has restored the handler of the signal.  If the
    client sends a message that is refused behind its requests, its exception
    leaves [main]. *)
Theorem hello_world_serves p sends batch batches l rs :
  ready p -> accepts (kern p) = NewClient sends (arrivals (batch :: batches)) true :: AcceptAgain :: l -> calm sends ->
  Forall request_ok rs -> Forall (fun r => starts_with (rq_path r) (str "/") = true) rs ->
  pieces_ok (batch :: batches) -> zlen (octets_of (batch :: batches)) <= 2 ^ 57 ->
  octets_of (batch :: batches) = concat (map (fun r => render (wire_message r)) rs) ++ unlines bad ++ junk ->
  differs CLIENT_PREFACE (octets_of (batch :: batches)) ->
  zlen (replies (now env) 0 (repeat hello_page (length rs))) < 2 ^ 60 ->
  exists fd, (fd ∉ open_fds (kern p)) /\
    match g0 with
    | Ret _ => serves_and_stops p fd sends (client_events fd batches) (replies (now env) 0 (repeat hello_page (length rs)))
    | Throw e => main (client_events fd batches) p = Throw e
    | Undef u => main (client_events fd batches) p = Undef u
    end.
Proof.
  intros Hp Hacc Hcalm Hrs Hpaths Hch Hsz Heq Hd Hroom. pose proof (hello_answers rs Hpaths) as Hans.
  destruct (main_serves (http1_state hello_server bad junk g0) p sends batch batches l (owed hello_server g0 0 rs)
    (Protocol0 := http1_protocol hello_server Hraw Hdates bad junk g0 Hend) Hp Hacc Hcalm Hch) as (fd & Hfd & Hmain).
  - apply http1_start; try done; rewrite ?Hans; [apply hello_pages_ok|]. unfold room. by rewrite Hans.
  - exists fd. split; [done|]. pose proof (owed_cases hello_server bad junk g0 Hend 0 rs) as Ho. rewrite Hans in Ho.
    by destruct g0; rewrite Ho in Hmain.
Qed.

End program.

(** ** At work *)

(** A process with its standard streams, for which a client waits. *)
Definition hello_process (sends : list send_answer) (batches : list (list (list Z))) : process :=
  mk_process (mk_system {[0; 1; 2]} ∅ ∅ [NewClient sends (arrivals batches) true; AcceptAgain] 4 [])
    (mk_signals (-1) (fun _ => SIG_DFL) ∅).

Lemma hello_ready sends batches : ready example_boot (hello_process sends batches).
Proof. split; repeat split. apply (bool_decide_unpack _). vm_compute. exact I. Qed.

(** What the client is sent for one request. *)
Example hello_reply :
  reply example_date hello_page
  = str "HTTP/1.1 200 " ++ [0xf0; 0x9f; 0x98; 0x8e] ++ CRLF ++ str "content-length: 14" ++ CRLF
    ++ str "date: Sun, 06 Nov 1994 08:49:37 GMT" ++ CRLF ++ str "server: Shitty" ++ CRLF ++ CRLF ++ str "Hello, world!" ++ [10].
Proof. vm_compute. reflexivity. Qed.

(** Two requests in two batches, then the signal; and a request with a message
    that is refused behind it. *)
Lemma hello_world_serves_witness :
  (exists fd, serves_and_stops connection_env next_fd example_boot
    (hello_process [Accept 10; Again; Accept (2 ^ 63)] asking_batches) fd [Accept 10; Again; Accept (2 ^ 63)] (client_events fd (tail asking_batches))
    (reply example_date hello_page ++ reply example_date hello_page)) /\
  (exists fd,
    main connection_env next_fd example_boot (client_events fd (tail broken_batches))
      (hello_process [Accept (2 ^ 63)] broken_batches)
    = Throw (runtime_error "Malformed header: no colon")).
Proof.
  pose proof get_hello_ok as Hok. split.
  - destruct (hello_world_serves connection_env next_fd example_boot next_fd_fresh raw0_ok connection_dates [] [] (Ret [])
      (or_introl (conj eq_refl (conj eq_refl eq_refl))) (hello_process [Accept 10; Again; Accept (2 ^ 63)] asking_batches)
      [Accept 10; Again; Accept (2 ^ 63)]
      [take 10 (render (wire_message get_hello)); drop 10 (render (wire_message get_hello)) ++ take 5 (render (wire_message get_hello))]
      [[drop 5 (render (wire_message get_hello))]] [] (repeat get_hello 2))
      as (fd & _ & Hserves).
    + apply hello_ready.
    + by vm_compute.
    + cbn. repeat split; lia || (right; exact I) || (left; lia).
    + do 2 (constructor; [done|]). constructor.
    + apply (bool_decide_unpack _). vm_compute. exact I.
    + apply (bool_decide_unpack _). vm_compute. exact I.
    + by vm_compute.
    + vm_compute. reflexivity.
    + apply (bool_decide_unpack _). vm_compute. exact I.
    + by vm_compute.
    + exists fd. exact Hserves.
  - destruct (hello_world_serves connection_env next_fd example_boot next_fd_fresh raw0_ok connection_dates broken_lines (str "more") _
      (or_intror broken_refused) (hello_process [Accept (2 ^ 63)] broken_batches) [Accept (2 ^ 63)]
      [render (wire_message get_hello); take 8 broken_octets] [[drop 8 broken_octets]] [] (repeat get_hello 1)) as (fd & _ & Hrun).
    + apply hello_ready.
    + by vm_compute.
    + cbn. repeat split; lia || (right; exact I) || (left; lia).
    + by constructor.
    + apply (bool_decide_unpack _). vm_compute. exact I.
    + apply (bool_decide_unpack _). vm_compute. exact I.
    + by vm_compute.
    + vm_compute. reflexivity.
    + apply (bool_decide_unpack _). vm_compute. exact I.
    + by vm_compute.
    + exists fd. exact Hrun.
Defined.
