(* ===== verification/Http1Handlers.v ===== *)
(** The HTTP/1 server transport ([http1/ServerTransport.cpp]) with a handler that
    acts on more than its connection: on a state [W] of the whole program, in
    which the transport's own world is found and replaced. *)
From stdpp Require Import gmap.
From S2P Require Import Prelude StreamBuf Sender Headers Routes Http1 Http1Transport Http1Spec Http1Server ServerCorrect.

Section handlers.
Context {C W : Type} `{Sender C} `{HM : Multimap} `{!MultimapOk} (env : Env C).
Context (world : W -> outcome (World C)) (with_world : World C -> W -> W) (dispatch : Request -> W -> outcome W).

Definition transport_onRequest (request : Request) (x : W) : outcome W :=
  w ← world x;
  u ← tryUpgrade env request w;
  match u with
  | Some w => Ret (with_world w x)
  | None => dispatch request x
  end.

Definition transport_handleIncomingMessage (msg : IncomingMessage) (x : W) : outcome W :=
  request_line ← parseRequestLine (first_line msg);
  transport_onRequest (mk_Request (in_message msg) (rl_method request_line) (rl_path request_line)) x.

Definition transport_onEndOfMessageHeaders (headers : Headers) (x : W) : outcome W :=
  w ← world x;
  w ← server_onEndOfMessageHeaders env headers w;
  Ret (with_world w x).

Definition transport_owner : Owner W := {|
  handleIncomingMessage := transport_handleIncomingMessage;
  onEndOfMessageHeaders := transport_onEndOfMessageHeaders;
  replaced x := match world x with Ret w => bool_decide (is_Some (upgraded w)) | _ => false end;
  close_connection x :=
    match world x with
    | Ret w => with_world (mk_World (connection_close env (conn w)) (upgraded w) (messages_sent w)) x
    | _ => x
    end
|}.

Lemma transport_stays x w : world x = Ret w -> upgraded w = None -> @replaced _ transport_owner x = false.
Proof. intros Hw Hu. cbn. rewrite Hw, Hu. by rewrite bool_decide_eq_false_2 by by intros []. Qed.

Lemma not_closing `{Owner W} h x : named h (str "connection") = [] -> closing h x = x.
Proof.
  intros Hn. unfold closing, Headers_get. rewrite find_absent by done.
  rewrite (bool_decide_eq_false_2 (snd no_header = str "close")) by done. by rewrite andb_false_r.
Qed.

(** A request without the headers that the transport looks at is dispatched, and
    nothing else happens. *)
Lemma serve_one_dispatches r x w :
  request_ok r -> world x = Ret w -> with_world w x = x -> upgraded w = None ->
  @serve_one _ transport_owner _ (wire_message r) x = dispatch (as_received r) x.
Proof.
  intros Hr Hw Hx Hu. unfold serve_one. cbn [onEndOfMessageHeaders handleIncomingMessage transport_owner].
  unfold transport_onEndOfMessageHeaders. rewrite Hw. cbn [mbind outcome_bind].
  unfold server_onEndOfMessageHeaders. rewrite (special_absent r) by (done || unfold special; set_solver).
  rewrite bool_decide_eq_false_2 by (intros Hn; by apply Hn). cbn [mbind outcome_bind]. rewrite Hx.
  unfold transport_handleIncomingMessage. cbn [first_line in_message]. rewrite parse_own by apply Hr.
  cbn [mbind outcome_bind rl_method rl_path]. unfold transport_onRequest. rewrite Hw. cbn [mbind outcome_bind].
  unfold tryUpgrade. cbn [headers_ message_]. rewrite (special_absent r) by (done || unfold special; set_solver).
  rewrite bool_decide_eq_true_2 by done. cbn [mbind outcome_bind]. change (mk_Request _ _ _) with (as_received r).
  destruct (dispatch (as_received r) x) as [x'|e|u]; cbn [mbind outcome_bind]; [|done|done].
  f_equal. apply (@not_closing transport_owner). pose proof (rk_special r Hr) as Hsp. rewrite Forall_forall in Hsp. apply Hsp. unfold special. set_solver.
Qed.

End handlers.
