(* ===== verification/Relay.v ===== *)
(** The proxy server of [ProxyServer.cpp]: [http1/ServerTransport.cpp] with the
    proxy as its only route, between clients and backends, all of which send
    octets in any pieces and any order; and the switchboard that it implements. *)
From stdpp Require Import gmap functions.
From S2P Require Import Prelude StreamBuf Sender Headers Routes Http2 Http2Spec Http2Correct Http1 Http1Transport Http1Spec Http1Server ServerCorrect Http1Handlers Proxy.

(** ** The program *)

(** Besides the proxy's objects, what the transports of its clients and of its
    backends have read of a message.  A client's address stays known when the
    client is gone: nobody else gets it. *)
Record Relay (C : Type) := mk_Relay {
  rl_proxy : Proxy C;
  rl_requests : gmap nat (Transport * StreamBuf);
  rl_answers : gmap nat (Transport * StreamBuf)
}.
Arguments mk_Relay {C} rl_proxy rl_requests rl_answers.
Arguments rl_proxy {C} r : rename.
Arguments rl_requests {C} r : rename.
Arguments rl_answers {C} r : rename.

(** What the event loop calls the program for: a new client, one that is removed,
    and what a single [read(2)] gave. *)
Inductive relay_event (C : Type) :=
  | Connects (c : C)
  | Leaves (s : nat)
  | ClientSends (s : nat) (d : list Z)
  | BackendSends (id : nat) (d : list Z).
Arguments Connects {C} c.
Arguments Leaves {C} s.
Arguments ClientSends {C} s d.
Arguments BackendSends {C} id d.

Section relay.
Context {C : Type} `{Sender C} `{Multimap} (env : Env C).

Abbreviation proxy := (Proxy C).

Definition with_stream (s : nat) (w : World C) (p : proxy) : proxy := with_streams p (<[s := w]> (streams p)).

(** [Server::dispatch], with the route that [main] adds. *)
Definition relay_dispatch (s : nat) (request : Request) (p : proxy) : outcome proxy :=
  if starts_with (path_ request) (str "/") then proxy_request env s request p else Ret p.

Definition relay_owner (s : nat) : Owner proxy :=
  transport_owner env (fun p => deref (streams p) s) (with_stream s) (relay_dispatch s).

(** [incoming_] of a backend's connection, and its transport. *)
Definition answer_so_far (r : Relay C) (id : nat) : Transport * StreamBuf :=
  default (new_Transport, empty_StreamBuf) (rl_answers r !! id).

Definition relay_step (e : relay_event C) (r : Relay C) : outcome (Relay C) :=
  let p := rl_proxy r in
  match e with
  | Connects c =>
      let s := fresh (dom (rl_requests r)) in
      Ret (mk_Relay (with_stream s (mk_World c None 0) p) (<[s := (new_Transport, empty_StreamBuf)]> (rl_requests r)) (rl_answers r))
  | Leaves s => Ret (mk_Relay (with_streams p (delete s (streams p))) (rl_requests r) (rl_answers r))
  | ClientSends s d =>
      _ ← deref (streams p) s;
      '(t, buf) ← deref (rl_requests r) s;
      buf ← sb_write buf d;
      '(t, p, buf) ← onInput (H := relay_owner s) t p buf;
      Ret (mk_Relay p (<[s := (t, buf)]> (rl_requests r)) (rl_answers r))
  | BackendSends id d =>
      _ ← deref (transports p) id;
      let '(t, buf) := answer_so_far r id in
      buf ← sb_write buf d;
      '(t, p, buf) ← client_onInput env id t p buf;
      Ret (mk_Relay p (rl_requests r) (<[id := (t, buf)]> (rl_answers r)))
  end.

Fixpoint relay_run (evs : list (relay_event C)) (r : Relay C) : outcome (Relay C) :=
  match evs with
  | [] => Ret r
  | e :: evs => r ← relay_step e r; relay_run evs r
  end.

(** [main]: the source has no connections yet. *)
Definition new_Relay (dials : list (dial C)) : Relay C := mk_Relay (mk_Proxy [] ∅ ∅ ∅ ∅ dials) ∅ ∅.

End relay.

(** ** The switchboard

    What the program is to do, a message at a time: whom each backend works for,
    which backends are idle (the last one that answered first), and the octets
    each connection has been sent, with the number of messages. *)

Record backend := mk_backend { bk_count : nat; bk_wire : list Z; bk_asker : option nat }.

Record Board := mk_Board {
  bd_idle : list nat;
  bd_backends : gmap nat backend;
  bd_clients : gmap nat (nat * list Z);
  bd_known : gset nat;
  bd_dials : list (dial unit)
}.

Inductive act :=
  | Joins
  | Goes (s : nat)
  | Hears (s : nat)
  | Asks (s : nat) (r : request)
  | HearsFrom (id : nat)
  | Answers (id : nat) (m : Msg).

Section board.
Context `{Multimap} (dates : nat -> list Z).

(** The backend for the next request. *)
Definition board_pick (b : Board) : outcome (nat * backend * list nat * list (dial unit)) :=
  match bd_idle b with
  | id :: idle => v ← deref (bd_backends b) id; Ret (id, v, idle, bd_dials b)
  | [] =>
      match bd_dials b with
      | Dialled _ :: dials => Ret (fresh (dom (bd_backends b)), mk_backend 0 [] None, [], dials)
      | l => Throw (dial_error l)
      end
  end.

(** A request for another path is forgotten. *)
Definition board_ask (s : nat) (r : request) (b : Board) : outcome Board :=
  if starts_with (rq_path r) (str "/") then
    '(id, v, idle, dials) ← board_pick b;
    let v := mk_backend (S (bk_count v)) (bk_wire v ++ request_wire (dates (bk_count v)) (as_received r)) (Some s) in
    Ret (mk_Board idle (<[id := v]> (bd_backends b)) (bd_clients b) (bd_known b) dials)
  else Ret b.

(** What the proxy makes of a backend's answer. *)
Definition answer_status (m : Msg) : Z := match parseStatusLine (m_first m) with Ret sl => sl_code sl | _ => 0 end.
Definition as_answered (m : Msg) : Response := mk_Response (mk_Message [] (received_headers m)) (answer_status m).

Definition board_answer (id : nat) (m : Msg) (b : Board) : outcome Board :=
  v ← deref (bd_backends b) id;
  match bk_asker v with
  | None => Throw bad_function_call
  | Some s =>
      '(n, wire) ← deref (bd_clients b) s;
      Ret (mk_Board (id :: bd_idle b) (<[id := mk_backend (bk_count v) (bk_wire v) None]> (bd_backends b))
             (<[s := (S n, wire ++ reply (dates n) (as_answered m))]> (bd_clients b)) (bd_known b) (bd_dials b))
  end.

Definition board_step (a : act) (b : Board) : outcome Board :=
  match a with
  | Joins =>
      let s := fresh (bd_known b) in
      Ret (mk_Board (bd_idle b) (bd_backends b) (<[s := (0%nat, [])]> (bd_clients b)) ({[s]} ∪ bd_known b) (bd_dials b))
  | Goes s => Ret (mk_Board (bd_idle b) (bd_backends b) (delete s (bd_clients b)) (bd_known b) (bd_dials b))
  | Hears s => _ ← deref (bd_clients b) s; Ret b
  | Asks s r => board_ask s r b
  | HearsFrom id => _ ← deref (bd_backends b) id; Ret b
  | Answers id m => board_answer id m b
  end.

Fixpoint board_run (acts : list act) (b : Board) : outcome Board :=
  match acts with
  | [] => Ret b
  | a :: acts => b ← board_step a b; board_run acts b
  end.

Definition new_Board (dials : list (dial unit)) : Board := mk_Board [] ∅ ∅ ∅ dials.

(** No connection is sent 2^60 octets or more. *)
Definition small (b : Board) : Prop :=
  map_Forall (fun _ v => zlen (bk_wire v) < 2 ^ 60) (bd_backends b) /\
  map_Forall (fun _ v => zlen (snd v) < 2 ^ 60) (bd_clients b).

Fixpoint stays_small (acts : list act) (b : Board) : Prop :=
  small b /\
  match acts with
  | [] => True
  | a :: acts => match board_step a b with Ret b => stays_small acts b | _ => True end
  end.

Lemma stays_small_cons a acts b b' :
  stays_small (a :: acts) b -> board_step a b = Ret b' -> stays_small acts b'.
Proof. intros [_ Hsm] Hs. by rewrite Hs in Hsm. Qed.

Lemma stays_small_now acts b : stays_small acts b -> small b.
Proof. by destruct acts; intros []. Qed.

Lemma stays_small_app acts1 acts2 : forall b,
  stays_small (acts1 ++ acts2) b ->
  stays_small acts1 b /\ (forall b', board_run acts1 b = Ret b' -> stays_small acts2 b').
Proof.
  induction acts1 as [|a acts1 IH]; intros b Hsm.
  { split; [split; [by apply (stays_small_now acts2)|done]|]. by intros b' [= <-]. }
  destruct Hsm as [Hb Hsm]. cbn [stays_small board_run]. fold (app acts1 acts2) in Hsm.
  destruct (board_step a b) as [b1|e|u]; cbn [mbind outcome_bind]; [|done|done].
  destruct (IH b1 Hsm) as [H1 H2]. done.
Qed.

Lemma board_run_app acts1 acts2 : forall b,
  board_run (acts1 ++ acts2) b = (b' ← board_run acts1 b; board_run acts2 b').
Proof.
  induction acts1 as [|a acts1 IH]; intros b; cbn [board_run app]; [done|].
  destruct (board_step a b) as [b1|e|u]; cbn [mbind outcome_bind]; [apply IH|done|done].
Qed.

Lemma stays_small_first a acts b :
  stays_small (a :: acts) b -> stays_small [a] b /\ (forall b', board_step a b = Ret b' -> stays_small acts b').
Proof.
  intros Hsm. destruct (stays_small_app [a] acts b Hsm) as [H1 H2]. split; [done|]. intros b' Hb. apply H2. cbn [board_run]. by rewrite Hb.
Qed.

End board.

(** ** What clients and backends say *)

Section says.
Context `{Multimap} {C : Type} `{HS : SenderOk C}.

Record asks_ok (r : request) : Prop := mk_asks_ok {
  ak_request : request_ok r;
  ak_octets : request_octets (as_received r)
}.

Record answer_ok (m : Msg) : Prop := mk_answer_ok {
  nk_message : message_ok m;
  nk_body : no_body m;
  nk_line : exists sl, parseStatusLine (m_first m) = Ret sl;
  nk_response : response_ok (as_answered m);
  nk_connection : named (received_headers m) (str "connection") = []
}.

(** After [pre], the octets [d] complete the messages [ms] and begin another one. *)
Record cut (pre d : list Z) (ms : list Msg) (post : list Z) : Prop := mk_cut {
  cut_octets : octets d;
  cut_size : zlen (pre ++ d) < 2 ^ 60;
  cut_rest : unfinished post;
  cut_whole : pre ++ d = concat (map render ms) ++ post
}.

(** The events are those of the clients and backends that say [acts]; [pc] and
    [pb] are what each client and each backend has said of a message before. *)
Inductive says : (nat -> list Z) -> (nat -> list Z) -> list (relay_event C) -> list act -> Prop :=
  | says_nothing pc pb : says pc pb [] []
  | says_connects pc pb c evs acts :
      sender_ok c -> sent c = [] -> says pc pb evs acts -> says pc pb (Connects c :: evs) (Joins :: acts)
  | says_leaves pc pb s evs acts : says pc pb evs acts -> says pc pb (Leaves s :: evs) (Goes s :: acts)
  | says_client pc pb s d rs post evs acts :
      Forall asks_ok rs -> cut (pc s) d (map wire_message rs) post -> says (<[s := post]> pc) pb evs acts ->
      says pc pb (ClientSends s d :: evs) (Hears s :: map (Asks s) rs ++ acts)
  | says_backend pc pb id d ms post evs acts :
      Forall answer_ok ms -> cut (pb id) d ms post -> says pc (<[id := post]> pb) evs acts ->
      says pc pb (BackendSends id d :: evs) (HearsFrom id :: map (Answers id) ms ++ acts).

End says.

(** ** The program follows the board *)

Lemma bind_bind {A B D} (m : outcome A) (f : A -> outcome B) (g : B -> outcome D) :
  ((m ≫= f) ≫= g) = (m ≫= fun a => f a ≫= g).
Proof. by destruct m. Qed.

(** The same outcome, with [R] between what is returned. *)
Definition follows {A B} (R : A -> B -> Prop) (spec : outcome A) (m : outcome B) : Prop :=
  match spec with
  | Ret a => exists b, m = Ret b /\ R a b
  | Throw e => m = Throw e
  | Undef u => m = Undef u
  end.

Lemma follows_ret {A B} (R : A -> B -> Prop) a b : R a b -> follows R (Ret a) (Ret b).
Proof. by exists b. Qed.

Lemma follows_bind {A B A' B'} (R : A -> B -> Prop) (R' : A' -> B' -> Prop) spec m k k' :
  follows R spec m -> (forall a b, spec = Ret a -> R a b -> follows R' (k a) (k' b)) -> follows R' (spec ≫= k) (m ≫= k').
Proof. destruct spec as [a|e|u]; cbn; [|by intros ->..]. intros (b & -> & Hab) Hk. by apply Hk. Qed.

Lemma follows_then {A B B'} (R : A -> B -> Prop) (R' : A -> B' -> Prop) spec m k :
  follows R spec m -> (forall a b, R a b -> exists b', k b = Ret b' /\ R' a b') -> follows R' spec (m ≫= k).
Proof. destruct spec as [a|e|u]; cbn; [|by intros ->..]. intros (b & -> & Hab) Hk. by apply Hk. Qed.

Lemma follows_mono {A B} (R R' : A -> B -> Prop) spec m : follows R spec m -> (forall a b, R a b -> R' a b) -> follows R' spec m.
Proof. intros Hf HR. destruct spec; cbn in *; [|done..]. destruct Hf as (b & -> & Hb). exists b. auto. Qed.

Section follows.
Context `{HM : Multimap} `{!MultimapOk} {C : Type} `{HS : SenderOk C} (env : Env C).
Context (Hraw : raw_ok (raw env)) (Hdates : forall n, octets (now env n)).

Abbreviation proxy := (Proxy C).

(** A backend's transport; whether its handler is the one that answers the asker. *)
Record backend_view (p : proxy) (id : nat) (v : backend) (t : ClientTransport C) : Prop := mk_backend_view {
  bv_ok : sender_ok (ct_conn t);
  bv_count : ct_sent t = bk_count v;
  bv_wire : sent (ct_conn t) = bk_wire v;
  bv_asker :
    match bk_asker v with
    | Some s => exists h, handler_ t = Some h /\ handlers p !! h = Some (mk_PerRequestProxyHandler s (Some id))
    | None => handler_ t = None
    end
}.

Record client_view (v : nat * list Z) (w : World C) : Prop := mk_client_view {
  cv_ok : sender_ok (conn w);
  cv_upgraded : upgraded w = None;
  cv_count : messages_sent w = fst v;
  cv_wire : sent (conn w) = snd v
}.

Definition dial_view (d : dial unit) (o : dial C) : Prop :=
  match d with
  | Dialled _ => exists c, o = Dialled c /\ sender_ok c /\ sent c = []
  | NoSocket => o = NoSocket
  | NotConnected => o = NotConnected
  end.

Record shows (b : Board) (p : proxy) : Prop := mk_shows {
  sh_pool : pool_ok p;
  sh_idle : spare_connections_ p = bd_idle b;
  sh_backends : map_Forall2 (backend_view p) (bd_backends b) (transports p);
  sh_clients : map_Forall2 (fun _ => client_view) (bd_clients b) (streams p);
  sh_dials : Forall2 dial_view (bd_dials b) (dials p)
}.

Lemma shows_stream b p s v : shows b p -> bd_clients b !! s = Some v -> exists w, streams p !! s = Some w /\ client_view v w.
Proof.
  intros Hsh Hv. pose proof (sh_clients b p Hsh s) as Hs. rewrite Hv in Hs. destruct (streams p !! s) as [w|]; inversion Hs; subst. by exists w.
Qed.

Lemma shows_backend b p id v :
  shows b p -> bd_backends b !! id = Some v -> exists t, transports p !! id = Some t /\ backend_view p id v t.
Proof.
  intros Hsh Hv. pose proof (sh_backends b p Hsh id) as Hs. rewrite Hv in Hs. destruct (transports p !! id) as [t|]; inversion Hs; subst. by exists t.
Qed.

Lemma map_Forall2_dom_eq {A B} (R : nat -> A -> B -> Prop) (m1 : gmap nat A) (m2 : gmap nat B) :
  map_Forall2 R m1 m2 -> dom m1 = dom m2.
Proof. intros Hm. apply set_eq. intros i. rewrite !elem_of_dom. specialize (Hm i). inversion Hm; split; intros [? ?]; try done; by eexists. Qed.

(** The transport that a request takes is the board's pick. *)
Lemma board_pick_takes b p :
  shows b p ->
  match board_pick b with
  | Ret (id, v, idle, dials') => exists t rest, takes p id t rest /\ spare_connections_ rest = idle /\ Forall2 dial_view dials' (dials rest) /\
      sender_ok (ct_conn t) /\ ct_sent t = bk_count v /\ sent (ct_conn t) = bk_wire v
  | Throw e => e = dial_error (dials p) /\ spare_connections_ p = [] /\ (forall c l, dials p <> Dialled c :: l)
  | Undef _ => False
  end.
Proof.
  intros Hsh. pose proof Hsh as [Hok Hid Hbk _ Hd]. unfold board_pick. destruct (bd_idle b) as [|id idle].
  - destruct (bd_dials b) as [|[[]| |] ds]; inversion Hd as [|? o ? l Ho Hl Heq1 Heq2]; subst; [done| |cbn in Ho; subst; done..].
    destruct Ho as (c & -> & Hc & Hs). rewrite (map_Forall2_dom_eq _ _ _ Hbk).
    exists (mk_ClientTransport c 0 None), (mk_Proxy [] (in_use_connections_ p) (transports p) (handlers p) (streams p) l).
    split; [|done]. split; [|done]. right. cbn. split; [done|]. split; [done|]. split; [done|]. by exists c.
  - assert (is_Some (transports p !! id)) as [t Ht] by (apply (pk_all p Hok); left; rewrite Hid; left).
    pose proof (Hbk id) as Hv. rewrite Ht in Hv. unfold deref. destruct (bd_backends b !! id) as [v|]; inversion Hv as [? ? Hview|]; subst.
    destruct Hview as [Hc Hn Hw _]. cbn [mbind outcome_bind].
    exists t, (mk_Proxy idle (in_use_connections_ p) (transports p) (handlers p) (streams p) (dials p)).
    split; [|done]. split; [|done]. by left.
Qed.

(** Handlers that are not new are as they were. *)
Lemma backend_view_asked p id t rest s c i v ti :
  takes p id t rest -> backend_view p i v ti -> backend_view (asked rest id (fresh (dom (handlers p))) s t c) i v ti.
Proof.
  intros [_ (_ & _ & Hh & _)] [Hc Hn Hw Ha]. split; [done..|]. destruct (bk_asker v) as [s'|]; [|done].
  destruct Ha as (h & Hhi & Hx). exists h. split; [done|]. cbn. rewrite Hh, lookup_insert_ne; [done|].
  intros <-. apply elem_of_dom_2 in Hx. by apply (is_fresh (dom (handlers p))).
Qed.

Lemma shows_asked b p id v idle ds t rest s wire c :
  shows b p -> takes p id t rest -> spare_connections_ rest = idle -> Forall2 dial_view ds (dials rest) ->
  ct_sent t = bk_count v -> sender_ok c -> sent c = wire ->
  shows (mk_Board idle (<[id := mk_backend (S (bk_count v)) wire (Some s)]> (bd_backends b)) (bd_clients b) (bd_known b) ds)
    (asked rest id (fresh (dom (handlers p))) s t c).
Proof.
  intros Hsh Htk Hidle Hd Hn Hc Hs. pose proof Hsh as [Hok _ Hbk Hcl _].
  destruct (asked_ok p id t rest s c Hok Htk) as [Hok' [(t' & Ht' & Hh') Hx']]. cbn in Ht'. rewrite lookup_insert_eq in Ht'.
  injection Ht' as <-. split; cbn [spare_connections_ transports streams dials asked bd_idle bd_backends bd_clients bd_dials]; try done.
  - pose proof Htk as [_ (_ & Htr & _)]. rewrite Htr. apply map_Forall2_insert_2.
    + split; [done|by cbn; rewrite Hn|done|]. cbn [bk_asker]. eexists. split; [done|exact Hx'].
    + apply (map_Forall2_impl (backend_view p)); [done|]. intros i vi ti. by apply backend_view_asked.
  - by destruct Htk as [_ (_ & _ & _ & ->)].
Qed.

(** The transport of the client [s]. *)
Lemma relay_world b p s v :
  shows b p -> bd_clients b !! s = Some v ->
  exists w, deref (streams p) s = Ret w /\ with_stream s w p = p /\ upgraded w = None.
Proof.
  intros Hsh Hv. destruct (shows_stream b p s v Hsh Hv) as (w & Hw & Hview). exists w. split; [by apply deref_Some|].
  split; [|by apply cv_upgraded in Hview]. destruct p. unfold with_stream, with_streams. cbn in *. by rewrite insert_id.
Qed.

(** The clients and the backends of [b] are still there. *)
Record kept (b b' : Board) (p' : proxy) : Prop := mk_kept {
  kt_shows : shows b' p';
  kt_clients : dom (bd_clients b') = dom (bd_clients b);
  kt_backends : dom (bd_backends b) ⊆ dom (bd_backends b');
  kt_known : bd_known b' = bd_known b
}.

Lemma kept_self b p : shows b p -> kept b b p.
Proof. by split. Qed.

Lemma kept_trans b b1 p1 b' p' : kept b b1 p1 -> kept b1 b' p' -> kept b b' p'.
Proof. intros [_ Hc Hb Hk] [Hs Hc' Hb' Hk']. split; [done|congruence|set_solver|congruence]. Qed.

Lemma kept_client b b' p' s : kept b b' p' -> is_Some (bd_clients b !! s) -> is_Some (bd_clients b' !! s).
Proof. intros Hk Hs. apply elem_of_dom. rewrite (kt_clients _ _ _ Hk). by apply elem_of_dom. Qed.

Lemma kept_backend b b' p' id : kept b b' p' -> is_Some (bd_backends b !! id) -> is_Some (bd_backends b' !! id).
Proof. intros Hk Hs. apply elem_of_dom, (kt_backends _ _ _ Hk). by apply elem_of_dom. Qed.

Lemma ask_follows s r b p :
  shows b p -> is_Some (bd_clients b !! s) -> asks_ok r -> stays_small (now env) [Asks s r] b ->
  follows (kept b) (board_ask (now env) s r b) (serve_one (H := relay_owner env s) (wire_message r) p).
Proof.
  intros Hsh [cv Hcv] [Hr Hoct] [_ Hsm]. cbn [board_step] in Hsm.
  destruct (relay_world b p s cv Hsh Hcv) as (w & Hw & Hp & Hu). unfold relay_owner. rewrite (serve_one_dispatches _ _ _ _ r p w) by done.
  unfold relay_dispatch. change (path_ (as_received r)) with (rq_path r).
  unfold board_ask in *. destruct (starts_with (rq_path r) (str "/")); [|by apply follows_ret, kept_self].
  pose proof (board_pick_takes b p Hsh) as Hpick. destruct (proxy_passes_request env Hraw Hdates p s (as_received r) (sh_pool _ _ Hsh) Hoct) as [Hgo Hfail].
  destruct (board_pick b) as [[[[id v] idle] ds]|e|u]; [| |done].
  - destruct Hpick as (t & rest & Htk & Hidle & Hds & Hct & Hn & Hwire). cbn [mbind outcome_bind] in *.
    destruct Hsm as [[Hsm _] _]. cbn [bd_backends] in Hsm. specialize (Hsm id _ (lookup_insert_eq _ _ _)). cbn in Hsm. rewrite zlen_app in Hsm.
    destruct (Hgo id t rest Htk Hct) as (c & -> & _ & _ & _ & _ & Hc & Hs); [by rewrite Hn, Hwire|].
    apply follows_ret. split; [|done|cbn; set_solver|done].
    apply (shows_asked b p id v idle ds t rest); try done. by rewrite Hs, Hn, Hwire.
  - destruct Hpick as (-> & Hsp & Hd). by rewrite Hfail.
Qed.

Lemma asks_follow s rs : forall b p,
  shows b p -> is_Some (bd_clients b !! s) -> Forall asks_ok rs -> stays_small (now env) (map (Asks s) rs) b ->
  follows (fun b' p' => fst p' = true /\ kept b b' (snd p'))
    (board_run (now env) (map (Asks s) rs) b) (serve (H := relay_owner env s) (map wire_message rs) p).
Proof.
  induction rs as [|r rs IH]; intros b p Hsh Hs Hrs Hsm; cbn [map serve board_run]; [by apply follows_ret; split; [|apply kept_self]|].
  apply Forall_cons in Hrs as [Hr Hrs]. destruct (stays_small_first _ _ _ _ Hsm) as [Hsm1 Hsm2].
  eapply follows_bind; [by apply ask_follows|]. intros b1 p1 Hb1 Hk. destruct (kept_client _ _ _ s Hk Hs) as [v Hv].
  destruct (relay_world b1 p1 s v (kt_shows _ _ _ Hk) Hv) as (w & Hw & _ & Hu). unfold relay_owner at 1. rewrite (transport_stays _ _ _ _ p1 w) by done.
  eapply follows_mono; [apply IH; try done|]. { by apply kt_shows in Hk. } { by apply Hsm2. }
  intros b' [ok p'] [Hok Hk']. split; [done|by apply (kept_trans b b1 p1)].
Qed.

(** ** Answers *)

Lemma shows_answered b p id h s t v n wire c :
  shows b p -> asks p id h s -> transports p !! id = Some t -> id ∈ in_use_connections_ p ->
  bd_backends b !! id = Some v -> bd_clients b !! s = Some (n, wire) -> sender_ok c ->
  shows (mk_Board (id :: bd_idle b) (<[id := mk_backend (bk_count v) (bk_wire v) None]> (bd_backends b))
           (<[s := (S n, sent c)]> (bd_clients b)) (bd_known b) (bd_dials b))
    (answered p id h s t (mk_World c None (S n))).
Proof.
  intros Hsh Ha Ht Hin Hv Hcv Hc. pose proof Hsh as [Hok Hid Hbk Hcl Hd].
  split; cbn [spare_connections_ transports streams dials answered bd_idle bd_backends bd_clients bd_dials]; try done.
  - by apply answered_ok.
  - by rewrite Hid.
  - intros i. destruct (decide (i = id)) as [->|Hne].
    + rewrite !lookup_insert_eq. constructor. destruct (shows_backend b p id v Hsh Hv) as (t' & Ht' & Hview).
      assert (t' = t) as -> by congruence. by destruct Hview.
    + rewrite !lookup_insert_ne by done. specialize (Hbk i). inversion Hbk as [vi ti [Hci Hni Hwi Hai] Hvi Hti|]; constructor.
      split; [done..|]. destruct (bk_asker vi) as [s'|]; [|done]. destruct Hai as (h' & Hh' & Hx'). exists h'. split; [done|].
      cbn. rewrite lookup_delete_ne; [done|]. intros <-. destruct Ha as [_ Hx]. congruence.
  - by apply map_Forall2_insert_2.
Qed.

Lemma answer_follows id m b p :
  shows b p -> answer_ok m -> stays_small (now env) [Answers id m] b -> is_Some (bd_backends b !! id) ->
  follows (kept b) (board_answer (now env) id m b) (serve_one (H := client_owner env id) m p).
Proof.
  intros Hsh [Hm Hn [sl Hsl] Hresp Hconn] [_ Hsm] [v Hv]. cbn [board_step] in Hsm. unfold serve_one.
  cbn [onEndOfMessageHeaders handleIncomingMessage client_owner mbind outcome_bind].
  destruct (shows_backend b p id v Hsh Hv) as (t & Ht & Hview). pose proof Hview as [_ _ _ Hask].
  unfold board_answer, deref in *. rewrite Hv in *. cbn [mbind outcome_bind] in *. destruct (bk_asker v) as [s|].
  - destruct Hask as (h & Hh & Hx). assert (asks p id h s) as Ha by (split; [by exists t|done]).
    assert (id ∈ in_use_connections_ p) as Hin.
    { assert (is_Some (transports p !! id)) as Hs by by eexists. apply (pk_all p (sh_pool _ _ Hsh)) in Hs as [Hs|]; [|done].
      rewrite (pk_idle p (sh_pool _ _ Hsh) id t Ht Hs) in Hh. done. }
    rewrite (client_message_eq env p id h s t _ Ha Ht Hin). cbn [first_line in_message]. rewrite Hsl. cbn [mbind outcome_bind].
    pose proof (sh_clients b p Hsh s) as Hst. unfold deref.
    destruct (bd_clients b !! s) as [[n wire]|] eqn:Hcv; destruct (streams p !! s) as [w|]; inversion Hst as [? ? Hcview|]; subst; [|done].
    destruct Hcview as [Hc Hu Hcount Hwire]. cbn [mbind outcome_bind fst snd] in *. subst.
    assert (as_answered m = mk_Response (mk_Message [] (received_headers m)) (sl_code sl)) as Hres
      by (unfold as_answered, answer_status; by rewrite Hsl).
    destruct Hsm as [[_ Hsm] _]. cbn [bd_clients] in Hsm. specialize (Hsm s _ (lookup_insert_eq _ _ _)). cbn [snd] in Hsm. rewrite zlen_app in Hsm.
    rewrite Hres in *. destruct (server_sendResponse_ok env Hraw Hdates _ w Hresp Hc Hsm) as (c & -> & Hc' & Hs). cbn [mbind outcome_bind].
    rewrite not_closing by done. apply follows_ret. rewrite Hu, <- Hs. split; [by apply shows_answered with (wire := sent (conn w))| | |done]; cbn.
    + by rewrite dom_insert_lookup_L by by eexists.
    + set_solver.
  - unfold client_handleIncomingMessage. cbn [first_line]. rewrite Hsl. cbn [mbind outcome_bind]. rewrite (deref_Some _ _ _ Ht).
    cbn [mbind outcome_bind]. by rewrite Hask.
Qed.

Lemma answers_follow id ms : forall b p,
  shows b p -> is_Some (bd_backends b !! id) -> Forall answer_ok ms -> stays_small (now env) (map (Answers id) ms) b ->
  follows (fun b' p' => fst p' = true /\ kept b b' (snd p'))
    (board_run (now env) (map (Answers id) ms) b) (serve (H := client_owner env id) ms p).
Proof.
  induction ms as [|m ms IH]; intros b p Hsh Hs Hms Hsm; cbn [map serve board_run]; [by apply follows_ret; split; [|apply kept_self]|].
  apply Forall_cons in Hms as [Hm Hms]. destruct (stays_small_first _ _ _ _ Hsm) as [Hsm1 Hsm2].
  eapply follows_bind; [by apply answer_follows|]. intros b1 p1 Hb1 Hk. cbn [replaced client_owner].
  eapply follows_mono; [apply IH; try done|]. { by apply kt_shows in Hk. } { by apply (kept_backend _ _ _ id Hk). } { by apply Hsm2. }
  intros b' [ok p'] [Hok Hk']. split; [done|by apply (kept_trans b b1 p1)].
Qed.

(** ** Octets *)

(** The program between two events: the board, and what every transport has read
    of a message. *)
Record relays (pc pb : nat -> list Z) (b : Board) (r : Relay C) : Prop := mk_relays {
  rv_board : shows b (rl_proxy r);
  rv_known : dom (rl_requests r) = bd_known b;
  rv_clients : dom (bd_clients b) ⊆ bd_known b;
  rv_requests : map_Forall (fun s tb => partway (HO := relay_owner env s) (fst tb) (snd tb) (pc s)) (rl_requests r);
  rv_silent : forall s, s ∉ bd_known b -> pc s = [];
  rv_answers : forall id, partway (HO := client_owner env id) (fst (answer_so_far r id)) (snd (answer_so_far r id)) (pb id)
}.

Lemma wire_messages rs :
  Forall asks_ok rs -> Forall message_ok (map wire_message rs) /\ Forall no_body (map wire_message rs).
Proof.
  intros Hrs. rewrite !Forall_map. split; (eapply Forall_impl; [exact Hrs|]); intros r [Hr _]; [apply Hr|by apply request_no_body].
Qed.

(** What a call of a transport does, when the messages it completes are served as
    a run of the board says. *)
Lemma input_follows {O : Owner proxy} (R : Board -> proxy -> Prop) spec t buf pre d ms post p :
  partway t buf pre -> cut pre d ms post -> replaced p = false -> Forall message_ok ms -> Forall no_body ms ->
  follows (fun b' p' => fst p' = true /\ R b' (snd p')) spec (serve ms p) ->
  follows (fun b' x => R b' (snd (fst x)) /\ partway (fst (fst x)) (snd x) post) spec (buf ← sb_write buf d; onInput t p buf).
Proof.
  intros Hpw [Hd Hsz Hun Hwhole] Hrep Hm Hn Hf.
  destruct (onInput_partway t buf pre d ms post p Hpw Hrep Hm Hn Hun Hwhole Hd Hsz) as (b1 & -> & Hin). cbn [mbind outcome_bind].
  destruct spec as [b'|e|u]; cbn [follows] in Hf |- *; [|by rewrite Hf in Hin..].
  destruct Hf as ([ok p'] & Hserve & Hok & HR). cbn in Hok, HR. subst ok. rewrite Hserve in Hin.
  destruct Hin as (t' & buf' & -> & Hpw'). by exists (t', p', buf').
Qed.

Lemma client_follows pc pb b r s d rs post :
  relays pc pb b r -> Forall asks_ok rs -> cut (pc s) d (map wire_message rs) post ->
  stays_small (now env) (Hears s :: map (Asks s) rs) b ->
  follows (relays (<[s := post]> pc) pb) (board_run (now env) (Hears s :: map (Asks s) rs) b) (relay_step env (ClientSends s d) r).
Proof.
  intros [Hsh Hkn Hcl Hrq Hsi Han] Hrs Hcut Hsm. cbn [board_run board_step relay_step].
  destruct (bd_clients b !! s) as [v|] eqn:Hv.
  - destruct (shows_stream b _ s v Hsh Hv) as (w & Hw & Hview). rewrite (deref_Some _ _ _ Hv), (deref_Some _ _ _ Hw). cbn [mbind outcome_bind].
    assert (s ∈ bd_known b) as Hs by (apply Hcl; by apply elem_of_dom_2 in Hv).
    assert (is_Some (rl_requests r !! s)) as [[t buf] Ht] by (apply elem_of_dom; by rewrite Hkn).
    rewrite (deref_Some _ _ _ Ht). cbn [mbind outcome_bind]. destruct (wire_messages rs Hrs) as [Hm Hn].
    assert (stays_small (now env) (map (Asks s) rs) b) as Hsm1.
    { apply (stays_small_cons _ _ _ b b Hsm). cbn [board_step]. by rewrite (deref_Some _ _ _ Hv). }
    assert (@replaced _ (relay_owner env s) (rl_proxy r) = false) as Hrep
      by (apply (transport_stays _ _ _ _ _ w); [by apply deref_Some|by apply cv_upgraded in Hview]).
    rewrite <- bind_bind. eapply follows_then.
    { apply (input_follows (O := relay_owner env s) (kept b) _ t buf (pc s) d _ post _ (Hrq s _ Ht) Hcut Hrep Hm Hn).
      by apply (asks_follow s rs b (rl_proxy r) Hsh). }
    intros b' [[t' p'] buf'] [[Hsh' Hcl' _ Hkn'] Hpw]. cbn [fst snd] in *.
    eexists. split; [done|]. split; cbn [rl_proxy rl_requests]; try done.
    + rewrite dom_insert_lookup_L by by eexists. by rewrite Hkn'.
    + by rewrite Hcl', Hkn'.
    + intros s' tb. destruct (decide (s' = s)) as [->|Hne].
      * rewrite lookup_insert_eq. intros [= <-]. by rewrite fn_lookup_insert.
      * rewrite lookup_insert_ne, fn_lookup_insert_ne by done. apply Hrq.
    + intros s' Hs'. rewrite Hkn' in Hs'. rewrite fn_lookup_insert_ne by (by intros ->). by apply Hsi.
  - pose proof (sh_clients b _ Hsh s) as Hst. rewrite Hv in Hst. unfold deref. rewrite Hv.
    destruct (streams (rl_proxy r) !! s); inversion Hst. done.
Qed.

Lemma answer_messages ms : Forall answer_ok ms -> Forall message_ok ms /\ Forall no_body ms.
Proof. intros Hms. split; (eapply Forall_impl; [exact Hms|]); by intros m []. Qed.

Lemma backend_follows pc pb b r id d ms post :
  relays pc pb b r -> Forall answer_ok ms -> cut (pb id) d ms post ->
  stays_small (now env) (HearsFrom id :: map (Answers id) ms) b ->
  follows (relays pc (<[id := post]> pb)) (board_run (now env) (HearsFrom id :: map (Answers id) ms) b) (relay_step env (BackendSends id d) r).
Proof.
  intros [Hsh Hkn Hcl Hrq Hsi Han] Hms Hcut Hsm. cbn [board_run board_step relay_step].
  destruct (bd_backends b !! id) as [v|] eqn:Hv.
  - destruct (shows_backend b _ id v Hsh Hv) as (ct & Ht & _). rewrite (deref_Some _ _ _ Hv), (deref_Some _ _ _ Ht). cbn [mbind outcome_bind].
    destruct (answer_messages ms Hms) as [Hm Hn]. pose proof (Han id) as Hpw. destruct (answer_so_far r id) as [t buf]. cbn [fst snd] in Hpw.
    assert (stays_small (now env) (map (Answers id) ms) b) as Hsm1.
    { apply (stays_small_cons _ _ _ b b Hsm). cbn [board_step]. by rewrite (deref_Some _ _ _ Hv). }
    rewrite <- bind_bind. eapply follows_then.
    { apply (input_follows (O := client_owner env id) (kept b) _ t buf (pb id) d ms post _ Hpw Hcut eq_refl Hm Hn).
      by apply (answers_follow id ms b (rl_proxy r) Hsh). }
    intros b' [[t' p'] buf'] [[Hsh' Hcl' _ Hkn'] Hpw']. cbn [fst snd] in *.
    eexists. split; [done|]. split; cbn [rl_proxy rl_requests]; try done.
    + by rewrite Hkn'.
    + by rewrite Hcl', Hkn'.
    + intros s Hs. rewrite Hkn' in Hs. by apply Hsi.
    + intros i. unfold answer_so_far. cbn [rl_answers]. destruct (decide (i = id)) as [->|Hne].
      * by rewrite lookup_insert_eq, fn_lookup_insert.
      * rewrite lookup_insert_ne, fn_lookup_insert_ne by done. apply Han.
  - pose proof (sh_backends b _ Hsh id) as Hst. rewrite Hv in Hst. unfold deref. rewrite Hv.
    destruct (transports (rl_proxy r) !! id); inversion Hst. done.
Qed.

Lemma empty_ok : sb_ok empty_StreamBuf.
Proof. split; [vm_compute; split; congruence|constructor]. Qed.

(** The proxy's part does not depend on the streams. *)
Lemma shows_streams b p cls known m :
  shows b p -> map_Forall2 (fun _ => client_view) cls m ->
  shows (mk_Board (bd_idle b) (bd_backends b) cls known (bd_dials b)) (with_streams p m).
Proof.
  intros [[] Hid Hbk _ Hd] Hm. split; try done. apply (map_Forall2_impl _ _ _ _ Hbk). intros id v t []. by split.
Qed.

Lemma connects_follows pc pb b r c :
  relays pc pb b r -> sender_ok c -> sent c = [] ->
  follows (relays pc pb) (board_run (now env) [Joins] b) (relay_step env (Connects c) r).
Proof.
  intros [Hsh Hkn Hcl Hrq Hsi Han] Hc Hs. cbn [board_run board_step relay_step mbind outcome_bind]. rewrite Hkn.
  apply follows_ret. split; cbn [rl_proxy rl_requests bd_known bd_clients].
  - apply (shows_streams b); [done|]. by apply map_Forall2_insert_2, sh_clients.
  - by rewrite dom_insert_L, Hkn.
  - rewrite dom_insert_L. set_solver.
  - intros s tb. destruct (decide (s = fresh (bd_known b))) as [->|Hne].
    + rewrite lookup_insert_eq. intros [= <-]. cbn [fst snd]. rewrite Hsi by apply is_fresh. apply partway_new; [apply empty_ok|done].
    + rewrite lookup_insert_ne by done. apply Hrq.
  - intros s Hns. apply Hsi. set_solver.
  - exact Han.
Qed.

Lemma leaves_follows pc pb b r s :
  relays pc pb b r -> follows (relays pc pb) (board_run (now env) [Goes s] b) (relay_step env (Leaves s) r).
Proof.
  intros [Hsh Hkn Hcl Hrq Hsi Han]. cbn [board_run board_step relay_step mbind outcome_bind].
  apply follows_ret. split; cbn [rl_proxy rl_requests bd_known bd_clients]; try done.
  - apply (shows_streams b); [done|]. by apply map_Forall2_delete, sh_clients.
  - rewrite dom_delete_L. set_solver.
Qed.

Lemma run_follows pc pb evs acts : says pc pb evs acts -> forall b r,
  relays pc pb b r -> stays_small (now env) acts b ->
  follows (fun b' r' => exists pc' pb', relays pc' pb' b' r') (board_run (now env) acts b) (relay_run env evs r).
Proof.
  induction 1 as [pc pb|pc pb c evs acts Hc Hs _ IH|pc pb s evs acts _ IH|pc pb s d rs post evs acts Hrs Hcut _ IH|pc pb id d ms post evs acts Hms Hcut _ IH];
    intros b r Hr Hsm.
  - apply follows_ret. by exists pc, pb.
  - cbn [relay_run]. change (Joins :: acts) with ([Joins] ++ acts) in *. rewrite board_run_app.
    destruct (stays_small_app _ _ _ _ Hsm) as [_ Hsm2]. eapply follows_bind; [by apply connects_follows|].
    intros b' r' Hb Hr'. by apply IH; [|apply Hsm2].
  - cbn [relay_run]. change (Goes s :: acts) with ([Goes s] ++ acts) in *. rewrite board_run_app.
    destruct (stays_small_app _ _ _ _ Hsm) as [_ Hsm2]. eapply follows_bind; [by apply leaves_follows|].
    intros b' r' Hb Hr'. by apply IH; [|apply Hsm2].
  - cbn [relay_run]. rewrite app_comm_cons in *. rewrite board_run_app.
    destruct (stays_small_app _ _ _ _ Hsm) as [Hsm1 Hsm2]. eapply follows_bind; [by apply client_follows|].
    intros b' r' Hb Hr'. by apply IH; [|apply Hsm2].
  - cbn [relay_run]. rewrite app_comm_cons in *. rewrite board_run_app.
    destruct (stays_small_app _ _ _ _ Hsm) as [Hsm1 Hsm2]. eapply follows_bind; [by apply backend_follows|].
    intros b' r' Hb Hr'. by apply IH; [|apply Hsm2].
Qed.

Lemma new_relays (ds : list (dial unit)) (dials : list (dial C)) :
  Forall2 dial_view ds dials -> relays (fun _ => []) (fun _ => []) (new_Board ds) (new_Relay dials).
Proof.
  intros Hd. split; cbn; try done.
  - split; cbn; try done; [|apply map_Forall2_empty..]. split; cbn; try done.
    + constructor.
    + intros id. rewrite lookup_empty. split; [by intros [? ?]|]. intros [Hi|Hi]; [by apply elem_of_nil in Hi|by apply elem_of_empty in Hi].
  - intros id. apply partway_new; [apply empty_ok|done].
Qed.

(** What the connections of the program have been sent is what the board says. *)
Record as_on_board (b : Board) (r : Relay C) : Prop := mk_as_on_board {
  ab_clients : forall s, bd_clients b !! s = (fun w => (messages_sent w, sent (conn w))) <$> streams (rl_proxy r) !! s;
  ab_backends : forall id, bk_wire <$> bd_backends b !! id = (fun t => sent (ct_conn t)) <$> transports (rl_proxy r) !! id;
  ab_idle : spare_connections_ (rl_proxy r) = bd_idle b;
  ab_busy : forall id, id ∈ in_use_connections_ (rl_proxy r) <-> exists v s, bd_backends b !! id = Some v /\ bk_asker v = Some s
}.

Lemma relays_as_on_board pc pb b r : relays pc pb b r -> as_on_board b r.
Proof.
  intros [Hsh _ _ _ _ _]. pose proof Hsh as [Hok Hid Hbk Hcl _]. split; [| |done|].
  - intros s. specialize (Hcl s). inversion Hcl as [v w [_ _ Hn Hw]|]; subst; cbn; [|done]. destruct v. cbn in *. by subst.
  - intros id. specialize (Hbk id). inversion Hbk as [v t [_ _ Hw _]|]; subst; cbn; [|done]. by rewrite Hw.
  - intros id. split.
    + intros Hin. destruct (pk_busy _ Hok id Hin) as (h & s & (t & Ht & Hh) & _). specialize (Hbk id). rewrite Ht in Hbk.
      inversion Hbk as [v ? [_ _ _ Ha] Hv|]; subst. destruct (bk_asker v) as [s'|] eqn:E; [by exists v, s'|congruence].
    + intros (v & s & Hv & Ha). destruct (shows_backend b _ id v Hsh Hv) as (t & Ht & [_ _ _ Hask]). rewrite Ha in Hask.
      destruct Hask as (h & Hh & _). assert (is_Some (transports (rl_proxy r) !! id)) as Hs by by eexists.
      apply (pk_all _ Hok) in Hs as [Hs|]; [|done]. by rewrite (pk_idle _ Hok id t Ht Hs) in Hh.
Qed.

(** C6: the proxy server is a switchboard.  From its start, clients connect,
    leave, and send requests, and backends send answers, in octets cut anywhere and
    interleaved in any order.  The requests have no body and no Upgrade, Expect or
    Connection header ([asks_ok]); the answers have no body and no Connection
    header, and a status line that can be parsed ([answer_ok]).  The connections
    are any senders that keep the contract of [SenderOk], as [Connection] does
    over a [calm] socket.  Then the program does, message by message, what the
    board does: the same octets have been handed to every connection (taken by its
    socket or queued), the same backends are idle, and it fails as the board
    fails: when no connection can be made, when an answer was not asked for, and
    when the asker has left. *)
Theorem proxy_server_is_a_switchboard ds dials evs acts :
  Forall2 dial_view ds dials -> says (fun _ => []) (fun _ => []) evs acts -> stays_small (now env) acts (new_Board ds) ->
  match board_run (now env) acts (new_Board ds) with
  | Ret b => exists r, relay_run env evs (new_Relay dials) = Ret r /\ as_on_board b r
  | Throw e => relay_run env evs (new_Relay dials) = Throw e
  | Undef u => relay_run env evs (new_Relay dials) = Undef u
  end.
Proof.
  intros Hd Hsays Hsm. pose proof (run_follows _ _ _ _ Hsays _ _ (new_relays ds dials Hd) Hsm) as Hf.
  destruct (board_run _ _ _) as [b|e|u]; [|done|done]. destruct Hf as (r & -> & pc & pb & Hr). exists r. split; [done|].
  by apply (relays_as_on_board pc pb).
Qed.

(** ** A pipeline *)

(** A client asks twice; two new backends get the requests, and the second one
    answers first. *)
Definition pipeline_acts (r1 r2 : request) (m1 m2 : Msg) : list act :=
  [Joins; Hears 0; Asks 0 r1; Asks 0 r2; HearsFrom 1; Answers 1 m2; HearsFrom 0; Answers 0 m1].

Definition pipeline_board (r1 r2 : request) (m1 m2 : Msg) : Board :=
  mk_Board [0%nat; 1%nat]
    (<[0%nat := mk_backend 1 (request_wire (now env 0) (as_received r1)) None]>
       (<[1%nat := mk_backend 1 (request_wire (now env 0) (as_received r2)) None]> ∅))
    {[0%nat := (2%nat, reply (now env 0) (as_answered m2) ++ reply (now env 1) (as_answered m1))]} {[0%nat]} [].

Lemma pipeline_run r1 r2 m1 m2 :
  starts_with (rq_path r1) (str "/") = true -> starts_with (rq_path r2) (str "/") = true ->
  board_run (now env) (pipeline_acts r1 r2 m1 m2) (new_Board [Dialled tt; Dialled tt]) = Ret (pipeline_board r1 r2 m1 m2).
Proof. intros H1 H2. unfold pipeline_acts. cbn [board_run board_step]. unfold board_ask. by rewrite H1, H2. Qed.

Lemma stays_small_step a acts b b' :
  small b -> board_step (now env) a b = Ret b' -> stays_small (now env) acts b' -> stays_small (now env) (a :: acts) b.
Proof. intros Hb Hs Hacts. split; [done|]. by rewrite Hs. Qed.

(** A board that is written out. *)
Ltac each_short Hx :=
  cbn [bd_backends bd_clients] in Hx;
  first [by rewrite lookup_empty in Hx
        |apply lookup_insert_Some in Hx as [[_ <-]|[_ Hx]]; [cbn [bk_wire bk_count snd fst app]; rewrite ?zlen_app, ?zlen_nil; assumption || lia|each_short Hx]].
Ltac by_small := split; intros ? ? Hx; each_short Hx.
Ltac board_move H := eapply stays_small_step; [by_small|cbn [board_step]; unfold board_ask; rewrite ?H; reflexivity|].

Lemma pipeline_small r1 r2 m1 m2 :
  starts_with (rq_path r1) (str "/") = true -> starts_with (rq_path r2) (str "/") = true ->
  zlen (request_wire (now env 0) (as_received r1)) < 2 ^ 60 -> zlen (request_wire (now env 0) (as_received r2)) < 2 ^ 60 ->
  zlen (reply (now env 0) (as_answered m2)) + zlen (reply (now env 1) (as_answered m1)) < 2 ^ 60 ->
  stays_small (now env) (pipeline_acts r1 r2 m1 m2) (new_Board [Dialled tt; Dialled tt]).
Proof.
  intros H1 H2 Hz1 Hz2 Hz. unfold pipeline_acts, new_Board. pose proof (zlen_nonneg (reply (now env 1) (as_answered m1))).
  board_move H1. board_move H1. board_move H1. board_move H2. board_move H1. board_move H1. board_move H1. board_move H1. split; [by_small|done].
Qed.

Lemma cut_now ms :
  ms <> [] -> Forall message_ok ms -> octets (concat (map render ms)) -> zlen (concat (map render ms)) < 2 ^ 60 ->
  cut [] (concat (map render ms)) ms [].
Proof.
  intros Hne Hms Ho Hz. destruct ms as [|m ms]; [done|]. apply Forall_cons in Hms as [Hm _]. split; [done|done| |by rewrite app_nil_r].
  exists m, (render m). split; [done|]. split; [done|]. unfold render. destruct (m_first m); [|done]. by unfold CRLF.
Qed.

Lemma cut_answer m : answer_ok m -> octets (render m) /\ zlen (render m) < 2 ^ 60 -> cut [] (render m) [m] [].
Proof.
  intros Hm [Ho Hz]. pose proof (cut_now [m]) as Hc. cbn [map concat] in Hc. rewrite app_nil_r in Hc.
  apply Hc; try done. by apply Forall_singleton, nk_message.
Qed.

(** C39: answers overtake each other.  A client that asks for [r1] and then, in
    the same read, for [r2], has the requests passed on to two backends; when the
    second answers first, the client is sent the answer to [r2] first, and has
    no way to tell. *)
Theorem pipelined_answers_overtake (c c0 c1 : C) r1 r2 m1 m2 :
  Forall (fun c => sender_ok c /\ sent c = []) [c; c0; c1] -> Forall asks_ok [r1; r2] -> Forall answer_ok [m1; m2] ->
  Forall (fun r => starts_with (rq_path r) (str "/") = true) [r1; r2] ->
  Forall (fun d => octets d /\ zlen d < 2 ^ 60) [concat (map render (map wire_message [r1; r2])); render m1; render m2] ->
  Forall (fun d => zlen d < 2 ^ 60)
    [request_wire (now env 0) (as_received r1); request_wire (now env 0) (as_received r2);
     reply (now env 0) (as_answered m2) ++ reply (now env 1) (as_answered m1)] ->
  let evs := [Connects c; ClientSends 0 (concat (map render (map wire_message [r1; r2])));
              BackendSends 1 (render m2); BackendSends 0 (render m1)] in
  exists r, relay_run env evs (new_Relay [Dialled c0; Dialled c1]) = Ret r /\
    (fun w => sent (conn w)) <$> streams (rl_proxy r) !! 0%nat = Some (reply (now env 0) (as_answered m2) ++ reply (now env 1) (as_answered m1)) /\
    (fun t => sent (ct_conn t)) <$> transports (rl_proxy r) !! 0%nat = Some (request_wire (now env 0) (as_received r1)) /\
    (fun t => sent (ct_conn t)) <$> transports (rl_proxy r) !! 1%nat = Some (request_wire (now env 0) (as_received r2)).
Proof.
  intros Hcs Hrs Hms Hps Hsz Hws evs. rewrite !Forall_cons in Hcs. rewrite !Forall_cons in Hms.
  rewrite !Forall_cons in Hps. rewrite !Forall_cons in Hsz. rewrite !Forall_cons in Hws.
  destruct Hcs as ([Hc Hs] & [Hc0 Hs0] & [Hc1 Hs1] & _), Hms as (Hm1 & Hm2 & _), Hps as (Hp1 & Hp2 & _).
  destruct Hsz as ([Ho Hz] & Ho1 & Ho2 & _), Hws as (Hw1 & Hw2 & Hw & _). rewrite zlen_app in Hw.
  assert (says (fun _ => []) (fun _ => []) evs (pipeline_acts r1 r2 m1 m2)) as Hsays.
  { apply says_connects; [done|done|]. apply (says_client _ _ 0 _ [r1; r2] []); [done| |].
    { apply cut_now; [done| |done|done]. by apply wire_messages. }
    apply (says_backend _ _ 1 _ [m2] []); [by apply Forall_singleton|by apply cut_answer|].
    apply (says_backend _ _ 0 _ [m1] []); [by apply Forall_singleton|by apply cut_answer|constructor]. }
  pose proof (run_follows _ _ _ _ Hsays _ _ (new_relays [Dialled tt; Dialled tt] [Dialled c0; Dialled c1] ltac:(repeat constructor; by eexists))
                (pipeline_small r1 r2 m1 m2 Hp1 Hp2 Hw1 Hw2 Hw)) as Hf.
  rewrite (pipeline_run r1 r2 m1 m2 Hp1 Hp2) in Hf. destruct Hf as (r & -> & pc & pb & Hr). apply relays_as_on_board in Hr as [Hcl Hbk _ _].
  exists r. split; [done|]. split; [|split].
  - specialize (Hcl 0%nat). unfold pipeline_board in Hcl. cbn [bd_clients] in Hcl. rewrite lookup_singleton_eq in Hcl.
    destruct (streams (rl_proxy r) !! 0%nat) as [w|]; [|done]. cbn [fmap option_fmap option_map] in *. by injection Hcl as _ <-.
  - rewrite <- Hbk. done.
  - rewrite <- Hbk. done.
Qed.

End follows.

(** ** At work *)

#[export] Instance small_dec b : Decision (small b).
Proof. unfold small. apply _. Defined.

#[export] Instance stays_small_dec `{Multimap} dates acts b : Decision (stays_small dates acts b).
Proof.
  revert b. induction acts as [|a acts IH]; intros b; cbn [stays_small]; [apply _|].
  destruct (board_step dates a b); apply _.
Defined.

Lemma get_hello_asks : asks_ok get_hello.
Proof.
  split.
  - split; [..|split|]; apply (bool_decide_unpack _); vm_compute; exact I.
  - split; [|unfold headers_octets|split]; try (apply (bool_decide_unpack _); vm_compute; exact I); vm_compute; reflexivity.
Qed.

(** The answer of [example_answer], and another one. *)
Definition found_answer : Msg := mk_message (str "HTTP/1.1 200 OK") [(str "X", str "z")].

Lemma example_answers_ok : answer_ok (example_answer "X" "y") /\ answer_ok found_answer.
Proof.
  split; (split;
    [split; apply (bool_decide_unpack _); vm_compute; exact I|vm_compute; reflexivity|eexists; vm_compute; reflexivity
    |split; [vm_compute; split; congruence|apply (bool_decide_unpack _); vm_compute; exact I|split; [constructor|vm_compute; reflexivity]]
    |vm_compute; reflexivity]).
Qed.

Definition hello_octets : list Z := render (wire_message get_hello).

(** Client 0 is in the middle of its request when client 1 asks; backend 0 works
    for client 1, backend 1 for client 0, and backend 1 is the first to answer. *)
Definition crossed_events : list (relay_event Endpoint) :=
  [Connects fresh_endpoint; Connects fresh_endpoint; ClientSends 0 (take 10 hello_octets); ClientSends 1 hello_octets;
   ClientSends 0 (drop 10 hello_octets); BackendSends 0 (take 9 (render found_answer));
   BackendSends 1 (render (example_answer "X" "y")); BackendSends 0 (drop 9 (render found_answer))].

Definition crossed_acts : list act :=
  [Joins; Joins; Hears 0; Hears 1; Asks 1 get_hello; Hears 0; Asks 0 get_hello; HearsFrom 0;
   HearsFrom 1; Answers 1 (example_answer "X" "y"); HearsFrom 0; Answers 0 found_answer].

Lemma cut_evaluated pre d ms post m rest :
  octets d -> zlen (pre ++ d) < 2 ^ 60 -> message_ok m -> render m = post ++ rest -> rest <> [] ->
  pre ++ d = concat (map render ms) ++ post -> cut pre d ms post.
Proof. intros. split; try done. by exists m, rest. Qed.

Ltac by_cut m rest :=
  apply (cut_evaluated _ _ _ _ m rest);
  [apply (bool_decide_unpack _); vm_compute; exact I|vm_compute; reflexivity|apply get_hello_asks || apply example_answers_ok
  |vm_compute; reflexivity|vm_compute; congruence|vm_compute; reflexivity].

Lemma crossed_says : says (fun _ => []) (fun _ => []) crossed_events crossed_acts.
Proof.
  pose proof get_hello_asks as Hr. pose proof example_answers_ok as [Hm1 Hm2].
  assert (sender_ok fresh_endpoint /\ sent fresh_endpoint = []) as [Hc Hs] by (split; [apply empty_ok|done]).
  apply says_connects; [done|done|]. apply says_connects; [done|done|].
  apply (says_client _ _ 0 _ [] (take 10 hello_octets)); [constructor|by_cut (wire_message get_hello) (drop 10 hello_octets)|].
  apply (says_client _ _ 1 _ [get_hello] []); [by apply Forall_singleton|by_cut (wire_message get_hello) hello_octets|].
  apply (says_client _ _ 0 _ [get_hello] []); [by apply Forall_singleton|by_cut (wire_message get_hello) hello_octets|].
  apply (says_backend _ _ 0 _ [] (take 9 (render found_answer))); [constructor|by_cut found_answer (drop 9 (render found_answer))|].
  apply (says_backend _ _ 1 _ [example_answer "X" "y"] []); [by apply Forall_singleton|by_cut found_answer (render found_answer)|].
  apply (says_backend _ _ 0 _ [found_answer] []); [by apply Forall_singleton|by_cut found_answer (render found_answer)|]. constructor.
Qed.

Lemma hello_dates n : octets (now hello_env n).
Proof. apply (bool_decide_unpack _). vm_compute. exact I. Qed.

Lemma only_sent (o : option (World Endpoint)) n x :
  (fun w => (messages_sent w, sent (conn w))) <$> o = Some (n, x) -> (fun w => sent (conn w)) <$> o = Some x.
Proof. destruct o; [|done]. by intros [= _ <-]. Qed.

Lemma proxy_server_is_a_switchboard_witness :
  exists r, relay_run hello_env crossed_events (new_Relay [Dialled fresh_endpoint; Dialled fresh_endpoint]) = Ret r /\
    (fun w => sent (conn w)) <$> streams (rl_proxy r) !! 0%nat = Some (reply example_date (as_answered (example_answer "X" "y"))) /\
    (fun w => sent (conn w)) <$> streams (rl_proxy r) !! 1%nat = Some (reply example_date (as_answered found_answer)).
Proof.
  assert (match board_run (now hello_env) crossed_acts (new_Board [Dialled tt; Dialled tt]) with
          | Ret b => bd_clients b !! 0%nat = Some (1%nat, reply example_date (as_answered (example_answer "X" "y"))) /\
                     bd_clients b !! 1%nat = Some (1%nat, reply example_date (as_answered found_answer))
          | _ => False end) as Hb by (vm_compute; split; reflexivity).
  assert (Forall2 dial_view [Dialled tt; Dialled tt] [Dialled fresh_endpoint; Dialled fresh_endpoint]) as Hd.
  { repeat constructor; exists fresh_endpoint; (split; [done|split; [apply empty_ok|done]]). }
  pose proof (proxy_server_is_a_switchboard hello_env raw0_ok hello_dates [Dialled tt; Dialled tt] _ _ _ Hd crossed_says) as Hrun.
  specialize (Hrun ltac:(apply (bool_decide_unpack _); vm_compute; exact I)).
  destruct (board_run _ _ _) as [b|e|u]; [|destruct Hb..]. destruct Hrun as (r & Hrun & [Hcl _ _ _]), Hb as [H0 H1].
  exists r. split; [exact Hrun|]. rewrite Hcl in H0, H1. split; [exact (only_sent _ _ _ H0)|exact (only_sent _ _ _ H1)].
Defined.

Lemma pipelined_answers_overtake_witness :
  exists r, relay_run hello_env
      [Connects fresh_endpoint; ClientSends 0 (concat (map render (map wire_message [get_hello; get_hello])));
       BackendSends 1 (render found_answer); BackendSends 0 (render (example_answer "X" "y"))]
      (new_Relay [Dialled fresh_endpoint; Dialled fresh_endpoint]) = Ret r /\
    (fun w => sent (conn w)) <$> streams (rl_proxy r) !! 0%nat
    = Some (reply example_date (as_answered found_answer) ++ reply example_date (as_answered (example_answer "X" "y"))).
Proof.
  pose proof get_hello_asks as Hr. pose proof example_answers_ok as [Hm1 Hm2].
  assert (sender_ok fresh_endpoint /\ sent fresh_endpoint = []) as Hc by (split; [apply empty_ok|done]).
  destruct (pipelined_answers_overtake hello_env raw0_ok hello_dates fresh_endpoint fresh_endpoint fresh_endpoint
              get_hello get_hello (example_answer "X" "y") found_answer) as (r & Hrun & Hsent & _).
  - by do 3 (apply Forall_cons_2; [exact Hc|]).
  - by do 2 (apply Forall_cons_2; [exact Hr|]).
  - by apply Forall_cons_2; [|apply Forall_singleton].
  - apply (bool_decide_unpack _). vm_compute. exact I.
  - apply (bool_decide_unpack _). vm_compute. exact I.
  - apply (bool_decide_unpack _). vm_compute. exact I.
  - exists r. split; [exact Hrun|exact Hsent].
Defined.
