(* ===== verification/PrintServer.v ===== *)
(** The server of [PrintRequestServer.cpp], which prints every request. *)
From stdpp Require Import gmap.
From S2P Require Import Prelude StreamBuf Sender Headers Routes Http2 Http2Spec Http2Correct Http1 Http1Transport Http1Spec Http1Server ServerCorrect Http1Handlers.

Section printing.
Context {C : Type} `{Sender C} `{Multimap} (env : Env C).

(** What [std::cout] is given, in pieces. *)
Definition print_header (e : header) : list Z := fst e ++ str ": " ++ snd e ++ [NL].

Definition print_text (request : Request) : list Z :=
  method_ request ++ str " " ++ path_ request ++ [NL] ++
  concat (map print_header (kv_ (headers_ (message_ request)))) ++ [NL] ++
  (if bool_decide (body_ (message_ request) = []) then [] else body_ (message_ request) ++ [NL]).

Definition emptyResponse : Response := make_Response 200 [].

(** [cout], and the transport's world. *)
Abbreviation printer := (list Z * World C)%type.

Definition printRequest (request : Request) (x : printer) : outcome printer :=
  let cout := fst x ++ print_text request in
  w ← server_sendResponse env emptyResponse (snd x);
  Ret (cout, w).

(** [Server::dispatch], with the route that [main] adds. *)
Definition print_dispatch (request : Request) (x : printer) : outcome printer :=
  if starts_with (path_ request) (str "/") then printRequest request x else Ret x.

Definition print_owner : Owner printer := transport_owner env (fun x => Ret (snd x)) (fun w x => (fst x, w)) print_dispatch.

End printing.

Section printed.
Context `{HM : Multimap} `{!MultimapOk} {C : Type} `{HS : SenderOk C} (env : Env C).
Context (Hraw : raw_ok (raw env)) (Hdates : forall n, octets (now env n)).

Record prints (r : request) : Prop := mk_prints { pr_ok : request_ok r; pr_path : starts_with (rq_path r) (str "/") = true }.

Lemma emptyResponse_ok : response_ok emptyResponse.
Proof. split; [cbn; lia|constructor|]. split; [constructor|vm_compute; reflexivity]. Qed.

Lemma print_one r cout (w : World C) :
  prints r -> upgraded w = None -> sender_ok (conn w) ->
  zlen (sent (conn w)) + zlen (reply (now env (messages_sent w)) emptyResponse) < 2 ^ 60 ->
  exists c, serve_one (H := print_owner env) (wire_message r) (cout, w)
    = Ret (cout ++ print_text (as_received r), mk_World c None (S (messages_sent w))) /\ sender_ok c /\
    sent c = sent (conn w) ++ reply (now env (messages_sent w)) emptyResponse.
Proof.
  intros [Hr Hp] Hu Hc Hsz. unfold print_owner. rewrite (serve_one_dispatches env _ _ _ r (cout, w) w) by done.
  unfold print_dispatch. change (path_ (as_received r)) with (rq_path r). rewrite Hp. unfold printRequest. cbn [fst snd].
  destruct (server_sendResponse_ok env Hraw Hdates emptyResponse w emptyResponse_ok Hc Hsz) as (c & -> & Hc' & Hs).
  cbn [mbind outcome_bind]. rewrite Hu. by exists c.
Qed.

Lemma print_all rs : forall cout (w : World C),
  Forall prints rs -> upgraded w = None -> sender_ok (conn w) ->
  zlen (sent (conn w)) + zlen (replies (now env) (messages_sent w) (repeat emptyResponse (length rs))) < 2 ^ 60 ->
  exists c, serve (H := print_owner env) (map wire_message rs) (cout, w)
    = Ret (true, (cout ++ concat (map (fun r => print_text (as_received r)) rs), mk_World c None (messages_sent w + length rs))) /\
    sent c = sent (conn w) ++ replies (now env) (messages_sent w) (repeat emptyResponse (length rs)).
Proof.
  induction rs as [|r rs IH]; intros cout w Hrs Hu Hc Hsz; cbn [map serve concat length repeat replies] in *.
  - exists (conn w). rewrite !app_nil_r, Nat.add_0_r. split; [|done]. by destruct w; cbn in *; subst.
  - apply Forall_cons in Hrs as [Hr Hrs]. rewrite zlen_app in Hsz.
    pose proof (zlen_nonneg (replies (now env) (S (messages_sent w)) (repeat emptyResponse (length rs)))).
    destruct (print_one r cout w Hr Hu Hc) as (c1 & -> & Hc1 & Hs1); [lia|]. cbn [mbind outcome_bind].
    unfold print_owner at 1. rewrite (transport_stays env _ _ _ _ (mk_World c1 None (S (messages_sent w)))) by done.
    destruct (IH (cout ++ print_text (as_received r)) (mk_World c1 None (S (messages_sent w)))) as (c & Hserve & Hs); try done.
    { cbn [conn messages_sent]. rewrite Hs1, zlen_app. lia. }
    exists c. cbn [conn messages_sent] in *. rewrite Hserve, Hs, Hs1, <- !(assoc_L (++)), Nat.add_succ_r. done.
Qed.

(** Requests without bodies are printed in order and once each, however their
    octets are cut, and each is answered with an empty response. *)
Theorem print_server_prints rs chunks cout (w : World C) :
  Forall prints rs -> upgraded w = None -> sender_ok (conn w) ->
  zlen (sent (conn w)) + zlen (replies (now env) (messages_sent w) (repeat emptyResponse (length rs))) < 2 ^ 60 ->
  Forall (Forall octet) chunks -> zlen (concat chunks) < 2 ^ 60 ->
  concat chunks = concat (map render (map wire_message rs)) ->
  exists c buf, feed (H := print_owner env) new_Transport (cout, w) empty_StreamBuf chunks
    = Ret (new_Transport, (cout ++ concat (map (fun r => print_text (as_received r)) rs), mk_World c None (messages_sent w + length rs)), buf) /\
    content buf = [] /\ sent c = sent (conn w) ++ replies (now env) (messages_sent w) (repeat emptyResponse (length rs)).
Proof.
  intros Hrs Hu Hc Hsz Hoct Hlen Heq. destruct (print_all rs cout w Hrs Hu Hc Hsz) as (c & Hserve & Hs).
  pose proof (feed_messages (HO := print_owner env) (map wire_message rs) chunks (cout, w)) as Hf. rewrite Hserve in Hf.
  destruct Hf as (buf & Hf & Hcn); try done.
  - apply Forall_map. eapply Forall_impl; [exact Hrs|]. intros r [Hr _]. apply Hr.
  - apply Forall_map. eapply Forall_impl; [exact Hrs|]. intros r [Hr _]. by apply request_no_body.
  - by apply (transport_stays env _ _ _ _ w).
  - by exists c, buf.
Qed.

End printed.

(** ** At work *)

Lemma get_hello_prints : prints get_hello.
Proof. split; [apply get_hello_ok|vm_compute; reflexivity]. Qed.

Example get_hello_printed :
  exists c buf, let wire := render (wire_message get_hello) in
    feed (H := print_owner hello_env) new_Transport ([], mk_World fresh_endpoint None 0) empty_StreamBuf [take 7 wire; drop 7 wire]
    = Ret (new_Transport, (str "GET /hello" ++ [NL] ++ str "host: example.org" ++ [NL; NL], mk_World c None 1), buf).
Proof.
  destruct (print_server_prints hello_env raw0_ok) with (rs := [get_hello]) (cout := @nil Z) (w := mk_World fresh_endpoint None 0)
    (chunks := [take 7 (render (wire_message get_hello)); drop 7 (render (wire_message get_hello))]) as (c & buf & Hf & _).
  - intros n. apply (bool_decide_unpack _). vm_compute. exact I.
  - apply Forall_singleton, get_hello_prints.
  - done.
  - split; [vm_compute; split; congruence|constructor].
  - vm_compute. reflexivity.
  - apply (bool_decide_unpack _). vm_compute. exact I.
  - vm_compute. reflexivity.
  - vm_compute. reflexivity.
  - exists c, buf. exact Hf.
Qed.
